(** * Price resolution and inventory position engine

    A shallow embedding of [src/services/pricingService.ts] and
    [src/services/inventoryService.ts].

    Conventions of the embedding:
    - every [async] method runs to completion without interleaving, so a
      method is a function from the store (and its arguments) to the new
      store and the returned value; a thrown [Error] is the [Throw] result;
    - a TypeScript [string] is a [string]; an optional field [f?: T] is an
      [option T]; a [number] that is only stored and copied (a price) is a
      binary64 [float]; the quantities of the inventory ledger are kept
      generic in a [Number] interface with two instances, exact integers and
      binary64 floats;
    - a reading of the clock ([new Date()]) and a freshly generated id are
      arguments of the function that needs them. *)

From Stdlib Require Import ZArith String Ascii List Bool Lia PrimFloat.
From Stdlib Require Import Sorting.Sorted Sorting.Permutation.
From stdpp Require Import gmap strings.
Import ListNotations.

Open Scope Z_scope.

(** ** JavaScript values *)

Module JS.

(** Truthiness of a string: only the empty string is falsy. *)
Definition truthy (s : string) : bool := negb (String.eqb s "").

(** Truthiness of an optional string: [undefined] is falsy as well. *)
Definition truthy_opt (o : option string) : bool :=
  match o with
  | Some s => truthy s
  | None => false
  end.

(** [o || d] where [o] is an optional string. *)
Definition or_else (o : option string) (d : string) : string :=
  match o with
  | Some s => if truthy s then s else d
  | None => d
  end.

(** [a <= b] and [a < b] on strings compare code units from the left. *)
Definition le (a b : string) : bool := String.leb a b.
Definition lt (a b : string) : bool := String.ltb a b.

(** [a.localeCompare(b)].  The service calls it on dates only.  On two
    strings of the form [YYYY-MM-DD] every collation of the host orders as
    the code units do, and that is the order computed here; on other text
    the host may order differently, so the statements that depend on the
    order take the form of the dates as a premise ([Rules.isoDate]). *)
Definition localeCompare (a b : string) : comparison := String.compare a b.

(** [o !== e] where [e] may be [undefined] and [o] is a string. *)
Definition neq_opt (o : string) (e : option string) : bool :=
  match e with
  | Some s => negb (String.eqb o s)
  | None => true
  end.

(** [Array.prototype.sort(cmp)]: the sort is stable, an element goes
    behind another one only when the comparator is positive. *)
Section Sort.
Context {T : Type} (cmp : T -> T -> comparison).

Fixpoint insert (x : T) (l : list T) : list T :=
  match l with
  | [] => [x]
  | y :: l' =>
      match cmp x y with
      | Gt => y :: insert x l'
      | _ => x :: l
      end
  end.

Definition sort (l : list T) : list T := fold_right insert [] l.

(** The comparator does not put [b] before [a]. *)
Definition inOrder (a b : T) : Prop := cmp a b <> Gt.
End Sort.

(** [a <= b] as a proposition. *)
Definition str_le (a b : string) : Prop := String.compare a b <> Gt.

End JS.

(** ** The collection store *)

Class Keyed (T : Type) := key : T -> string.

Module Collection.
Section Ops.
Context {T : Type} `{Keyed T}.

(** Modelled from the spec: the storage module ([../storage]) is not part
    of the sources.  Section 6 of the specification gives its contract: a
    keyed record store with [getAll], [getById], [query(predicate)],
    [create], [update(id, record)] and [delete(id)].  A collection is the
    list of its records in insertion order, and [getAll] returns it. *)
Definition getAll (c : list T) : list T := c.

(** Modelled from the spec: [getById(id): Promise<T|undefined>], the
    record stored under the key [id]. *)
Definition getById (c : list T) (id : string) : option T :=
  List.find (fun r => String.eqb (key r) id) c.

(** Modelled from the spec: [query(predicate): Promise<T[]>], the records
    that satisfy the predicate. *)
Definition query (c : list T) (p : T -> bool) : list T := List.filter p c.

(** Modelled from the spec: [create(record): Promise<T>] adds a record. *)
Definition create (c : list T) (r : T) : list T := c ++ [r].

Definition replace (id : string) (r : T) (x : T) : T :=
  if String.eqb (key x) id then r else x.

(** Modelled from the spec: [update(id, record): Promise<T|undefined>]
    puts [record] in the place of the record stored under [id] and
    returns it, or returns [undefined] when there is none. *)
Definition update (c : list T) (id : string) (r : T) : list T * option T :=
  match getById c id with
  | Some _ => (List.map (replace id r) c, Some r)
  | None => (c, None)
  end.

(** Modelled from the spec: [delete(id): Promise<bool>] removes the record
    stored under [id] and tells whether there was one. *)
Definition delete (c : list T) (id : string) : list T * bool :=
  match getById c id with
  | Some _ => (List.filter (fun x => negb (String.eqb (key x) id)) c, true)
  | None => (c, false)
  end.
End Ops.
End Collection.

(** ** Shared enumerations *)

Inductive PricingDirection := buy | sell.

Definition direction_eqb (a b : PricingDirection) : bool :=
  match a, b with
  | buy, buy | sell, sell => true
  | _, _ => false
  end.

(** [Unit = WeightUnit | QuantityUnit]; the casts [as WeightUnit] of the
    services do nothing at run time. *)
Inductive Unit := LB | MT | GT | NT | KG | TON | EA.

Inductive Currency := USD | EUR | GBP | CAD.

(** The result of a method that can throw. *)
Inductive Result (A : Type) :=
| Ok (a : A)
| Throw (message : string).
Arguments Ok {A} a.
Arguments Throw {A} message.

(** ** Records of the pricing model ([types/pricing.ts]) *)

Module PricingGroup.
Record t := mk {
  id : string;
  name : string;
  direction : PricingDirection;
  description : option string;
  isDefault : bool;
  isActive : bool;
  createdBy : string;
  createdAt : string;
  updatedAt : string
}.

(** [Omit<PricingGroup, 'id' | 'createdAt' | 'updatedAt' | 'createdBy'>] *)
Record data := mkData {
  d_name : string;
  d_direction : PricingDirection;
  d_description : option string;
  d_isDefault : bool;
  d_isActive : bool
}.

(** [Partial<PricingGroup>]: [None] is a key that is not supplied. *)
Record partial := mkPartial {
  p_id : option string;
  p_name : option string;
  p_direction : option PricingDirection;
  p_description : option (option string);
  p_isDefault : option bool;
  p_isActive : option bool;
  p_createdBy : option string;
  p_createdAt : option string;
  p_updatedAt : option string
}.

(** [{ ...existing, ...data }] *)
Definition spread (existing : t) (p : partial) : t :=
  mk (default (id existing) (p_id p))
     (default (name existing) (p_name p))
     (default (direction existing) (p_direction p))
     (default (description existing) (p_description p))
     (default (isDefault existing) (p_isDefault p))
     (default (isActive existing) (p_isActive p))
     (default (createdBy existing) (p_createdBy p))
     (default (createdAt existing) (p_createdAt p))
     (default (updatedAt existing) (p_updatedAt p)).

Definition with_id (i : string) (g : t) : t :=
  mk i (name g) (direction g) (description g) (isDefault g) (isActive g)
     (createdBy g) (createdAt g) (updatedAt g).

Definition with_isDefault (b : bool) (g : t) : t :=
  mk (id g) (name g) (direction g) (description g) b (isActive g)
     (createdBy g) (createdAt g) (updatedAt g).

Definition with_updatedAt (u : string) (g : t) : t :=
  mk (id g) (name g) (direction g) (description g) (isDefault g) (isActive g)
     (createdBy g) (createdAt g) u.
End PricingGroup.

Module PriceList.
Record t := mk {
  id : string;
  pricingGroupId : string;
  name : string;
  effectiveDate : string;
  expirationDate : option string;
  notes : option string;
  isActive : bool;
  createdBy : string;
  createdAt : string;
  updatedAt : string
}.
End PriceList.

Module NewPriceListItem.
Record t := mk {
  id : string;
  priceListId : string;
  commodityId : string;
  price : float;
  unit : Unit;
  currency : Currency;
  notes : option string;
  createdBy : string;
  createdAt : string;
  updatedAt : string
}.

(** [Omit<NewPriceListItem, 'id' | 'createdAt' | 'updatedAt' | 'createdBy'>] *)
Record data := mkData {
  d_priceListId : string;
  d_commodityId : string;
  d_price : float;
  d_unit : Unit;
  d_currency : Currency;
  d_notes : option string
}.
End NewPriceListItem.

(** Of an account and of a commodity the services read the fields below. *)
Module Account.
Record t := mk {
  id : string;
  name : string;
  buyPricingGroupId : option string;
  sellPricingGroupId : option string
}.
End Account.

Module Commodity.
Record t := mk {
  id : string;
  name : string;
  code : string;
  defaultUnit : Unit;
  isActive : bool
}.
End Commodity.

Module CommodityPrice.
Record t := mk {
  commodityId : string;
  commodityName : string;
  commodityCode : string;
  price : float;
  unit : Unit;
  currency : Currency;
  priceListId : string;
  priceListName : string;
  pricingGroupId : string;
  pricingGroupName : string;
  effectiveDate : string;
  expirationDate : option string
}.
End CommodityPrice.

#[export] Instance PricingGroup_keyed : Keyed PricingGroup.t := PricingGroup.id.
#[export] Instance PriceList_keyed : Keyed PriceList.t := PriceList.id.
#[export] Instance NewPriceListItem_keyed : Keyed NewPriceListItem.t :=
  NewPriceListItem.id.
#[export] Instance Account_keyed : Keyed Account.t := Account.id.
#[export] Instance Commodity_keyed : Keyed Commodity.t := Commodity.id.

(** What a method takes from its environment: the id the schema module
    generates, the clock and the signed-in user. *)
Record Env := mkEnv {
  freshId : string;
  now : string;
  currentUser : string
}.

(** ** The pricing service ([services/pricingService.ts]) *)

Module Pricing.

Record Store := mkStore {
  pricingGroups : list PricingGroup.t;
  priceLists : list PriceList.t;
  priceListItems : list NewPriceListItem.t;
  accounts : list Account.t;
  commodities : list Commodity.t
}.

Definition with_pricingGroups (gs : list PricingGroup.t) (st : Store) : Store :=
  mkStore gs (priceLists st) (priceListItems st) (accounts st) (commodities st).

Definition with_priceListItems (its : list NewPriceListItem.t) (st : Store)
  : Store :=
  mkStore (pricingGroups st) (priceLists st) its (accounts st) (commodities st).

(** Modelled from the spec: [createPricingGroup] of the schema module, which
    is not part of the sources, completes the supplied data with a fresh id
    and the audit fields. *)
Definition schema_createPricingGroup (env : Env) (d : PricingGroup.data)
  : PricingGroup.t :=
  PricingGroup.mk (freshId env) (PricingGroup.d_name d)
    (PricingGroup.d_direction d) (PricingGroup.d_description d)
    (PricingGroup.d_isDefault d) (PricingGroup.d_isActive d)
    (currentUser env) (now env) (now env).

(** Modelled from the spec: [createNewPriceListItem] of the schema module,
    which is not part of the sources, completes the supplied data with a
    fresh id and the audit fields. *)
Definition schema_createNewPriceListItem (env : Env)
    (d : NewPriceListItem.data) : NewPriceListItem.t :=
  NewPriceListItem.mk (freshId env) (NewPriceListItem.d_priceListId d)
    (NewPriceListItem.d_commodityId d) (NewPriceListItem.d_price d)
    (NewPriceListItem.d_unit d) (NewPriceListItem.d_currency d)
    (NewPriceListItem.d_notes d) (currentUser env) (now env) (now env).

(** *** Pricing groups *)

Definition is_default_for (direction : PricingDirection) (g : PricingGroup.t)
  : bool :=
  direction_eqb (PricingGroup.direction g) direction
  && Bool.eqb (PricingGroup.isDefault g) true.

Definition getDefaultPricingGroup (st : Store) (direction : PricingDirection)
  : option PricingGroup.t :=
  let groups := Collection.query (pricingGroups st) (is_default_for direction) in
  List.head groups.

Definition clearDefaultForDirection (now : string) (st : Store)
    (direction : PricingDirection) : Store :=
  let defaultGroups :=
    Collection.query (pricingGroups st) (is_default_for direction) in
  List.fold_left
    (fun st group =>
       with_pricingGroups
         (fst (Collection.update (pricingGroups st) (PricingGroup.id group)
                 (PricingGroup.with_updatedAt now
                    (PricingGroup.with_isDefault false group))))
         st)
    defaultGroups st.

Definition createPricingGroup (env : Env) (st : Store)
    (data : PricingGroup.data) : Store * PricingGroup.t :=
  let st1 :=
    if PricingGroup.d_isDefault data
    then clearDefaultForDirection (now env) st (PricingGroup.d_direction data)
    else st in
  let newGroup := schema_createPricingGroup env data in
  (with_pricingGroups (Collection.create (pricingGroups st1) newGroup) st1,
   newGroup).

Definition updatePricingGroup (now : string) (st : Store) (id : string)
    (data : PricingGroup.partial) : Store * option PricingGroup.t :=
  match Collection.getById (pricingGroups st) id with
  | None => (st, None)
  | Some existing =>
      let st1 :=
        if default false (PricingGroup.p_isDefault data)
           && negb (PricingGroup.isDefault existing)
        then clearDefaultForDirection now st (PricingGroup.direction existing)
        else st in
      let updated :=
        PricingGroup.with_updatedAt now
          (PricingGroup.with_id id (PricingGroup.spread existing data)) in
      let '(groups, r) := Collection.update (pricingGroups st1) id updated in
      (with_pricingGroups groups st1, r)
  end.

Definition setAsDefault (now : string) (st : Store) (id : string)
  : Store * option PricingGroup.t :=
  match Collection.getById (pricingGroups st) id with
  | None => (st, None)
  | Some group =>
      let st1 := clearDefaultForDirection now st (PricingGroup.direction group) in
      updatePricingGroup now st1 id
        (PricingGroup.mkPartial None None None None (Some true) None None None None)
  end.

(** *** Price lists *)

Definition getActivePriceListsForDate (st : Store) (pricingGroupId date : string)
  : list PriceList.t :=
  let priceLists :=
    Collection.query (priceLists st)
      (fun pl =>
         String.eqb (PriceList.pricingGroupId pl) pricingGroupId
         && Bool.eqb (PriceList.isActive pl) true) in
  List.filter
    (fun pl =>
       let isEffective := JS.le (PriceList.effectiveDate pl) date in
       let isNotExpired :=
         negb (JS.truthy_opt (PriceList.expirationDate pl))
         || match PriceList.expirationDate pl with
            | Some e => JS.lt date e
            | None => false
            end in
       isEffective && isNotExpired)
    priceLists.

(** *** Validation *)

Definition datesOverlap (start1 : string) (end1 : option string)
    (start2 : string) (end2 : option string) : bool :=
  let effectiveEnd1 := JS.or_else end1 "9999-12-31" in
  let effectiveEnd2 := JS.or_else end2 "9999-12-31" in
  JS.le start1 effectiveEnd2 && JS.le start2 effectiveEnd1.

Record Validation := mkValidation {
  valid : bool;
  conflictingPriceList : option PriceList.t
}.

(** The loop over [allListsInGroup]: the first list that overlaps and holds
    the commodity ends it. *)
Fixpoint scanOtherLists (st : Store) (priceList : PriceList.t)
    (priceListId commodityId : string) (excludeItemId : option string)
    (lists : list PriceList.t) : option PriceList.t :=
  match lists with
  | [] => None
  | otherList :: rest =>
      if String.eqb (PriceList.id otherList) priceListId
      then scanOtherLists st priceList priceListId commodityId excludeItemId rest
      else
        let hasOverlap :=
          datesOverlap (PriceList.effectiveDate priceList)
            (PriceList.expirationDate priceList)
            (PriceList.effectiveDate otherList)
            (PriceList.expirationDate otherList) in
        if hasOverlap
        then
          let items :=
            Collection.query (priceListItems st)
              (fun item =>
                 String.eqb (NewPriceListItem.priceListId item)
                   (PriceList.id otherList)) in
          let conflictingItem :=
            List.find
              (fun item =>
                 String.eqb (NewPriceListItem.commodityId item) commodityId
                 && JS.neq_opt (NewPriceListItem.id item) excludeItemId)
              items in
          match conflictingItem with
          | Some _ => Some otherList
          | None =>
              scanOtherLists st priceList priceListId commodityId
                excludeItemId rest
          end
        else
          scanOtherLists st priceList priceListId commodityId excludeItemId rest
  end.

Definition validateCommodityUniqueness (st : Store)
    (priceListId commodityId : string) (excludeItemId : option string)
  : Validation :=
  match Collection.getById (priceLists st) priceListId with
  | None => mkValidation false None
  | Some priceList =>
      let allListsInGroup :=
        Collection.query (priceLists st)
          (fun pl =>
             String.eqb (PriceList.pricingGroupId pl)
               (PriceList.pricingGroupId priceList)) in
      match scanOtherLists st priceList priceListId commodityId excludeItemId
              allListsInGroup with
      | Some otherList => mkValidation false (Some otherList)
      | None =>
          let currentItems :=
            Collection.query (priceListItems st)
              (fun item =>
                 String.eqb (NewPriceListItem.priceListId item) priceListId
                 && String.eqb (NewPriceListItem.commodityId item) commodityId) in
          let conflictInCurrent :=
            List.find
              (fun item => JS.neq_opt (NewPriceListItem.id item) excludeItemId)
              currentItems in
          match conflictInCurrent with
          | Some _ => mkValidation false (Some priceList)
          | None => mkValidation true None
          end
      end
  end.

(** *** Price list items *)

Definition conflictMessage (v : Validation) : string :=
  ("Commodity already has a price in " ++ String (ascii_of_nat 34) ""
   ++ match conflictingPriceList v with
      | Some pl => PriceList.name pl
      | None => "undefined"
      end
   ++ String (ascii_of_nat 34) "" ++ " for overlapping dates")%string.

Definition createPriceListItem (env : Env) (st : Store)
    (data : NewPriceListItem.data) : Result (Store * NewPriceListItem.t) :=
  let validation :=
    validateCommodityUniqueness st (NewPriceListItem.d_priceListId data)
      (NewPriceListItem.d_commodityId data) None in
  if negb (valid validation)
  then Throw (conflictMessage validation)
  else
    let newItem := schema_createNewPriceListItem env data in
    Ok (with_priceListItems (Collection.create (priceListItems st) newItem) st,
        newItem).

(** *** Price resolution *)

(** The loop over the sorted price lists of [findPriceInGroup]. *)
Fixpoint firstListWith (st : Store) (group : PricingGroup.t)
    (commodity : Commodity.t) (lists : list PriceList.t)
  : option CommodityPrice.t :=
  match lists with
  | [] => None
  | priceList :: rest =>
      let items :=
        Collection.query (priceListItems st)
          (fun item =>
             String.eqb (NewPriceListItem.priceListId item)
               (PriceList.id priceList)) in
      match List.find
              (fun i =>
                 String.eqb (NewPriceListItem.commodityId i)
                   (Commodity.id commodity))
              items with
      | Some item =>
          Some (CommodityPrice.mk (Commodity.id commodity)
                  (Commodity.name commodity) (Commodity.code commodity)
                  (NewPriceListItem.price item) (NewPriceListItem.unit item)
                  (NewPriceListItem.currency item) (PriceList.id priceList)
                  (PriceList.name priceList) (PricingGroup.id group)
                  (PricingGroup.name group) (PriceList.effectiveDate priceList)
                  (PriceList.expirationDate priceList))
      | None => firstListWith st group commodity rest
      end
  end.

Definition byEffectiveDateDesc (a b : PriceList.t) : comparison :=
  JS.localeCompare (PriceList.effectiveDate b) (PriceList.effectiveDate a).

Definition findPriceInGroup (st : Store) (groupId : string)
    (commodity : Commodity.t) (date : string) : option CommodityPrice.t :=
  match Collection.getById (pricingGroups st) groupId with
  | None => None
  | Some group =>
      let priceLists := getActivePriceListsForDate st groupId date in
      let priceLists := JS.sort byEffectiveDateDesc priceLists in
      firstListWith st group commodity priceLists
  end.

(** [date] defaults to today's date when the caller leaves it out. *)
Definition getPrice (today : string) (st : Store)
    (accountId commodityId : string) (direction : PricingDirection)
    (date : option string) : option CommodityPrice.t :=
  let date := default today date in
  match Collection.getById (accounts st) accountId with
  | None => None
  | Some account =>
      match Collection.getById (commodities st) commodityId with
      | None => None
      | Some commodity =>
          let assignedGroupId :=
            match direction with
            | buy => Account.buyPricingGroupId account
            | sell => Account.sellPricingGroupId account
            end in
          let fromDefault :=
            match getDefaultPricingGroup st direction with
            | Some defaultGroup =>
                findPriceInGroup st (PricingGroup.id defaultGroup) commodity date
            | None => None
            end in
          match assignedGroupId with
          | Some gid =>
              if JS.truthy gid
              then
                match findPriceInGroup st gid commodity date with
                | Some price => Some price
                | None => fromDefault
                end
              else fromDefault
          | None => fromDefault
          end
      end
  end.

End Pricing.

(** ** JavaScript numbers and dates *)

(** The operations the inventory service applies to a [number]. *)
Class Number (N : Type) := {
  n_zero : N;
  n_add : N -> N -> N;
  n_sub : N -> N -> N;
  n_opp : N -> N;
  n_abs : N -> N;
  n_lt : N -> N -> bool;
  n_le : N -> N -> bool;
  (** truthiness: [0], [-0] and [NaN] are falsy *)
  n_truthy : N -> bool
}.

(** Exact arithmetic: quantities that are integers. *)
#[export] Instance Number_Z : Number Z := {|
  n_zero := 0;
  n_add := Z.add;
  n_sub := Z.sub;
  n_opp := Z.opp;
  n_abs := Z.abs;
  n_lt := Z.ltb;
  n_le := Z.leb;
  n_truthy := fun x => negb (Z.eqb x 0)
|}.

(** The arithmetic of the host: IEEE 754 binary64. *)
#[export] Instance Number_float : Number float := {|
  n_zero := PrimFloat.zero;
  n_add := PrimFloat.add;
  n_sub := PrimFloat.sub;
  n_opp := PrimFloat.opp;
  n_abs := PrimFloat.abs;
  n_lt := PrimFloat.ltb;
  n_le := PrimFloat.leb;
  n_truthy := fun x => negb (PrimFloat.is_zero x || PrimFloat.is_nan x)
|}.

(** [o || 0] where [o] is an optional number. *)
Definition n_or_zero {N} `{Number N} (o : option N) : N :=
  match o with
  | Some x => if n_truthy x then x else n_zero
  | None => n_zero
  end.

Module JSDate.

Definition msPerDay : Z := 86400000.
Definition msPerHour : Z := 3600000.

(** Day number (days since 1970-01-01) of a date of the proleptic Gregorian
    calendar, and back. *)
Definition days_from_civil (y m d : Z) : Z :=
  let y' := if m <=? 2 then y - 1 else y in
  let era := y' / 400 in
  let yoe := y' - era * 400 in
  let doy := (153 * (if 2 <? m then m - 3 else m + 9) + 2) / 5 + d - 1 in
  let doe := yoe * 365 + yoe / 4 - yoe / 100 + doy in
  era * 146097 + doe - 719468.

Definition civil_from_days (z : Z) : Z * Z * Z :=
  let z := z + 719468 in
  let era := z / 146097 in
  let doe := z - era * 146097 in
  let yoe := (doe - doe / 1460 + doe / 36524 - doe / 146096) / 365 in
  let y := yoe + era * 400 in
  let doy := doe - (365 * yoe + yoe / 4 - yoe / 100) in
  let mp := (5 * doy + 2) / 153 in
  let d := doy - (153 * mp + 2) / 5 + 1 in
  let m := if mp <? 10 then mp + 3 else mp - 9 in
  (if m <=? 2 then y + 1 else y, m, d).

Definition digit (n : Z) : ascii := ascii_of_nat (48 + Z.to_nat (n mod 10)).

(** The last [width] decimal digits of [n], most significant first. *)
Fixpoint digits (width : nat) (n : Z) (acc : string) : string :=
  match width with
  | O => acc
  | S w => digits w (n / 10) (String (digit n) acc)
  end.

(** [toISOString().split('T')[0]] of a time value: the UTC date, with the
    expanded form of the year outside 0000..9999. *)
Definition toISODate (t : Z) : string :=
  let '(y, m, d) := civil_from_days (t / msPerDay) in
  let year :=
    if (0 <=? y) && (y <=? 9999) then digits 4 y ""
    else ((if (y <? 0)%Z then "-" else "+") ++ digits 6 (Z.abs y) "")%string in
  (year ++ "-" ++ digits 2 m "" ++ "-" ++ digits 2 d "")%string.

Definition digit_value (c : ascii) : option Z :=
  let n := Z.of_nat (nat_of_ascii c) in
  if (48 <=? n) && (n <=? 57) then Some (n - 48) else None.

Fixpoint number_of (s : string) (acc : Z) : option Z :=
  match s with
  | EmptyString => Some acc
  | String c rest =>
      match digit_value c with
      | Some v => number_of rest (acc * 10 + v)
      | None => None
      end
  end.

Definition is_leap (y : Z) : bool :=
  ((y mod 4 =? 0) && negb (y mod 100 =? 0)) || (y mod 400 =? 0).

Definition days_in_month (y m : Z) : Z :=
  if m =? 2 then (if is_leap y then 29 else 28)
  else if (m =? 4) || (m =? 6) || (m =? 9) || (m =? 11) then 30
  else 31.

(** [new Date(s)] for the date-only form [YYYY-MM-DD] of the data model,
    which is read as midnight UTC.  [None] is the Invalid Date; strings of
    another form and days that do not exist are mapped to it (hosts differ
    on them). *)
Definition parse (s : string) : option Z :=
  if (String.length s =? 10)%nat
     && String.eqb (String.substring 4 1 s) "-"
     && String.eqb (String.substring 7 1 s) "-"
  then
    match number_of (String.substring 0 4 s) 0,
          number_of (String.substring 5 2 s) 0,
          number_of (String.substring 8 2 s) 0 with
    | Some y, Some m, Some d =>
        if (1 <=? m) && (m <=? 12) && (1 <=? d) && (d <=? days_in_month y m)
        then Some (days_from_civil y m d * msPerDay)
        else None
    | _, _, _ => None
    end
  else None.

(** The time zone of the host: the offset of local time from UTC (in
    milliseconds) at a UTC instant and at a local wall-clock time. *)
Record TimeZone := mkTimeZone {
  offsetAtUTC : Z -> Z;
  offsetAtLocal : Z -> Z
}.

Definition fixedOffset (off : Z) : TimeZone :=
  mkTimeZone (fun _ => off) (fun _ => off).

Definition UTC : TimeZone := fixedOffset 0.

Definition LocalTime (tz : TimeZone) (t : Z) : Z := t + offsetAtUTC tz t.
Definition toUTC (tz : TimeZone) (t : Z) : Z := t - offsetAtLocal tz t.

Definition TimeClip (t : Z) : option Z :=
  if Z.abs t <=? 8640000000000000 then Some t else None.

(** [d.setDate(d.getDate() + 1)]: the local date moves to the next day, the
    local time of day is kept, and the result is converted back. *)
Definition addOneDay (tz : TimeZone) (t : Z) : option Z :=
  TimeClip (toUTC tz (LocalTime tz t + msPerDay)).

End JSDate.

(** ** Records of the inventory model ([types/inventory.ts], orders, loads) *)

Inductive OrderStatus := open | in_progress | fulfilled | closed | voided.

Definition status_is_open (s : OrderStatus) : bool :=
  match s with
  | voided | closed => false
  | _ => true
  end.

Inductive MovementKind := pickup | delivery.

Inductive InventoryMovementType :=
| po_incoming | so_outgoing | load_pickup | load_delivery | adjustment.

Module SourceType.
Inductive t := purchaseOrder | salesOrder | load.
End SourceType.

Module MovementStatus.
Inductive t := pending | completed | cancelled.
End MovementStatus.

Inductive AdjustmentType := count | damage | transfer_in | transfer_out | other.

(** Of a load the service reads the fields below. *)
Module Load.
Record t := mk {
  id : string;
  purchaseOrderId : option string;
  salesOrderId : option string;
  scheduledPickupDate : string;
  actualPickupDate : option string;
  scheduledDeliveryDate : string;
  actualDeliveryDate : option string
}.
End Load.

Module OrderLineItem.
Record t {N : Type} := mk {
  id : string;
  commodityId : string;
  commodityName : option string;
  quantity : N;
  unit : Unit;
  shippedQuantity : option N;
  receivedQuantity : option N
}.
Arguments t : clear implicits.
Arguments mk {N}.
End OrderLineItem.

(** Of an order the service reads the fields below. *)
Module PurchaseOrder.
Record t {N : Type} := mk {
  id : string;
  orderNumber : string;
  status : OrderStatus;
  supplierName : option string;
  facilityId : option string;
  lineItems : list (OrderLineItem.t N);
  startDate : string;
  endDate : option string
}.
Arguments t : clear implicits.
Arguments mk {N}.
End PurchaseOrder.

Module SalesOrder.
Record t {N : Type} := mk {
  id : string;
  orderNumber : string;
  status : OrderStatus;
  customerName : option string;
  facilityId : option string;
  lineItems : list (OrderLineItem.t N);
  startDate : string;
  endDate : option string
}.
Arguments t : clear implicits.
Arguments mk {N}.
End SalesOrder.

(** [PurchaseOrder | SalesOrder] *)
Inductive Order (N : Type) :=
| OfPurchase (po : PurchaseOrder.t N)
| OfSales (so : SalesOrder.t N).
Arguments OfPurchase {N} po.
Arguments OfSales {N} so.

Definition order_startDate {N} (o : Order N) : string :=
  match o with
  | OfPurchase po => PurchaseOrder.startDate po
  | OfSales so => SalesOrder.startDate so
  end.

Definition order_endDate {N} (o : Order N) : option string :=
  match o with
  | OfPurchase po => PurchaseOrder.endDate po
  | OfSales so => SalesOrder.endDate so
  end.

Module InventoryMovement.
Record t {N : Type} := mk {
  id : string;
  type : InventoryMovementType;
  commodityId : string;
  commodityName : option string;
  locationId : option string;
  locationName : option string;
  quantity : N;
  unit : Unit;
  expectedDate : string;
  actualDate : option string;
  sourceId : string;
  sourceType : SourceType.t;
  sourceNumber : option string;
  partyName : option string;
  status : MovementStatus.t
}.
Arguments t : clear implicits.
Arguments mk {N}.
End InventoryMovement.

Module Position.
Record t {N : Type} := mk {
  id : string;
  commodityId : string;
  commodityCode : option string;
  commodityName : option string;
  locationId : option string;
  locationName : option string;
  currentInventory : N;
  incoming : N;
  outgoing : N;
  netPosition : N;
  unit : Unit
}.
Arguments t : clear implicits.
Arguments mk {N}.
End Position.

Module PositionTimelineEntry.
Record t {N : Type} := mk {
  date : string;
  position : N;
  incoming : N;
  outgoing : N;
  movements : list (InventoryMovement.t N)
}.
Arguments t : clear implicits.
Arguments mk {N}.
End PositionTimelineEntry.

Module AvailabilityCheck.
Record t {N : Type} := mk {
  available : bool;
  currentInventory : N;
  incoming : N;
  outgoing : N;
  currentPosition : N;
  projectedPosition : N;
  shortfall : N
}.
Arguments t : clear implicits.
Arguments mk {N}.
End AvailabilityCheck.

Module InventoryAdjustment.
Record t {N : Type} := mk {
  id : string;
  adjustmentNumber : string;
  commodityId : string;
  commodityCode : option string;
  commodityName : option string;
  locationId : option string;
  locationName : option string;
  adjustmentType : AdjustmentType;
  quantity : N;
  unit : Unit;
  reason : option string;
  adjustmentDate : string;
  createdBy : string;
  createdAt : string;
  updatedAt : string
}.
Arguments t : clear implicits.
Arguments mk {N}.

(** [Omit<InventoryAdjustment, 'id' | 'adjustmentNumber' | 'createdAt' |
    'updatedAt' | 'createdBy'>] *)
Record data {N : Type} := mkData {
  d_commodityId : string;
  d_commodityCode : option string;
  d_commodityName : option string;
  d_locationId : option string;
  d_locationName : option string;
  d_adjustmentType : AdjustmentType;
  d_quantity : N;
  d_unit : Unit;
  d_reason : option string;
  d_adjustmentDate : string
}.
Arguments data : clear implicits.
Arguments mkData {N}.

(** [Partial<InventoryAdjustment>]: [None] is a key that is not supplied;
    a supplied optional field may carry [undefined]. *)
Record partial {N : Type} := mkPartial {
  p_id : option string;
  p_adjustmentNumber : option string;
  p_commodityId : option string;
  p_commodityCode : option (option string);
  p_commodityName : option (option string);
  p_locationId : option (option string);
  p_locationName : option (option string);
  p_adjustmentType : option AdjustmentType;
  p_quantity : option N;
  p_unit : option Unit;
  p_reason : option (option string);
  p_adjustmentDate : option string;
  p_createdBy : option string;
  p_createdAt : option string;
  p_updatedAt : option string
}.
Arguments partial : clear implicits.
Arguments mkPartial {N}.

(** [{ ...existing, ...updates }] *)
Definition spread {N} (existing : t N) (p : partial N) : t N :=
  mk (default (id existing) (p_id p))
     (default (adjustmentNumber existing) (p_adjustmentNumber p))
     (default (commodityId existing) (p_commodityId p))
     (default (commodityCode existing) (p_commodityCode p))
     (default (commodityName existing) (p_commodityName p))
     (default (locationId existing) (p_locationId p))
     (default (locationName existing) (p_locationName p))
     (default (adjustmentType existing) (p_adjustmentType p))
     (default (quantity existing) (p_quantity p))
     (default (unit existing) (p_unit p))
     (default (reason existing) (p_reason p))
     (default (adjustmentDate existing) (p_adjustmentDate p))
     (default (createdBy existing) (p_createdBy p))
     (default (createdAt existing) (p_createdAt p))
     (default (updatedAt existing) (p_updatedAt p)).
End InventoryAdjustment.

#[export] Instance Load_keyed : Keyed Load.t := Load.id.
#[export] Instance PurchaseOrder_keyed {N} : Keyed (PurchaseOrder.t N) :=
  PurchaseOrder.id.
#[export] Instance SalesOrder_keyed {N} : Keyed (SalesOrder.t N) := SalesOrder.id.
#[export] Instance InventoryAdjustment_keyed {N} : Keyed (InventoryAdjustment.t N) :=
  InventoryAdjustment.id.

(** ** The inventory service ([services/inventoryService.ts]) *)

Module Inventory.

(** [/ADJ-(\d+)/]: the digits behind the first [ADJ-] that is followed by
    a digit. *)
Fixpoint leadingDigits (s : string) : string :=
  match s with
  | EmptyString => EmptyString
  | String c rest =>
      match JSDate.digit_value c with
      | Some _ => String c (leadingDigits rest)
      | None => EmptyString
      end
  end.

Fixpoint matchAdjustmentNumber (s : string) : option string :=
  match s with
  | EmptyString => None
  | String _ rest =>
      let here :=
        if String.prefix "ADJ-" s
        then leadingDigits (String.substring 4 (String.length s - 4) s)
        else EmptyString in
      if JS.truthy here then Some here else matchAdjustmentNumber rest
  end.

(** [parseInt(digits, 10)] of a string of decimal digits (a counter, kept
    exact). *)
Definition parseInt (digits : string) : Z :=
  default 0 (JSDate.number_of digits 0).

Fixpoint decimalWidth (fuel : nat) (n : Z) : nat :=
  match fuel with
  | O => 1
  | S f => if n <? 10 then 1%nat else S (decimalWidth f (n / 10))
  end.

(** [n.toString()] of a natural number. *)
Definition toString (n : Z) : string :=
  JSDate.digits (decimalWidth (Z.to_nat n) n) n "".

(** [s.padStart(4, '0')] *)
Definition padStart4 (s : string) : string :=
  (String.substring 0 (4 - String.length s) "0000" ++ s)%string.

Section Service.
Context {N : Type} `{Number N}.

Record Store := mkStore {
  commodities : list Commodity.t;
  purchaseOrders : list (PurchaseOrder.t N);
  salesOrders : list (SalesOrder.t N);
  loads : list Load.t;
  inventoryAdjustments : list (InventoryAdjustment.t N)
}.

Definition with_inventoryAdjustments
    (adjs : list (InventoryAdjustment.t N)) (st : Store) : Store :=
  mkStore (commodities st) (purchaseOrders st) (salesOrders st) (loads st)
    adjs.

Definition generateAdjustmentNumber (st : Store) : string :=
  let adjustments := Collection.getAll (inventoryAdjustments st) in
  let maxNum :=
    List.fold_left
      (fun max adj =>
         match matchAdjustmentNumber (InventoryAdjustment.adjustmentNumber adj)
         with
         | Some digits =>
             let num := parseInt digits in
             if max <? num then num else max
         | None => max
         end)
      adjustments 0 in
  ("ADJ-" ++ padStart4 (toString (maxNum + 1)))%string.

Definition kind_eqb (a b : MovementKind) : bool :=
  match a, b with
  | pickup, pickup | delivery, delivery => true
  | _, _ => false
  end.

Definition getExpectedDate (today : string) (load : option Load.t)
    (order : Order N) (movementType : MovementKind) : string :=
  let fromOrder :=
    JS.or_else
      (Some (JS.or_else (order_endDate order) (order_startDate order)))
      today in
  match load with
  | Some load =>
      if kind_eqb movementType pickup
         && JS.truthy_opt (Load.actualPickupDate load)
      then default "" (Load.actualPickupDate load)
      else if kind_eqb movementType delivery
              && JS.truthy_opt (Load.actualDeliveryDate load)
      then default "" (Load.actualDeliveryDate load)
      else if kind_eqb movementType pickup
              && JS.truthy (Load.scheduledPickupDate load)
      then Load.scheduledPickupDate load
      else if kind_eqb movementType delivery
              && JS.truthy (Load.scheduledDeliveryDate load)
      then Load.scheduledDeliveryDate load
      else fromOrder
  | None => fromOrder
  end.

(** [a !== b] for an optional field [a] and a string [b]. *)
Definition differs (a : option string) (b : string) : bool :=
  match a with
  | Some x => negb (String.eqb x b)
  | None => true
  end.

(** [locationId && field !== locationId] *)
Definition filteredOut (locationId : option string) (field : option string)
  : bool :=
  match locationId with
  | Some l => JS.truthy l && differs field l
  | None => false
  end.

Definition getCurrentInventory (st : Store) (commodityId : string)
    (locationId : option string) : N :=
  let adjustments :=
    Collection.query (inventoryAdjustments st)
      (fun adj =>
         if negb (String.eqb (InventoryAdjustment.commodityId adj) commodityId)
         then false
         else if filteredOut locationId (InventoryAdjustment.locationId adj)
         then false
         else true) in
  List.fold_left (fun sum adj => n_add sum (InventoryAdjustment.quantity adj))
    adjustments n_zero.

Record Totals := mkTotals {
  total : N;
  movements : list (InventoryMovement.t N)
}.

(** [byDate && expectedDate > byDate] *)
Definition afterDate (byDate : option string) (expectedDate : string) : bool :=
  match byDate with
  | Some b => JS.truthy b && JS.lt b expectedDate
  | None => false
  end.

Definition firstLinked (linkedLoads : list Load.t) : option Load.t :=
  if (0 <? length linkedLoads)%nat then List.head linkedLoads else None.

Definition incomingItem (today : string) (st : Store) (commodityId : string)
    (byDate : option string) (po : PurchaseOrder.t N) (acc : Totals)
    (item : OrderLineItem.t N) : Totals :=
  if negb (String.eqb (OrderLineItem.commodityId item) commodityId) then acc
  else
    let ordered := OrderLineItem.quantity item in
    let received := n_or_zero (OrderLineItem.receivedQuantity item) in
    let pending := n_sub ordered received in
    if n_le pending n_zero then acc
    else
      let linkedLoads :=
        List.filter
          (fun l =>
             negb (differs (Load.purchaseOrderId l) (PurchaseOrder.id po)))
          (Collection.getAll (loads st)) in
      let linkedLoad := firstLinked linkedLoads in
      let expectedDate :=
        getExpectedDate today linkedLoad (OfPurchase po) delivery in
      if afterDate byDate expectedDate then acc
      else
        mkTotals (n_add (total acc) pending)
          (movements acc ++
           [InventoryMovement.mk
              ("po-" ++ PurchaseOrder.id po ++ "-" ++ OrderLineItem.id item)%string
              po_incoming (OrderLineItem.commodityId item)
              (OrderLineItem.commodityName item) (PurchaseOrder.facilityId po)
              None pending (OrderLineItem.unit item) expectedDate None
              (PurchaseOrder.id po) SourceType.purchaseOrder
              (Some (PurchaseOrder.orderNumber po))
              (PurchaseOrder.supplierName po) MovementStatus.pending]).

Definition calculateIncoming (today : string) (st : Store)
    (commodityId : string) (locationId byDate : option string) : Totals :=
  let pos :=
    Collection.query (purchaseOrders st)
      (fun po => status_is_open (PurchaseOrder.status po)) in
  List.fold_left
    (fun acc po =>
       if filteredOut locationId (PurchaseOrder.facilityId po) then acc
       else
         List.fold_left (incomingItem today st commodityId byDate po)
           (PurchaseOrder.lineItems po) acc)
    pos (mkTotals n_zero []).

Definition outgoingItem (today : string) (st : Store) (commodityId : string)
    (byDate : option string) (so : SalesOrder.t N) (acc : Totals)
    (item : OrderLineItem.t N) : Totals :=
  if negb (String.eqb (OrderLineItem.commodityId item) commodityId) then acc
  else
    let ordered := OrderLineItem.quantity item in
    let shipped := n_or_zero (OrderLineItem.shippedQuantity item) in
    let pending := n_sub ordered shipped in
    if n_le pending n_zero then acc
    else
      let linkedLoads :=
        List.filter
          (fun l => negb (differs (Load.salesOrderId l) (SalesOrder.id so)))
          (Collection.getAll (loads st)) in
      let linkedLoad := firstLinked linkedLoads in
      let expectedDate := getExpectedDate today linkedLoad (OfSales so) pickup in
      if afterDate byDate expectedDate then acc
      else
        mkTotals (n_add (total acc) pending)
          (movements acc ++
           [InventoryMovement.mk
              ("so-" ++ SalesOrder.id so ++ "-" ++ OrderLineItem.id item)%string
              so_outgoing (OrderLineItem.commodityId item)
              (OrderLineItem.commodityName item) (SalesOrder.facilityId so)
              None (n_opp pending) (OrderLineItem.unit item) expectedDate None
              (SalesOrder.id so) SourceType.salesOrder
              (Some (SalesOrder.orderNumber so))
              (SalesOrder.customerName so) MovementStatus.pending]).

Definition calculateOutgoing (today : string) (st : Store)
    (commodityId : string) (locationId byDate : option string) : Totals :=
  let sos :=
    Collection.query (salesOrders st)
      (fun so => status_is_open (SalesOrder.status so)) in
  List.fold_left
    (fun acc so =>
       if filteredOut locationId (SalesOrder.facilityId so) then acc
       else
         List.fold_left (outgoingItem today st commodityId byDate so)
           (SalesOrder.lineItems so) acc)
    sos (mkTotals n_zero []).

Definition positionId (commodityId : string) (locationId : option string)
  : string :=
  (commodityId ++ "-" ++ JS.or_else locationId "all")%string.

Definition getPosition (today : string) (st : Store) (commodityId : string)
    (locationId : option string) : option (Position.t N) :=
  match Collection.getById (commodities st) commodityId with
  | None => None
  | Some commodity =>
      let currentInventory := getCurrentInventory st commodityId locationId in
      let incoming :=
        total (calculateIncoming today st commodityId locationId None) in
      let outgoing :=
        total (calculateOutgoing today st commodityId locationId None) in
      let netPosition := n_sub (n_add currentInventory incoming) outgoing in
      Some (Position.mk (positionId commodityId locationId) commodityId
              (Some (Commodity.code commodity))
              (Some (Commodity.name commodity)) locationId None
              currentInventory incoming outgoing netPosition
              (Commodity.defaultUnit commodity))
  end.

Definition byExpectedDate (a b : InventoryMovement.t N) : comparison :=
  JS.localeCompare (InventoryMovement.expectedDate a)
    (InventoryMovement.expectedDate b).

Definition getMovements (today : string) (st : Store) (commodityId : string)
    (locationId startDate endDate : option string)
  : list (InventoryMovement.t N) :=
  let incomingMovements :=
    movements (calculateIncoming today st commodityId locationId None) in
  let outgoingMovements :=
    movements (calculateOutgoing today st commodityId locationId None) in
  let allMovements := incomingMovements ++ outgoingMovements in
  let allMovements :=
    match startDate with
    | Some s =>
        if JS.truthy s
        then List.filter
               (fun m => JS.le s (InventoryMovement.expectedDate m))
               allMovements
        else allMovements
    | None => allMovements
    end in
  let allMovements :=
    match endDate with
    | Some e =>
        if JS.truthy e
        then List.filter
               (fun m => JS.le (InventoryMovement.expectedDate m) e)
               allMovements
        else allMovements
    | None => allMovements
    end in
  JS.sort byExpectedDate allMovements.

(** [movements.forEach(...)]: the array of a date is extended in place. *)
Definition groupByDate (ms : list (InventoryMovement.t N))
  : gmap string (list (InventoryMovement.t N)) :=
  List.fold_left
    (fun (byDate : gmap string (list (InventoryMovement.t N))) m =>
       let existing :=
         default [] (byDate !! InventoryMovement.expectedDate m) in
       <[InventoryMovement.expectedDate m := existing ++ [m]]> byDate)
    ms ∅.

Definition dayIncoming (dayMovements : list (InventoryMovement.t N)) : N :=
  List.fold_left (fun sum m => n_add sum (InventoryMovement.quantity m))
    (List.filter (fun m => n_lt n_zero (InventoryMovement.quantity m))
       dayMovements)
    n_zero.

Definition dayOutgoing (dayMovements : list (InventoryMovement.t N)) : N :=
  List.fold_left
    (fun sum m => n_add sum (n_abs (InventoryMovement.quantity m)))
    (List.filter (fun m => n_lt (InventoryMovement.quantity m) n_zero)
       dayMovements)
    n_zero.

(** The [for] loop of [getPositionTimeline].  A comparison with an Invalid
    Date is false.  [None] is a loop that has not ended within [fuel]
    rounds. *)
Fixpoint timelineLoop (fuel : nat) (tz : JSDate.TimeZone)
    (movementsByDate : gmap string (list (InventoryMovement.t N)))
    (d end_ : option Z) (runningPosition : N)
  : option (list (PositionTimelineEntry.t N)) :=
  match fuel with
  | O => None
  | S fuel =>
      match d, end_ with
      | Some dv, Some ev =>
          if dv <=? ev
          then
            let dateStr := JSDate.toISODate dv in
            let dayMovements := default [] (movementsByDate !! dateStr) in
            let dayIn := dayIncoming dayMovements in
            let dayOut := dayOutgoing dayMovements in
            let runningPosition :=
              n_add runningPosition (n_sub dayIn dayOut) in
            let entry :=
              PositionTimelineEntry.mk dateStr runningPosition dayIn dayOut
                dayMovements in
            match timelineLoop fuel tz movementsByDate
                    (JSDate.addOneDay tz dv) end_ runningPosition with
            | Some rest => Some (entry :: rest)
            | None => None
            end
          else Some []
      | _, _ => Some []
      end
  end.

Definition getPositionTimeline (fuel : nat) (tz : JSDate.TimeZone)
    (today : string) (st : Store) (commodityId : string)
    (locationId : option string) (startDate endDate : string)
  : option (list (PositionTimelineEntry.t N)) :=
  let currentInventory := getCurrentInventory st commodityId locationId in
  let movements :=
    getMovements today st commodityId locationId (Some startDate)
      (Some endDate) in
  let movementsByDate := groupByDate movements in
  let start := JSDate.parse startDate in
  let end_ := JSDate.parse endDate in
  timelineLoop fuel tz movementsByDate start end_ currentInventory.

Definition checkAvailability (today : string) (st : Store)
    (commodityId : string) (requiredQuantity : N)
    (locationId byDate : option string) : AvailabilityCheck.t N :=
  let currentInventory := getCurrentInventory st commodityId locationId in
  let incoming :=
    total (calculateIncoming today st commodityId locationId byDate) in
  let outgoing :=
    total (calculateOutgoing today st commodityId locationId byDate) in
  let currentPosition := n_sub (n_add currentInventory incoming) outgoing in
  let projectedPosition := n_sub currentPosition requiredQuantity in
  let shortfall :=
    if n_lt projectedPosition n_zero then n_abs projectedPosition
    else n_zero in
  AvailabilityCheck.mk (n_le n_zero projectedPosition) currentInventory
    incoming outgoing currentPosition projectedPosition shortfall.

(** *** Inventory adjustments *)

Definition createAdjustment (env : Env) (st : Store)
    (data : InventoryAdjustment.data N) : Store * InventoryAdjustment.t N :=
  let adjustment :=
    InventoryAdjustment.mk (freshId env) (generateAdjustmentNumber st)
      (InventoryAdjustment.d_commodityId data)
      (InventoryAdjustment.d_commodityCode data)
      (InventoryAdjustment.d_commodityName data)
      (InventoryAdjustment.d_locationId data)
      (InventoryAdjustment.d_locationName data)
      (InventoryAdjustment.d_adjustmentType data)
      (InventoryAdjustment.d_quantity data)
      (InventoryAdjustment.d_unit data)
      (InventoryAdjustment.d_reason data)
      (InventoryAdjustment.d_adjustmentDate data)
      "Current User" (now env) (now env) in
  (with_inventoryAdjustments
     (Collection.create (inventoryAdjustments st) adjustment) st,
   adjustment).

Definition updateAdjustment (now : string) (st : Store) (id : string)
    (updates : InventoryAdjustment.partial N)
  : Store * option (InventoryAdjustment.t N) :=
  match Collection.getById (inventoryAdjustments st) id with
  | None => (st, None)
  | Some existing =>
      let merged := InventoryAdjustment.spread existing updates in
      let updated :=
        InventoryAdjustment.mk id
          (InventoryAdjustment.adjustmentNumber existing)
          (InventoryAdjustment.commodityId merged)
          (InventoryAdjustment.commodityCode merged)
          (InventoryAdjustment.commodityName merged)
          (InventoryAdjustment.locationId merged)
          (InventoryAdjustment.locationName merged)
          (InventoryAdjustment.adjustmentType merged)
          (InventoryAdjustment.quantity merged)
          (InventoryAdjustment.unit merged)
          (InventoryAdjustment.reason merged)
          (InventoryAdjustment.adjustmentDate merged)
          (InventoryAdjustment.createdBy merged)
          (InventoryAdjustment.createdAt merged)
          now in
      let '(adjs, r) :=
        Collection.update (inventoryAdjustments st) id updated in
      (with_inventoryAdjustments adjs st, r)
  end.

(** [show] is the conversion of the host that the template literal
    [`${newCount}`] applies; [today] is the date part of the clock. *)
Definition setInventoryCount (show : N -> string) (env : Env)
    (today : string) (st : Store) (commodityId : string) (newCount : N)
    (locationId reason : option string) : Store * InventoryAdjustment.t N :=
  let commodity := Collection.getById (commodities st) commodityId in
  let currentInventory := getCurrentInventory st commodityId locationId in
  let adjustmentAmount := n_sub newCount currentInventory in
  createAdjustment env st
    (InventoryAdjustment.mkData commodityId
       (option_map Commodity.code commodity)
       (option_map Commodity.name commodity)
       locationId None count adjustmentAmount
       (match commodity with
        | Some c => Commodity.defaultUnit c
        | None => LB
        end)
       (Some (JS.or_else reason
                ("Inventory count adjustment to " ++ show newCount)%string))
       today).

End Service.
End Inventory.

(** ** Notions the statements below are phrased with *)

Module Notions.

(** The groups flagged as the default of a direction. *)
Definition defaultsOf (d : PricingDirection) (st : Pricing.Store)
  : list PricingGroup.t :=
  List.filter (Pricing.is_default_for d) (Pricing.pricingGroups st).

(** At most one group of a direction is flagged as the default. *)
Definition defaultUnique (st : Pricing.Store) : Prop :=
  forall d, (length (defaultsOf d st) <= 1)%nat.

(** The calls of the pricing group registry that touch the default flag. *)
Inductive RegistryCall :=
| CallCreate (env : Env) (data : PricingGroup.data)
| CallUpdate (now : string) (id : string) (data : PricingGroup.partial)
| CallSetAsDefault (now : string) (id : string).

Definition runCall (st : Pricing.Store) (c : RegistryCall) : Pricing.Store :=
  match c with
  | CallCreate env data => fst (Pricing.createPricingGroup env st data)
  | CallUpdate now id data => fst (Pricing.updatePricingGroup now st id data)
  | CallSetAsDefault now id => fst (Pricing.setAsDefault now st id)
  end.

Definition runCalls (st : Pricing.Store) (cs : list RegistryCall)
  : Pricing.Store :=
  List.fold_left runCall cs st.

(** An update that leaves the direction of the group as it is. *)
Definition keepsDirection (st : Pricing.Store) (c : RegistryCall) : Prop :=
  match c with
  | CallUpdate _ id data =>
      match PricingGroup.p_direction data,
            Collection.getById (Pricing.pricingGroups st) id with
      | Some d, Some existing => d = PricingGroup.direction existing
      | _, _ => True
      end
  | _ => True
  end.

(** The id of a created group is not in use. *)
Definition freshFor (st : Pricing.Store) (c : RegistryCall) : Prop :=
  match c with
  | CallCreate env _ =>
      ~ In (freshId env) (List.map PricingGroup.id (Pricing.pricingGroups st))
  | _ => True
  end.

(** Every call of the sequence keeps the direction of the group it updates
    and creates under a fresh id. *)
Fixpoint admissible (st : Pricing.Store) (cs : list RegistryCall) : Prop :=
  match cs with
  | [] => True
  | c :: rest =>
      keepsDirection st c /\ freshFor st c /\ admissible (runCall st c) rest
  end.

(** The groups have distinct ids and at most one default for a direction. *)
Definition wellFormed (st : Pricing.Store) : Prop :=
  List.NoDup (List.map PricingGroup.id (Pricing.pricingGroups st))
  /\ defaultUnique st.

(** What [clearDefaultForDirection] does to one record: the default groups,
    cleared, are put in the place of the records with their ids, one after
    the other. *)
Definition cleared (now : string) (g : PricingGroup.t) : PricingGroup.t :=
  PricingGroup.with_updatedAt now (PricingGroup.with_isDefault false g).

Definition clearedBy (now : string) (ds : list PricingGroup.t)
    (x : PricingGroup.t) : PricingGroup.t :=
  List.fold_left
    (fun y g => Collection.replace (PricingGroup.id g) (cleared now g) y) ds x.

(** The end of a date range, an absent (or empty) end being far away. *)
Definition effectiveEnd (e : option string) : string :=
  match e with
  | Some s => if String.eqb s "" then "9999-12-31" else s
  | None => "9999-12-31"
  end.

(** [s1 <= e2_effective AND s2 <= e1_effective] *)
Definition rangesOverlap (a b : PriceList.t) : Prop :=
  String.leb (PriceList.effectiveDate a)
    (effectiveEnd (PriceList.expirationDate b)) = true
  /\ String.leb (PriceList.effectiveDate b)
       (effectiveEnd (PriceList.expirationDate a)) = true.

(** The price list holds an item for the commodity. *)
Definition holdsCommodity (st : Pricing.Store) (priceListId commodityId : string)
  : Prop :=
  exists item,
    In item (Pricing.priceListItems st)
    /\ NewPriceListItem.priceListId item = priceListId
    /\ NewPriceListItem.commodityId item = commodityId.

(** Another list of the group of [target], with an overlapping range, holds
    the commodity; or [target] itself holds it. *)
Definition conflicts (st : Pricing.Store) (target : PriceList.t)
    (commodityId : string) : Prop :=
  (exists other,
      In other (Pricing.priceLists st)
      /\ PriceList.pricingGroupId other = PriceList.pricingGroupId target
      /\ PriceList.id other <> PriceList.id target
      /\ rangesOverlap target other
      /\ holdsCommodity st (PriceList.id other) commodityId)
  \/ holdsCommodity st (PriceList.id target) commodityId.

(** A price list of the group that is active, effective at [date] and not
    expired at [date]. *)
Definition inForce (groupId date : string) (pl : PriceList.t) : Prop :=
  PriceList.pricingGroupId pl = groupId
  /\ PriceList.isActive pl = true
  /\ String.leb (PriceList.effectiveDate pl) date = true
  /\ match PriceList.expirationDate pl with
     | Some e => e = ""%string \/ String.ltb date e = true
     | None => True
     end.

(** The group an account is assigned to for a direction, and the price it
    yields. *)
Definition assignedGroupId (account : Account.t) (direction : PricingDirection)
  : option string :=
  match direction with
  | buy => Account.buyPricingGroupId account
  | sell => Account.sellPricingGroupId account
  end.

Definition assignedPrice (st : Pricing.Store) (account : Account.t)
    (commodity : Commodity.t) (direction : PricingDirection) (date : string)
  : option CommodityPrice.t :=
  match assignedGroupId account direction with
  | Some gid =>
      if String.eqb gid "" then None
      else Pricing.findPriceInGroup st gid commodity date
  | None => None
  end.

(** The first candidate that is present (defined and not empty). *)
Fixpoint firstPresent (candidates : list (option string)) (fallback : string)
  : string :=
  match candidates with
  | [] => fallback
  | Some s :: rest => if String.eqb s "" then firstPresent rest fallback else s
  | None :: rest => firstPresent rest fallback
  end.

Definition actualDate (load : option Load.t) (movementType : MovementKind)
  : option string :=
  match load, movementType with
  | Some l, pickup => Load.actualPickupDate l
  | Some l, delivery => Load.actualDeliveryDate l
  | None, _ => None
  end.

Definition scheduledDate (load : option Load.t) (movementType : MovementKind)
  : option string :=
  match load, movementType with
  | Some l, pickup => Some (Load.scheduledPickupDate l)
  | Some l, delivery => Some (Load.scheduledDeliveryDate l)
  | None, _ => None
  end.

(** The movement is expected on or before [byDate], when a date is given
    (an empty date counts as none). *)
Definition dueBy {N} (byDate : option string) (m : InventoryMovement.t N)
  : bool :=
  match byDate with
  | Some b =>
      String.eqb b "" || String.leb (InventoryMovement.expectedDate m) b
  | None => true
  end.

(** The movement is expected on the date [k]. *)
Definition onDate {N} (k : string) (m : InventoryMovement.t N) : bool :=
  String.eqb (InventoryMovement.expectedDate m) k.

(** The sum of the quantities of a list of movements. *)
Definition sumOf (ms : list (InventoryMovement.t Z)) : Z :=
  List.fold_right (fun m s => InventoryMovement.quantity m + s) 0 ms.

(** The days [first], [first + 1], ..., as time values at midnight UTC. *)
Fixpoint daysFrom (n : nat) (first : Z) : list Z :=
  match n with
  | O => []
  | S n => first :: daysFrom n (first + JSDate.msPerDay)
  end.

(** The number of days from [first] to [last], both included. *)
Definition dayCount (first last : Z) : nat :=
  if first <=? last then Z.to_nat ((last - first) / JSDate.msPerDay + 1)
  else 0%nat.

(** Consecutive entries of a timeline: each position is the one before it
    plus the incoming minus the outgoing of the entry. *)
Fixpoint continuous (previous : Z) (timeline : list (PositionTimelineEntry.t Z))
  : Prop :=
  match timeline with
  | [] => True
  | e :: rest =>
      PositionTimelineEntry.position e
      = previous + (PositionTimelineEntry.incoming e
                    - PositionTimelineEntry.outgoing e)
      /\ (PositionTimelineEntry.movements e = [] ->
          PositionTimelineEntry.position e = previous)
      /\ continuous (PositionTimelineEntry.position e) rest
  end.

End Notions.

(** ** Stores and hosts used in the examples *)

Module Examples.
Local Open Scope string_scope.
#[local] Set Warnings "-inexact-float".

(** The time zone America/New_York in 2024: daylight saving time from
    2024-03-10 07:00 UTC to 2024-11-03 06:00 UTC; a skipped or repeated
    wall-clock time takes the offset before the transition. *)
Definition instant (y m d h : Z) : Z :=
  (JSDate.days_from_civil y m d * JSDate.msPerDay + h * JSDate.msPerHour)%Z.

Definition newYork : JSDate.TimeZone :=
  JSDate.mkTimeZone
    (fun t =>
       if (instant 2024 3 10 7 <=? t)%Z && (t <? instant 2024 11 3 6)%Z
       then (-4 * JSDate.msPerHour)%Z else (-5 * JSDate.msPerHour)%Z)
    (fun t =>
       if (instant 2024 3 10 3 <=? t)%Z && (t <? instant 2024 11 3 2)%Z
       then (-4 * JSDate.msPerHour)%Z else (-5 * JSDate.msPerHour)%Z).

Definition env1 : Env := mkEnv "id-1" "2024-03-01T09:00:00.000Z" "Current User".

(** *** Pricing *)

Definition groupG : PricingGroup.t :=
  PricingGroup.mk "G" "Suppliers" buy None true true "u" "t0" "t0".

Definition groupH : PricingGroup.t :=
  PricingGroup.mk "H" "Special suppliers" buy None false true "u" "t0" "t0".

Definition groupS : PricingGroup.t :=
  PricingGroup.mk "S" "Customers" sell None true true "u" "t0" "t0".

Definition retired : PricingGroup.t :=
  PricingGroup.mk "R" "Retired" buy None true false "u" "t0" "t0".

Definition listA : PriceList.t :=
  PriceList.mk "A" "G" "Spring" "2024-01-01" (Some "2024-06-01") None true
    "u" "t0" "t0".

Definition listB : PriceList.t :=
  PriceList.mk "B" "G" "Summer" "2024-05-01" None None true "u" "t0" "t0".

Definition itemA : NewPriceListItem.t :=
  NewPriceListItem.mk "i1" "A" "CU-BARE" 3.5%float LB USD None "u" "t0" "t0".

Definition itemB : NewPriceListItem.t :=
  NewPriceListItem.mk "i2" "B" "CU-BARE" 3.75%float LB USD None "u" "t0" "t0".

Definition dataB : NewPriceListItem.data :=
  NewPriceListItem.mkData "B" "CU-BARE" 3.75%float LB USD None.

Definition copper : Commodity.t :=
  Commodity.mk "CU-BARE" "Bare bright copper" "CU-BARE" LB true.

Definition acme : Account.t := Account.mk "acme" "Acme" (Some "H") None.

(** List A holds the commodity, list B of the same group does not yet. *)
Definition overlapStore : Pricing.Store :=
  Pricing.mkStore [groupG; groupH] [listA; listB] [itemA] [acme] [copper].

(** Lists A and B both hold the commodity and are both in force in May. *)
Definition twoListsStore : Pricing.Store :=
  Pricing.mkStore [groupG; groupH] [listA; listB] [itemA; itemB] [acme] [copper].

(** The only default group of the buy direction is inactive. *)
Definition retiredStore : Pricing.Store :=
  Pricing.mkStore [retired] [] [] [] [].

(** One default group for each direction. *)
Definition registryStore : Pricing.Store :=
  Pricing.mkStore [groupG; groupS] [] [] [] [].

(** The update moves the default group of the buy direction to the sell
    direction. *)
Definition moveToSell : PricingGroup.partial :=
  PricingGroup.mkPartial None None (Some sell) None None None None None None.

(** A group created as the default of the buy direction. *)
Definition newDefault : PricingGroup.data :=
  PricingGroup.mkData "Preferred suppliers" buy None true true.

(** Calls that keep the directions: a new default group, a renaming, and a
    group set as default. *)
Definition registryCalls : list Notions.RegistryCall :=
  [Notions.CallCreate env1 newDefault;
   Notions.CallUpdate "t2" "G"
     (PricingGroup.mkPartial None (Some "Scrap suppliers") None None (Some true)
        None None None None);
   Notions.CallSetAsDefault "t3" "S"].

(** *** Inventory *)

Definition hms1 : Commodity.t := Commodity.mk "HMS1" "Heavy melt" "HMS1" LB true.

Definition counted {N} (q : N) : InventoryAdjustment.t N :=
  InventoryAdjustment.mk "adj-1" "ADJ-0001" "HMS1" None None None None count q
    LB None "2024-01-01" "Current User" "t0" "t0".

Definition purchase : PurchaseOrder.t Z :=
  PurchaseOrder.mk "po1" "PO-0001" open None None
    [OrderLineItem.mk "li1" "HMS1" None 500%Z LB None None]
    "2024-03-01" (Some "2024-03-10").

Definition sale : SalesOrder.t Z :=
  SalesOrder.mk "so1" "SO-0001" open None None
    [OrderLineItem.mk "li1" "HMS1" None 300%Z LB (Some 100%Z) None]
    "2024-03-01" (Some "2024-03-12").

(** 1000 LB on hand, 500 LB to come on 2024-03-10, 200 LB to leave on
    2024-03-12. *)
Definition yard : Inventory.Store (N := Z) :=
  Inventory.mkStore [hms1] [purchase] [sale] [] [counted 1000%Z].

(** A ledger in binary64 whose balance is 0.2. *)
Definition fractionYard : Inventory.Store (N := float) :=
  Inventory.mkStore [hms1] [] [] [] [counted 0.2%float].

Definition newNotes : InventoryAdjustment.partial Z :=
  InventoryAdjustment.mkPartial (Some "adj-9") (Some "ADJ-9999") None None None
    None None None (Some 40%Z) None (Some (Some "recount")) None None None
    (Some "never").

End Examples.

(** ** Further records of the pricing model *)

(** [Omit<PriceList, 'id' | 'createdAt' | 'updatedAt' | 'createdBy'>] *)
Module PriceListData.
Record t := mk {
  pricingGroupId : string;
  name : string;
  effectiveDate : string;
  expirationDate : option string;
  notes : option string;
  isActive : bool
}.
End PriceListData.

(** [Partial<PriceList>]: [None] is a key that is not supplied; a supplied
    optional field may carry [undefined]. *)
Module PriceListPartial.
Record t := mk {
  id : option string;
  pricingGroupId : option string;
  name : option string;
  effectiveDate : option string;
  expirationDate : option (option string);
  notes : option (option string);
  isActive : option bool;
  createdBy : option string;
  createdAt : option string;
  updatedAt : option string
}.

(** [{ ...existing, ...data }] *)
Definition spread (existing : PriceList.t) (p : t) : PriceList.t :=
  PriceList.mk
    (default (PriceList.id existing) (id p))
    (default (PriceList.pricingGroupId existing) (pricingGroupId p))
    (default (PriceList.name existing) (name p))
    (default (PriceList.effectiveDate existing) (effectiveDate p))
    (default (PriceList.expirationDate existing) (expirationDate p))
    (default (PriceList.notes existing) (notes p))
    (default (PriceList.isActive existing) (isActive p))
    (default (PriceList.createdBy existing) (createdBy p))
    (default (PriceList.createdAt existing) (createdAt p))
    (default (PriceList.updatedAt existing) (updatedAt p)).
End PriceListPartial.

(** [Partial<NewPriceListItem>] *)
Module NewPriceListItemPartial.
Record t := mk {
  id : option string;
  priceListId : option string;
  commodityId : option string;
  price : option float;
  unit : option Unit;
  currency : option Currency;
  notes : option (option string);
  createdBy : option string;
  createdAt : option string;
  updatedAt : option string
}.

(** [{ ...existing, ...data }] *)
Definition spread (existing : NewPriceListItem.t) (p : t) : NewPriceListItem.t :=
  NewPriceListItem.mk
    (default (NewPriceListItem.id existing) (id p))
    (default (NewPriceListItem.priceListId existing) (priceListId p))
    (default (NewPriceListItem.commodityId existing) (commodityId p))
    (default (NewPriceListItem.price existing) (price p))
    (default (NewPriceListItem.unit existing) (unit p))
    (default (NewPriceListItem.currency existing) (currency p))
    (default (NewPriceListItem.notes existing) (notes p))
    (default (NewPriceListItem.createdBy existing) (createdBy p))
    (default (NewPriceListItem.createdAt existing) (createdAt p))
    (default (NewPriceListItem.updatedAt existing) (updatedAt p)).
End NewPriceListItemPartial.

(** [PricingGroupWithStats extends PricingGroup]: the group and its counts. *)
Module PricingGroupWithStats.
Record t := mk {
  group : PricingGroup.t;
  priceListCount : nat;
  commodityCount : nat;
  accountCount : nat
}.
End PricingGroupWithStats.

(** [PriceListWithItems extends PriceList] *)
Module PriceListWithItems.
Record t := mk {
  priceList : PriceList.t;
  items : list NewPriceListItem.t;
  pricingGroupName : option string;
  pricingGroupDirection : option PricingDirection
}.
End PriceListWithItems.

(** The legacy [PriceListItem] of [types/commodity.ts]; of its audit fields
    the migration reads none. *)
Module PriceListItem.
Record t := mk {
  id : string;
  commodityId : string;
  buyPrice : float;
  sellPrice : float;
  unit : Unit;
  currency : Currency;
  effectiveDate : string;
  expirationDate : option string;
  notes : option string
}.
End PriceListItem.

(** ** The rest of the pricing service ([services/pricingService.ts]) *)

Module PriceBook.
Import Pricing.

Definition with_priceLists (pls : list PriceList.t) (st : Store) : Store :=
  mkStore (pricingGroups st) pls (priceListItems st) (accounts st) (commodities st).

Definition with_accounts (accs : list Account.t) (st : Store) : Store :=
  mkStore (pricingGroups st) (priceLists st) (priceListItems st) accs
    (commodities st).

(** [field === id] for an optional field and a string. *)
Definition is_id (field : option string) (id : string) : bool :=
  negb (Inventory.differs field id).

(** *** Pricing groups *)

Definition getAllPricingGroups (st : Store) : list PricingGroup.t :=
  Collection.getAll (pricingGroups st).

Definition getPricingGroupById (st : Store) (id : string)
  : option PricingGroup.t :=
  Collection.getById (pricingGroups st) id.

Definition getPricingGroupsByDirection (st : Store)
    (direction : PricingDirection) : list PricingGroup.t :=
  Collection.query (pricingGroups st)
    (fun g => direction_eqb (PricingGroup.direction g) direction).

(** *** Price lists *)

Definition getAllPriceLists (st : Store) : list PriceList.t :=
  Collection.getAll (priceLists st).


Definition getPriceListsByGroup (st : Store) (pricingGroupId : string)
  : list PriceList.t :=
  Collection.query (priceLists st)
    (fun pl => String.eqb (PriceList.pricingGroupId pl) pricingGroupId).

(** Modelled from the spec: [createNewPriceList] of the schema module, which
    is not part of the sources, completes the supplied data with a fresh id
    and the audit fields. *)
Definition schema_createNewPriceList (env : Env) (d : PriceListData.t)
  : PriceList.t :=
  PriceList.mk (freshId env) (PriceListData.pricingGroupId d)
    (PriceListData.name d) (PriceListData.effectiveDate d)
    (PriceListData.expirationDate d) (PriceListData.notes d)
    (PriceListData.isActive d) (currentUser env) (now env) (now env).

Definition createPriceList (env : Env) (st : Store) (data : PriceListData.t)
  : Store * PriceList.t :=
  let newPriceList := schema_createNewPriceList env data in
  (with_priceLists (Collection.create (priceLists st) newPriceList) st,
   newPriceList).

Definition updatePriceList (now : string) (st : Store) (id : string)
    (data : PriceListPartial.t) : Store * option PriceList.t :=
  match Collection.getById (priceLists st) id with
  | None => (st, None)
  | Some existing =>
      let merged := PriceListPartial.spread existing data in
      let updated :=
        PriceList.mk id (PriceList.pricingGroupId merged)
          (PriceList.name merged) (PriceList.effectiveDate merged)
          (PriceList.expirationDate merged) (PriceList.notes merged)
          (PriceList.isActive merged) (PriceList.createdBy merged)
          (PriceList.createdAt merged) now in
      let '(lists, r) := Collection.update (priceLists st) id updated in
      (with_priceLists lists st, r)
  end.

Definition deletePriceList (st : Store) (id : string) : Store * bool :=
  let items :=
    Collection.query (priceListItems st)
      (fun item => String.eqb (NewPriceListItem.priceListId item) id) in
  let st1 :=
    List.fold_left
      (fun st item =>
         with_priceListItems
           (fst (Collection.delete (priceListItems st)
                   (NewPriceListItem.id item)))
           st)
      items st in
  let '(lists, r) := Collection.delete (priceLists st1) id in
  (with_priceLists lists st1, r).

Definition getPriceListWithItems (st : Store) (id : string)
  : option PriceListWithItems.t :=
  match Collection.getById (priceLists st) id with
  | None => None
  | Some priceList =>
      let items :=
        Collection.query (priceListItems st)
          (fun item => String.eqb (NewPriceListItem.priceListId item) id) in
      let group :=
        Collection.getById (pricingGroups st)
          (PriceList.pricingGroupId priceList) in
      Some (PriceListWithItems.mk priceList items
              (option_map PricingGroup.name group)
              (option_map PricingGroup.direction group))
  end.

(** *** Pricing groups that need the price lists *)

(** [`${accounts.length}`] is the decimal numeral of the count. *)
Definition deleteMessage (count : nat) : string :=
  ("Cannot delete pricing group: " ++ Inventory.toString (Z.of_nat count)
   ++ " account(s) are assigned to it")%string.

Definition deletePricingGroup (st : Store) (id : string)
  : Result (Store * bool) :=
  let accounts :=
    Collection.query (accounts st)
      (fun a =>
         is_id (Account.buyPricingGroupId a) id
         || is_id (Account.sellPricingGroupId a) id) in
  if (0 <? length accounts)%nat
  then Throw (deleteMessage (length accounts))
  else
    let priceLists :=
      Collection.query (priceLists st)
        (fun pl => String.eqb (PriceList.pricingGroupId pl) id) in
    let st1 :=
      List.fold_left
        (fun st priceList => fst (deletePriceList st (PriceList.id priceList)))
        priceLists st in
    let '(groups, r) := Collection.delete (pricingGroups st1) id in
    Ok (with_pricingGroups groups st1, r).

(** The accounts the statistics and the assignment views count for a
    group: those assigned to it in the direction of the group. *)
Definition assignedTo (group : PricingGroup.t) (id : string) (a : Account.t)
  : bool :=
  if direction_eqb (PricingGroup.direction group) buy
  then is_id (Account.buyPricingGroupId a) id
  else is_id (Account.sellPricingGroupId a) id.

(** [commodityIds] is a [Set<string>]; only its size is read. *)
Definition getPricingGroupsWithStats (st : Store)
  : list PricingGroupWithStats.t :=
  let groups := getAllPricingGroups st in
  List.fold_left
    (fun result group =>
       let priceLists :=
         Collection.query (priceLists st)
           (fun pl =>
              String.eqb (PriceList.pricingGroupId pl) (PricingGroup.id group)) in
       let commodityIds : gset string :=
         List.fold_left
           (fun (commodityIds : gset string) priceList =>
              let items :=
                Collection.query (priceListItems st)
                  (fun item =>
                     String.eqb (NewPriceListItem.priceListId item)
                       (PriceList.id priceList)) in
              List.fold_left
                (fun (commodityIds : gset string) item =>
                   commodityIds ∪ {[ NewPriceListItem.commodityId item ]})
                items commodityIds)
           priceLists ∅ in
       let accounts :=
         Collection.query (accounts st)
           (assignedTo group (PricingGroup.id group)) in
       result ++
       [PricingGroupWithStats.mk group (length priceLists) (size commodityIds)
          (length accounts)])
    groups [].

(** *** Price list items *)

Definition getAllPriceListItems (st : Store) : list NewPriceListItem.t :=
  Collection.getAll (priceListItems st).

Definition getPriceListItemById (st : Store) (id : string)
  : option NewPriceListItem.t :=
  Collection.getById (priceListItems st) id.

Definition getItemsByPriceList (st : Store) (priceListId : string)
  : list NewPriceListItem.t :=
  Collection.query (priceListItems st)
    (fun item => String.eqb (NewPriceListItem.priceListId item) priceListId).

(** The validation that [updatePriceListItem] runs when the commodity of
    the item changes: the message of the error it throws, if any. *)
Definition commodityChangeError (st : Store) (id : string)
    (existing : NewPriceListItem.t) (data : NewPriceListItemPartial.t)
  : option string :=
  match NewPriceListItemPartial.commodityId data with
  | Some commodityId =>
      if JS.truthy commodityId
         && negb (String.eqb commodityId (NewPriceListItem.commodityId existing))
      then
        let validation :=
          validateCommodityUniqueness st (NewPriceListItem.priceListId existing)
            commodityId (Some id) in
        if negb (valid validation) then Some (conflictMessage validation)
        else None
      else None
  | None => None
  end.

Definition updatePriceListItem (now : string) (st : Store) (id : string)
    (data : NewPriceListItemPartial.t)
  : Result (Store * option NewPriceListItem.t) :=
  match Collection.getById (priceListItems st) id with
  | None => Ok (st, None)
  | Some existing =>
      match commodityChangeError st id existing data with
      | Some message => Throw message
      | None =>
          let merged := NewPriceListItemPartial.spread existing data in
          let updated :=
            NewPriceListItem.mk id (NewPriceListItem.priceListId merged)
              (NewPriceListItem.commodityId merged)
              (NewPriceListItem.price merged) (NewPriceListItem.unit merged)
              (NewPriceListItem.currency merged) (NewPriceListItem.notes merged)
              (NewPriceListItem.createdBy merged)
              (NewPriceListItem.createdAt merged) now in
          let '(items, r) := Collection.update (priceListItems st) id updated in
          Ok (with_priceListItems items st, r)
      end
  end.

Definition deletePriceListItem (st : Store) (id : string) : Store * bool :=
  let '(items, r) := Collection.delete (priceListItems st) id in
  (with_priceListItems items st, r).

(** *** Price resolution for a whole account and a whole group *)

(** [date] defaults to today's date when the caller leaves it out. *)
Definition getPricesForAccount (today : string) (st : Store)
    (accountId : string) (direction : PricingDirection) (date : option string)
  : list CommodityPrice.t :=
  let date := default today date in
  match Collection.getById (accounts st) accountId with
  | None => []
  | Some account =>
      let commodities := Collection.getAll (commodities st) in
      let activeCommodities := List.filter Commodity.isActive commodities in
      List.fold_left
        (fun prices commodity =>
           match getPrice today st accountId (Commodity.id commodity) direction
                   (Some date) with
           | Some price => prices ++ [price]
           | None => prices
           end)
        activeCommodities []
  end.

Definition getResolvedPricesForGroup (today : string) (st : Store)
    (groupId : string) (date : option string) : list CommodityPrice.t :=
  let date := default today date in
  match Collection.getById (pricingGroups st) groupId with
  | None => []
  | Some group =>
      let commodities := Collection.getAll (commodities st) in
      let activeCommodities := List.filter Commodity.isActive commodities in
      List.fold_left
        (fun prices commodity =>
           match findPriceInGroup st groupId commodity date with
           | Some price => prices ++ [price]
           | None => prices
           end)
        activeCommodities []
  end.

(** *** Account assignment *)

Definition getAccountsByPricingGroup (st : Store) (groupId : string)
  : list Account.t :=
  match Collection.getById (pricingGroups st) groupId with
  | None => []
  | Some group => Collection.query (accounts st) (assignedTo group groupId)
  end.

(** Of an account the record keeps the fields the services read; the audit
    field [updatedAt], which the two methods below set as well, is not among
    them. *)
Definition assignAccountToPricingGroup (st : Store) (accountId groupId : string)
  : Store * option Account.t :=
  match Collection.getById (accounts st) accountId with
  | None => (st, None)
  | Some account =>
      match Collection.getById (pricingGroups st) groupId with
      | None => (st, None)
      | Some group =>
          let updated :=
            if direction_eqb (PricingGroup.direction group) buy
            then Account.mk (Account.id account) (Account.name account)
                   (Some groupId) (Account.sellPricingGroupId account)
            else Account.mk (Account.id account) (Account.name account)
                   (Account.buyPricingGroupId account) (Some groupId) in
          let '(accs, r) := Collection.update (accounts st) accountId updated in
          (with_accounts accs st, r)
      end
  end.

Definition removeAccountFromPricingGroup (st : Store) (accountId : string)
    (direction : PricingDirection) : Store * option Account.t :=
  match Collection.getById (accounts st) accountId with
  | None => (st, None)
  | Some account =>
      let updated :=
        if direction_eqb direction buy
        then Account.mk (Account.id account) (Account.name account) None
               (Account.sellPricingGroupId account)
        else Account.mk (Account.id account) (Account.name account)
               (Account.buyPricingGroupId account) None in
      let '(accs, r) := Collection.update (accounts st) accountId updated in
      (with_accounts accs st, r)
  end.

End PriceBook.

(** ** Migration from the legacy price list ([migrateFromLegacyPricing]) *)

Module MigrationResult.
Record t := mk {
  success : bool;
  migratedCount : nat;
  errors : list string
}.
End MigrationResult.

Module Migration.
Import Pricing PriceBook.
Local Open Scope string_scope.

(** The state of the loop over the legacy items.  [used] counts the calls
    of the schema module so far: the call number [k] completes its record
    with the id and the clock of [envs k]. *)
Record Progress := mkProgress {
  store : Store;
  used : nat;
  migratedCount : nat;
  errors : list string
}.

(** One of the two [if] statements of the loop body: the item of one
    direction is created when the price list of that direction was created
    and the legacy price is positive. *)
Definition migrateSide (envs : nat -> Env) (priceList : option PriceList.t)
    (price : float) (legacyItem : PriceListItem.t) (p : Progress)
  : Result Progress :=
  match priceList with
  | Some priceList =>
      if PrimFloat.ltb 0 price
      then
        match createPriceListItem (envs (used p)) (store p)
                (NewPriceListItem.mkData (PriceList.id priceList)
                   (PriceListItem.commodityId legacyItem) price
                   (PriceListItem.unit legacyItem)
                   (PriceListItem.currency legacyItem)
                   (PriceListItem.notes legacyItem)) with
        | Ok (st, _) =>
            Ok (mkProgress st (S (used p)) (S (migratedCount p)) (errors p))
        | Throw message => Throw message
        end
      else Ok p
  | None => Ok p
  end.

(** [`Failed to migrate commodity ${legacyItem.commodityId}: ${err}`], the
    conversion of an [Error] to a string being [Error: ] and its message. *)
Definition failure (legacyItem : PriceListItem.t) (message : string) : string :=
  "Failed to migrate commodity " ++ PriceListItem.commodityId legacyItem
  ++ ": " ++ "Error: " ++ message.

(** The body of the loop: an error of the buy side leaves the [try] block,
    so the sell side of the same item is not attempted. *)
Definition migrateItem (envs : nat -> Env)
    (buyPriceList sellPriceList : option PriceList.t) (p : Progress)
    (legacyItem : PriceListItem.t) : Progress :=
  match migrateSide envs buyPriceList (PriceListItem.buyPrice legacyItem)
          legacyItem p with
  | Throw message =>
      mkProgress (store p) (used p) (migratedCount p)
        (errors p ++ [failure legacyItem message])
  | Ok p1 =>
      match migrateSide envs sellPriceList (PriceListItem.sellPrice legacyItem)
              legacyItem p1 with
      | Throw message =>
          mkProgress (store p1) (used p1) (migratedCount p1)
            (errors p1 ++ [failure legacyItem message])
      | Ok p2 => p2
      end
  end.

Definition buyGroupData : PricingGroup.data :=
  PricingGroup.mkData "Standard Supplier Pricing" buy
    (Some "Default pricing for all suppliers (migrated from legacy)") true true.

Definition sellGroupData : PricingGroup.data :=
  PricingGroup.mkData "Standard Customer Pricing" sell
    (Some "Default pricing for all customers (migrated from legacy)") true true.

Definition migratedList (pricingGroupId name earliestDate : string)
  : PriceListData.t :=
  PriceListData.mk pricingGroupId name earliestDate None
    (Some "Migrated from legacy pricing system") true.

(** [legacyPriceList.map(item => item.effectiveDate).sort()] sorts the
    strings by their code units.  The calls of the outer [try] block throw
    nothing over the collection store, so its [catch] is never entered. *)
Definition migrateFromLegacyPricing (envs : nat -> Env) (today : string)
    (st : Store) (legacyPriceList : list PriceListItem.t)
  : Store * MigrationResult.t :=
  if (length legacyPriceList =? 0)%nat
  then (st, MigrationResult.mk true 0 [])
  else
    let '(st, used, buyDefaultGroup) :=
      match getDefaultPricingGroup st buy with
      | Some g => (st, 0%nat, g)
      | None =>
          let '(st', g) := createPricingGroup (envs 0%nat) st buyGroupData in
          (st', 1%nat, g)
      end in
    let '(st, used, sellDefaultGroup) :=
      match getDefaultPricingGroup st sell with
      | Some g => (st, used, g)
      | None =>
          let '(st', g) := createPricingGroup (envs used) st sellGroupData in
          (st', S used, g)
      end in
    let dates :=
      JS.sort String.compare
        (List.map PriceListItem.effectiveDate legacyPriceList) in
    let earliestDate := JS.or_else (List.head dates) today in
    let existingBuyLists :=
      getPriceListsByGroup st (PricingGroup.id buyDefaultGroup) in
    let existingSellLists :=
      getPriceListsByGroup st (PricingGroup.id sellDefaultGroup) in
    let shouldMigrateBuy := (length existingBuyLists =? 0)%nat in
    let shouldMigrateSell := (length existingSellLists =? 0)%nat in
    let '(st, used, buyPriceList) :=
      if shouldMigrateBuy
      then
        let '(st', pl) :=
          createPriceList (envs used) st
            (migratedList (PricingGroup.id buyDefaultGroup)
               "Migrated Buy Prices" earliestDate) in
        (st', S used, Some pl)
      else (st, used, None) in
    let '(st, used, sellPriceList) :=
      if shouldMigrateSell
      then
        let '(st', pl) :=
          createPriceList (envs used) st
            (migratedList (PricingGroup.id sellDefaultGroup)
               "Migrated Sell Prices" earliestDate) in
        (st', S used, Some pl)
      else (st, used, None) in
    let p :=
      List.fold_left (migrateItem envs buyPriceList sellPriceList)
        legacyPriceList (mkProgress st used 0 []) in
    (store p,
     MigrationResult.mk (length (errors p) =? 0)%nat (migratedCount p)
       (errors p)).

(** [legacyItems] is the content of the legacy collection, which the store
    record does not hold. *)
Definition needsLegacyMigration (st : Store) (legacyItems : list PriceListItem.t)
  : bool :=
  if (length legacyItems =? 0)%nat then false
  else
    let newItems := Collection.getAll (priceListItems st) in
    if (0 <? length newItems)%nat then false else true.

End Migration.

(** ** The rest of the inventory service ([services/inventoryService.ts]) *)

Inductive WarningType := negative | low | oversold.

Module PositionWarning.
Record t {N : Type} := mk {
  commodityId : string;
  commodityCode : option string;
  commodityName : option string;
  locationId : option string;
  locationName : option string;
  warningType : WarningType;
  currentPosition : N;
  projectedPosition : N;
  shortfallDate : option string;
  shortfallAmount : option N;
  unit : Unit
}.
Arguments t : clear implicits.
Arguments mk {N}.
End PositionWarning.

Module Stock.
Import Inventory.

(** [Set.prototype.add]: a set of strings keeps its members in the order of
    their first insertion, which is the order [Array.from] reads them in. *)
Definition set_add (x : string) (s : list string) : list string :=
  if List.existsb (String.eqb x) s then s else s ++ [x].

Section Service.
Context {N : Type} `{Number N}.

Definition getCommoditiesWithMovements (st : Store (N := N)) : list string :=
  let adjustments := Collection.getAll (inventoryAdjustments st) in
  let commodityIds :=
    List.fold_left
      (fun ids adj => set_add (InventoryAdjustment.commodityId adj) ids)
      adjustments [] in
  let pos :=
    Collection.query (purchaseOrders st)
      (fun po => status_is_open (PurchaseOrder.status po)) in
  let commodityIds :=
    List.fold_left
      (fun ids po =>
         List.fold_left
           (fun ids item => set_add (OrderLineItem.commodityId item) ids)
           (PurchaseOrder.lineItems po) ids)
      pos commodityIds in
  let sos :=
    Collection.query (salesOrders st)
      (fun so => status_is_open (SalesOrder.status so)) in
  let commodityIds :=
    List.fold_left
      (fun ids so =>
         List.fold_left
           (fun ids item => set_add (OrderLineItem.commodityId item) ids)
           (SalesOrder.lineItems so) ids)
      sos commodityIds in
  commodityIds.

(** The comparator of [getPositions]: the names are arbitrary text, so the
    collation of the host, [localeCompare], is an argument. *)
Definition byCommodityName (localeCompare : string -> string -> comparison)
    (a b : Position.t N) : comparison :=
  localeCompare (JS.or_else (Position.commodityName a) "")
    (JS.or_else (Position.commodityName b) "").

Definition getPositions (localeCompare : string -> string -> comparison)
    (today : string) (st : Store) (locationId : option string)
  : list (Position.t N) :=
  let commodities := Collection.query (commodities st) Commodity.isActive in
  let positions :=
    List.fold_left
      (fun positions commodity =>
         let currentInventory :=
           getCurrentInventory st (Commodity.id commodity) locationId in
         let incoming :=
           total (calculateIncoming today st (Commodity.id commodity)
                    locationId None) in
         let outgoing :=
           total (calculateOutgoing today st (Commodity.id commodity)
                    locationId None) in
         let netPosition := n_sub (n_add currentInventory incoming) outgoing in
         positions ++
         [Position.mk (positionId (Commodity.id commodity) locationId)
            (Commodity.id commodity) (Some (Commodity.code commodity))
            (Some (Commodity.name commodity)) locationId
            (if JS.truthy_opt locationId then None else Some "Company-Wide"%string)
            currentInventory incoming outgoing netPosition
            (Commodity.defaultUnit commodity)])
      commodities [] in
  JS.sort (byCommodityName localeCompare) positions.

(** [x === 0] on numbers holds exactly when [x <= 0] and [0 <= x] (for
    [0] and [-0], not for [NaN]). *)
Definition is_zero (x : N) : bool := n_le x n_zero && n_le n_zero x.


(** *** Inventory adjustments *)

Definition byAdjustmentDateDesc (a b : InventoryAdjustment.t N) : comparison :=
  JS.localeCompare (InventoryAdjustment.adjustmentDate b)
    (InventoryAdjustment.adjustmentDate a).

(** Modelled from the spec: the array that [getAll] returns is the caller's
    own (the store is a persisted one), so sorting it in place leaves the
    store as it is. *)
Definition getAdjustments (st : Store) (commodityId locationId : option string)
  : list (InventoryAdjustment.t N) :=
  let adjustments := Collection.getAll (inventoryAdjustments st) in
  let adjustments :=
    match commodityId with
    | Some c =>
        if JS.truthy c
        then List.filter
               (fun adj => String.eqb (InventoryAdjustment.commodityId adj) c)
               adjustments
        else adjustments
    | None => adjustments
    end in
  let adjustments :=
    match locationId with
    | Some l =>
        if JS.truthy l
        then List.filter
               (fun adj => negb (differs (InventoryAdjustment.locationId adj) l))
               adjustments
        else adjustments
    | None => adjustments
    end in
  JS.sort byAdjustmentDateDesc adjustments.

Definition getAdjustmentById (st : Store (N := N)) (id : string)
  : option (InventoryAdjustment.t N) :=
  Collection.getById (inventoryAdjustments st) id.

Definition deleteAdjustment (st : Store (N := N)) (id : string)
  : Store (N := N) * bool :=
  let '(adjs, r) := Collection.delete (inventoryAdjustments st) id in
  (with_inventoryAdjustments adjs st, r).

End Service.
End Stock.

(** ** Notions the statements on the rest of the services are phrased with *)

Module Rules.

(** An account is assigned to the group, for either direction. *)
Definition assigned (st : Pricing.Store) (groupId : string) : Prop :=
  exists a,
    In a (Pricing.accounts st)
    /\ (Account.buyPricingGroupId a = Some groupId
        \/ Account.sellPricingGroupId a = Some groupId).

(** The accounts assigned to the group, for either direction. *)
Definition assignedAccounts (st : Pricing.Store) (groupId : string)
  : list Account.t :=
  List.filter
    (fun a =>
       bool_decide (Account.buyPricingGroupId a = Some groupId
                    \/ Account.sellPricingGroupId a = Some groupId))
    (Pricing.accounts st).

(** The loop of [deletePricingGroup] over the price lists [ds]. *)
Definition deleteLists (ds : list PriceList.t) (st : Pricing.Store)
  : Pricing.Store :=
  List.fold_left
    (fun st priceList =>
       fst (PriceBook.deletePriceList st (PriceList.id priceList)))
    ds st.

Definition groupStored (st : Pricing.Store) (groupId : string) : Prop :=
  exists g, In g (Pricing.pricingGroups st) /\ PricingGroup.id g = groupId.

Definition listStored (st : Pricing.Store) (priceListId : string) : Prop :=
  exists pl, In pl (Pricing.priceLists st) /\ PriceList.id pl = priceListId.

(** Every reference of the price book names a stored record: an item its
    price list, a price list its group, an assignment of an account its
    group. *)
Definition referencesResolve (st : Pricing.Store) : Prop :=
  (forall item,
      In item (Pricing.priceListItems st) ->
      listStored st (NewPriceListItem.priceListId item))
  /\ (forall pl,
         In pl (Pricing.priceLists st) ->
         groupStored st (PriceList.pricingGroupId pl))
  /\ (forall a groupId,
         In a (Pricing.accounts st) ->
         Account.buyPricingGroupId a = Some groupId
         \/ Account.sellPricingGroupId a = Some groupId ->
         groupStored st groupId).

(** An item other than the one stored under [itemId] prices the commodity
    in the price list. *)
Definition holdsBesides (st : Pricing.Store)
    (itemId priceListId commodityId : string) : Prop :=
  exists item,
    In item (Pricing.priceListItems st)
    /\ NewPriceListItem.priceListId item = priceListId
    /\ NewPriceListItem.commodityId item = commodityId
    /\ NewPriceListItem.id item <> itemId.

(** [Notions.conflicts], the item stored under [itemId] left aside. *)
Definition conflictsBesides (st : Pricing.Store) (itemId : string)
    (target : PriceList.t) (commodityId : string) : Prop :=
  (exists other,
      In other (Pricing.priceLists st)
      /\ PriceList.pricingGroupId other = PriceList.pricingGroupId target
      /\ PriceList.id other <> PriceList.id target
      /\ Notions.rangesOverlap target other
      /\ holdsBesides st itemId (PriceList.id other) commodityId)
  \/ holdsBesides st itemId (PriceList.id target) commodityId.

(** The update names a commodity (not the empty string) other than the one
    of the item. *)
Definition changesCommodity (existing : NewPriceListItem.t)
    (data : NewPriceListItemPartial.t) (commodityId : string) : Prop :=
  NewPriceListItemPartial.commodityId data = Some commodityId
  /\ commodityId <> ""%string
  /\ commodityId <> NewPriceListItem.commodityId existing.

Definition opposite (d : PricingDirection) : PricingDirection :=
  match d with
  | buy => sell
  | sell => buy
  end.

(** The price the default group of the direction yields. *)
Definition defaultPrice (st : Pricing.Store) (commodity : Commodity.t)
    (direction : PricingDirection) (date : string) : option CommodityPrice.t :=
  match Pricing.getDefaultPricingGroup st direction with
  | Some defaultGroup =>
      Pricing.findPriceInGroup st (PricingGroup.id defaultGroup) commodity date
  | None => None
  end.

(** Two items compete when they price the same commodity in the same
    price list, or in two price lists of one group whose date ranges
    overlap.  The price list of an item is the one stored under its
    [priceListId]. *)
Definition compete (st : Pricing.Store) (a b : NewPriceListItem.t) : Prop :=
  NewPriceListItem.commodityId a = NewPriceListItem.commodityId b
  /\ exists la lb,
      Collection.getById (Pricing.priceLists st) (NewPriceListItem.priceListId a)
      = Some la
      /\ Collection.getById (Pricing.priceLists st)
           (NewPriceListItem.priceListId b) = Some lb
      /\ PriceList.pricingGroupId la = PriceList.pricingGroupId lb
      /\ (PriceList.id la = PriceList.id lb \/ Notions.rangesOverlap la lb).

(** No two stored items compete. *)
Definition pricesUnique (st : Pricing.Store) : Prop :=
  forall (i j : nat) (a b : NewPriceListItem.t),
    (i < j)%nat ->
    Pricing.priceListItems st !! i = Some a ->
    Pricing.priceListItems st !! j = Some b ->
    ~ compete st a b.

(** What the loop of the migration does to its state: it adds items behind
    the stored ones, counts each of them, adds error messages, and leaves
    groups, price lists, accounts and commodities alone. *)
Definition migrated (p0 p : Migration.Progress) : Prop :=
  Pricing.pricingGroups (Migration.store p)
  = Pricing.pricingGroups (Migration.store p0)
  /\ Pricing.priceLists (Migration.store p)
     = Pricing.priceLists (Migration.store p0)
  /\ Pricing.accounts (Migration.store p) = Pricing.accounts (Migration.store p0)
  /\ Pricing.commodities (Migration.store p)
     = Pricing.commodities (Migration.store p0)
  /\ (exists new,
         Pricing.priceListItems (Migration.store p)
         = Pricing.priceListItems (Migration.store p0) ++ new
         /\ Migration.migratedCount p
            = (Migration.migratedCount p0 + length new)%nat)
  /\ (exists messages,
         Migration.errors p = Migration.errors p0 ++ messages).

(** Both directions have a default group that owns a price list: the state
    in which the migration creates nothing. *)
Definition migrationDone (st : Pricing.Store) : Prop :=
  forall d,
    exists g pl,
      Pricing.getDefaultPricingGroup st d = Some g
      /\ In pl (Pricing.priceLists st)
      /\ PriceList.pricingGroupId pl = PricingGroup.id g.

(** The counter an adjustment number carries: the number behind the first
    [ADJ-] that is followed by a digit. *)
Definition counterOf (adjustmentNumber : string) : option Z :=
  option_map Inventory.parseInt
    (Inventory.matchAdjustmentNumber adjustmentNumber).

(** The counters of the stored adjustments are integers a [number] holds
    exactly, with room for the next one. *)
Definition countersExact {N} (st : Inventory.Store (N := N)) : Prop :=
  forall adj k,
    In adj (Inventory.inventoryAdjustments st) ->
    counterOf (InventoryAdjustment.adjustmentNumber adj) = Some k ->
    k < 2 ^ 53.

(** The adjustment belongs to the ledger of the commodity and the location;
    an absent or empty filter lets every adjustment through. *)
Definition inLedger {N} (commodityId locationId : option string)
    (adj : InventoryAdjustment.t N) : bool :=
  match commodityId with
  | Some c => String.eqb c "" || String.eqb (InventoryAdjustment.commodityId adj) c
  | None => true
  end
  && match locationId with
     | Some l =>
         String.eqb l ""
         || bool_decide (InventoryAdjustment.locationId adj = Some l)
     | None => true
     end.

(** The adjustment is dated [k]. *)
Definition datedOn {N} (k : string) (adj : InventoryAdjustment.t N) : bool :=
  String.eqb (InventoryAdjustment.adjustmentDate adj) k.

(** [a] is not dated before [b]. *)
Definition notBefore {N} (a b : InventoryAdjustment.t N) : Prop :=
  JS.str_le (InventoryAdjustment.adjustmentDate b)
    (InventoryAdjustment.adjustmentDate a).

(** The sum of the quantities of a list of adjustments. *)
Definition ledgerSum (adjs : list (InventoryAdjustment.t Z)) : Z :=
  List.fold_right (fun adj s => InventoryAdjustment.quantity adj + s) 0 adjs.

(** The net position of a commodity: what is on hand, plus what the open
    purchase orders still bring, minus what the open sales orders still
    take. *)
Definition netOf {N} `{Number N} (today : string)
    (st : Inventory.Store (N := N)) (commodityId : string)
    (locationId : option string) : N :=
  n_sub
    (n_add (Inventory.getCurrentInventory st commodityId locationId)
       (Inventory.total
          (Inventory.calculateIncoming today st commodityId locationId None)))
    (Inventory.total
       (Inventory.calculateOutgoing today st commodityId locationId None)).

(** The names of two positions are in the order of the collation. *)
Definition byName {N} (localeCompare : string -> string -> comparison)
    (a b : Position.t N) : Prop :=
  localeCompare (JS.or_else (Position.commodityName a) "")
    (JS.or_else (Position.commodityName b) "") <> Gt.

(** The commodity appears in the ledger or on a line of an order that is
    neither voided nor closed. *)
Definition mentioned {N} (st : Inventory.Store (N := N)) (commodityId : string)
  : Prop :=
  (exists adj,
      In adj (Inventory.inventoryAdjustments st)
      /\ InventoryAdjustment.commodityId adj = commodityId)
  \/ (exists po item,
         In po (Inventory.purchaseOrders st)
         /\ status_is_open (PurchaseOrder.status po) = true
         /\ In item (PurchaseOrder.lineItems po)
         /\ OrderLineItem.commodityId item = commodityId)
  \/ (exists so item,
         In so (Inventory.salesOrders st)
         /\ status_is_open (SalesOrder.status so) = true
         /\ In item (SalesOrder.lineItems so)
         /\ OrderLineItem.commodityId item = commodityId).

(** A pending movement of the commodity: an incoming one of a purchase
    order, with a positive quantity, or an outgoing one of a sales order,
    with a negative quantity. *)
Definition pendingMovement (commodityId : string) (m : InventoryMovement.t Z)
  : Prop :=
  InventoryMovement.commodityId m = commodityId
  /\ InventoryMovement.status m = MovementStatus.pending
  /\ (InventoryMovement.type m = po_incoming
      /\ InventoryMovement.sourceType m = SourceType.purchaseOrder
      /\ 0 < InventoryMovement.quantity m
      \/ InventoryMovement.type m = so_outgoing
         /\ InventoryMovement.sourceType m = SourceType.salesOrder
         /\ InventoryMovement.quantity m < 0).

(** The movement is expected within the range; an absent or empty bound
    does not bind. *)
Definition within {N} (startDate endDate : option string)
    (m : InventoryMovement.t N) : bool :=
  match startDate with
  | Some s => String.eqb s "" || String.leb s (InventoryMovement.expectedDate m)
  | None => true
  end
  && match endDate with
     | Some e => String.eqb e "" || String.leb (InventoryMovement.expectedDate m) e
     | None => true
     end.

(** [a] is not expected after [b]. *)
Definition notAfter {N} (a b : InventoryMovement.t N) : Prop :=
  JS.str_le (InventoryMovement.expectedDate a) (InventoryMovement.expectedDate b).

(** A decimal digit. *)
Definition isDigit (c : ascii) : bool :=
  (48 <=? nat_of_ascii c)%nat && (nat_of_ascii c <=? 57)%nat.

(** The string has the form [YYYY-MM-DD].  Two strings of this form are
    ordered alike by the code units and by every collation of the host, for
    they differ first in a digit. *)
Definition isoDate (s : string) : bool :=
  match list_ascii_of_string s with
  | [y1; y2; y3; y4; h1; m1; m2; h2; d1; d2] =>
      isDigit y1 && isDigit y2 && isDigit y3 && isDigit y4
      && Ascii.eqb h1 "-"%char
      && isDigit m1 && isDigit m2
      && Ascii.eqb h2 "-"%char
      && isDigit d1 && isDigit d2
  | _ => false
  end.

(** [xs.reduce((sum, x) => sum + x, 0)]: the sum taken from the left, in
    the arithmetic of the host. *)
Definition runningSum {N} `{Number N} (xs : list N) : N :=
  List.fold_left n_add xs n_zero.

(** Consecutive entries of a timeline, in the arithmetic of the host: each
    position is the one before it plus the difference of the incoming and
    the outgoing of the entry. *)
Fixpoint running {N} `{Number N} (previous : N)
    (timeline : list (PositionTimelineEntry.t N)) : Prop :=
  match timeline with
  | [] => True
  | e :: rest =>
      PositionTimelineEntry.position e
      = n_add previous
          (n_sub (PositionTimelineEntry.incoming e)
             (PositionTimelineEntry.outgoing e))
      /\ running (PositionTimelineEntry.position e) rest
  end.

(** The magnitudes of a list of integers, added up. *)
Definition magnitudeOf (qs : list Z) : Z :=
  List.fold_right (fun q s => Z.abs q + s) 0 qs.

(** The quantities of the ledger are integers whose magnitudes add up to at
    most 2^53: every sum of some of them, in whatever order, is an integer a
    [number] holds exactly. *)
Definition ledgerExact (st : Inventory.Store (N := Z)) : Prop :=
  magnitudeOf
    (List.map InventoryAdjustment.quantity (Inventory.inventoryAdjustments st))
  <= 2 ^ 53.

(** The quantities a line of an order carries: the ordered one and the one
    already received or shipped, [done]. *)
Definition lineQuantities (done : OrderLineItem.t Z -> option Z)
    (items : list (OrderLineItem.t Z)) : list Z :=
  List.flat_map
    (fun item => [OrderLineItem.quantity item; n_or_zero (done item)]) items.

(** Every quantity the store holds: those of the ledger and those of the
    lines of the purchase and the sales orders. *)
Definition quantitiesOf (st : Inventory.Store (N := Z)) : list Z :=
  List.map InventoryAdjustment.quantity (Inventory.inventoryAdjustments st)
  ++ List.flat_map
       (fun po =>
          lineQuantities OrderLineItem.receivedQuantity (PurchaseOrder.lineItems po))
       (Inventory.purchaseOrders st)
  ++ List.flat_map
       (fun so =>
          lineQuantities OrderLineItem.shippedQuantity (SalesOrder.lineItems so))
       (Inventory.salesOrders st).

(** The quantities of the store are integers whose magnitudes add up to at
    most 2^53: the pending quantities, the totals and the positions the
    service computes from them are then integers a [number] holds exactly,
    and no sum or difference is rounded. *)
Definition quantitiesExact (st : Inventory.Store (N := Z)) : Prop :=
  magnitudeOf (quantitiesOf st) <= 2 ^ 53.

(** The calls of the pricing service that write to the store.  A call that
    throws leaves the store as it is. *)
Inductive BookCall :=
| CreateGroup (env : Env) (data : PricingGroup.data)
| UpdateGroup (now id : string) (data : PricingGroup.partial)
| SetAsDefault (now id : string)
| DeleteGroup (id : string)
| CreateList (env : Env) (data : PriceListData.t)
| UpdateList (now id : string) (data : PriceListPartial.t)
| DeleteList (id : string)
| CreateItem (env : Env) (data : NewPriceListItem.data)
| UpdateItem (now id : string) (data : NewPriceListItemPartial.t)
| DeleteItem (id : string)
| Assign (accountId groupId : string)
| Remove (accountId : string) (direction : PricingDirection).

Definition runBookCall (st : Pricing.Store) (c : BookCall) : Pricing.Store :=
  match c with
  | CreateGroup env data => fst (Pricing.createPricingGroup env st data)
  | UpdateGroup now id data => fst (Pricing.updatePricingGroup now st id data)
  | SetAsDefault now id => fst (Pricing.setAsDefault now st id)
  | DeleteGroup id =>
      match PriceBook.deletePricingGroup st id with
      | Ok (st', _) => st'
      | Throw _ => st
      end
  | CreateList env data => fst (PriceBook.createPriceList env st data)
  | UpdateList now id data => fst (PriceBook.updatePriceList now st id data)
  | DeleteList id => fst (PriceBook.deletePriceList st id)
  | CreateItem env data =>
      match Pricing.createPriceListItem env st data with
      | Ok (st', _) => st'
      | Throw _ => st
      end
  | UpdateItem now id data =>
      match PriceBook.updatePriceListItem now st id data with
      | Ok (st', _) => st'
      | Throw _ => st
      end
  | DeleteItem id => fst (PriceBook.deletePriceListItem st id)
  | Assign accountId groupId =>
      fst (PriceBook.assignAccountToPricingGroup st accountId groupId)
  | Remove accountId direction =>
      fst (PriceBook.removeAccountFromPricingGroup st accountId direction)
  end.

Definition runBookCalls (st : Pricing.Store) (cs : list BookCall)
  : Pricing.Store :=
  List.fold_left runBookCall cs st.

(** The three calls that take a reference from the caller without looking
    it up name a stored record: the group of a created price list, the
    group an update moves a price list to, the price list an update moves
    an item to. *)
Definition namesStored (st : Pricing.Store) (c : BookCall) : Prop :=
  match c with
  | CreateList _ data => groupStored st (PriceListData.pricingGroupId data)
  | UpdateList _ _ data =>
      forall groupId,
        PriceListPartial.pricingGroupId data = Some groupId ->
        groupStored st groupId
  | UpdateItem _ _ data =>
      forall priceListId,
        NewPriceListItemPartial.priceListId data = Some priceListId ->
        listStored st priceListId
  | _ => True
  end.

Fixpoint eachNamesStored (st : Pricing.Store) (cs : list BookCall) : Prop :=
  match cs with
  | [] => True
  | c :: rest => namesStored st c /\ eachNamesStored (runBookCall st c) rest
  end.

End Rules.

(** ** Further stores and calls used in the examples *)

Module Samples.
Local Open Scope string_scope.
#[local] Set Warnings "-inexact-float".

Definition env2 : Env := mkEnv "id-2" "2024-03-02T09:00:00.000Z" "Current User".

Definition aluminium : NewPriceListItem.data :=
  NewPriceListItem.mkData "B" "AL-6061" 0.75%float LB USD None.

Definition itemC : NewPriceListItem.t :=
  NewPriceListItem.mk "i3" "B" "AL-6061" 0.75%float LB USD None "u" "t0" "t0".

(** List A prices the copper, the overlapping list B of the same group the
    aluminium. *)
Definition mixedStore : Pricing.Store :=
  Pricing.mkStore [Examples.groupG; Examples.groupH]
    [Examples.listA; Examples.listB] [Examples.itemA; itemC] [Examples.acme]
    [Examples.copper].

(** An account assigned to the group G for the buy direction. *)
Definition loyal : Account.t := Account.mk "loyal" "Loyal" (Some "G") None.

Definition loyalStore : Pricing.Store :=
  Pricing.mkStore [Examples.groupG; Examples.groupH]
    [Examples.listA; Examples.listB] [Examples.itemA; itemC]
    [Examples.acme; loyal] [Examples.copper].

(** The update turns the item into a price for the copper. *)
Definition toCopper : NewPriceListItemPartial.t :=
  NewPriceListItemPartial.mk None None (Some "CU-BARE") None None None None None
    None None.

(** The update sets a new price and tries to set another id. *)
Definition reprice : NewPriceListItemPartial.t :=
  NewPriceListItemPartial.mk (Some "i9") None None (Some 0.8%float) None None
    None None None None.

(** The legacy price list: the copper twice, and the aluminium with a sell
    price only. *)
Definition legacyItems : list PriceListItem.t :=
  [PriceListItem.mk "l1" "CU-BARE" 3.5%float 4%float LB USD "2024-02-01" None None;
   PriceListItem.mk "l2" "CU-BARE" 3.25%float 4.5%float LB USD "2024-01-15" None
     None;
   PriceListItem.mk "l3" "AL-6061" 0%float 0.9%float LB USD "2024-03-01" None None].

(** The schema module hands out the ids [id-0], [id-1], ... *)
Definition envs (k : nat) : Env :=
  mkEnv ("id-" ++ Inventory.toString (Z.of_nat k)) "2024-03-02T09:00:00.000Z"
    "Current User".

Definition emptyStore : Pricing.Store := Pricing.mkStore [] [] [] [] [].

(** The yard after a second count, of 50 LB on 2024-02-01. *)
Definition recounted : Inventory.Store (N := Z) :=
  Inventory.mkStore [Examples.hms1] [Examples.purchase] [Examples.sale] []
    [Examples.counted 1000%Z;
     InventoryAdjustment.mk "adj-2" "ADJ-0002" "HMS1" None None None None count
       50%Z LB None "2024-02-01" "Current User" "t0" "t0"].


Definition autumn : PriceListData.t :=
  PriceListData.mk "G" "Autumn" "2024-09-01" None None true.

(** The group H cannot be deleted while the account is assigned to it; once
    the assignment is removed it can; then a price list goes and another
    one is created. *)
Definition bookCalls : list Rules.BookCall :=
  [Rules.DeleteGroup "H";
   Rules.Remove "acme" buy;
   Rules.DeleteGroup "H";
   Rules.DeleteList "A";
   Rules.CreateList env2 autumn].

End Samples.

(** * Facts *)

(** ** The store *)

Section CollectionFacts.
Context {T : Type} `{Keyed T}.

Lemma getById_Some (c : list T) (id : string) (r : T) :
  Collection.getById c id = Some r -> In r c /\ key r = id.
Proof.
  unfold Collection.getById. intros Hf.
  apply find_some in Hf. destruct Hf as [Hin Hk].
  split; [exact Hin | now apply String.eqb_eq].
Qed.

Lemma getById_None (c : list T) (id : string) :
  Collection.getById c id = None -> forall r, In r c -> key r <> id.
Proof.
  unfold Collection.getById. intros Hf r Hin Hk.
  pose proof (find_none _ _ Hf r Hin) as Hn. cbv beta in Hn.
  rewrite Hk, String.eqb_refl in Hn. discriminate.
Qed.

Lemma getById_replace (c : list T) (id : string) (e r : T) :
  Collection.getById c id = Some e -> key r = id ->
  Collection.getById (List.map (Collection.replace id r) c) id = Some r.
Proof.
  unfold Collection.getById. intros Hf Hk.
  induction c as [|x c IH]; simpl in *; [discriminate|].
  unfold Collection.replace at 1 2.
  destruct (String.eqb (key x) id) eqn:E.
  - rewrite Hk, String.eqb_refl. reflexivity.
  - rewrite E. apply IH. exact Hf.
Qed.

Lemma getById_replace_other (c : list T) (id id' : string) (r : T) :
  key r = id -> id' <> id ->
  Collection.getById (List.map (Collection.replace id r) c) id'
  = Collection.getById c id'.
Proof.
  unfold Collection.getById. intros Hk Hne.
  induction c as [|x c IH]; simpl; [reflexivity|].
  unfold Collection.replace at 1 2.
  destruct (String.eqb (key x) id) eqn:E.
  - apply String.eqb_eq in E.
    rewrite Hk, E.
    destruct (String.eqb id id') eqn:E'.
    + apply String.eqb_eq in E'. congruence.
    + exact IH.
  - destruct (String.eqb (key x) id'); [reflexivity | exact IH].
Qed.
End CollectionFacts.

(** ** The order of strings *)

Lemma ascii_compare_refl (c : ascii) : Ascii.compare c c = Eq.
Proof. unfold Ascii.compare. apply N.compare_refl. Qed.

Lemma ascii_compare_trans (a b c : ascii) (r : comparison) :
  Ascii.compare a b = r -> Ascii.compare b c = r -> Ascii.compare a c = r.
Proof.
  unfold Ascii.compare. destruct r; intros H1 H2.
  - apply N.compare_eq_iff in H1, H2. apply N.compare_eq_iff. congruence.
  - apply N.compare_lt_iff in H1. apply N.compare_lt_iff in H2.
    apply N.compare_lt_iff. eapply N.lt_trans; eassumption.
  - apply N.compare_gt_iff in H1. apply N.compare_gt_iff in H2.
    apply N.compare_gt_iff. eapply N.lt_trans; eassumption.
Qed.

Lemma str_le_trans (a b c : string) : JS.str_le a b -> JS.str_le b c -> JS.str_le a c.
Proof.
  unfold JS.str_le. revert b c.
  induction a as [|x a IH]; intros [|y b] [|z c]; simpl; try congruence.
  destruct (Ascii.compare x y) eqn:Exy.
  - apply Ascii.compare_eq_iff in Exy. subst y.
    destruct (Ascii.compare x z) eqn:Exz; try congruence.
    apply IH.
  - intros _. destruct (Ascii.compare y z) eqn:Eyz.
    + apply Ascii.compare_eq_iff in Eyz. subst z. rewrite Exy. congruence.
    + rewrite (ascii_compare_trans x y z Lt Exy Eyz). congruence.
    + congruence.
  - congruence.
Qed.

Lemma str_le_leb (a b : string) : JS.str_le a b <-> String.leb a b = true.
Proof.
  unfold JS.str_le, String.leb. destruct (String.compare a b); split; congruence.
Qed.

(** ** Sorting *)

Section SortFacts.
Context {T : Type} (cmp : T -> T -> comparison).

Lemma insert_perm (x : T) (l : list T) : Permutation (JS.insert cmp x l) (x :: l).
Proof.
  induction l as [|y l IH]; simpl; [reflexivity|].
  destruct (cmp x y); try reflexivity.
  rewrite IH. apply perm_swap.
Qed.

Lemma sort_perm (l : list T) : Permutation (JS.sort cmp l) l.
Proof.
  induction l as [|x l IH]; simpl; [reflexivity|].
  rewrite insert_perm. now constructor.
Qed.

Lemma sort_In (l : list T) (x : T) : In x (JS.sort cmp l) <-> In x l.
Proof.
  split; apply Permutation_in; [apply sort_perm | symmetry; apply sort_perm].
Qed.

(** Elements the comparator does not tell apart keep their order. *)
Lemma insert_filter (p : T -> bool) (x : T) (l : list T) :
  (forall a b, p a = true -> p b = true -> cmp a b = Eq) ->
  List.filter p (JS.insert cmp x l) = List.filter p (x :: l).
Proof.
  intros Hp. induction l as [|y l IH]; simpl; [reflexivity|].
  destruct (cmp x y) eqn:E; try reflexivity.
  simpl. rewrite IH. simpl.
  destruct (p x) eqn:Ex, (p y) eqn:Ey; try reflexivity.
  rewrite (Hp x y Ex Ey) in E. discriminate.
Qed.

Lemma sort_filter (p : T -> bool) (l : list T) :
  (forall a b, p a = true -> p b = true -> cmp a b = Eq) ->
  List.filter p (JS.sort cmp l) = List.filter p l.
Proof.
  intros Hp. induction l as [|x l IH]; simpl; [reflexivity|].
  rewrite (insert_filter p x _ Hp). simpl. now rewrite IH.
Qed.

Hypothesis cmp_antisym : forall a b, cmp a b = CompOpp (cmp b a).
Hypothesis cmp_trans :
  forall a b c, cmp a b <> Gt -> cmp b c <> Gt -> cmp a c <> Gt.

Lemma insert_sorted (x : T) (l : list T) :
  StronglySorted (JS.inOrder cmp) l -> StronglySorted (JS.inOrder cmp) (JS.insert cmp x l).
Proof.
  induction 1 as [|y l Hs IH Hall]; simpl.
  - constructor; constructor.
  - destruct (cmp x y) eqn:E.
    + constructor; [now constructor|].
      constructor; [unfold JS.inOrder; congruence|].
      eapply List.Forall_impl; [|exact Hall].
      intros z Hz. apply (cmp_trans x y z); [congruence | exact Hz].
    + constructor; [now constructor|].
      constructor; [unfold JS.inOrder; congruence|].
      eapply List.Forall_impl; [|exact Hall].
      intros z Hz. apply (cmp_trans x y z); [congruence | exact Hz].
    + constructor; [exact IH|].
      assert (Hyx : JS.inOrder cmp y x).
      { unfold JS.inOrder. rewrite cmp_antisym, E. discriminate. }
      rewrite List.Forall_forall. intros z Hz.
      apply (Permutation_in _ (insert_perm x l)) in Hz.
      destruct Hz as [<-|Hz]; [exact Hyx|].
      rewrite List.Forall_forall in Hall. now apply Hall.
Qed.

Lemma sort_sorted (l : list T) : StronglySorted (JS.inOrder cmp) (JS.sort cmp l).
Proof.
  induction l as [|x l IH]; simpl; [constructor | now apply insert_sorted].
Qed.
End SortFacts.

(** ** Pricing groups *)

Lemma direction_eqb_eq (a b : PricingDirection) : direction_eqb a b = true <-> a = b.
Proof. destruct a, b; simpl; split; congruence. Qed.

Lemma is_default_for_spec (d : PricingDirection) (g : PricingGroup.t) :
  Pricing.is_default_for d g = true
  <-> PricingGroup.direction g = d /\ PricingGroup.isDefault g = true.
Proof.
  unfold Pricing.is_default_for.
  rewrite andb_true_iff, direction_eqb_eq.
  destruct (PricingGroup.isDefault g); simpl; intuition congruence.
Qed.

Lemma head_filter_Some {T} (p : T -> bool) (l : list T) (x : T) :
  List.head (List.filter p l) = Some x -> In x l /\ p x = true.
Proof.
  induction l as [|y l IH]; simpl; [discriminate|].
  destruct (p y) eqn:E; simpl.
  - intros [= <-]. auto.
  - intros Hx. destruct (IH Hx). auto.
Qed.

Lemma head_filter_None {T} (p : T -> bool) (l : list T) :
  List.head (List.filter p l) = None <-> forall x, In x l -> p x = false.
Proof.
  induction l as [|y l IH]; simpl.
  - split; [intros _ x [] | reflexivity].
  - destruct (p y) eqn:E; simpl.
    + split; [discriminate|]. intros Hall.
      rewrite (Hall y (or_introl eq_refl)) in E. discriminate.
    + rewrite IH. split.
      * intros Hall x [<-|Hx]; auto.
      * intros Hall x Hx. apply Hall. now right.
Qed.

(** C9, as stated, fails: the only default group of the buy direction is
    inactive, no active default exists, and [getDefaultPricingGroup] still
    returns the inactive group. *)
Lemma getDefaultPricingGroup_returns_inactive_group :
  Pricing.getDefaultPricingGroup Examples.retiredStore buy = Some Examples.retired
  /\ PricingGroup.isActive Examples.retired = false
  /\ Pricing.pricingGroups Examples.retiredStore = [Examples.retired].
Proof. repeat split. Qed.

(** C9, amended: [getDefaultPricingGroup d] returns a group only if the group
    is stored, has direction [d] and is flagged as default, whether it is
    active or not; it returns [undefined] exactly when no stored group of
    direction [d] is flagged as default. *)
Theorem getDefaultPricingGroup_flagged (st : Pricing.Store) (d : PricingDirection) :
  (forall g,
      Pricing.getDefaultPricingGroup st d = Some g ->
      In g (Pricing.pricingGroups st)
      /\ PricingGroup.direction g = d
      /\ PricingGroup.isDefault g = true)
  /\ (Pricing.getDefaultPricingGroup st d = None
      <-> forall g,
          In g (Pricing.pricingGroups st) ->
          ~ (PricingGroup.direction g = d /\ PricingGroup.isDefault g = true)).
Proof.
  unfold Pricing.getDefaultPricingGroup, Collection.query. split.
  - intros g Hg. apply head_filter_Some in Hg. destruct Hg as [Hin Hp].
    apply is_default_for_spec in Hp. tauto.
  - rewrite head_filter_None. split; intros Hall g Hin.
    + intros Hp. apply is_default_for_spec in Hp.
      rewrite (Hall g Hin) in Hp. discriminate.
    + destruct (Pricing.is_default_for d g) eqn:E; [|reflexivity].
      apply is_default_for_spec in E. destruct (Hall g Hin E).
Qed.

(** ** Price resolution *)



(** ** Price lists in force and the most recent one *)

Lemma items_of_list_find (st : Pricing.Store) (priceListId commodityId : string) :
  (exists item,
      List.find
        (fun i => String.eqb (NewPriceListItem.commodityId i) commodityId)
        (Collection.query (Pricing.priceListItems st)
           (fun item => String.eqb (NewPriceListItem.priceListId item) priceListId))
      = Some item)
  <-> Notions.holdsCommodity st priceListId commodityId.
Proof.
  unfold Notions.holdsCommodity, Collection.query. split.
  - intros [item Hf]. apply find_some in Hf. destruct Hf as [Hin Hc].
    apply filter_In in Hin. destruct Hin as [Hin Hl].
    apply String.eqb_eq in Hc, Hl. eauto.
  - intros [item (Hin & Hl & Hc)].
    destruct (List.find _ _) as [found|] eqn:Hf; [eauto|].
    exfalso.
    assert (Hin' : In item
              (List.filter
                 (fun item => String.eqb (NewPriceListItem.priceListId item)
                                priceListId)
                 (Pricing.priceListItems st))).
    { apply filter_In. split; [exact Hin | now apply String.eqb_eq]. }
    pose proof (find_none _ _ Hf item Hin') as Hn. cbv beta in Hn.
    rewrite Hc, String.eqb_refl in Hn. discriminate.
Qed.

Lemma inForce_filter (st : Pricing.Store) (groupId date : string) (pl : PriceList.t) :
  In pl (Pricing.getActivePriceListsForDate st groupId date)
  <-> In pl (Pricing.priceLists st) /\ Notions.inForce groupId date pl.
Proof.
  unfold Pricing.getActivePriceListsForDate, Collection.query, Notions.inForce.
  rewrite !filter_In, !andb_true_iff, String.eqb_eq.
  unfold JS.le, JS.lt, JS.truthy_opt, JS.truthy.
  destruct (PriceList.isActive pl); simpl;
    destruct (PriceList.expirationDate pl) as [e|]; simpl.
  - rewrite orb_true_iff, negb_true_iff, negb_false_iff, String.eqb_eq. tauto.
  - tauto.
  - intuition discriminate.
  - intuition discriminate.
Qed.

(** What the loop over the sorted lists returns. *)
Lemma firstListWith_Some (st : Pricing.Store) (group : PricingGroup.t)
    (commodity : Commodity.t) (lists : list PriceList.t) (cp : CommodityPrice.t) :
  Pricing.firstListWith st group commodity lists = Some cp ->
  exists before pl after item,
    lists = before ++ pl :: after
    /\ (forall q, In q before ->
                  ~ Notions.holdsCommodity st (PriceList.id q) (Commodity.id commodity))
    /\ In item (Pricing.priceListItems st)
    /\ NewPriceListItem.priceListId item = PriceList.id pl
    /\ NewPriceListItem.commodityId item = Commodity.id commodity
    /\ CommodityPrice.priceListId cp = PriceList.id pl
    /\ CommodityPrice.effectiveDate cp = PriceList.effectiveDate pl
    /\ CommodityPrice.price cp = NewPriceListItem.price item
    /\ CommodityPrice.pricingGroupId cp = PricingGroup.id group
    /\ CommodityPrice.commodityId cp = Commodity.id commodity.
Proof.
  induction lists as [|pl lists IH]; simpl; [discriminate|].
  destruct (List.find _ _) as [item|] eqn:Hf.
  - intros [= <-]. exists [], pl, lists, item. simpl.
    apply find_some in Hf. destruct Hf as [Hin Hc].
    apply filter_In in Hin. destruct Hin as [Hin Hl].
    apply String.eqb_eq in Hc, Hl.
    repeat split; auto.
  - intros Hrest. destruct (IH Hrest) as (before & pl' & after & item & -> & Hb & Hi).
    exists (pl :: before), pl', after, item. split; [reflexivity|].
    split; [|exact Hi].
    intros q [<-|Hq]; [|now apply Hb].
    intros Hh. apply items_of_list_find in Hh. destruct Hh as [found Hfound].
    rewrite Hfound in Hf. discriminate.
Qed.

Lemma firstListWith_None (st : Pricing.Store) (group : PricingGroup.t)
    (commodity : Commodity.t) (lists : list PriceList.t) :
  Pricing.firstListWith st group commodity lists = None ->
  forall q, In q lists ->
            ~ Notions.holdsCommodity st (PriceList.id q) (Commodity.id commodity).
Proof.
  induction lists as [|pl lists IH]; simpl; [intros _ q []|].
  destruct (List.find _ _) as [item|] eqn:Hf; [discriminate|].
  intros Hrest q [<-|Hq]; [|now apply IH].
  intros Hh. apply items_of_list_find in Hh. destruct Hh as [found Hfound].
  rewrite Hfound in Hf. discriminate.
Qed.

Lemma byEffectiveDateDesc_antisym (a b : PriceList.t) :
  Pricing.byEffectiveDateDesc a b = CompOpp (Pricing.byEffectiveDateDesc b a).
Proof. apply String.compare_antisym. Qed.

Lemma byEffectiveDateDesc_trans (a b c : PriceList.t) :
  Pricing.byEffectiveDateDesc a b <> Gt ->
  Pricing.byEffectiveDateDesc b c <> Gt ->
  Pricing.byEffectiveDateDesc a c <> Gt.
Proof.
  unfold Pricing.byEffectiveDateDesc, JS.localeCompare.
  intros H1 H2. exact (str_le_trans _ _ _ H2 H1).
Qed.

Lemma str_le_refl (a : string) : JS.str_le a a.
Proof.
  unfold JS.str_le. replace (String.compare a a) with Eq; [discriminate|].
  symmetry. induction a as [|c a IH]; simpl; [reflexivity|].
  now rewrite ascii_compare_refl.
Qed.

Lemma StronglySorted_tail {T} (R : T -> T -> Prop) (l1 l2 : list T) :
  StronglySorted R (l1 ++ l2) -> StronglySorted R l2.
Proof.
  induction l1 as [|x l1 IH]; simpl; [auto|].
  intros Hs. apply StronglySorted_inv in Hs. apply IH, Hs.
Qed.

(** C5: when the group exists and the effective dates of its price lists in
    force have the form [YYYY-MM-DD], the price [findPriceInGroup] returns is
    taken from a price list of the group that is active, effective and not
    expired at the date and holds the commodity, and no other such list has
    a later effective date; and a price is returned as soon as one such list
    exists. *)
Theorem findPriceInGroup_most_recent_list
    (st : Pricing.Store) (groupId : string) (group : PricingGroup.t)
    (commodity : Commodity.t) (date : string) :
  Collection.getById (Pricing.pricingGroups st) groupId = Some group ->
  (forall pl,
      In pl (Pricing.priceLists st) ->
      Notions.inForce groupId date pl ->
      Rules.isoDate (PriceList.effectiveDate pl) = true) ->
  (forall cp,
      Pricing.findPriceInGroup st groupId commodity date = Some cp ->
      exists pl item,
        In pl (Pricing.priceLists st)
        /\ Notions.inForce groupId date pl
        /\ In item (Pricing.priceListItems st)
        /\ NewPriceListItem.priceListId item = PriceList.id pl
        /\ NewPriceListItem.commodityId item = Commodity.id commodity
        /\ CommodityPrice.priceListId cp = PriceList.id pl
        /\ CommodityPrice.effectiveDate cp = PriceList.effectiveDate pl
        /\ CommodityPrice.price cp = NewPriceListItem.price item
        /\ (forall pl',
               In pl' (Pricing.priceLists st) ->
               Notions.inForce groupId date pl' ->
               Notions.holdsCommodity st (PriceList.id pl') (Commodity.id commodity) ->
               String.leb (PriceList.effectiveDate pl') (PriceList.effectiveDate pl)
               = true))
  /\ ((exists pl,
          In pl (Pricing.priceLists st)
          /\ Notions.inForce groupId date pl
          /\ Notions.holdsCommodity st (PriceList.id pl) (Commodity.id commodity)) ->
      exists cp, Pricing.findPriceInGroup st groupId commodity date = Some cp).
Proof.
  intros Hg Hdates. unfold Pricing.findPriceInGroup. rewrite Hg.
  set (lists := JS.sort Pricing.byEffectiveDateDesc
                  (Pricing.getActivePriceListsForDate st groupId date)).
  assert (Hin : forall pl, In pl lists
                           <-> In pl (Pricing.priceLists st)
                               /\ Notions.inForce groupId date pl).
  { intros pl. unfold lists. rewrite sort_In. apply inForce_filter. }
  assert (Hsorted : StronglySorted (JS.inOrder Pricing.byEffectiveDateDesc) lists).
  { apply sort_sorted.
    - apply byEffectiveDateDesc_antisym.
    - apply byEffectiveDateDesc_trans. }
  split.
  - intros cp Hcp.
    apply firstListWith_Some in Hcp.
    destruct Hcp as (before & pl & after & item & Hl & Hb & Hi & Hpl & Hc & H1 & H2 & H3 & _).
    assert (Hpl_in : In pl lists) by (rewrite Hl; apply in_elt).
    apply Hin in Hpl_in. destruct Hpl_in as [Hstored Hforce].
    exists pl, item. repeat (split; [assumption|]).
    intros pl' Hstored' Hforce' Hholds.
    assert (Hin' : In pl' lists) by (apply Hin; auto).
    rewrite Hl in Hin', Hsorted.
    apply in_app_or in Hin'. destruct Hin' as [Hbefore|[<-|Hafter]].
    + destruct (Hb pl' Hbefore Hholds).
    + apply str_le_leb, str_le_refl.
    + apply StronglySorted_tail in Hsorted.
      apply StronglySorted_inv in Hsorted. destruct Hsorted as [_ Hall].
      rewrite List.Forall_forall in Hall. apply str_le_leb. exact (Hall pl' Hafter).
  - intros (pl & Hstored & Hforce & Hholds).
    destruct (Pricing.firstListWith st group commodity lists) as [cp|] eqn:Hf;
      [eauto|].
    exfalso. apply (firstListWith_None _ _ _ _ Hf pl); [|exact Hholds].
    apply Hin. auto.
Qed.

(** In the example the lists A and B of group G are both in force on
    2024-05-15 and both hold the commodity; the price comes from B, which
    became effective later. *)
Lemma findPriceInGroup_most_recent_list_witness :
  Collection.getById (Pricing.pricingGroups Examples.twoListsStore) "G"
  = Some Examples.groupG
  /\ List.map (fun pl => Rules.isoDate (PriceList.effectiveDate pl))
       (Pricing.priceLists Examples.twoListsStore)
     = [true; true]
  /\ exists cp,
      Pricing.findPriceInGroup Examples.twoListsStore "G" Examples.copper
        "2024-05-15" = Some cp
      /\ CommodityPrice.priceListId cp = "B"%string
      /\ exists pl item,
          In pl (Pricing.priceLists Examples.twoListsStore)
          /\ Notions.inForce "G" "2024-05-15" pl
          /\ In item (Pricing.priceListItems Examples.twoListsStore)
          /\ NewPriceListItem.priceListId item = PriceList.id pl
          /\ NewPriceListItem.commodityId item = Commodity.id Examples.copper
          /\ CommodityPrice.priceListId cp = PriceList.id pl
          /\ CommodityPrice.effectiveDate cp = PriceList.effectiveDate pl
          /\ CommodityPrice.price cp = NewPriceListItem.price item
          /\ (forall pl',
                 In pl' (Pricing.priceLists Examples.twoListsStore) ->
                 Notions.inForce "G" "2024-05-15" pl' ->
                 Notions.holdsCommodity Examples.twoListsStore (PriceList.id pl')
                   (Commodity.id Examples.copper) ->
                 String.leb (PriceList.effectiveDate pl') (PriceList.effectiveDate pl)
                 = true).
Proof.
  split; [reflexivity|]. split; [reflexivity|].
  eexists. split; [vm_compute; reflexivity|]. split; [reflexivity|].
  refine (proj1 (findPriceInGroup_most_recent_list Examples.twoListsStore "G"
                   Examples.groupG Examples.copper "2024-05-15" eq_refl _) _ _).
  - intros pl [<-|[<-|[]]] _; reflexivity.
  - vm_compute. reflexivity.
Defined.

(** ** Uniqueness of a commodity over overlapping price lists *)

Lemma or_else_effectiveEnd (e : option string) :
  JS.or_else e "9999-12-31" = Notions.effectiveEnd e.
Proof.
  unfold JS.or_else, Notions.effectiveEnd, JS.truthy.
  destruct e as [s|]; [|reflexivity]. now destruct (String.eqb s "").
Qed.

Lemma datesOverlap_spec (a b : PriceList.t) :
  Pricing.datesOverlap (PriceList.effectiveDate a) (PriceList.expirationDate a)
    (PriceList.effectiveDate b) (PriceList.expirationDate b) = true
  <-> Notions.rangesOverlap a b.
Proof.
  unfold Pricing.datesOverlap, Notions.rangesOverlap, JS.le.
  now rewrite !or_else_effectiveEnd, andb_true_iff.
Qed.

Lemma find_new_item (st : Pricing.Store) (priceListId commodityId : string) :
  (exists item,
      List.find
        (fun item =>
           String.eqb (NewPriceListItem.commodityId item) commodityId
           && JS.neq_opt (NewPriceListItem.id item) None)
        (Collection.query (Pricing.priceListItems st)
           (fun item => String.eqb (NewPriceListItem.priceListId item) priceListId))
      = Some item)
  <-> Notions.holdsCommodity st priceListId commodityId.
Proof.
  rewrite <- items_of_list_find.
  assert (Heq : forall l,
             List.find
               (fun item : NewPriceListItem.t =>
                  String.eqb (NewPriceListItem.commodityId item) commodityId
                  && JS.neq_opt (NewPriceListItem.id item) None) l
             = List.find
                 (fun i => String.eqb (NewPriceListItem.commodityId i) commodityId)
                 l).
  { induction l as [|x l IH]; cbn [List.find]; [reflexivity|].
    rewrite IH. unfold JS.neq_opt. now rewrite andb_true_r. }
  now rewrite Heq.
Qed.

Lemma scanOtherLists_Some (st : Pricing.Store) (target : PriceList.t)
    (priceListId commodityId : string) (lists : list PriceList.t)
    (other : PriceList.t) :
  Pricing.scanOtherLists st target priceListId commodityId None lists = Some other ->
  In other lists
  /\ PriceList.id other <> priceListId
  /\ Notions.rangesOverlap target other
  /\ Notions.holdsCommodity st (PriceList.id other) commodityId.
Proof.
  induction lists as [|l lists IH]; cbn [Pricing.scanOtherLists]; [discriminate|].
  destruct (String.eqb (PriceList.id l) priceListId) eqn:Eid.
  { intros Hr. destruct (IH Hr) as (? & ? & ? & ?). split; [now right | auto]. }
  destruct (Pricing.datesOverlap _ _ _ _) eqn:Eov.
  2:{ intros Hr. destruct (IH Hr) as (? & ? & ? & ?). split; [now right | auto]. }
  destruct (List.find _ _) as [item|] eqn:Hf.
  - intros [= <-]. split; [now left|].
    split; [now apply String.eqb_neq|].
    split; [now apply datesOverlap_spec|].
    apply find_new_item. eauto.
  - intros Hr. destruct (IH Hr) as (? & ? & ? & ?). split; [now right | auto].
Qed.

Lemma scanOtherLists_None (st : Pricing.Store) (target : PriceList.t)
    (priceListId commodityId : string) (lists : list PriceList.t) :
  Pricing.scanOtherLists st target priceListId commodityId None lists = None ->
  forall other,
    In other lists ->
    PriceList.id other <> priceListId ->
    Notions.rangesOverlap target other ->
    ~ Notions.holdsCommodity st (PriceList.id other) commodityId.
Proof.
  induction lists as [|l lists IH]; cbn [Pricing.scanOtherLists];
    [intros _ other []|].
  destruct (String.eqb (PriceList.id l) priceListId) eqn:Eid.
  { intros Hr other [<-|Hin] Hne; [|now apply IH].
    apply String.eqb_eq in Eid. contradiction. }
  destruct (Pricing.datesOverlap _ _ _ _) eqn:Eov.
  2:{ intros Hr other [<-|Hin] Hne Hov; [|now apply IH].
      apply datesOverlap_spec in Hov. congruence. }
  destruct (List.find _ _) as [item|] eqn:Hf; [discriminate|].
  intros Hr other [<-|Hin] Hne Hov; [|now apply IH].
  intros Hh. apply find_new_item in Hh. destruct Hh as [found Hfound].
  rewrite Hfound in Hf. discriminate.
Qed.

Lemma current_items_find (st : Pricing.Store) (priceListId commodityId : string) :
  (exists item,
      List.find (fun item => JS.neq_opt (NewPriceListItem.id item) None)
        (Collection.query (Pricing.priceListItems st)
           (fun item =>
              String.eqb (NewPriceListItem.priceListId item) priceListId
              && String.eqb (NewPriceListItem.commodityId item) commodityId))
      = Some item)
  <-> Notions.holdsCommodity st priceListId commodityId.
Proof.
  unfold Notions.holdsCommodity, Collection.query. split.
  - intros [item Hf]. apply find_some in Hf. destruct Hf as [Hin _].
    apply filter_In in Hin. destruct Hin as [Hin Hp].
    apply andb_true_iff in Hp. destruct Hp as [Hl Hc].
    apply String.eqb_eq in Hl, Hc. eauto.
  - intros [item (Hin & Hl & Hc)].
    destruct (List.find _ _) as [found|] eqn:Hf; [eauto|].
    exfalso.
    assert (Hin' : In item
              (List.filter
                 (fun item =>
                    String.eqb (NewPriceListItem.priceListId item) priceListId
                    && String.eqb (NewPriceListItem.commodityId item) commodityId)
                 (Pricing.priceListItems st))).
    { apply filter_In. split; [exact Hin|].
      now rewrite Hl, Hc, !String.eqb_refl. }
    pose proof (find_none _ _ Hf item Hin') as Hn. discriminate.
Qed.

Lemma validateCommodityUniqueness_spec (st : Pricing.Store)
    (priceListId commodityId : string) (target : PriceList.t) :
  Collection.getById (Pricing.priceLists st) priceListId = Some target ->
  Pricing.valid (Pricing.validateCommodityUniqueness st priceListId commodityId None)
  = false
  <-> Notions.conflicts st target commodityId.
Proof.
  intros Ht. unfold Pricing.validateCommodityUniqueness. rewrite Ht.
  destruct (getById_Some _ _ _ Ht) as [_ Hkey]. change (key target) with (PriceList.id target) in Hkey.
  unfold Notions.conflicts.
  destruct (Pricing.scanOtherLists _ _ _ _ _ _) as [other|] eqn:Hscan;
    cbn [Pricing.valid].
  - split; [intros _|reflexivity]. left.
    apply scanOtherLists_Some in Hscan.
    destruct Hscan as (Hin & Hne & Hov & Hh).
    apply filter_In in Hin. destruct Hin as [Hin Hg].
    apply String.eqb_eq in Hg.
    exists other. rewrite Hkey. auto.
  - destruct (List.find _ _) as [item|] eqn:Hf; cbn [Pricing.valid].
    + split; [intros _|reflexivity]. right.
      rewrite Hkey. apply current_items_find. eauto.
    + split; [discriminate|]. intros [(other & Hin & Hg & Hne & Hov & Hh)|Hh].
      * exfalso. rewrite Hkey in Hne.
        apply (scanOtherLists_None _ _ _ _ _ Hscan other); auto.
        apply filter_In. split; [exact Hin | now apply String.eqb_eq].
      * rewrite Hkey in Hh. apply current_items_find in Hh.
        destruct Hh as [found Hfound]. rewrite Hfound in Hf. discriminate.
Qed.

(** C2: for an existing target price list, [createPriceListItem] throws, and
    writes nothing, exactly when another price list of the same pricing group
    with an overlapping date range holds an item for the commodity, or the
    target list itself holds one; otherwise the new item is stored behind the
    items there were and returned. *)
Theorem createPriceListItem_throws_iff_conflict
    (env : Env) (st : Pricing.Store) (data : NewPriceListItem.data)
    (target : PriceList.t) :
  Collection.getById (Pricing.priceLists st) (NewPriceListItem.d_priceListId data)
  = Some target ->
  ((exists message, Pricing.createPriceListItem env st data = Throw message)
   <-> Notions.conflicts st target (NewPriceListItem.d_commodityId data))
  /\ (~ Notions.conflicts st target (NewPriceListItem.d_commodityId data) ->
      exists item,
        Pricing.createPriceListItem env st data
        = Ok (Pricing.with_priceListItems (Pricing.priceListItems st ++ [item]) st,
              item)
        /\ NewPriceListItem.priceListId item = NewPriceListItem.d_priceListId data
        /\ NewPriceListItem.commodityId item = NewPriceListItem.d_commodityId data
        /\ NewPriceListItem.price item = NewPriceListItem.d_price data
        /\ NewPriceListItem.unit item = NewPriceListItem.d_unit data
        /\ NewPriceListItem.currency item = NewPriceListItem.d_currency data).
Proof.
  intros Ht.
  pose proof (validateCommodityUniqueness_spec st _
                (NewPriceListItem.d_commodityId data) target Ht) as Hv.
  unfold Pricing.createPriceListItem.
  destruct (Pricing.valid _) eqn:Evalid; simpl.
  - split.
    + split; [intros [message Hm]; discriminate|].
      intros Hc. apply Hv in Hc. discriminate.
    + intros _. eexists. split; [reflexivity|]. repeat split.
  - split.
    + split; [intros _; now apply Hv | eauto].
    + intros Hn. exfalso. apply Hn. now apply Hv.
Qed.

(** The target of the example exists and list A, whose range overlaps the
    range of list B, holds the commodity. *)
Lemma createPriceListItem_throws_iff_conflict_witness :
  Collection.getById (Pricing.priceLists Examples.overlapStore)
    (NewPriceListItem.d_priceListId Examples.dataB) = Some Examples.listB
  /\ exists message,
      Pricing.createPriceListItem Examples.env1 Examples.overlapStore Examples.dataB
      = Throw message.
Proof.
  split; [reflexivity|].
  apply (createPriceListItem_throws_iff_conflict Examples.env1 Examples.overlapStore
           Examples.dataB Examples.listB eq_refl).
  left. exists Examples.listA.
  split; [now left|]. split; [reflexivity|]. split; [discriminate|].
  split; [split; reflexivity|].
  exists Examples.itemA. split; [now left|]. split; reflexivity.
Defined.

(** ** The default flag *)

(** C3 fails on [updatePricingGroup]: in a store with one default group for
    each direction, an update that moves the default group of the buy
    direction to the sell direction leaves two default groups for the sell
    direction. *)
Theorem updatePricingGroup_direction_change_doubles_default :
  Notions.defaultUnique Examples.registryStore
  /\ Notions.defaultsOf sell
       (Notions.runCalls Examples.registryStore
          [Notions.CallUpdate "t1" "G" Examples.moveToSell])
     = [PricingGroup.with_updatedAt "t1"
          (PricingGroup.with_isDefault true
             (PricingGroup.spread Examples.groupG Examples.moveToSell));
        Examples.groupS].
Proof.
  split; [|reflexivity].
  intros [|]; simpl; lia.
Qed.

(** ** Calls that keep the default unique *)

Section ReplaceFacts.
Context {T : Type} `{Keyed T}.

Lemma replace_key (id : string) (r x : T) :
  key r = id -> key (Collection.replace id r x) = key x.
Proof.
  intros Hr. unfold Collection.replace.
  destruct (String.eqb (key x) id) eqn:E; [|reflexivity].
  apply String.eqb_eq in E. congruence.
Qed.

Lemma map_replace_keys (id : string) (r : T) (c : list T) :
  key r = id -> List.map key (List.map (Collection.replace id r) c) = List.map key c.
Proof.
  intros Hr. rewrite List.map_map. apply List.map_ext.
  intros x. now apply replace_key.
Qed.

Lemma map_replace_absent (id : string) (r : T) (c : list T) :
  ~ In id (List.map key c) -> List.map (Collection.replace id r) c = c.
Proof.
  induction c as [|x c IH]; simpl; [reflexivity|].
  intros Hn. unfold Collection.replace at 1.
  destruct (String.eqb (key x) id) eqn:E.
  - apply String.eqb_eq in E. tauto.
  - rewrite IH; [reflexivity | tauto].
Qed.

(** The update of a store with distinct keys exchanges one record. *)
Lemma count_replace (p : T -> bool) (id : string) (r e : T) (c : list T) :
  List.NoDup (List.map key c) ->
  Collection.getById c id = Some e ->
  (length (List.filter p (List.map (Collection.replace id r) c))
   + Nat.b2n (p e)
   = length (List.filter p c) + Nat.b2n (p r))%nat.
Proof.
  unfold Collection.getById.
  induction c as [|x c IH]; simpl; [discriminate|].
  intros Hnd Hf. apply List.NoDup_cons_iff in Hnd. destruct Hnd as [Hx Hnd].
  unfold Collection.replace at 1.
  destruct (String.eqb (key x) id) eqn:E.
  - injection Hf as <-. apply String.eqb_eq in E. rewrite <- E.
    rewrite (map_replace_absent (key x) r c Hx).
    simpl. destruct (p r), (p x); simpl; lia.
  - simpl. specialize (IH Hnd Hf). destruct (p x); simpl; lia.
Qed.
End ReplaceFacts.

Lemma filter_map_le {T} (p : T -> bool) (f : T -> T) (l : list T) :
  (forall x, p (f x) = true -> p x = true) ->
  (length (List.filter p (List.map f l)) <= length (List.filter p l))%nat.
Proof.
  intros Hp. induction l as [|x l IH]; simpl; [lia|].
  destruct (p (f x)) eqn:E.
  - rewrite (Hp x E). simpl. lia.
  - destruct (p x); simpl; lia.
Qed.

Lemma filter_map_none {T} (p : T -> bool) (f : T -> T) (l : list T) :
  (forall x, In x l -> p (f x) = false) -> List.filter p (List.map f l) = [].
Proof.
  intros Hp. induction l as [|x l IH]; simpl; [reflexivity|].
  rewrite (Hp x (or_introl eq_refl)). apply IH.
  intros y Hy. apply Hp. now right.
Qed.

Lemma update_is_map (c : list PricingGroup.t) (id : string) (r : PricingGroup.t) :
  key r = id ->
  fst (Collection.update c id r) = List.map (Collection.replace id r) c.
Proof.
  intros Hr. unfold Collection.update.
  destruct (Collection.getById c id) eqn:Hg; [reflexivity|].
  cbn [fst]. symmetry. apply map_replace_absent.
  intros Hin. apply in_map_iff in Hin. destruct Hin as (x & Hk & Hx).
  exact (getById_None _ _ Hg x Hx Hk).
Qed.

Lemma clearDefaultForDirection_groups (now : string) (st : Pricing.Store)
    (d : PricingDirection) :
  Pricing.pricingGroups (Pricing.clearDefaultForDirection now st d)
  = List.map (Notions.clearedBy now (Notions.defaultsOf d st)) (Pricing.pricingGroups st).
Proof.
  unfold Pricing.clearDefaultForDirection, Notions.defaultsOf, Collection.query.
  generalize (List.filter (Pricing.is_default_for d) (Pricing.pricingGroups st)).
  intros ds. revert st.
  induction ds as [|g ds IH]; intros st; cbn [List.fold_left].
  - unfold Notions.clearedBy. cbn. now rewrite List.map_id.
  - rewrite IH. cbn [Pricing.pricingGroups Pricing.with_pricingGroups].
    rewrite update_is_map by reflexivity.
    rewrite List.map_map. reflexivity.
Qed.

Lemma clearedBy_key (now : string) (ds : list PricingGroup.t) (x : PricingGroup.t) :
  PricingGroup.id (Notions.clearedBy now ds x) = PricingGroup.id x.
Proof.
  unfold Notions.clearedBy. revert x.
  induction ds as [|g ds IH]; intros x; cbn [List.fold_left]; [reflexivity|].
  rewrite IH. exact (replace_key (PricingGroup.id g) (Notions.cleared now g) x eq_refl).
Qed.

Lemma clearedBy_default (now : string) (ds : list PricingGroup.t)
    (x : PricingGroup.t) :
  PricingGroup.isDefault (Notions.clearedBy now ds x) = true ->
  Notions.clearedBy now ds x = x /\ ~ In (PricingGroup.id x) (List.map PricingGroup.id ds).
Proof.
  unfold Notions.clearedBy. revert x.
  induction ds as [|g ds IH]; intros x; cbn [List.fold_left]; [auto|].
  intros Hd. destruct (IH _ Hd) as [Heq Hnot].
  rewrite Heq in *.
  unfold Collection.replace in *.
  change (key x) with (PricingGroup.id x) in *.
  destruct (String.eqb (PricingGroup.id x) (PricingGroup.id g)) eqn:E.
  - discriminate Hd.
  - split; [reflexivity|]. cbn [List.map In].
    apply String.eqb_neq in E. intros [Hg|Hin]; [congruence | contradiction].
Qed.

(** Clearing keeps the ids, leaves no default for the direction and adds no
    default to another direction. *)
Lemma clearDefaultForDirection_spec (now : string) (st : Pricing.Store)
    (d : PricingDirection) :
  List.map PricingGroup.id
    (Pricing.pricingGroups (Pricing.clearDefaultForDirection now st d))
  = List.map PricingGroup.id (Pricing.pricingGroups st)
  /\ Notions.defaultsOf d (Pricing.clearDefaultForDirection now st d) = []
  /\ forall d',
      (length (Notions.defaultsOf d' (Pricing.clearDefaultForDirection now st d))
       <= length (Notions.defaultsOf d' st))%nat.
Proof.
  unfold Notions.defaultsOf at 1 2.
  rewrite !clearDefaultForDirection_groups.
  split; [|split].
  - rewrite List.map_map. apply List.map_ext. apply clearedBy_key.
  - apply filter_map_none. intros x Hx.
    destruct (Pricing.is_default_for d (Notions.clearedBy now (Notions.defaultsOf d st) x))
      eqn:E; [|reflexivity].
    exfalso. apply is_default_for_spec in E. destruct E as [Hdir Hdef].
    destruct (clearedBy_default _ _ _ Hdef) as [Heq Hnot].
    rewrite Heq in Hdir. apply Hnot. apply in_map.
    unfold Notions.defaultsOf. apply filter_In. split; [exact Hx|].
    apply is_default_for_spec. rewrite Heq in Hdef. auto.
  - intros d'. apply filter_map_le. intros x E.
    apply is_default_for_spec in E. destruct E as [Hdir Hdef].
    destruct (clearedBy_default _ _ _ Hdef) as [Heq _].
    rewrite Heq in Hdir, Hdef. now apply is_default_for_spec.
Qed.

Lemma clearDefaultForDirection_wellFormed (now : string) (st : Pricing.Store)
    (d : PricingDirection) :
  Notions.wellFormed st ->
  Notions.wellFormed (Pricing.clearDefaultForDirection now st d).
Proof.
  intros [Hnd Hu].
  destruct (clearDefaultForDirection_spec now st d) as (Hk & _ & Hle).
  split; [now rewrite Hk|].
  intros d'. specialize (Hle d'). specialize (Hu d'). lia.
Qed.

Lemma createPricingGroup_wellFormed (env : Env) (st : Pricing.Store)
    (data : PricingGroup.data) :
  Notions.wellFormed st ->
  ~ In (freshId env) (List.map PricingGroup.id (Pricing.pricingGroups st)) ->
  Notions.wellFormed (fst (Pricing.createPricingGroup env st data)).
Proof.
  intros Hwf Hfresh. unfold Pricing.createPricingGroup. cbn [fst].
  set (newGroup := Pricing.schema_createPricingGroup env data).
  assert (Hnew : Pricing.is_default_for (PricingGroup.d_direction data) newGroup
                 = PricingGroup.d_isDefault data).
  { unfold Pricing.is_default_for, newGroup. cbn.
    destruct (PricingGroup.d_direction data), (PricingGroup.d_isDefault data);
      reflexivity. }
  assert (Hother : forall d', d' <> PricingGroup.d_direction data ->
                              Pricing.is_default_for d' newGroup = false).
  { intros d' Hd'. unfold Pricing.is_default_for, newGroup. cbn.
    destruct (PricingGroup.d_direction data), d'; try reflexivity; congruence. }
  destruct (PricingGroup.d_isDefault data) eqn:Edef.
  - destruct (clearDefaultForDirection_spec (now env) st
                (PricingGroup.d_direction data)) as (Hk & Hnone & Hle).
    destruct Hwf as [Hnd Hu]. split.
    + cbn [Pricing.pricingGroups Pricing.with_pricingGroups]. unfold Collection.create.
      rewrite List.map_app, Hk. cbn [List.map].
      apply List.NoDup_app;
        [exact Hnd | constructor; [intros []|constructor] |].
      intros x Hx [<-|[]]. exact (Hfresh Hx).
    + intros d'. unfold Notions.defaultsOf.
      cbn [Pricing.pricingGroups Pricing.with_pricingGroups]. unfold Collection.create.
      rewrite List.filter_app, List.length_app. cbn [List.filter].
      fold (Notions.defaultsOf d'
              (Pricing.clearDefaultForDirection (now env) st
                 (PricingGroup.d_direction data))).
      destruct (direction_eqb d' (PricingGroup.d_direction data)) eqn:Ed.
      * apply direction_eqb_eq in Ed. subst d'. rewrite Hnone, Hnew. simpl. lia.
      * rewrite Hother.
        2:{ intros ->. destruct (PricingGroup.d_direction data); discriminate. }
        specialize (Hle d'). specialize (Hu d'). simpl. lia.
  - destruct Hwf as [Hnd Hu]. split.
    + cbn [Pricing.pricingGroups Pricing.with_pricingGroups]. unfold Collection.create.
      rewrite List.map_app. cbn [List.map].
      apply List.NoDup_app;
        [exact Hnd | constructor; [intros []|constructor] |].
      intros x Hx [<-|[]]. exact (Hfresh Hx).
    + intros d'. unfold Notions.defaultsOf.
      cbn [Pricing.pricingGroups Pricing.with_pricingGroups]. unfold Collection.create.
      rewrite List.filter_app, List.length_app. cbn [List.filter].
      assert (Hno : Pricing.is_default_for d' newGroup = false).
      { unfold Pricing.is_default_for, newGroup. cbn. rewrite Edef.
        apply andb_false_r. }
      rewrite Hno. specialize (Hu d'). unfold Notions.defaultsOf in Hu. simpl. lia.
Qed.

Lemma updatePricingGroup_wellFormed (now : string) (st : Pricing.Store)
    (id : string) (data : PricingGroup.partial) :
  Notions.wellFormed st ->
  Notions.keepsDirection st (Notions.CallUpdate now id data) ->
  Notions.wellFormed (fst (Pricing.updatePricingGroup now st id data)).
Proof.
  intros Hwf Hkeep. unfold Pricing.updatePricingGroup.
  cbn [Notions.keepsDirection] in Hkeep.
  destruct (Collection.getById (Pricing.pricingGroups st) id) as [existing|] eqn:He;
    [|exact Hwf].
  set (updated := PricingGroup.with_updatedAt now
                    (PricingGroup.with_id id (PricingGroup.spread existing data))).
  assert (Hdir : PricingGroup.direction updated = PricingGroup.direction existing).
  { unfold updated. cbn.
    destruct (PricingGroup.p_direction data) as [d|]; [now cbn|reflexivity]. }
  assert (Hflag : PricingGroup.isDefault updated
                  = default (PricingGroup.isDefault existing)
                      (PricingGroup.p_isDefault data)) by reflexivity.
  set (st1 := if default false (PricingGroup.p_isDefault data)
                 && negb (PricingGroup.isDefault existing)
              then Pricing.clearDefaultForDirection now st
                     (PricingGroup.direction existing)
              else st).
  assert (Hkeys : List.map PricingGroup.id (Pricing.pricingGroups st1)
                  = List.map PricingGroup.id (Pricing.pricingGroups st)).
  { unfold st1. destruct (_ && _); [|reflexivity].
    apply clearDefaultForDirection_spec. }
  assert (Hwf1 : Notions.wellFormed st1).
  { unfold st1. destruct (_ && _); [|exact Hwf].
    now apply clearDefaultForDirection_wellFormed. }
  destruct (Collection.getById (Pricing.pricingGroups st1) id) as [e1|] eqn:He1.
  2:{ exfalso. destruct (getById_Some _ _ _ He) as [Hin Hk].
      apply (getById_None _ _ He1 existing); [|exact Hk].
      assert (Hid : In id (List.map PricingGroup.id (Pricing.pricingGroups st))).
      { rewrite <- Hk. now apply in_map. }
      rewrite <- Hkeys in Hid. apply in_map_iff in Hid.
      destruct Hid as (y & Hy & Hyin).
      exfalso. exact (getById_None _ _ He1 y Hyin Hy). }
  unfold Collection.update. rewrite He1. cbn [fst].
  destruct Hwf1 as [Hnd1 Hu1]. split.
  - cbn [Pricing.pricingGroups Pricing.with_pricingGroups].
    change PricingGroup.id with (@key PricingGroup.t _).
    rewrite map_replace_keys by reflexivity. exact Hnd1.
  - intros d'. unfold Notions.defaultsOf.
    cbn [Pricing.pricingGroups Pricing.with_pricingGroups].
    pose proof (count_replace (H := PricingGroup_keyed)
                  (Pricing.is_default_for d') id updated e1
                  (Pricing.pricingGroups st1) Hnd1 He1) as Hcount.
    specialize (Hu1 d'). unfold Notions.defaultsOf in Hu1.
    destruct (Pricing.is_default_for d' updated) eqn:Eup;
      [|cbn [Nat.b2n] in Hcount; lia].
    apply is_default_for_spec in Eup. destruct Eup as [Hd' Hdef'].
    rewrite Hdir in Hd'. rewrite Hflag in Hdef'.
    unfold st1 in *.
    destruct (default false (PricingGroup.p_isDefault data)
              && negb (PricingGroup.isDefault existing)) eqn:Eclear;
      cbv beta iota in Hcount, He1.
    + destruct (clearDefaultForDirection_spec now st
                  (PricingGroup.direction existing)) as (_ & Hnone & _).
      unfold Notions.defaultsOf in Hnone at 1. subst d'.
      rewrite Hnone in Hcount. cbn [length Nat.b2n] in Hcount. lia.
    + rewrite He in He1. injection He1 as <-.
      assert (Hex : Pricing.is_default_for d' existing = true).
      { apply is_default_for_spec. split; [exact Hd'|].
        destruct (PricingGroup.p_isDefault data) as [[|]|];
          destruct (PricingGroup.isDefault existing); cbn in *; congruence. }
      rewrite Hex in Hcount. cbn in Hcount. lia.
Qed.

Lemma setAsDefault_wellFormed (now : string) (st : Pricing.Store) (id : string) :
  Notions.wellFormed st ->
  Notions.wellFormed (fst (Pricing.setAsDefault now st id)).
Proof.
  intros Hwf. unfold Pricing.setAsDefault.
  destruct (Collection.getById (Pricing.pricingGroups st) id) as [group|];
    [|exact Hwf].
  apply updatePricingGroup_wellFormed.
  - now apply clearDefaultForDirection_wellFormed.
  - cbn. exact I.
Qed.

(** From a store with distinct ids and at most one default for a direction,
    any sequence of [createPricingGroup], [updatePricingGroup] and
    [setAsDefault] calls in which no update changes the direction of its
    group leads to a store with at most one default for a direction. *)
Theorem registry_keeps_default_unique (cs : list Notions.RegistryCall) :
  forall st,
    Notions.wellFormed st ->
    Notions.admissible st cs ->
    Notions.wellFormed (Notions.runCalls st cs).
Proof.
  unfold Notions.runCalls.
  induction cs as [|c cs IH]; intros st Hwf Hadm; [exact Hwf|].
  destruct Hadm as (Hkeep & Hfresh & Hrest).
  cbn [List.fold_left]. apply IH; [|exact Hrest].
  destruct c as [env data|now' id data|now' id]; cbn [Notions.runCall].
  - now apply createPricingGroup_wellFormed.
  - now apply updatePricingGroup_wellFormed.
  - now apply setAsDefault_wellFormed.
Qed.

(** The store of the example has distinct ids and one default for each
    direction, its calls keep the directions, and one default for each
    direction is what they leave. *)
Lemma registry_keeps_default_unique_witness :
  Notions.wellFormed Examples.registryStore
  /\ Notions.admissible Examples.registryStore Examples.registryCalls
  /\ Notions.wellFormed
       (Notions.runCalls Examples.registryStore Examples.registryCalls).
Proof.
  assert (Hwf : Notions.wellFormed Examples.registryStore).
  { split.
    - repeat constructor; cbn; intuition discriminate.
    - intros [|]; cbn; lia. }
  assert (Hadm : Notions.admissible Examples.registryStore Examples.registryCalls).
  { cbn. repeat split. intuition discriminate. }
  split; [exact Hwf|]. split; [exact Hadm|].
  exact (registry_keeps_default_unique Examples.registryCalls
           Examples.registryStore Hwf Hadm).
Defined.

(** ** Expected dates *)


(** C8: the expected date of a pending movement is the first that is present
    of the actual date of the load for the movement type, its scheduled date
    for the movement type, the end date of the order and the start date of the
    order; today's date when none of them is. *)
Theorem getExpectedDate_priority {N : Type}
    (today : string) (load : option Load.t) (order : Order N)
    (movementType : MovementKind) :
  Inventory.getExpectedDate today load order movementType
  = Notions.firstPresent
      [Notions.actualDate load movementType;
       Notions.scheduledDate load movementType;
       order_endDate order;
       Some (order_startDate order)]
      today.
Proof.
  unfold Inventory.getExpectedDate, JS.or_else, JS.truthy_opt, JS.truthy.
  destruct load as [l|], movementType; simpl;
    repeat match goal with
      | |- context [match ?o with Some _ => _ | None => _ end] =>
          destruct o; simpl
      end;
    repeat match goal with
      | |- context [String.eqb ?x ""%string] =>
          destruct (String.eqb x "") eqn:?; simpl
      end;
    simpl in *; congruence.
Qed.

(** ** Folds *)

Lemma fold_left_invariant {A B} (P : B -> Prop) (f : B -> A -> B) (l : list A) :
  (forall b a, P b -> P (f b a)) -> forall b, P b -> P (List.fold_left f l b).
Proof.
  intros Hstep. induction l as [|a l IH]; simpl; intros b Hb; [exact Hb|].
  apply IH, Hstep, Hb.
Qed.

Lemma fold_left_related {A B C} (R : B -> C -> Prop)
    (f : B -> A -> B) (g : C -> A -> C) (l : list A) :
  (forall b c a, R b c -> R (f b a) (g c a)) ->
  forall b c, R b c -> R (List.fold_left f l b) (List.fold_left g l c).
Proof.
  intros Hstep. induction l as [|a l IH]; simpl; intros b c Hbc; [exact Hbc|].
  apply IH, Hstep, Hbc.
Qed.

(** ** Pending movements *)

Lemma sumOf_app (l : list (InventoryMovement.t Z)) (m : InventoryMovement.t Z) :
  Notions.sumOf (l ++ [m]) = Notions.sumOf l + InventoryMovement.quantity m.
Proof.
  unfold Notions.sumOf. induction l as [|x l IH]; simpl; [lia|].
  rewrite IH. lia.
Qed.

Lemma string_ltb_leb (a b : string) : negb (String.ltb a b) = String.leb b a.
Proof.
  unfold String.ltb, String.leb. rewrite (String.compare_antisym a b).
  now destruct (String.compare b a).
Qed.

Lemma afterDate_dueBy {N : Type} (byDate : option string)
    (m : InventoryMovement.t N) :
  negb (Inventory.afterDate byDate (InventoryMovement.expectedDate m))
  = Notions.dueBy byDate m.
Proof.
  unfold Inventory.afterDate, Notions.dueBy, JS.truthy, JS.lt.
  destruct byDate as [b|]; [|reflexivity].
  rewrite negb_andb, negb_involutive, string_ltb_leb. reflexivity.
Qed.

Section Pending.
Variables (today : string) (st : Inventory.Store (N := Z)).
Variables (commodityId : string) (locationId byDate : option string).

(** The total of the incoming side is the sum of its movements. *)
Lemma calculateIncoming_total :
  Inventory.total
    (Inventory.calculateIncoming today st commodityId locationId byDate)
  = Notions.sumOf
      (Inventory.movements
         (Inventory.calculateIncoming today st commodityId locationId byDate)).
Proof.
  unfold Inventory.calculateIncoming.
  apply (fold_left_invariant
           (fun acc => Inventory.total acc
                       = Notions.sumOf (Inventory.movements acc)));
    [|reflexivity].
  intros acc po Hacc.
  destruct (Inventory.filteredOut _ _); [exact Hacc|].
  apply (fold_left_invariant
           (fun acc => Inventory.total acc
                       = Notions.sumOf (Inventory.movements acc)));
    [|exact Hacc].
  clear acc Hacc. intros acc item Hacc. unfold Inventory.incomingItem.
  repeat match goal with
         | |- context [if ?c then _ else _] => destruct c; [exact Hacc|]
         end.
  cbn [Inventory.total Inventory.movements].
  rewrite sumOf_app, Hacc. reflexivity.
Qed.

(** The total of the outgoing side is the magnitude of its movements, which
    carry negative quantities. *)
Lemma calculateOutgoing_total :
  Inventory.total
    (Inventory.calculateOutgoing today st commodityId locationId byDate)
  = - Notions.sumOf
        (Inventory.movements
           (Inventory.calculateOutgoing today st commodityId locationId byDate)).
Proof.
  unfold Inventory.calculateOutgoing.
  apply (fold_left_invariant
           (fun acc => Inventory.total acc
                       = - Notions.sumOf (Inventory.movements acc)));
    [|reflexivity].
  intros acc so Hacc.
  destruct (Inventory.filteredOut _ _); [exact Hacc|].
  apply (fold_left_invariant
           (fun acc => Inventory.total acc
                       = - Notions.sumOf (Inventory.movements acc)));
    [|exact Hacc].
  clear acc Hacc. intros acc item Hacc. unfold Inventory.outgoingItem.
  repeat match goal with
         | |- context [if ?c then _ else _] => destruct c; [exact Hacc|]
         end.
  cbn [Inventory.total Inventory.movements].
  rewrite sumOf_app, Hacc. cbn. lia.
Qed.

End Pending.

Section PendingAny.
Context {N : Type} `{Number N}.
Variables (today : string) (st : Inventory.Store (N := N)).
Variables (commodityId : string) (locationId byDate : option string).

(** With a date, the movements are those of the unbounded calculation that
    are due by the date. *)
Lemma calculateIncoming_byDate :
  Inventory.movements
    (Inventory.calculateIncoming today st commodityId locationId byDate)
  = List.filter (Notions.dueBy byDate)
      (Inventory.movements
         (Inventory.calculateIncoming today st commodityId locationId None)).
Proof.
  unfold Inventory.calculateIncoming.
  apply (fold_left_related
           (fun b n => Inventory.movements b
                       = List.filter (Notions.dueBy byDate)
                           (Inventory.movements n)));
    [|reflexivity].
  intros b n po Hbn.
  destruct (Inventory.filteredOut _ _); [exact Hbn|].
  apply (fold_left_related
           (fun b n => Inventory.movements b
                       = List.filter (Notions.dueBy byDate)
                           (Inventory.movements n)));
    [|exact Hbn].
  clear b n Hbn. intros b n item Hbn. unfold Inventory.incomingItem.
  destruct (negb _); [exact Hbn|].
  destruct (n_le _ _); [exact Hbn|].
  cbn [Inventory.afterDate Inventory.total Inventory.movements].
  rewrite List.filter_app. cbn [List.filter].
  rewrite <- afterDate_dueBy. cbn [InventoryMovement.expectedDate].
  destruct (Inventory.afterDate byDate _); cbn [negb Inventory.movements].
  - now rewrite app_nil_r.
  - now rewrite Hbn.
Qed.

Lemma calculateOutgoing_byDate :
  Inventory.movements
    (Inventory.calculateOutgoing today st commodityId locationId byDate)
  = List.filter (Notions.dueBy byDate)
      (Inventory.movements
         (Inventory.calculateOutgoing today st commodityId locationId None)).
Proof.
  unfold Inventory.calculateOutgoing.
  apply (fold_left_related
           (fun b n => Inventory.movements b
                       = List.filter (Notions.dueBy byDate)
                           (Inventory.movements n)));
    [|reflexivity].
  intros b n so Hbn.
  destruct (Inventory.filteredOut _ _); [exact Hbn|].
  apply (fold_left_related
           (fun b n => Inventory.movements b
                       = List.filter (Notions.dueBy byDate)
                           (Inventory.movements n)));
    [|exact Hbn].
  clear b n Hbn. intros b n item Hbn. unfold Inventory.outgoingItem.
  destruct (negb _); [exact Hbn|].
  destruct (n_le _ _); [exact Hbn|].
  cbn [Inventory.afterDate Inventory.total Inventory.movements].
  rewrite List.filter_app. cbn [List.filter].
  rewrite <- afterDate_dueBy. cbn [InventoryMovement.expectedDate].
  destruct (Inventory.afterDate byDate _); cbn [negb Inventory.movements].
  - now rewrite app_nil_r.
  - now rewrite Hbn.
Qed.



End PendingAny.

(** ** Positions *)



(** ** The adjustment ledger *)

Lemma filteredOut_same (locationId : option string) :
  Inventory.filteredOut locationId locationId = false.
Proof.
  unfold Inventory.filteredOut, Inventory.differs.
  destruct locationId as [l|]; [|reflexivity].
  now rewrite String.eqb_refl, andb_false_r.
Qed.

(** An adjustment recorded for [(commodityId, locationId)] adds its quantity
    to the balance of that pair. *)
Lemma getCurrentInventory_create {N} `{Number N}
    (st : Inventory.Store (N := N)) (a : InventoryAdjustment.t N) :
  Inventory.getCurrentInventory
    (Inventory.with_inventoryAdjustments
       (Collection.create (Inventory.inventoryAdjustments st) a) st)
    (InventoryAdjustment.commodityId a) (InventoryAdjustment.locationId a)
  = n_add
      (Inventory.getCurrentInventory st (InventoryAdjustment.commodityId a)
         (InventoryAdjustment.locationId a))
      (InventoryAdjustment.quantity a).
Proof.
  unfold Inventory.getCurrentInventory, Collection.query, Collection.create.
  cbn [Inventory.inventoryAdjustments Inventory.with_inventoryAdjustments].
  rewrite List.filter_app. cbn [List.filter].
  rewrite String.eqb_refl, filteredOut_same. cbn [negb].
  rewrite List.fold_left_app. reflexivity.
Qed.

#[local] Set Warnings "-inexact-float".

(** C7, as stated, fails in the arithmetic of the host: with a balance of
    0.2, setting the count to 0.9 records the delta [0.9 - 0.2], and the
    balance read afterwards, [0.2 + (0.9 - 0.2)], is 0.8999999999999999, not
    0.9. *)
Lemma setInventoryCount_misses_the_count :
  Inventory.getCurrentInventory
    (fst (Inventory.setInventoryCount (fun _ => "0.9"%string) Examples.env1
            "2024-03-09" Examples.fractionYard "HMS1" 0.9%float None None))
    "HMS1" None
  = 0.8999999999999999%float
  /\ PrimFloat.eqb 0.8999999999999999 0.9 = false.
Proof. split; vm_compute; reflexivity. Qed.

(** C7, amended: [setInventoryCount c n L] records one adjustment of type
    [count] for [(c, L)] whose quantity is [n - current], where [current] is
    the balance of [(c, L)] before the call; the balance read right after is
    [current + (n - current)] in the arithmetic of the host, hence exactly
    [n] when that arithmetic is exact (integer quantities). *)
Theorem setInventoryCount_ledger :
  (forall (N : Type) (HN : Number N) (show : N -> string) (env : Env)
          (today : string) (st : Inventory.Store (N := N)) (c : string) (n : N)
          (L reason : option string),
      let current := Inventory.getCurrentInventory st c L in
      let st' := fst (Inventory.setInventoryCount show env today st c n L reason) in
      let a := snd (Inventory.setInventoryCount show env today st c n L reason) in
      Inventory.inventoryAdjustments st' = Inventory.inventoryAdjustments st ++ [a]
      /\ InventoryAdjustment.adjustmentType a = count
      /\ InventoryAdjustment.commodityId a = c
      /\ InventoryAdjustment.locationId a = L
      /\ InventoryAdjustment.quantity a = n_sub n current
      /\ Inventory.getCurrentInventory st' c L = n_add current (n_sub n current))
  /\ (forall (show : Z -> string) (env : Env) (today : string)
             (st : Inventory.Store (N := Z)) (c : string) (n : Z)
             (L reason : option string),
         Inventory.getCurrentInventory
           (fst (Inventory.setInventoryCount show env today st c n L reason)) c L
         = n).
Proof.
  assert (Hgen : forall (N : Type) (HN : Number N) (show : N -> string)
                        (env : Env) (today : string)
                        (st : Inventory.Store (N := N)) (c : string) (n : N)
                        (L reason : option string),
             Inventory.getCurrentInventory
               (fst (Inventory.setInventoryCount show env today st c n L reason))
               c L
             = n_add (Inventory.getCurrentInventory st c L)
                 (n_sub n (Inventory.getCurrentInventory st c L))).
  { intros. unfold Inventory.setInventoryCount, Inventory.createAdjustment.
    cbn [fst].
    match goal with
    | |- Inventory.getCurrentInventory
           (Inventory.with_inventoryAdjustments (Collection.create _ ?a) _) _ _ = _ =>
        exact (getCurrentInventory_create st a)
    end. }
  split.
  - intros. subst current st' a. repeat split; try reflexivity. apply Hgen.
  - intros. rewrite Hgen. cbn. lia.
Qed.

(** C10: updating an existing adjustment keeps its [id] and its
    [adjustmentNumber], whatever the updates supply for them, sets
    [updatedAt] to the clock, replaces every other supplied field and keeps
    the fields that are not supplied; the record is stored under the same id
    and the other records stay as they were. *)
Theorem updateAdjustment_keeps_identity {N : Type}
    (now : string) (st : Inventory.Store (N := N)) (id : string)
    (updates : InventoryAdjustment.partial N) (existing : InventoryAdjustment.t N) :
  Collection.getById (Inventory.inventoryAdjustments st) id = Some existing ->
  exists updated,
    snd (Inventory.updateAdjustment now st id updates) = Some updated
    /\ Collection.getById
         (Inventory.inventoryAdjustments
            (fst (Inventory.updateAdjustment now st id updates))) id
       = Some updated
    /\ InventoryAdjustment.id updated = InventoryAdjustment.id existing
    /\ InventoryAdjustment.adjustmentNumber updated
       = InventoryAdjustment.adjustmentNumber existing
    /\ InventoryAdjustment.updatedAt updated = now
    /\ InventoryAdjustment.commodityId updated
       = default (InventoryAdjustment.commodityId existing)
           (InventoryAdjustment.p_commodityId updates)
    /\ InventoryAdjustment.commodityCode updated
       = default (InventoryAdjustment.commodityCode existing)
           (InventoryAdjustment.p_commodityCode updates)
    /\ InventoryAdjustment.commodityName updated
       = default (InventoryAdjustment.commodityName existing)
           (InventoryAdjustment.p_commodityName updates)
    /\ InventoryAdjustment.locationId updated
       = default (InventoryAdjustment.locationId existing)
           (InventoryAdjustment.p_locationId updates)
    /\ InventoryAdjustment.locationName updated
       = default (InventoryAdjustment.locationName existing)
           (InventoryAdjustment.p_locationName updates)
    /\ InventoryAdjustment.adjustmentType updated
       = default (InventoryAdjustment.adjustmentType existing)
           (InventoryAdjustment.p_adjustmentType updates)
    /\ InventoryAdjustment.quantity updated
       = default (InventoryAdjustment.quantity existing)
           (InventoryAdjustment.p_quantity updates)
    /\ InventoryAdjustment.unit updated
       = default (InventoryAdjustment.unit existing)
           (InventoryAdjustment.p_unit updates)
    /\ InventoryAdjustment.reason updated
       = default (InventoryAdjustment.reason existing)
           (InventoryAdjustment.p_reason updates)
    /\ InventoryAdjustment.adjustmentDate updated
       = default (InventoryAdjustment.adjustmentDate existing)
           (InventoryAdjustment.p_adjustmentDate updates)
    /\ InventoryAdjustment.createdBy updated
       = default (InventoryAdjustment.createdBy existing)
           (InventoryAdjustment.p_createdBy updates)
    /\ InventoryAdjustment.createdAt updated
       = default (InventoryAdjustment.createdAt existing)
           (InventoryAdjustment.p_createdAt updates)
    /\ (forall other,
           other <> id ->
           Collection.getById
             (Inventory.inventoryAdjustments
                (fst (Inventory.updateAdjustment now st id updates))) other
           = Collection.getById (Inventory.inventoryAdjustments st) other).
Proof.
  intros He.
  destruct (getById_Some _ _ _ He) as [_ Hkey].
  change (key existing) with (InventoryAdjustment.id existing) in Hkey.
  unfold Inventory.updateAdjustment, Collection.update. rewrite He.
  cbn [fst snd Inventory.inventoryAdjustments Inventory.with_inventoryAdjustments].
  eexists. split; [reflexivity|].
  split; [apply (getById_replace _ _ existing); [exact He | reflexivity]|].
  split; [now rewrite Hkey|].
  repeat (split; [reflexivity|]).
  intros other Hne. now apply getById_replace_other.
Qed.

(** The stored adjustment of the example keeps [adj-1] and [ADJ-0001] although
    the updates supply another id and another number. *)
Lemma updateAdjustment_keeps_identity_witness :
  Collection.getById (Inventory.inventoryAdjustments Examples.yard) "adj-1"
  = Some (Examples.counted 1000)
  /\ exists updated,
      snd (Inventory.updateAdjustment "2024-03-09T10:00:00.000Z" Examples.yard
             "adj-1" Examples.newNotes) = Some updated
      /\ InventoryAdjustment.id updated = "adj-1"%string
      /\ InventoryAdjustment.adjustmentNumber updated = "ADJ-0001"%string
      /\ InventoryAdjustment.quantity updated = 40.
Proof.
  split; [reflexivity|].
  destruct (updateAdjustment_keeps_identity "2024-03-09T10:00:00.000Z"
              Examples.yard "adj-1" Examples.newNotes (Examples.counted 1000)
              eq_refl)
    as (updated & Hr & _ & Hid & Hnum & _ & _ & _ & _ & _ & _ & _ & Hq & _).
  exists updated. repeat split; assumption.
Defined.

(** ** The position timeline *)

(** C6 fails on a host whose time zone observes daylight saving time: the
    loop advances the local date and prints the UTC date, so from 2024-03-09
    to 2024-03-12 in New York the day 2024-03-10 is emitted twice, with its
    incoming 500 counted twice, and 2024-03-12 is never reached. *)
Theorem getPositionTimeline_repeats_a_day_across_dst :
  option_map
    (List.map
       (fun e => (PositionTimelineEntry.date e, PositionTimelineEntry.position e)))
    (Inventory.getPositionTimeline 10 Examples.newYork "2024-03-09" Examples.yard
       "HMS1" None "2024-03-09" "2024-03-12")
  = Some [("2024-03-09"%string, 1000); ("2024-03-10"%string, 1500);
          ("2024-03-10"%string, 2000); ("2024-03-11"%string, 2000)].
Proof. vm_compute. reflexivity. Qed.

(** On a host without daylight saving time the same call gives the four days
    and the positions the specification describes. *)
Example getPositionTimeline_utc :
  option_map
    (List.map
       (fun e => (PositionTimelineEntry.date e, PositionTimelineEntry.position e)))
    (Inventory.getPositionTimeline 10 JSDate.UTC "2024-03-09" Examples.yard
       "HMS1" None "2024-03-09" "2024-03-12")
  = Some [("2024-03-09"%string, 1000); ("2024-03-10"%string, 1500);
          ("2024-03-11"%string, 1500); ("2024-03-12"%string, 1300)].
Proof. vm_compute. reflexivity. Qed.

(** Whatever the time zone, each entry adds its incoming minus its outgoing to
    the position before it, and an entry without movements keeps it. *)
Lemma timelineLoop_continuous (fuel : nat) (tz : JSDate.TimeZone)
    (byDate : gmap string (list (InventoryMovement.t Z))) (e : option Z) :
  forall (d : option Z) (running : Z) (timeline : list (PositionTimelineEntry.t Z)),
    Inventory.timelineLoop fuel tz byDate d e running = Some timeline ->
    Notions.continuous running timeline.
Proof.
  induction fuel as [|fuel IH]; intros d running timeline; cbn [Inventory.timelineLoop];
    [discriminate|].
  destruct d as [dv|], e as [ev|]; try (intros [= <-]; exact I).
  destruct (dv <=? ev); [|intros [= <-]; exact I].
  destruct (Inventory.timelineLoop fuel tz byDate _ _ _) as [rest|] eqn:Hrest;
    [|discriminate].
  intros [= <-]. cbn [Notions.continuous PositionTimelineEntry.position
                        PositionTimelineEntry.incoming PositionTimelineEntry.outgoing
                        PositionTimelineEntry.movements].
  split; [reflexivity|]. split.
  - intros ->. cbn. lia.
  - exact (IH _ _ _ Hrest).
Qed.

Lemma addOneDay_fixedOffset (off t : Z) :
  JSDate.addOneDay (JSDate.fixedOffset off) t = JSDate.TimeClip (t + JSDate.msPerDay).
Proof.
  unfold JSDate.addOneDay, JSDate.toUTC, JSDate.LocalTime, JSDate.fixedOffset.
  cbn. f_equal. lia.
Qed.

Lemma dayCount_next (s e : Z) :
  s <= e -> Notions.dayCount s e = S (Notions.dayCount (s + JSDate.msPerDay) e).
Proof.
  intros Hse. unfold Notions.dayCount, JSDate.msPerDay.
  destruct (Z.leb_spec s e); [|lia].
  destruct (Z.leb_spec (s + 86400000) e).
  - replace (e - s) with ((e - (s + 86400000)) + 1 * 86400000) by lia.
    rewrite Z.div_add by lia.
    assert (0 <= (e - (s + 86400000)) / 86400000) by (apply Z.div_pos; lia).
    lia.
  - rewrite Z.div_small by lia. reflexivity.
Qed.

(** With a fixed offset from UTC the loop emits every day from the start to
    the end, once, as soon as the fuel covers the range. *)
Lemma timelineLoop_fixed_offset {N : Type} `{Number N} (off : Z)
    (byDate : gmap string (list (InventoryMovement.t N))) (e : Z) :
  e <= 8640000000000000 ->
  forall (fuel : nat) (s : Z) (running : N),
    - 8640000000000000 <= s ->
    Z.max 0 (e - s + JSDate.msPerDay) < Z.of_nat fuel * JSDate.msPerDay ->
    exists timeline,
      Inventory.timelineLoop fuel (JSDate.fixedOffset off) byDate (Some s) (Some e)
        running = Some timeline
      /\ List.map PositionTimelineEntry.date timeline
         = List.map JSDate.toISODate (Notions.daysFrom (Notions.dayCount s e) s).
Proof.
  intros He. induction fuel as [|fuel IH]; intros s running Hs Hfuel.
  { unfold JSDate.msPerDay in Hfuel. lia. }
  cbn [Inventory.timelineLoop].
  destruct (Z.leb_spec s e) as [Hse|Hse].
  2:{ exists []. split; [reflexivity|].
      unfold Notions.dayCount. destruct (Z.leb_spec s e); [lia|reflexivity]. }
  rewrite addOneDay_fixedOffset. unfold JSDate.TimeClip.
  rewrite (dayCount_next s e Hse). cbn [Notions.daysFrom List.map].
  unfold JSDate.msPerDay in *.
  destruct (Z.leb_spec (Z.abs (s + 86400000)) 8640000000000000) as [Hclip|Hclip].
  - match goal with
    | |- context [Inventory.timelineLoop fuel _ _ _ _ ?r] =>
        destruct (IH (s + 86400000) r) as (rest & Hrest & Hdates); [lia|lia|]
    end.
    rewrite Hrest. eexists. split; [reflexivity|].
    cbn [List.map PositionTimelineEntry.date]. now rewrite Hdates.
  - assert (Hlast : Notions.dayCount (s + 86400000) e = 0%nat).
    { unfold Notions.dayCount. destruct (Z.leb_spec (s + 86400000) e); [lia|reflexivity]. }
    rewrite Hlast. destruct fuel as [|fuel]; [lia|].
    cbn [Inventory.timelineLoop]. eexists. split; reflexivity.
Qed.

(** ** Dates read from strings *)

Lemma digit_value_range (c : ascii) (v : Z) :
  JSDate.digit_value c = Some v -> 0 <= v <= 9.
Proof.
  unfold JSDate.digit_value.
  destruct (Z.leb_spec 48 (Z.of_nat (nat_of_ascii c)));
    destruct (Z.leb_spec (Z.of_nat (nat_of_ascii c)) 57); cbn;
    intros [= <-]; lia.
Qed.

Lemma number_of_range (s : string) :
  forall acc v,
    0 <= acc ->
    JSDate.number_of s acc = Some v ->
    0 <= v < (acc + 1) * 10 ^ Z.of_nat (String.length s).
Proof.
  induction s as [|c s IH]; intros acc v Hacc; cbn [JSDate.number_of String.length].
  - intros [= <-]. cbn. lia.
  - destruct (JSDate.digit_value c) as [d|] eqn:Hd; [|discriminate].
    apply digit_value_range in Hd. intros Hv.
    apply IH in Hv; [|lia].
    rewrite Nat2Z.inj_succ, Z.pow_succ_r by lia.
    assert (0 < 10 ^ Z.of_nat (String.length s)) by (apply Z.pow_pos_nonneg; lia).
    nia.
Qed.

Lemma substring_length (n m : nat) (s : string) :
  (String.length (String.substring n m s) <= m)%nat.
Proof.
  revert n m. induction s as [|c s IH]; intros n m.
  - destruct n, m; cbn; lia.
  - destruct n as [|n]; [destruct m as [|m]|]; cbn; [lia| |apply IH].
    specialize (IH 0%nat m). lia.
Qed.

Lemma number_of_substring (n m : nat) (s : string) (v : Z) :
  JSDate.number_of (String.substring n m s) 0 = Some v -> 0 <= v < 10 ^ Z.of_nat m.
Proof.
  intros Hv. apply number_of_range in Hv; [|lia].
  pose proof (substring_length n m s) as Hlen.
  assert (10 ^ Z.of_nat (String.length (String.substring n m s)) <= 10 ^ Z.of_nat m)
    by (apply Z.pow_le_mono_r; lia).
  lia.
Qed.

Lemma days_in_month_le (y m : Z) : JSDate.days_in_month y m <= 31.
Proof.
  unfold JSDate.days_in_month.
  repeat match goal with
         | |- context [if ?c then _ else _] => destruct c
         end; lia.
Qed.

Lemma days_from_civil_range (y m d : Z) :
  0 <= y <= 9999 -> 1 <= m <= 12 -> 1 <= d <= 31 ->
  - 1000000 <= JSDate.days_from_civil y m d <= 3000000.
Proof.
  intros Hy Hm Hd. unfold JSDate.days_from_civil.
  destruct (Z.leb_spec m 2); destruct (Z.ltb_spec 2 m); try lia;
    Z.div_mod_to_equations; lia.
Qed.

(** A date the model reads lies well inside the range of time values. *)
Lemma parse_range (s : string) (t : Z) :
  JSDate.parse s = Some t -> Z.abs t <= 8640000000000000.
Proof.
  unfold JSDate.parse.
  destruct (_ && _ && _); [|discriminate].
  destruct (JSDate.number_of (String.substring 0 4 s) 0) as [y|] eqn:Hy;
    [|discriminate].
  destruct (JSDate.number_of (String.substring 5 2 s) 0) as [m|] eqn:Hm;
    [|discriminate].
  destruct (JSDate.number_of (String.substring 8 2 s) 0) as [d|] eqn:Hd;
    [|discriminate].
  destruct (Z.leb_spec 1 m); cbn [andb]; [|discriminate].
  destruct (Z.leb_spec m 12); cbn [andb]; [|discriminate].
  destruct (Z.leb_spec 1 d); cbn [andb]; [|discriminate].
  destruct (Z.leb_spec d (JSDate.days_in_month y m)); [|discriminate].
  intros [= <-].
  apply number_of_substring in Hy. change (10 ^ Z.of_nat 4) with 10000 in Hy.
  pose proof (days_in_month_le y m).
  pose proof (days_from_civil_range y m d) as Hr.
  unfold JSDate.msPerDay. lia.
Qed.

(** ** The movements of a day *)

Section Grouping.
Context {N : Type}.

Lemma groupByDate_lookup (ms : list (InventoryMovement.t N)) (k : string) :
  default [] (Inventory.groupByDate ms !! k) = List.filter (Notions.onDate k) ms.
Proof.
  unfold Inventory.groupByDate.
  assert (Hgen : forall (acc : gmap string (list (InventoryMovement.t N))),
             default []
               (List.fold_left
                  (fun (byDate : gmap string (list (InventoryMovement.t N))) m =>
                     <[InventoryMovement.expectedDate m :=
                         default [] (byDate !! InventoryMovement.expectedDate m)
                         ++ [m]]> byDate)
                  ms acc !! k)
             = default [] (acc !! k) ++ List.filter (Notions.onDate k) ms).
  { induction ms as [|m ms IH]; intros acc; cbn [List.fold_left List.filter].
    - now rewrite app_nil_r.
    - rewrite IH. unfold Notions.onDate at 2.
      destruct (String.eqb_spec (InventoryMovement.expectedDate m) k) as [->|Hne].
      + rewrite lookup_insert_eq. cbn. now rewrite <- List.app_assoc.
      + rewrite lookup_insert_ne by exact Hne. reflexivity. }
  rewrite Hgen, lookup_empty. reflexivity.
Qed.
End Grouping.

(** The stable sort of [getMovements] leaves the movements of a date in the
    order the orders were read in. *)
Lemma sort_onDate {N : Type} (k : string) (ms : list (InventoryMovement.t N)) :
  List.filter (Notions.onDate k) (JS.sort Inventory.byExpectedDate ms)
  = List.filter (Notions.onDate k) ms.
Proof.
  apply sort_filter. intros a b Ha Hb.
  unfold Notions.onDate in Ha, Hb. apply String.eqb_eq in Ha, Hb.
  unfold Inventory.byExpectedDate, JS.localeCompare. rewrite Ha, Hb.
  pose proof (str_le_refl k) as Hk. unfold JS.str_le in Hk.
  pose proof (String.compare_antisym k k) as Hanti.
  destruct (String.compare k k); [reflexivity|discriminate|congruence].
Qed.

(** Whatever the time zone, an entry carries the movements expected on its
    date and their incoming and outgoing totals. *)
Lemma timelineLoop_movements {N : Type} `{Number N} (fuel : nat)
    (tz : JSDate.TimeZone) (ms : list (InventoryMovement.t N)) (e : option Z) :
  forall (d : option Z) (running : N) (timeline : list (PositionTimelineEntry.t N)),
    Inventory.timelineLoop fuel tz (Inventory.groupByDate ms) d e running
    = Some timeline ->
    List.Forall
      (fun entry =>
         PositionTimelineEntry.movements entry
         = List.filter (Notions.onDate (PositionTimelineEntry.date entry)) ms
         /\ PositionTimelineEntry.incoming entry
            = Inventory.dayIncoming (PositionTimelineEntry.movements entry)
         /\ PositionTimelineEntry.outgoing entry
            = Inventory.dayOutgoing (PositionTimelineEntry.movements entry))
      timeline.
Proof.
  induction fuel as [|fuel IH]; intros d running timeline;
    cbn [Inventory.timelineLoop]; [discriminate|].
  destruct d as [dv|], e as [ev|]; try (intros [= <-]; constructor).
  destruct (dv <=? ev); [|intros [= <-]; constructor].
  destruct (Inventory.timelineLoop fuel tz _ _ _ _) as [rest|] eqn:Hrest;
    [|discriminate].
  intros [= <-]. constructor; [|exact (IH _ _ _ Hrest)].
  cbn [PositionTimelineEntry.movements PositionTimelineEntry.date
         PositionTimelineEntry.incoming PositionTimelineEntry.outgoing].
  split; [apply groupByDate_lookup | split; reflexivity].
Qed.

(** ** The calendar *)

(** The year of the era and the day of the year are recovered from the day of
    the era. *)
Lemma year_of_era (yoe doy : Z) :
  0 <= yoe < 400 ->
  0 <= doy ->
  (doy <= 364
   \/ (doy = 365 /\ (yoe + 1) mod 4 = 0 /\ ((yoe + 1) mod 100 <> 0 \/ yoe = 399))) ->
  let doe := yoe * 365 + yoe / 4 - yoe / 100 + doy in
  0 <= doe < 146097
  /\ (doe - doe / 1460 + doe / 36524 - doe / 146096) / 365 = yoe.
Proof.
  intros Hy Hd Hleap doe. subst doe.
  split; Z.div_mod_to_equations; lia.
Qed.

Lemma month_of_year (mp d : Z) :
  0 <= mp <= 11 ->
  1 <= d ->
  d <= (if mp =? 11 then 29
        else if (mp =? 1) || (mp =? 3) || (mp =? 6) || (mp =? 8) then 30 else 31) ->
  let doy := (153 * mp + 2) / 5 + d - 1 in
  (5 * doy + 2) / 153 = mp /\ doy - (153 * mp + 2) / 5 + 1 = d /\ 0 <= doy <= 365
  /\ (mp <> 11 \/ d <= 28 -> doy <= 364).
Proof.
  intros Hmp Hd Hmax doy. subst doy.
  assert (Hcases : mp = 0 \/ mp = 1 \/ mp = 2 \/ mp = 3 \/ mp = 4 \/ mp = 5 \/ mp = 6
                   \/ mp = 7 \/ mp = 8 \/ mp = 9 \/ mp = 10 \/ mp = 11) by lia.
  repeat (destruct Hcases as [->|Hcases]); try subst mp; cbn in *;
    repeat split; try (Z.div_mod_to_equations; lia).
Qed.

Lemma is_leap_true (y : Z) :
  JSDate.is_leap y = true -> y mod 4 = 0 /\ (y mod 100 <> 0 \/ y mod 400 = 0).
Proof.
  unfold JSDate.is_leap.
  destruct (Z.eqb_spec (y mod 4) 0), (Z.eqb_spec (y mod 100) 0),
    (Z.eqb_spec (y mod 400) 0); cbn; intros; try discriminate; auto.
  all: Z.div_mod_to_equations; lia.
Qed.

Lemma civil_from_days_from_civil (y m d : Z) :
  1 <= m <= 12 -> 1 <= d <= JSDate.days_in_month y m ->
  JSDate.civil_from_days (JSDate.days_from_civil y m d) = (y, m, d).
Proof.
  intros Hm Hd.
  unfold JSDate.days_from_civil.
  set (y' := if m <=? 2 then y - 1 else y).
  set (mp := if 2 <? m then m - 3 else m + 9).
  set (era := y' / 400). set (yoe := y' - era * 400).
  assert (Hyoe : 0 <= yoe < 400) by (unfold yoe, era; Z.div_mod_to_equations; lia).
  assert (Hmp : 0 <= mp <= 11) by (unfold mp; destruct (Z.ltb_spec 2 m); lia).
  assert (Hmpm : m = if mp <? 10 then mp + 3 else mp - 9).
  { unfold mp. destruct (Z.ltb_spec 2 m).
    - destruct (Z.ltb_spec (m - 3) 10); lia.
    - destruct (Z.ltb_spec (m + 9) 10); lia. }
  assert (Hlen : d <= (if mp =? 11 then 29
                       else if (mp =? 1) || (mp =? 3) || (mp =? 6) || (mp =? 8)
                            then 30 else 31)).
  { unfold JSDate.days_in_month in Hd. unfold mp. clear - Hm Hd. revert Hd.
    destruct (Z.ltb_spec 2 m);
      repeat match goal with
             | |- context [Z.eqb ?a ?b] =>
                 destruct (Z.eqb_spec a b); cbn [orb]; try lia
             end.
    all: destruct (JSDate.is_leap y); lia. }
  destruct (month_of_year mp d Hmp ltac:(lia) Hlen) as (Hmonth & Hday & Hdoy & Hshort).
  set (doy := (153 * mp + 2) / 5 + d - 1) in *.
  assert (Hleap : doy <= 364
                  \/ (doy = 365 /\ (yoe + 1) mod 4 = 0
                      /\ ((yoe + 1) mod 100 <> 0 \/ yoe = 399))).
  { destruct (Z.eq_dec mp 11) as [Hfeb|Hnot]; [|left; apply Hshort; lia].
    destruct (Z_le_gt_dec d 28) as [Hd28|Hd29]; [left; apply Hshort; lia|].
    right.
    assert (Hm2 : m = 2).
    { unfold mp in Hfeb. destruct (Z.ltb_spec 2 m); lia. }
    unfold JSDate.days_in_month in Hd. rewrite Hm2 in Hd. cbn in Hd.
    destruct (JSDate.is_leap y) eqn:Hl; [|lia].
    apply is_leap_true in Hl.
    assert (Hd29' : d = 29) by lia.
    assert (Hy : y = era * 400 + yoe + 1).
    { unfold yoe, y'. rewrite Hm2. cbn. lia. }
    split.
    - unfold doy. rewrite Hfeb, Hd29'. reflexivity.
    - rewrite Hy in Hl. clear - Hl Hyoe. Z.div_mod_to_equations. lia. }
  destruct (year_of_era yoe doy Hyoe ltac:(lia) Hleap) as (Hdoe & Hrecover).
  set (doe := yoe * 365 + yoe / 4 - yoe / 100 + doy) in *.
  unfold JSDate.civil_from_days.
  replace (era * 146097 + doe - 719468 + 719468) with (doe + era * 146097) by lia.
  rewrite Z.div_add by lia. rewrite (Z.div_small doe) by lia.
  replace (doe + era * 146097 - (0 + era) * 146097) with doe by lia.
  rewrite Hrecover.
  replace (doe - (365 * yoe + yoe / 4 - yoe / 100)) with doy by (unfold doe; lia).
  rewrite Hmonth, Hday, <- Hmpm.
  replace (yoe + (0 + era) * 400) with y' by (unfold yoe; lia).
  unfold y'. destruct (Z.leb_spec m 2); f_equal; f_equal; lia.
Qed.

(** ** Dates printed and read back *)

Lemma digit_of_value (c : ascii) (v n : Z) :
  JSDate.digit_value c = Some v -> n mod 10 = v -> JSDate.digit n = c.
Proof.
  unfold JSDate.digit_value, JSDate.digit.
  destruct (Z.leb_spec 48 (Z.of_nat (nat_of_ascii c)));
    destruct (Z.leb_spec (Z.of_nat (nat_of_ascii c)) 57); cbn [andb];
    try discriminate.
  intros [= <-] ->.
  replace (48 + Z.to_nat (Z.of_nat (nat_of_ascii c) - 48))%nat
    with (nat_of_ascii c) by lia.
  apply ascii_nat_embedding.
Qed.

Lemma digits2_number_of (c0 c1 : ascii) (v : Z) :
  JSDate.number_of (String c0 (String c1 "")) 0 = Some v ->
  JSDate.digits 2 v "" = String c0 (String c1 "").
Proof.
  cbn [JSDate.number_of].
  destruct (JSDate.digit_value c0) as [v0|] eqn:H0; [|discriminate].
  destruct (JSDate.digit_value c1) as [v1|] eqn:H1; [|discriminate].
  intros [= <-]. cbn [JSDate.digits].
  pose proof (digit_value_range _ _ H0). pose proof (digit_value_range _ _ H1).
  f_equal; [|f_equal].
  - apply (digit_of_value c0 v0); [exact H0|]. Z.div_mod_to_equations. lia.
  - apply (digit_of_value c1 v1); [exact H1|]. Z.div_mod_to_equations. lia.
Qed.

Lemma digits4_number_of (c0 c1 c2 c3 : ascii) (v : Z) :
  JSDate.number_of (String c0 (String c1 (String c2 (String c3 "")))) 0 = Some v ->
  JSDate.digits 4 v "" = String c0 (String c1 (String c2 (String c3 ""))).
Proof.
  cbn [JSDate.number_of].
  destruct (JSDate.digit_value c0) as [v0|] eqn:H0; [|discriminate].
  destruct (JSDate.digit_value c1) as [v1|] eqn:H1; [|discriminate].
  destruct (JSDate.digit_value c2) as [v2|] eqn:H2; [|discriminate].
  destruct (JSDate.digit_value c3) as [v3|] eqn:H3; [|discriminate].
  intros [= <-]. cbn [JSDate.digits].
  pose proof (digit_value_range _ _ H0). pose proof (digit_value_range _ _ H1).
  pose proof (digit_value_range _ _ H2). pose proof (digit_value_range _ _ H3).
  f_equal; [|f_equal; [|f_equal; [|f_equal]]].
  - apply (digit_of_value c0 v0); [exact H0|]. Z.div_mod_to_equations. lia.
  - apply (digit_of_value c1 v1); [exact H1|]. Z.div_mod_to_equations. lia.
  - apply (digit_of_value c2 v2); [exact H2|]. Z.div_mod_to_equations. lia.
  - apply (digit_of_value c3 v3); [exact H3|]. Z.div_mod_to_equations. lia.
Qed.

(** A date of the form [YYYY-MM-DD] that is read is printed back as it was:
    [new Date(s).toISOString().split('T')[0]] is [s]. *)
Theorem toISODate_parse (s : string) (t : Z) :
  JSDate.parse s = Some t -> JSDate.toISODate t = s.
Proof.
  unfold JSDate.parse.
  destruct (Nat.eqb_spec (String.length s) 10) as [Hlen|]; [|discriminate].
  destruct s as [|c0 [|c1 [|c2 [|c3 [|c4 [|c5 [|c6 [|c7 [|c8 [|c9 [|c10 s]]]]]]]]]]];
    try discriminate Hlen.
  cbn [String.substring andb].
  destruct (String.eqb_spec (String c4 "") "-") as [Hc4|]; [|discriminate].
  destruct (String.eqb_spec (String c7 "") "-") as [Hc7|]; [|discriminate].
  injection Hc4 as ->. injection Hc7 as ->.
  destruct (JSDate.number_of (String c0 (String c1 (String c2 (String c3 "")))) 0)
    as [y|] eqn:Hy; [|discriminate].
  destruct (JSDate.number_of (String c5 (String c6 "")) 0) as [m|] eqn:Hm;
    [|discriminate].
  destruct (JSDate.number_of (String c8 (String c9 "")) 0) as [d|] eqn:Hd;
    [|discriminate].
  destruct (Z.leb_spec 1 m); cbn [andb]; [|discriminate].
  destruct (Z.leb_spec m 12); cbn [andb]; [|discriminate].
  destruct (Z.leb_spec 1 d); cbn [andb]; [|discriminate].
  destruct (Z.leb_spec d (JSDate.days_in_month y m)); [|discriminate].
  intros [= <-].
  unfold JSDate.toISODate.
  rewrite Z.div_mul by (unfold JSDate.msPerDay; lia).
  rewrite civil_from_days_from_civil by lia.
  pose proof (number_of_range _ _ _ (Z.le_refl 0) Hy) as Hrange.
  change (Z.of_nat (String.length (String c0 (String c1 (String c2 (String c3 ""))))))
    with 4 in Hrange.
  change (10 ^ 4) with 10000 in Hrange.
  destruct (Z.leb_spec 0 y); [|lia].
  destruct (Z.leb_spec y 9999); [|lia].
  cbn [andb].
  rewrite (digits4_number_of _ _ _ _ _ Hy), (digits2_number_of _ _ _ Hm),
    (digits2_number_of _ _ _ Hd).
  reflexivity.
Qed.

(** ** The timeline on a host without daylight saving time *)

Lemma parse_midnight (s : string) (t : Z) :
  JSDate.parse s = Some t -> exists day, t = day * JSDate.msPerDay.
Proof.
  unfold JSDate.parse.
  destruct (_ && _ && _); [|discriminate].
  destruct (JSDate.number_of _ 0) as [y|]; [|discriminate].
  destruct (JSDate.number_of _ 0) as [m|]; [|discriminate].
  destruct (JSDate.number_of _ 0) as [d|]; [|discriminate].
  destruct (_ && _ && _ && _); [|discriminate].
  intros [= <-]. eauto.
Qed.

Lemma daysFrom_last (n : nat) (first : Z) :
  List.last (Notions.daysFrom (S n) first) 0 = first + Z.of_nat n * JSDate.msPerDay.
Proof.
  revert first. induction n as [|n IH]; intros first.
  - cbn. lia.
  - change (Notions.daysFrom (S (S n)) first)
      with (first :: Notions.daysFrom (S n) (first + JSDate.msPerDay)).
    change (List.last (first :: Notions.daysFrom (S n) (first + JSDate.msPerDay)) 0)
      with (List.last (Notions.daysFrom (S n) (first + JSDate.msPerDay)) 0).
    rewrite IH. lia.
Qed.

Lemma last_map {A B} (f : A -> B) (l : list A) (a : A) (b : B) :
  l <> [] -> List.last (List.map f l) b = f (List.last l a).
Proof.
  induction l as [|x l IH]; [congruence|]. intros _.
  destruct l as [|y l]; [reflexivity|].
  change (List.last (List.map f (x :: y :: l)) b)
    with (List.last (List.map f (y :: l)) b).
  change (List.last (x :: y :: l) a) with (List.last (y :: l) a).
  apply IH. discriminate.
Qed.

(** From a start at midnight to an end at midnight the days are those between
    them: the first is the start and the last is the end. *)
Lemma daysFrom_ends (s e : Z) :
  s <= e ->
  (exists k, s = k * JSDate.msPerDay) ->
  (exists k, e = k * JSDate.msPerDay) ->
  exists n,
    Notions.dayCount s e = S n
    /\ List.head (Notions.daysFrom (S n) s) = Some s
    /\ List.last (Notions.daysFrom (S n) s) 0 = e.
Proof.
  intros Hse [ks ->] [ke ->]. unfold Notions.dayCount.
  destruct (Z.leb_spec (ks * JSDate.msPerDay) (ke * JSDate.msPerDay)); [|lia].
  replace (ke * JSDate.msPerDay - ks * JSDate.msPerDay)
    with ((ke - ks) * JSDate.msPerDay) by lia.
  rewrite Z.div_mul by (unfold JSDate.msPerDay; lia).
  assert (0 <= ke - ks) by (unfold JSDate.msPerDay in *; lia).
  exists (Z.to_nat (ke - ks)). split; [lia|]. split; [reflexivity|].
  rewrite daysFrom_last, Z2Nat.id by assumption. lia.
Qed.

(** Whatever the time zone and the arithmetic, each entry adds the
    difference of its incoming and its outgoing to the position before it. *)
Lemma timelineLoop_running {N : Type} `{Number N} (fuel : nat)
    (tz : JSDate.TimeZone)
    (byDate : gmap string (list (InventoryMovement.t N))) (e : option Z) :
  forall (d : option Z) (running : N) (timeline : list (PositionTimelineEntry.t N)),
    Inventory.timelineLoop fuel tz byDate d e running = Some timeline ->
    Rules.running running timeline.
Proof.
  induction fuel as [|fuel IH]; intros d running timeline;
    cbn [Inventory.timelineLoop]; [discriminate|].
  destruct d as [dv|], e as [ev|]; try (intros [= <-]; exact I).
  destruct (dv <=? ev); [|intros [= <-]; exact I].
  destruct (Inventory.timelineLoop fuel tz byDate _ _ _) as [rest|] eqn:Hrest;
    [|discriminate].
  intros [= <-]. cbn [Rules.running PositionTimelineEntry.position
                        PositionTimelineEntry.incoming PositionTimelineEntry.outgoing].
  split; [reflexivity|]. exact (IH _ _ _ Hrest).
Qed.

(** On a host with a fixed offset from UTC, with enough fuel and whatever
    the arithmetic of the quantities, the timeline of two dates of the form
    [YYYY-MM-DD] has one entry for each day from the first, whose date is
    [startDate], to the last, whose date is [endDate], in order.  An entry
    carries the movements expected on its date, in the order of
    [getMovements]; its incoming is the sum of their positive quantities and
    its outgoing the sum of the magnitudes of their negative ones, both
    taken from the left and both zero on a day without movements; and its
    position is the one before it (the ledger balance for the first entry)
    plus the difference of its incoming and its outgoing. *)
Theorem getPositionTimeline_fixed_offset {N : Type} `{Number N}
    (off : Z) (fuel : nat) (today : string) (st : Inventory.Store (N := N))
    (commodityId : string) (locationId : option string)
    (startDate endDate : string) (s e : Z) :
  JSDate.parse startDate = Some s ->
  JSDate.parse endDate = Some e ->
  Z.max 0 (e - s + JSDate.msPerDay) < Z.of_nat fuel * JSDate.msPerDay ->
  exists timeline,
    Inventory.getPositionTimeline fuel (JSDate.fixedOffset off) today st
      commodityId locationId startDate endDate = Some timeline
    /\ List.map PositionTimelineEntry.date timeline
       = List.map JSDate.toISODate (Notions.daysFrom (Notions.dayCount s e) s)
    /\ (s <= e ->
        List.head (List.map PositionTimelineEntry.date timeline) = Some startDate
        /\ List.last (List.map PositionTimelineEntry.date timeline) ""%string
           = endDate)
    /\ Rules.running (Inventory.getCurrentInventory st commodityId locationId)
         timeline
    /\ List.Forall
         (fun entry =>
            let dayMovements :=
              List.filter (Notions.onDate (PositionTimelineEntry.date entry))
                (Inventory.getMovements today st commodityId locationId
                   (Some startDate) (Some endDate)) in
            PositionTimelineEntry.movements entry = dayMovements
            /\ PositionTimelineEntry.incoming entry
               = Rules.runningSum
                   (List.map InventoryMovement.quantity
                      (List.filter
                         (fun m => n_lt n_zero (InventoryMovement.quantity m))
                         dayMovements))
            /\ PositionTimelineEntry.outgoing entry
               = Rules.runningSum
                   (List.map (fun m => n_abs (InventoryMovement.quantity m))
                      (List.filter
                         (fun m => n_lt (InventoryMovement.quantity m) n_zero)
                         dayMovements))
            /\ (dayMovements = [] ->
                PositionTimelineEntry.incoming entry = n_zero
                /\ PositionTimelineEntry.outgoing entry = n_zero))
         timeline.
Proof.
  intros Hs He Hfuel. unfold Inventory.getPositionTimeline. rewrite Hs, He.
  pose proof (parse_range _ _ Hs) as Hsr. pose proof (parse_range _ _ He) as Her.
  destruct (timelineLoop_fixed_offset off
              (Inventory.groupByDate
                 (Inventory.getMovements today st commodityId locationId
                    (Some startDate) (Some endDate)))
              e ltac:(lia) fuel s
              (Inventory.getCurrentInventory st commodityId locationId)
              ltac:(lia) Hfuel) as (timeline & Hrun & Hdates).
  exists timeline. split; [exact Hrun|]. split; [exact Hdates|]. split; [|split].
  - intros Hse. rewrite Hdates.
    destruct (daysFrom_ends s e Hse (parse_midnight _ _ Hs) (parse_midnight _ _ He))
      as (n & Hn & Hhead & Hlast).
    rewrite Hn. split.
    + cbn [Notions.daysFrom List.map List.head]. now rewrite (toISODate_parse _ _ Hs).
    + rewrite (last_map JSDate.toISODate _ 0) by discriminate.
      rewrite Hlast. exact (toISODate_parse _ _ He).
  - exact (timelineLoop_running _ _ _ _ _ _ _ Hrun).
  - pose proof (timelineLoop_movements _ _ _ _ _ _ _ Hrun) as Hm.
    eapply List.Forall_impl; [|exact Hm].
    intros entry (Hmoves & Hin & Hout). cbn zeta. rewrite <- Hmoves.
    split; [reflexivity|].
    assert (Hsum : forall (f : InventoryMovement.t N -> N) ms,
               List.fold_left (fun sum m => n_add sum (f m)) ms n_zero
               = Rules.runningSum (List.map f ms)).
    { intros f ms. unfold Rules.runningSum. generalize n_zero.
      induction ms as [|m ms IH]; intros z; [reflexivity|]. cbn. apply IH. }
    split; [|split].
    + rewrite Hin. unfold Inventory.dayIncoming. apply Hsum.
    + rewrite Hout. unfold Inventory.dayOutgoing.
      apply (Hsum (fun m => n_abs (InventoryMovement.quantity m))).
    + intros Hnone. rewrite Hin, Hout, Hnone. split; reflexivity.
Qed.

(** Four days in UTC: the dates parse, ten rounds of fuel cover them; 500
    LB come in on the second day and 200 LB leave on the fourth. *)
Lemma getPositionTimeline_fixed_offset_witness :
  JSDate.parse "2024-03-09" = Some 1709942400000
  /\ JSDate.parse "2024-03-12" = Some 1710201600000
  /\ exists timeline,
      Inventory.getPositionTimeline 10 (JSDate.fixedOffset 0) "2024-03-09"
        Examples.yard "HMS1" None "2024-03-09" "2024-03-12" = Some timeline
      /\ List.map PositionTimelineEntry.date timeline
         = ["2024-03-09"; "2024-03-10"; "2024-03-11"; "2024-03-12"]%string
      /\ List.map PositionTimelineEntry.position timeline
         = [1000; 1500; 1500; 1300]
      /\ Rules.running 1000 timeline.
Proof.
  split; [reflexivity|]. split; [reflexivity|].
  destruct (getPositionTimeline_fixed_offset 0 10 "2024-03-09" Examples.yard
              "HMS1" None "2024-03-09" "2024-03-12" 1709942400000 1710201600000
              eq_refl eq_refl eq_refl)
    as (timeline & Hrun & Hdates & _ & Hrunning & _).
  exists timeline. split; [exact Hrun|]. split; [exact Hdates|].
  split; [|exact Hrunning].
  vm_compute in Hrun. injection Hrun as <-. reflexivity.
Defined.

(** ** Deleting from the price book *)

Section DeleteFacts.
Context {T : Type} `{Keyed T}.

Lemma delete_filter (c : list T) (id : string) :
  fst (Collection.delete c id)
  = List.filter (fun x => negb (String.eqb (key x) id)) c.
Proof.
  unfold Collection.delete.
  destruct (Collection.getById c id) eqn:E; [reflexivity|].
  cbn [fst]. pose proof (getById_None _ _ E) as Hn. clear E.
  induction c as [|x c IH]; [reflexivity|].
  cbn [List.filter].
  destruct (String.eqb_spec (key x) id) as [Hk|Hk].
  - exfalso. apply (Hn x); [now left | exact Hk].
  - cbn [negb]. f_equal. apply IH. intros r Hr. apply Hn. now right.
Qed.

Lemma delete_found (c : list T) (id : string) :
  snd (Collection.delete c id) = true <-> exists r, In r c /\ key r = id.
Proof.
  unfold Collection.delete.
  destruct (Collection.getById c id) eqn:E; cbn [snd].
  - split; [intros _ | reflexivity].
    apply getById_Some in E. eauto.
  - split; [discriminate|]. intros (r & Hin & Hk).
    exfalso. exact (getById_None _ _ E r Hin Hk).
Qed.

(** Deleting the keys of [ds] one after the other. *)
Lemma delete_each (ds c : list T) :
  List.fold_left (fun l d => fst (Collection.delete l (key d))) ds c
  = List.filter
      (fun x => negb (List.existsb (fun d => String.eqb (key x) (key d)) ds)) c.
Proof.
  revert c. induction ds as [|d ds IH]; intros c; cbn [List.fold_left].
  - cbn [List.existsb negb]. induction c as [|x c IHc]; [reflexivity|].
    cbn [List.filter]. now f_equal.
  - rewrite IH, delete_filter.
    induction c as [|x c IHc]; [reflexivity|].
    cbn [List.filter List.existsb].
    destruct (String.eqb (key x) (key d)); cbn [negb orb List.filter].
    + exact IHc.
    + destruct (List.existsb _ ds); cbn [negb]; [exact IHc | now f_equal].
Qed.

Lemma same_key_same_record (c : list T) (a b : T) :
  List.NoDup (List.map key c) -> In a c -> In b c -> key a = key b -> a = b.
Proof.
  induction c as [|x c IH]; [contradiction|].
  cbn [List.map]. intros Hnd Ha Hb Hk.
  apply List.NoDup_cons_iff in Hnd. destruct Hnd as [Hx Hnd].
  destruct Ha as [<-|Ha], Hb as [<-|Hb].
  - reflexivity.
  - exfalso. apply Hx. rewrite Hk. now apply List.in_map.
  - exfalso. apply Hx. rewrite <- Hk. now apply List.in_map.
  - now apply IH.
Qed.
End DeleteFacts.

Lemma filter_ext_in_ {A} (p q : A -> bool) (l : list A) :
  (forall x, In x l -> p x = q x) -> List.filter p l = List.filter q l.
Proof.
  induction l as [|x l IH]; intros Hpq; [reflexivity|].
  cbn [List.filter]. rewrite (Hpq x) by now left.
  rewrite IH; [reflexivity|]. intros y Hy. apply Hpq. now right.
Qed.

(** The loop of [deletePriceList] touches the items only. *)
Lemma deleteItems_fold (ds : list NewPriceListItem.t) (st : Pricing.Store) :
  List.fold_left
    (fun st item =>
       Pricing.with_priceListItems
         (fst (Collection.delete (Pricing.priceListItems st)
                 (NewPriceListItem.id item)))
         st)
    ds st
  = Pricing.with_priceListItems
      (List.filter
         (fun x =>
            negb (List.existsb
                    (fun d => String.eqb (NewPriceListItem.id x)
                                (NewPriceListItem.id d)) ds))
         (Pricing.priceListItems st))
      st.
Proof.
  rewrite <- (delete_each (H := NewPriceListItem_keyed)).
  revert st. induction ds as [|d ds IH]; intros st; cbn [List.fold_left].
  - now destruct st.
  - rewrite IH. reflexivity.
Qed.

Lemma deletePriceList_items (st : Pricing.Store) (id : string) :
  Pricing.priceListItems (fst (PriceBook.deletePriceList st id))
  = List.filter
      (fun x =>
         negb (List.existsb
                 (fun d => String.eqb (NewPriceListItem.id x)
                             (NewPriceListItem.id d))
                 (PriceBook.getItemsByPriceList st id)))
      (Pricing.priceListItems st).
Proof.
  unfold PriceBook.deletePriceList. rewrite deleteItems_fold.
  destruct (Collection.delete _ id) as [lists r]. reflexivity.
Qed.

Lemma deletePriceList_lists (st : Pricing.Store) (id : string) :
  Pricing.priceLists (fst (PriceBook.deletePriceList st id))
  = List.filter (fun pl => negb (String.eqb (PriceList.id pl) id))
      (Pricing.priceLists st).
Proof.
  unfold PriceBook.deletePriceList. rewrite deleteItems_fold.
  cbn [Pricing.with_priceListItems Pricing.priceLists].
  rewrite <- (delete_filter (H := PriceList_keyed)).
  destruct (Collection.delete _ id) as [lists r]. reflexivity.
Qed.

Lemma deletePriceList_rest (st : Pricing.Store) (id : string) :
  Pricing.pricingGroups (fst (PriceBook.deletePriceList st id))
  = Pricing.pricingGroups st
  /\ Pricing.accounts (fst (PriceBook.deletePriceList st id))
     = Pricing.accounts st
  /\ Pricing.commodities (fst (PriceBook.deletePriceList st id))
     = Pricing.commodities st.
Proof.
  unfold PriceBook.deletePriceList. rewrite deleteItems_fold.
  destruct (Collection.delete _ id) as [lists r]. now repeat split.
Qed.


Lemma NoDup_map_filter {A B} (f : A -> B) (p : A -> bool) (l : list A) :
  List.NoDup (List.map f l) -> List.NoDup (List.map f (List.filter p l)).
Proof.
  induction l as [|x l IH]; cbn [List.map List.filter]; [trivial|].
  intros Hnd. apply List.NoDup_cons_iff in Hnd. destruct Hnd as [Hx Hnd].
  destruct (p x); [|now apply IH].
  cbn [List.map]. apply List.NoDup_cons_iff. split; [|now apply IH].
  intros Hin. apply Hx. apply List.in_map_iff in Hin.
  destruct Hin as (y & Hy & Hin). apply List.filter_In in Hin.
  apply List.in_map_iff. exists y. tauto.
Qed.

(** With distinct item ids the loop removes the items of the list and no
    other. *)
Lemma deletePriceList_items_distinct (st : Pricing.Store) (id : string) :
  List.NoDup (List.map NewPriceListItem.id (Pricing.priceListItems st)) ->
  Pricing.priceListItems (fst (PriceBook.deletePriceList st id))
  = List.filter
      (fun item => negb (String.eqb (NewPriceListItem.priceListId item) id))
      (Pricing.priceListItems st).
Proof.
  intros Hnd. rewrite deletePriceList_items. apply filter_ext_in_.
  intros x Hx. f_equal.
  destruct (String.eqb_spec (NewPriceListItem.priceListId x) id) as [Hl|Hl].
  - apply List.existsb_exists. exists x. split; [|apply String.eqb_refl].
    apply List.filter_In. split; [exact Hx|]. now apply String.eqb_eq.
  - destruct (List.existsb _ _) eqn:E; [|reflexivity]. exfalso.
    apply List.existsb_exists in E. destruct E as (d & Hd & Hk).
    apply List.filter_In in Hd. destruct Hd as [Hd Hdl].
    apply String.eqb_eq in Hk, Hdl.
    assert (x = d)
      by exact (same_key_same_record (H := NewPriceListItem_keyed)
                  _ x d Hnd Hx Hd Hk).
    subst d. contradiction.
Qed.



Lemma deleteLists_lists (ds : list PriceList.t) (st : Pricing.Store) :
  Pricing.priceLists (Rules.deleteLists ds st)
  = List.filter
      (fun x =>
         negb (List.existsb
                 (fun d => String.eqb (PriceList.id x) (PriceList.id d)) ds))
      (Pricing.priceLists st).
Proof.
  rewrite <- (delete_each (H := PriceList_keyed)).
  unfold Rules.deleteLists. revert st.
  induction ds as [|d ds IH]; intros st; cbn [List.fold_left]; [reflexivity|].
  rewrite IH, deletePriceList_lists, <- (delete_filter (H := PriceList_keyed)).
  reflexivity.
Qed.

Lemma deleteLists_rest (ds : list PriceList.t) (st : Pricing.Store) :
  Pricing.pricingGroups (Rules.deleteLists ds st) = Pricing.pricingGroups st
  /\ Pricing.accounts (Rules.deleteLists ds st) = Pricing.accounts st
  /\ Pricing.commodities (Rules.deleteLists ds st) = Pricing.commodities st.
Proof.
  unfold Rules.deleteLists. revert st.
  induction ds as [|d ds IH]; intros st; cbn [List.fold_left]; [now repeat split|].
  destruct (IH (fst (PriceBook.deletePriceList st (PriceList.id d))))
    as (Hg & Ha & Hc).
  destruct (deletePriceList_rest st (PriceList.id d)) as (Hg' & Ha' & Hc').
  repeat split; congruence.
Qed.

Lemma deletePriceList_items_incl (st : Pricing.Store) (id : string)
    (item : NewPriceListItem.t) :
  In item (Pricing.priceListItems (fst (PriceBook.deletePriceList st id))) ->
  In item (Pricing.priceListItems st)
  /\ NewPriceListItem.priceListId item <> id.
Proof.
  rewrite deletePriceList_items. intros Hin.
  apply List.filter_In in Hin. destruct Hin as [Hin Hex].
  split; [exact Hin|]. intros Hl.
  apply negb_true_iff in Hex.
  assert (List.existsb
            (fun d => String.eqb (NewPriceListItem.id item) (NewPriceListItem.id d))
            (PriceBook.getItemsByPriceList st id) = true); [|congruence].
  apply List.existsb_exists. exists item. split; [|apply String.eqb_refl].
  apply List.filter_In. split; [exact Hin | now apply String.eqb_eq].
Qed.

Lemma deleteLists_items (ds : list PriceList.t) (st : Pricing.Store)
    (item : NewPriceListItem.t) :
  In item (Pricing.priceListItems (Rules.deleteLists ds st)) ->
  In item (Pricing.priceListItems st)
  /\ forall d, In d ds -> NewPriceListItem.priceListId item <> PriceList.id d.
Proof.
  unfold Rules.deleteLists. revert st.
  induction ds as [|d ds IH]; intros st; cbn [List.fold_left].
  - intros Hin. split; [exact Hin | contradiction].
  - intros Hin. apply IH in Hin. destruct Hin as [Hin Hds].
    apply deletePriceList_items_incl in Hin. destruct Hin as [Hin Hd].
    split; [exact Hin|]. intros d' [<-|Hd']; [exact Hd | now apply Hds].
Qed.

Lemma is_id_spec (field : option string) (id : string) :
  PriceBook.is_id field id = true <-> field = Some id.
Proof.
  unfold PriceBook.is_id, Inventory.differs. destruct field as [x|]; cbn.
  - rewrite negb_involutive, String.eqb_eq. split; congruence.
  - split; discriminate.
Qed.

(** The accounts [deletePricingGroup] counts. *)
Lemma assignedAccounts_query (st : Pricing.Store) (id : string) :
  Collection.query (Pricing.accounts st)
    (fun a =>
       PriceBook.is_id (Account.buyPricingGroupId a) id
       || PriceBook.is_id (Account.sellPricingGroupId a) id)
  = Rules.assignedAccounts st id.
Proof.
  unfold Collection.query, Rules.assignedAccounts. apply filter_ext_in_.
  intros a _. apply eq_true_iff_eq.
  rewrite orb_true_iff, !is_id_spec, bool_decide_eq_true. reflexivity.
Qed.

Lemma assigned_query (st : Pricing.Store) (id : string) :
  Rules.assigned st id
  <-> (0 < length
             (Collection.query (Pricing.accounts st)
                (fun a =>
                   PriceBook.is_id (Account.buyPricingGroupId a) id
                   || PriceBook.is_id (Account.sellPricingGroupId a) id)))%nat.
Proof.
  unfold Rules.assigned, Collection.query. split.
  - intros (a & Hin & Ha).
    assert (In a (List.filter
                    (fun a =>
                       PriceBook.is_id (Account.buyPricingGroupId a) id
                       || PriceBook.is_id (Account.sellPricingGroupId a) id)
                    (Pricing.accounts st))) as Hf.
    { apply List.filter_In. split; [exact Hin|]. apply orb_true_iff.
      rewrite !is_id_spec. exact Ha. }
    destruct (List.filter _ _); [contradiction | cbn; lia].
  - destruct (List.filter _ _) as [|a l] eqn:E; [cbn; lia | intros _].
    assert (In a (a :: l)) as Hin by now left.
    rewrite <- E in Hin. apply List.filter_In in Hin. destruct Hin as [Hin Ha].
    apply orb_true_iff in Ha. rewrite !is_id_spec in Ha. now exists a.
Qed.

Lemma filter_filter {A} (p q : A -> bool) (l : list A) :
  List.filter p (List.filter q l) = List.filter (fun x => q x && p x) l.
Proof.
  induction l as [|x l IH]; [reflexivity|]. cbn [List.filter].
  destruct (q x); cbn [andb List.filter]; [|exact IH].
  destruct (p x); now rewrite IH.
Qed.

Lemma deleteLists_items_distinct (ds : list PriceList.t) (st : Pricing.Store) :
  List.NoDup (List.map NewPriceListItem.id (Pricing.priceListItems st)) ->
  Pricing.priceListItems (Rules.deleteLists ds st)
  = List.filter
      (fun item =>
         negb (List.existsb
                 (fun d => String.eqb (NewPriceListItem.priceListId item)
                             (PriceList.id d)) ds))
      (Pricing.priceListItems st).
Proof.
  unfold Rules.deleteLists. revert st.
  induction ds as [|d ds IH]; intros st Hnd; cbn [List.fold_left].
  - cbn [List.existsb negb]. symmetry. apply List.forallb_filter_id.
    apply List.forallb_forall. reflexivity.
  - rewrite IH.
    + rewrite deletePriceList_items_distinct by exact Hnd.
      rewrite filter_filter. apply filter_ext_in_. intros x _.
      cbn [List.existsb]. now rewrite negb_orb.
    + rewrite deletePriceList_items_distinct by exact Hnd.
      now apply NoDup_map_filter.
Qed.

Lemma deleteLists_lists_distinct (st : Pricing.Store) (id : string) :
  List.NoDup (List.map PriceList.id (Pricing.priceLists st)) ->
  Pricing.priceLists
    (Rules.deleteLists (PriceBook.getPriceListsByGroup st id) st)
  = List.filter (fun pl => negb (String.eqb (PriceList.pricingGroupId pl) id))
      (Pricing.priceLists st).
Proof.
  intros Hnd. rewrite deleteLists_lists. apply filter_ext_in_.
  intros x Hx. f_equal.
  destruct (String.eqb_spec (PriceList.pricingGroupId x) id) as [Hl|Hl].
  - apply List.existsb_exists. exists x. split; [|apply String.eqb_refl].
    apply List.filter_In. split; [exact Hx|]. now apply String.eqb_eq.
  - destruct (List.existsb _ _) eqn:E; [|reflexivity]. exfalso.
    apply List.existsb_exists in E. destruct E as (d & Hd & Hk).
    apply List.filter_In in Hd. destruct Hd as [Hd Hdl].
    apply String.eqb_eq in Hk, Hdl.
    assert (x = d)
      by exact (same_key_same_record (H := PriceList_keyed) _ x d Hnd Hx Hd Hk).
    subst d. contradiction.
Qed.

Lemma deletePricingGroup_assigned (st : Pricing.Store) (id : string) :
  Rules.assigned st id ->
  PriceBook.deletePricingGroup st id
  = Throw (PriceBook.deleteMessage (length (Rules.assignedAccounts st id))).
Proof.
  unfold PriceBook.deletePricingGroup. rewrite assigned_query.
  rewrite assignedAccounts_query. intros Hc.
  apply Nat.ltb_lt in Hc. now rewrite Hc.
Qed.

Lemma deletePricingGroup_unassigned (st : Pricing.Store) (id : string) :
  ~ Rules.assigned st id ->
  exists st' r,
    PriceBook.deletePricingGroup st id = Ok (st', r)
    /\ Pricing.pricingGroups st'
       = List.filter (fun g => negb (String.eqb (PricingGroup.id g) id))
           (Pricing.pricingGroups st)
    /\ (forall pl,
           In pl (Pricing.priceLists st') ->
           In pl (Pricing.priceLists st)
           /\ PriceList.pricingGroupId pl <> id)
    /\ (forall item,
           In item (Pricing.priceListItems st') ->
           In item (Pricing.priceListItems st)
           /\ forall pl,
               In pl (Pricing.priceLists st) ->
               PriceList.pricingGroupId pl = id ->
               NewPriceListItem.priceListId item <> PriceList.id pl)
    /\ (List.NoDup (List.map PriceList.id (Pricing.priceLists st)) ->
        Pricing.priceLists st'
        = List.filter
            (fun pl => negb (String.eqb (PriceList.pricingGroupId pl) id))
            (Pricing.priceLists st))
    /\ (List.NoDup (List.map NewPriceListItem.id (Pricing.priceListItems st)) ->
        Pricing.priceListItems st'
        = List.filter
            (fun item =>
               negb (List.existsb
                       (fun pl => String.eqb (NewPriceListItem.priceListId item)
                                    (PriceList.id pl))
                       (PriceBook.getPriceListsByGroup st id)))
            (Pricing.priceListItems st))
    /\ Pricing.accounts st' = Pricing.accounts st
    /\ Pricing.commodities st' = Pricing.commodities st
    /\ (r = true
        <-> exists g, In g (Pricing.pricingGroups st) /\ PricingGroup.id g = id).
Proof.
  unfold PriceBook.deletePricingGroup.
  fold (Rules.deleteLists
          (Collection.query (Pricing.priceLists st)
             (fun pl => String.eqb (PriceList.pricingGroupId pl) id)) st).
  set (ds := Collection.query (Pricing.priceLists st)
               (fun pl => String.eqb (PriceList.pricingGroupId pl) id)).
  rewrite assigned_query.
  set (accounts := Collection.query (Pricing.accounts st) _).
  intros Hc. apply Nat.ltb_nlt in Hc. rewrite Hc.
  destruct (deleteLists_rest ds st) as (Hg & Ha & Hco).
  pose proof (delete_filter (H := PricingGroup_keyed)
                (Pricing.pricingGroups (Rules.deleteLists ds st)) id) as Hf.
  pose proof (delete_found (H := PricingGroup_keyed)
                (Pricing.pricingGroups (Rules.deleteLists ds st)) id) as Hr.
  destruct (Collection.delete (Pricing.pricingGroups (Rules.deleteLists ds st)) id)
    as [groups r].
  cbn [fst snd] in Hf, Hr. rewrite Hg in Hf, Hr.
  exists (Pricing.with_pricingGroups groups (Rules.deleteLists ds st)), r.
  split; [reflexivity|].
  cbn [Pricing.with_pricingGroups Pricing.pricingGroups Pricing.priceLists
       Pricing.priceListItems Pricing.accounts Pricing.commodities].
  split; [exact Hf|].
  split; [|split; [|split; [|split; [|split; [exact Ha|split; [exact Hco|exact Hr]]]]]].
  3: { intros Hnd. exact (deleteLists_lists_distinct st id Hnd). }
  3: { intros Hnd. exact (deleteLists_items_distinct ds st Hnd). }
  - intros pl. rewrite deleteLists_lists. intros Hin.
    apply List.filter_In in Hin. destruct Hin as [Hin Hex].
    split; [exact Hin|]. intros Hgid. apply negb_true_iff in Hex.
    assert (List.existsb
              (fun d => String.eqb (PriceList.id pl) (PriceList.id d)) ds = true);
      [|congruence].
    apply List.existsb_exists. exists pl. split; [|apply String.eqb_refl].
    apply List.filter_In. split; [exact Hin | now apply String.eqb_eq].
  - intros item Hin. apply deleteLists_items in Hin. destruct Hin as [Hin Hds].
    split; [exact Hin|]. intros pl Hpl Hgid. apply Hds.
    apply List.filter_In. split; [exact Hpl | now apply String.eqb_eq].
Qed.

(** [deletePricingGroup] throws exactly when an account is assigned to
    the group, for either direction, and the message names the number of
    such accounts.  Otherwise the group is removed together with its price
    lists and their items: no price list of the group and no item of such
    a list remains, and with distinct ids exactly the price lists of the
    other groups and their items are kept; accounts and commodities are
    untouched, and the result tells whether the group was stored. *)
Theorem deletePricingGroup_refuses_assigned_group
    (st : Pricing.Store) (id : string) :
  (Rules.assigned st id ->
   PriceBook.deletePricingGroup st id
   = Throw (PriceBook.deleteMessage (length (Rules.assignedAccounts st id))))
  /\ (~ Rules.assigned st id ->
      exists st' r,
        PriceBook.deletePricingGroup st id = Ok (st', r)
        /\ Pricing.pricingGroups st'
           = List.filter (fun g => negb (String.eqb (PricingGroup.id g) id))
               (Pricing.pricingGroups st)
        /\ (forall pl,
               In pl (Pricing.priceLists st') ->
               In pl (Pricing.priceLists st)
               /\ PriceList.pricingGroupId pl <> id)
        /\ (forall item,
               In item (Pricing.priceListItems st') ->
               In item (Pricing.priceListItems st)
               /\ forall pl,
                   In pl (Pricing.priceLists st) ->
                   PriceList.pricingGroupId pl = id ->
                   NewPriceListItem.priceListId item <> PriceList.id pl)
        /\ (List.NoDup (List.map PriceList.id (Pricing.priceLists st)) ->
            Pricing.priceLists st'
            = List.filter
                (fun pl => negb (String.eqb (PriceList.pricingGroupId pl) id))
                (Pricing.priceLists st))
        /\ (List.NoDup (List.map NewPriceListItem.id (Pricing.priceListItems st)) ->
            Pricing.priceListItems st'
            = List.filter
                (fun item =>
                   negb (List.existsb
                           (fun pl =>
                              String.eqb (NewPriceListItem.priceListId item)
                                (PriceList.id pl))
                           (PriceBook.getPriceListsByGroup st id)))
                (Pricing.priceListItems st))
        /\ Pricing.accounts st' = Pricing.accounts st
        /\ Pricing.commodities st' = Pricing.commodities st
        /\ (r = true
            <-> exists g, In g (Pricing.pricingGroups st) /\ PricingGroup.id g = id)).
Proof.
  split; [apply deletePricingGroup_assigned | apply deletePricingGroup_unassigned].
Qed.

(** ** References between the records of the price book *)

Section UpdateFacts.
Context {T : Type} `{Keyed T}.

Lemma update_keys (c : list T) (id : string) (r : T) :
  key r = id -> List.map key (fst (Collection.update c id r)) = List.map key c.
Proof.
  intros Hk. unfold Collection.update.
  destruct (Collection.getById c id); [|reflexivity].
  cbn [fst]. now apply map_replace_keys.
Qed.

Lemma update_In (c : list T) (id : string) (r x : T) :
  In x (fst (Collection.update c id r)) -> x = r \/ In x c.
Proof.
  unfold Collection.update.
  destruct (Collection.getById c id); [|now right].
  cbn [fst]. intros Hin. apply List.in_map_iff in Hin.
  destruct Hin as (y & <- & Hy). unfold Collection.replace.
  destruct (String.eqb (key y) id); [now left | now right].
Qed.

Lemma stored_keys (c : list T) (id : string) :
  (exists r, In r c /\ key r = id) <-> In id (List.map key c).
Proof.
  rewrite List.in_map_iff. split; intros (r & H1 & H2); exists r; tauto.
Qed.
End UpdateFacts.

Lemma groupStored_keys (st : Pricing.Store) (groupId : string) :
  Rules.groupStored st groupId
  <-> In groupId (List.map PricingGroup.id (Pricing.pricingGroups st)).
Proof. exact (stored_keys (H := PricingGroup_keyed) _ _). Qed.

Lemma listStored_keys (st : Pricing.Store) (priceListId : string) :
  Rules.listStored st priceListId
  <-> In priceListId (List.map PriceList.id (Pricing.priceLists st)).
Proof. exact (stored_keys (H := PriceList_keyed) _ _). Qed.

(** A store with the same lists, items and accounts and at least the
    group ids of another one has its references resolved if the other
    has. *)
Lemma references_more_groups (st st' : Pricing.Store) :
  Rules.referencesResolve st ->
  Pricing.priceLists st' = Pricing.priceLists st ->
  Pricing.priceListItems st' = Pricing.priceListItems st ->
  Pricing.accounts st' = Pricing.accounts st ->
  (forall g, In g (List.map PricingGroup.id (Pricing.pricingGroups st)) ->
             In g (List.map PricingGroup.id (Pricing.pricingGroups st'))) ->
  Rules.referencesResolve st'.
Proof.
  intros (Hi & Hl & Ha) El Ei Ea Hg.
  assert (Hmono : forall g, Rules.groupStored st g -> Rules.groupStored st' g).
  { intros g. rewrite !groupStored_keys. apply Hg. }
  repeat split.
  - intros item Hin. rewrite Ei in Hin. apply Hi in Hin.
    unfold Rules.listStored in *. now rewrite El.
  - intros pl Hin. rewrite El in Hin. now apply Hmono, Hl.
  - intros a g Hin Hag. rewrite Ea in Hin. apply Hmono. now apply (Ha a).
Qed.

Lemma clearDefaultForDirection_rest (now : string) (st : Pricing.Store)
    (d : PricingDirection) :
  Pricing.priceLists (Pricing.clearDefaultForDirection now st d)
  = Pricing.priceLists st
  /\ Pricing.priceListItems (Pricing.clearDefaultForDirection now st d)
     = Pricing.priceListItems st
  /\ Pricing.accounts (Pricing.clearDefaultForDirection now st d)
     = Pricing.accounts st
  /\ Pricing.commodities (Pricing.clearDefaultForDirection now st d)
     = Pricing.commodities st.
Proof.
  unfold Pricing.clearDefaultForDirection.
  apply (fold_left_invariant
           (fun s =>
              Pricing.priceLists s = Pricing.priceLists st
              /\ Pricing.priceListItems s = Pricing.priceListItems st
              /\ Pricing.accounts s = Pricing.accounts st
              /\ Pricing.commodities s = Pricing.commodities st)).
  - intros s g Hs. exact Hs.
  - now repeat split.
Qed.

Lemma clearDefaultForDirection_ids (now : string) (st : Pricing.Store)
    (d : PricingDirection) :
  List.map PricingGroup.id
    (Pricing.pricingGroups (Pricing.clearDefaultForDirection now st d))
  = List.map PricingGroup.id (Pricing.pricingGroups st).
Proof. exact (proj1 (clearDefaultForDirection_spec now st d)). Qed.

Lemma clearDefaultForDirection_references (now : string) (st : Pricing.Store)
    (d : PricingDirection) :
  Rules.referencesResolve st ->
  Rules.referencesResolve (Pricing.clearDefaultForDirection now st d).
Proof.
  intros Hr. destruct (clearDefaultForDirection_rest now st d) as (El & Ei & Ea & _).
  apply (references_more_groups st); try assumption.
  intros g. now rewrite clearDefaultForDirection_ids.
Qed.

Lemma createPricingGroup_references (env : Env) (st : Pricing.Store)
    (data : PricingGroup.data) :
  Rules.referencesResolve st ->
  Rules.referencesResolve (fst (Pricing.createPricingGroup env st data)).
Proof.
  intros Hr. unfold Pricing.createPricingGroup. cbn [fst].
  set (st1 := if PricingGroup.d_isDefault data then _ else st).
  assert (Hr1 : Rules.referencesResolve st1).
  { subst st1. destruct (PricingGroup.d_isDefault data);
      [now apply clearDefaultForDirection_references | exact Hr]. }
  apply (references_more_groups st1); try reflexivity; [exact Hr1|].
  intros g Hg. cbn [Pricing.with_pricingGroups Pricing.pricingGroups].
  unfold Collection.create. rewrite List.map_app. apply List.in_or_app. now left.
Qed.

Lemma updatePricingGroup_references (now : string) (st : Pricing.Store)
    (id : string) (data : PricingGroup.partial) :
  Rules.referencesResolve st ->
  Rules.referencesResolve (fst (Pricing.updatePricingGroup now st id data)).
Proof.
  intros Hr. unfold Pricing.updatePricingGroup.
  destruct (Collection.getById (Pricing.pricingGroups st) id) as [existing|];
    [|exact Hr].
  set (st1 := if _ && _ then _ else st).
  assert (Hr1 : Rules.referencesResolve st1).
  { subst st1. destruct (_ && _);
      [now apply clearDefaultForDirection_references | exact Hr]. }
  set (updated := PricingGroup.with_updatedAt now _).
  pose proof (update_keys (H := PricingGroup_keyed) (Pricing.pricingGroups st1)
                id updated eq_refl) as Hk.
  destruct (Collection.update (Pricing.pricingGroups st1) id updated)
    as [groups r].
  cbn [fst] in *.
  apply (references_more_groups st1); try reflexivity; [exact Hr1|].
  intros g Hg. cbn [Pricing.with_pricingGroups Pricing.pricingGroups].
  change (@key PricingGroup.t _) with PricingGroup.id in Hk. now rewrite Hk.
Qed.

Lemma setAsDefault_references (now : string) (st : Pricing.Store) (id : string) :
  Rules.referencesResolve st ->
  Rules.referencesResolve (fst (Pricing.setAsDefault now st id)).
Proof.
  intros Hr. unfold Pricing.setAsDefault.
  destruct (Collection.getById (Pricing.pricingGroups st) id) as [group|];
    [|exact Hr].
  now apply updatePricingGroup_references, clearDefaultForDirection_references.
Qed.

Lemma deletePricingGroup_ok_lists (st st' : Pricing.Store) (id : string)
    (r : bool) :
  PriceBook.deletePricingGroup st id = Ok (st', r) ->
  Pricing.priceLists st'
  = List.filter
      (fun x =>
         negb (List.existsb
                 (fun d => String.eqb (PriceList.id x) (PriceList.id d))
                 (PriceBook.getPriceListsByGroup st id)))
      (Pricing.priceLists st).
Proof.
  unfold PriceBook.deletePricingGroup.
  destruct (0 <? _)%nat; [discriminate|].
  fold (Rules.deleteLists
          (Collection.query (Pricing.priceLists st)
             (fun pl => String.eqb (PriceList.pricingGroupId pl) id)) st).
  destruct (Collection.delete _ id) as [groups r'].
  intros [= <- _]. cbn [Pricing.with_pricingGroups Pricing.priceLists].
  apply deleteLists_lists.
Qed.

Lemma deletePricingGroup_references (st st' : Pricing.Store) (id : string)
    (r : bool) :
  Rules.referencesResolve st ->
  PriceBook.deletePricingGroup st id = Ok (st', r) ->
  Rules.referencesResolve st'.
Proof.
  intros (Hi & Hl & Ha) E.
  assert (Hna : ~ Rules.assigned st id).
  { intros Has. rewrite (deletePricingGroup_assigned st id Has) in E.
    discriminate. }
  pose proof (deletePricingGroup_ok_lists st st' id r E) as Hlists.
  destruct (deletePricingGroup_unassigned st id Hna)
    as (st2 & r2 & E2 & Hg & Hpl & Hit & _ & _ & Hac & _ & _).
  rewrite E in E2. injection E2 as <- <-.
  assert (Hkeep : forall g, In g (Pricing.pricingGroups st) ->
                            PricingGroup.id g <> id ->
                            Rules.groupStored st' (PricingGroup.id g)).
  { intros g Hin Hne. exists g. split; [|reflexivity].
    rewrite Hg. apply List.filter_In. split; [exact Hin|].
    apply negb_true_iff. now apply String.eqb_neq. }
  repeat split.
  - intros item Hin. apply Hit in Hin. destruct Hin as [Hin Hnot].
    destruct (Hi item Hin) as (pl & Hpin & Hpid).
    exists pl. split; [|exact Hpid].
    rewrite Hlists. apply List.filter_In. split; [exact Hpin|].
    apply negb_true_iff. destruct (List.existsb _ _) eqn:Ex; [|reflexivity].
    exfalso. apply List.existsb_exists in Ex. destruct Ex as (d & Hd & Hk).
    apply List.filter_In in Hd. destruct Hd as [Hd Hdg].
    apply String.eqb_eq in Hk, Hdg.
    apply (Hnot d Hd Hdg). congruence.
  - intros pl Hin. apply Hpl in Hin. destruct Hin as [Hin Hne].
    destruct (Hl pl Hin) as (g & Hgin & Hgid).
    rewrite <- Hgid. apply Hkeep; [exact Hgin | congruence].
  - intros a g Hin Hag. rewrite Hac in Hin.
    destruct (Ha a g Hin Hag) as (gr & Hgin & Hgid).
    rewrite <- Hgid. apply Hkeep; [exact Hgin|].
    intros Heq. apply Hna. exists a. split; [exact Hin|]. now subst.
Qed.

Lemma createPriceList_references (env : Env) (st : Pricing.Store)
    (data : PriceListData.t) :
  Rules.referencesResolve st ->
  Rules.groupStored st (PriceListData.pricingGroupId data) ->
  Rules.referencesResolve (fst (PriceBook.createPriceList env st data)).
Proof.
  intros (Hi & Hl & Ha) Hg. unfold PriceBook.createPriceList. cbn [fst].
  repeat split.
  - intros item Hin. destruct (Hi item Hin) as (pl & Hpl & Hid).
    exists pl. split; [|exact Hid]. apply List.in_or_app. now left.
  - intros pl Hin. apply List.in_app_or in Hin.
    destruct Hin as [Hin|[<-|[]]]; [now apply Hl | exact Hg].
  - exact Ha.
Qed.

Lemma updatePriceList_references (now : string) (st : Pricing.Store)
    (id : string) (data : PriceListPartial.t) :
  Rules.referencesResolve st ->
  (forall groupId,
      PriceListPartial.pricingGroupId data = Some groupId ->
      Rules.groupStored st groupId) ->
  Rules.referencesResolve (fst (PriceBook.updatePriceList now st id data)).
Proof.
  intros (Hi & Hl & Ha) Hg. unfold PriceBook.updatePriceList.
  destruct (Collection.getById (Pricing.priceLists st) id) as [existing|] eqn:E;
    [|now repeat split].
  set (updated := PriceList.mk id _ _ _ _ _ _ _ _ _).
  pose proof (update_keys (H := PriceList_keyed) (Pricing.priceLists st) id
                updated eq_refl) as Hk.
  pose proof (update_In (H := PriceList_keyed) (Pricing.priceLists st) id
                updated) as Hin'.
  destruct (Collection.update (Pricing.priceLists st) id updated) as [lists r].
  cbn [fst] in *. change (@key PriceList.t _) with PriceList.id in Hk.
  repeat split.
  - intros item Hin. apply listStored_keys.
    cbn [PriceBook.with_priceLists Pricing.priceLists]. rewrite Hk.
    apply listStored_keys. now apply Hi.
  - intros pl Hin. destruct (Hin' pl Hin) as [->|Hold]; [|now apply Hl].
    cbn [updated PriceList.pricingGroupId PriceListPartial.spread].
    destruct (PriceListPartial.pricingGroupId data) as [g|] eqn:Eg; cbn [default].
    + now apply Hg.
    + apply Hl. now apply getById_Some in E.
  - exact Ha.
Qed.

Lemma deletePriceList_references (st : Pricing.Store) (id : string) :
  Rules.referencesResolve st ->
  Rules.referencesResolve (fst (PriceBook.deletePriceList st id)).
Proof.
  intros (Hi & Hl & Ha).
  destruct (deletePriceList_rest st id) as (Eg & Ea & _).
  repeat split.
  - intros item Hin. apply deletePriceList_items_incl in Hin.
    destruct Hin as [Hin Hne]. destruct (Hi item Hin) as (pl & Hpl & Hid).
    exists pl. split; [|exact Hid]. rewrite deletePriceList_lists.
    apply List.filter_In. split; [exact Hpl|].
    apply negb_true_iff, String.eqb_neq. congruence.
  - intros pl. rewrite deletePriceList_lists. intros Hin.
    apply List.filter_In in Hin. destruct Hin as [Hin _].
    unfold Rules.groupStored. rewrite Eg. now apply Hl.
  - intros a g. rewrite Ea. unfold Rules.groupStored. rewrite Eg. apply Ha.
Qed.

Lemma createPriceListItem_list_stored (env : Env) (st st' : Pricing.Store)
    (data : NewPriceListItem.data) (item : NewPriceListItem.t) :
  Pricing.createPriceListItem env st data = Ok (st', item) ->
  Rules.listStored st (NewPriceListItem.d_priceListId data)
  /\ st' = Pricing.with_priceListItems (Pricing.priceListItems st ++ [item]) st
  /\ item = Pricing.schema_createNewPriceListItem env data.
Proof.
  unfold Pricing.createPriceListItem, Pricing.validateCommodityUniqueness.
  destruct (Collection.getById (Pricing.priceLists st) _) as [pl|] eqn:E.
  - intros Hok. split.
    + apply getById_Some in E. now exists pl.
    + destruct (negb _); [discriminate|]. injection Hok as <- <-. now split.
  - cbn. discriminate.
Qed.

Lemma createPriceListItem_references (env : Env) (st st' : Pricing.Store)
    (data : NewPriceListItem.data) (item : NewPriceListItem.t) :
  Rules.referencesResolve st ->
  Pricing.createPriceListItem env st data = Ok (st', item) ->
  Rules.referencesResolve st'.
Proof.
  intros (Hi & Hl & Ha) E.
  apply createPriceListItem_list_stored in E. destruct E as (Hs & -> & ->).
  repeat split; [|exact Hl|exact Ha].
  intros x Hin. cbn [Pricing.with_priceListItems Pricing.priceListItems] in Hin.
  apply List.in_app_or in Hin. destruct Hin as [Hin|[<-|[]]].
  - exact (Hi x Hin).
  - exact Hs.
Qed.

Lemma updatePriceListItem_references (now : string) (st st' : Pricing.Store)
    (id : string) (data : NewPriceListItemPartial.t)
    (r : option NewPriceListItem.t) :
  Rules.referencesResolve st ->
  (forall priceListId,
      NewPriceListItemPartial.priceListId data = Some priceListId ->
      Rules.listStored st priceListId) ->
  PriceBook.updatePriceListItem now st id data = Ok (st', r) ->
  Rules.referencesResolve st'.
Proof.
  intros (Hi & Hl & Ha) Hs. unfold PriceBook.updatePriceListItem.
  destruct (Collection.getById (Pricing.priceListItems st) id)
    as [existing|] eqn:E.
  2: { intros [= <- _]. now repeat split. }
  destruct (PriceBook.commodityChangeError st id existing data); [discriminate|].
  set (updated := NewPriceListItem.mk id _ _ _ _ _ _ _ _ _).
  pose proof (update_In (H := NewPriceListItem_keyed) (Pricing.priceListItems st)
                id updated) as Hin'.
  destruct (Collection.update (Pricing.priceListItems st) id updated)
    as [items r'].
  cbn [fst] in Hin'. intros [= <- _].
  repeat split; [|exact Hl|exact Ha].
  intros x Hin. cbn [Pricing.with_priceListItems Pricing.priceListItems] in Hin.
  destruct (Hin' x Hin) as [->|Hold]; [|exact (Hi x Hold)].
  cbn [updated NewPriceListItem.priceListId NewPriceListItemPartial.spread].
  destruct (NewPriceListItemPartial.priceListId data) as [l|] eqn:El;
    cbn [default].
  - now apply Hs.
  - apply (Hi existing). now apply getById_Some in E.
Qed.

Lemma deletePriceListItem_references (st : Pricing.Store) (id : string) :
  Rules.referencesResolve st ->
  Rules.referencesResolve (fst (PriceBook.deletePriceListItem st id)).
Proof.
  intros (Hi & Hl & Ha). unfold PriceBook.deletePriceListItem.
  pose proof (delete_filter (H := NewPriceListItem_keyed)
                (Pricing.priceListItems st) id) as Hf.
  destruct (Collection.delete (Pricing.priceListItems st) id) as [items r].
  cbn [fst] in *. subst items.
  repeat split; [|exact Hl|exact Ha].
  intros x Hin. cbn [Pricing.with_priceListItems Pricing.priceListItems] in Hin.
  apply List.filter_In in Hin. exact (Hi x (proj1 Hin)).
Qed.

Lemma assignAccountToPricingGroup_references (st : Pricing.Store)
    (accountId groupId : string) :
  Rules.referencesResolve st ->
  Rules.referencesResolve
    (fst (PriceBook.assignAccountToPricingGroup st accountId groupId)).
Proof.
  intros (Hi & Hl & Ha). unfold PriceBook.assignAccountToPricingGroup.
  destruct (Collection.getById (Pricing.accounts st) accountId)
    as [account|] eqn:Eacc; [|now repeat split].
  destruct (Collection.getById (Pricing.pricingGroups st) groupId)
    as [group|] eqn:Egr; [|now repeat split].
  set (updated := if direction_eqb _ buy then _ else _).
  pose proof (update_In (H := Account_keyed) (Pricing.accounts st) accountId
                updated) as Hin'.
  destruct (Collection.update (Pricing.accounts st) accountId updated)
    as [accs r].
  cbn [fst] in *.
  apply getById_Some in Eacc, Egr. destruct Eacc as [Hacc _], Egr as [Hgr Hgid].
  repeat split; [exact Hi|exact Hl|].
  intros a g Hin Hag.
  cbn [PriceBook.with_accounts Pricing.accounts] in Hin.
  destruct (Hin' a Hin) as [->|Hold]; [|exact (Ha a g Hold Hag)].
  subst updated.
  destruct (direction_eqb (PricingGroup.direction group) buy);
    cbn [Account.buyPricingGroupId Account.sellPricingGroupId] in Hag;
    destruct Hag as [Hag|Hag];
    try (injection Hag as <-; now exists group);
    apply (Ha account g Hacc); tauto.
Qed.

Lemma removeAccountFromPricingGroup_references (st : Pricing.Store)
    (accountId : string) (direction : PricingDirection) :
  Rules.referencesResolve st ->
  Rules.referencesResolve
    (fst (PriceBook.removeAccountFromPricingGroup st accountId direction)).
Proof.
  intros (Hi & Hl & Ha). unfold PriceBook.removeAccountFromPricingGroup.
  destruct (Collection.getById (Pricing.accounts st) accountId)
    as [account|] eqn:Eacc; [|now repeat split].
  set (updated := if direction_eqb _ buy then _ else _).
  pose proof (update_In (H := Account_keyed) (Pricing.accounts st) accountId
                updated) as Hin'.
  destruct (Collection.update (Pricing.accounts st) accountId updated)
    as [accs r].
  cbn [fst] in *.
  apply getById_Some in Eacc. destruct Eacc as [Hacc _].
  repeat split; [exact Hi|exact Hl|].
  intros a g Hin Hag.
  cbn [PriceBook.with_accounts Pricing.accounts] in Hin.
  destruct (Hin' a Hin) as [->|Hold]; [|exact (Ha a g Hold Hag)].
  subst updated.
  destruct (direction_eqb direction buy);
    cbn [Account.buyPricingGroupId Account.sellPricingGroupId] in Hag;
    destruct Hag as [Hag|Hag];
    try discriminate;
    apply (Ha account g Hacc); tauto.
Qed.

Lemma runBookCall_references (st : Pricing.Store) (c : Rules.BookCall) :
  Rules.referencesResolve st ->
  Rules.namesStored st c ->
  Rules.referencesResolve (Rules.runBookCall st c).
Proof.
  intros Hr Hs.
  destruct c as [env data|t id data|t id|id|env data|t id data|id|env data
                |t id data|id|accountId groupId|accountId direction];
    cbn [Rules.runBookCall Rules.namesStored] in *.
  - now apply createPricingGroup_references.
  - now apply updatePricingGroup_references.
  - now apply setAsDefault_references.
  - destruct (PriceBook.deletePricingGroup st id) as [[st' r]|] eqn:E;
      [|exact Hr]. exact (deletePricingGroup_references st st' id r Hr E).
  - now apply createPriceList_references.
  - now apply updatePriceList_references.
  - now apply deletePriceList_references.
  - destruct (Pricing.createPriceListItem env st data) as [[st' item]|] eqn:E;
      [|exact Hr]. exact (createPriceListItem_references env st st' data item Hr E).
  - destruct (PriceBook.updatePriceListItem t st id data) as [[st' r]|] eqn:E;
      [|exact Hr].
    exact (updatePriceListItem_references t st st' id data r Hr Hs E).
  - now apply deletePriceListItem_references.
  - now apply assignAccountToPricingGroup_references.
  - now apply removeAccountFromPricingGroup_references.
Qed.

(** The writes of the pricing service keep the references of the price
    book resolved: when every item names a stored price list, every price
    list a stored group and every assignment of an account a stored group,
    the same holds after any sequence of calls, provided the three calls
    that take a reference unchecked ([createPriceList], and an
    [updatePriceList] or [updatePriceListItem] that moves the record) are
    given the id of a stored record.  In particular [deletePricingGroup]
    and [deletePriceList] leave no orphan behind, and
    [createPriceListItem] and [assignAccountToPricingGroup] refuse an
    unknown price list or group. *)
Theorem price_book_keeps_references (cs : list Rules.BookCall) :
  forall st,
    Rules.referencesResolve st ->
    Rules.eachNamesStored st cs ->
    Rules.referencesResolve (Rules.runBookCalls st cs).
Proof.
  unfold Rules.runBookCalls.
  induction cs as [|c cs IH]; intros st Hr Hs; cbn [List.fold_left]; [exact Hr|].
  destruct Hs as [Hc Hs]. apply IH; [|exact Hs].
  now apply runBookCall_references.
Qed.

Lemma price_book_keeps_references_witness :
  Rules.referencesResolve Examples.twoListsStore
  /\ Rules.eachNamesStored Examples.twoListsStore Samples.bookCalls
  /\ Rules.referencesResolve
       (Rules.runBookCalls Examples.twoListsStore Samples.bookCalls)
  /\ List.map PricingGroup.id
       (Pricing.pricingGroups
          (Rules.runBookCalls Examples.twoListsStore Samples.bookCalls))
     = ["G"%string]
  /\ List.map NewPriceListItem.id
       (Pricing.priceListItems
          (Rules.runBookCalls Examples.twoListsStore Samples.bookCalls))
     = ["i2"%string].
Proof.
  assert (Hr : Rules.referencesResolve Examples.twoListsStore).
  { repeat split.
    - intros item [<-|[<-|[]]];
        [exists Examples.listA | exists Examples.listB]; cbn; tauto.
    - intros pl [<-|[<-|[]]]; exists Examples.groupG; cbn; tauto.
    - intros a g [<-|[]] [Hg|Hg]; [|discriminate].
      injection Hg as <-. exists Examples.groupH. cbn. tauto. }
  assert (Hs : Rules.eachNamesStored Examples.twoListsStore Samples.bookCalls).
  { cbn [Samples.bookCalls Rules.eachNamesStored Rules.namesStored].
    repeat split. exists Examples.groupG. vm_compute. tauto. }
  split; [exact Hr|]. split; [exact Hs|].
  split; [exact (price_book_keeps_references _ _ Hr Hs)|].
  split; vm_compute; reflexivity.
Defined.

(** ** One price for a commodity at a time *)

Lemma rangesOverlap_sym (a b : PriceList.t) :
  Notions.rangesOverlap a b -> Notions.rangesOverlap b a.
Proof. unfold Notions.rangesOverlap. tauto. Qed.

Lemma createPriceListItem_no_conflict (env : Env) (st st' : Pricing.Store)
    (data : NewPriceListItem.data) (item : NewPriceListItem.t) :
  Pricing.createPriceListItem env st data = Ok (st', item) ->
  exists target,
    Collection.getById (Pricing.priceLists st)
      (NewPriceListItem.d_priceListId data) = Some target
    /\ ~ Notions.conflicts st target (NewPriceListItem.d_commodityId data).
Proof.
  intros E.
  destruct (Collection.getById (Pricing.priceLists st)
              (NewPriceListItem.d_priceListId data)) as [target|] eqn:Et.
  - exists target. split; [reflexivity|]. intros Hc.
    apply (validateCommodityUniqueness_spec st _ _ target Et) in Hc.
    unfold Pricing.createPriceListItem in E. rewrite Hc in E. discriminate.
  - apply createPriceListItem_list_stored in E. destruct E as ((pl & Hin & Hid) & _).
    exfalso. exact (getById_None _ _ Et pl Hin Hid).
Qed.

(** [createPriceListItem] keeps the prices unique: if no two stored
    items price the same commodity in one price list or in two overlapping
    price lists of one group, the same holds after an item was created. *)
Theorem createPriceListItem_keeps_prices_unique
    (env : Env) (st st' : Pricing.Store) (data : NewPriceListItem.data)
    (item : NewPriceListItem.t) :
  Rules.pricesUnique st ->
  Pricing.createPriceListItem env st data = Ok (st', item) ->
  Rules.pricesUnique st'.
Proof.
  intros Hu E.
  destruct (createPriceListItem_no_conflict env st st' data item E)
    as (target & Et & Hnc).
  apply createPriceListItem_list_stored in E. destruct E as (_ & -> & ->).
  intros i j a b Hij Ha Hb Hab.
  cbn [Pricing.with_priceListItems Pricing.priceListItems] in Ha, Hb.
  assert (Hsame : forall x y,
             Rules.compete
               (Pricing.with_priceListItems
                  (Pricing.priceListItems st
                   ++ [Pricing.schema_createNewPriceListItem env data]) st) x y
             -> Rules.compete st x y) by (intros x y Hxy; exact Hxy).
  apply Hsame in Hab. clear Hsame.
  apply lookup_app_Some in Hb. destruct Hb as [Hb|[Hlen Hb]].
  - assert (Ha' : Pricing.priceListItems st !! i = Some a).
    { apply lookup_app_Some in Ha. destruct Ha as [Ha|[Hl _]]; [exact Ha|].
      apply lookup_lt_Some in Hb. lia. }
    exact (Hu i j a b Hij Ha' Hb Hab).
  - apply list_lookup_singleton_Some in Hb. destruct Hb as [Hj <-].
    assert (Ha' : Pricing.priceListItems st !! i = Some a).
    { apply lookup_app_Some in Ha. destruct Ha as [Ha|[Hl _]]; [exact Ha | lia]. }
    apply list_elem_of_lookup_2, list_elem_of_In in Ha'.
    destruct Hab as (Hc & la & lb & Hla & Hlb & Hg & Hov).
    cbn [Pricing.schema_createNewPriceListItem NewPriceListItem.priceListId
         NewPriceListItem.commodityId] in Hc, Hlb.
    rewrite Et in Hlb. injection Hlb as <-.
    apply getById_Some in Hla. destruct Hla as [Hla Hlid].
    change (key la) with (PriceList.id la) in Hlid.
    apply Hnc. unfold Notions.conflicts.
    destruct (String.eqb_spec (PriceList.id la) (PriceList.id target)) as [Heq|Hne].
    + right. exists a. repeat split; [exact Ha' | congruence | exact Hc].
    + left. exists la. repeat split; try assumption.
      * destruct Hov as [Hov|Hov]; [contradiction | apply rangesOverlap_sym in Hov;
                                                   exact (proj1 Hov)].
      * destruct Hov as [Hov|Hov]; [contradiction | apply rangesOverlap_sym in Hov;
                                                   exact (proj2 Hov)].
      * exists a. repeat split; [exact Ha' | congruence | exact Hc].
Qed.

Lemma createPriceListItem_keeps_prices_unique_witness :
  Rules.pricesUnique Examples.overlapStore
  /\ exists st' item,
      Pricing.createPriceListItem Examples.env1 Examples.overlapStore
        Samples.aluminium = Ok (st', item)
      /\ List.map NewPriceListItem.commodityId (Pricing.priceListItems st')
         = ["CU-BARE"; "AL-6061"]%string
      /\ Rules.pricesUnique st'.
Proof.
  assert (Hu : Rules.pricesUnique Examples.overlapStore).
  { intros i j a b Hij Ha Hb _. apply lookup_lt_Some in Hb. cbn in Hb. lia. }
  split; [exact Hu|].
  destruct (Pricing.createPriceListItem Examples.env1 Examples.overlapStore
              Samples.aluminium) as [[st' item]|] eqn:E;
    [|vm_compute in E; discriminate].
  exists st', item. split; [reflexivity|]. split.
  - vm_compute in E. injection E as <- _. reflexivity.
  - exact (createPriceListItem_keeps_prices_unique _ _ _ _ _ Hu E).
Defined.

(** ** Updating an item *)

Lemma find_besides (st : Pricing.Store) (itemId priceListId commodityId : string) :
  (exists item,
      List.find
        (fun item =>
           String.eqb (NewPriceListItem.commodityId item) commodityId
           && JS.neq_opt (NewPriceListItem.id item) (Some itemId))
        (Collection.query (Pricing.priceListItems st)
           (fun item => String.eqb (NewPriceListItem.priceListId item) priceListId))
      = Some item)
  <-> Rules.holdsBesides st itemId priceListId commodityId.
Proof.
  unfold Rules.holdsBesides, Collection.query, JS.neq_opt. split.
  - intros [item Hf]. apply find_some in Hf. destruct Hf as [Hin Hp].
    apply filter_In in Hin. destruct Hin as [Hin Hl].
    apply andb_true_iff in Hp. destruct Hp as [Hc Hi].
    apply String.eqb_eq in Hl, Hc. apply negb_true_iff, String.eqb_neq in Hi.
    eauto.
  - intros [item (Hin & Hl & Hc & Hi)].
    destruct (List.find _ _) as [found|] eqn:Hf; [eauto|]. exfalso.
    assert (Hin' : In item
              (List.filter
                 (fun item =>
                    String.eqb (NewPriceListItem.priceListId item) priceListId)
                 (Pricing.priceListItems st))).
    { apply filter_In. split; [exact Hin | now apply String.eqb_eq]. }
    pose proof (find_none _ _ Hf item Hin') as Hn. cbv beta in Hn.
    apply String.eqb_eq in Hc. apply String.eqb_neq in Hi.
    rewrite Hc, Hi in Hn. discriminate.
Qed.

Lemma scanOtherLists_besides_Some (st : Pricing.Store) (target : PriceList.t)
    (itemId priceListId commodityId : string) (lists : list PriceList.t)
    (other : PriceList.t) :
  Pricing.scanOtherLists st target priceListId commodityId (Some itemId) lists
  = Some other ->
  In other lists
  /\ PriceList.id other <> priceListId
  /\ Notions.rangesOverlap target other
  /\ Rules.holdsBesides st itemId (PriceList.id other) commodityId.
Proof.
  induction lists as [|l lists IH]; cbn [Pricing.scanOtherLists]; [discriminate|].
  destruct (String.eqb (PriceList.id l) priceListId) eqn:Eid.
  { intros Hr. destruct (IH Hr) as (? & ? & ? & ?). split; [now right | auto]. }
  destruct (Pricing.datesOverlap _ _ _ _) eqn:Eov.
  2:{ intros Hr. destruct (IH Hr) as (? & ? & ? & ?). split; [now right | auto]. }
  destruct (List.find _ _) as [item|] eqn:Hf.
  - intros [= <-]. split; [now left|].
    split; [now apply String.eqb_neq|].
    split; [now apply datesOverlap_spec|].
    apply find_besides. eauto.
  - intros Hr. destruct (IH Hr) as (? & ? & ? & ?). split; [now right | auto].
Qed.

Lemma scanOtherLists_besides_None (st : Pricing.Store) (target : PriceList.t)
    (itemId priceListId commodityId : string) (lists : list PriceList.t) :
  Pricing.scanOtherLists st target priceListId commodityId (Some itemId) lists
  = None ->
  forall other,
    In other lists ->
    PriceList.id other <> priceListId ->
    Notions.rangesOverlap target other ->
    ~ Rules.holdsBesides st itemId (PriceList.id other) commodityId.
Proof.
  induction lists as [|l lists IH]; cbn [Pricing.scanOtherLists];
    [intros _ other []|].
  destruct (String.eqb (PriceList.id l) priceListId) eqn:Eid.
  { intros Hr other [<-|Hin] Hne; [|now apply IH].
    apply String.eqb_eq in Eid. contradiction. }
  destruct (Pricing.datesOverlap _ _ _ _) eqn:Eov.
  2:{ intros Hr other [<-|Hin] Hne Hov; [|now apply IH].
      apply datesOverlap_spec in Hov. congruence. }
  destruct (List.find _ _) as [item|] eqn:Hf; [discriminate|].
  intros Hr other [<-|Hin] Hne Hov; [|now apply IH].
  intros Hh. apply find_besides in Hh. destruct Hh as [found Hfound].
  rewrite Hfound in Hf. discriminate.
Qed.

Lemma current_items_besides (st : Pricing.Store)
    (itemId priceListId commodityId : string) :
  (exists item,
      List.find (fun item => JS.neq_opt (NewPriceListItem.id item) (Some itemId))
        (Collection.query (Pricing.priceListItems st)
           (fun item =>
              String.eqb (NewPriceListItem.priceListId item) priceListId
              && String.eqb (NewPriceListItem.commodityId item) commodityId))
      = Some item)
  <-> Rules.holdsBesides st itemId priceListId commodityId.
Proof.
  unfold Rules.holdsBesides, Collection.query, JS.neq_opt. split.
  - intros [item Hf]. apply find_some in Hf. destruct Hf as [Hin Hi].
    apply filter_In in Hin. destruct Hin as [Hin Hp].
    apply andb_true_iff in Hp. destruct Hp as [Hl Hc].
    apply String.eqb_eq in Hl, Hc. apply negb_true_iff, String.eqb_neq in Hi.
    eauto.
  - intros [item (Hin & Hl & Hc & Hi)].
    destruct (List.find _ _) as [found|] eqn:Hf; [eauto|]. exfalso.
    assert (Hin' : In item
              (List.filter
                 (fun item =>
                    String.eqb (NewPriceListItem.priceListId item) priceListId
                    && String.eqb (NewPriceListItem.commodityId item) commodityId)
                 (Pricing.priceListItems st))).
    { apply filter_In. split; [exact Hin|].
      now rewrite Hl, Hc, !String.eqb_refl. }
    pose proof (find_none _ _ Hf item Hin') as Hn. cbv beta in Hn.
    apply String.eqb_neq in Hi. rewrite Hi in Hn. discriminate.
Qed.

Lemma validateCommodityUniqueness_besides (st : Pricing.Store)
    (itemId priceListId commodityId : string) (target : PriceList.t) :
  Collection.getById (Pricing.priceLists st) priceListId = Some target ->
  Pricing.valid
    (Pricing.validateCommodityUniqueness st priceListId commodityId (Some itemId))
  = false
  <-> Rules.conflictsBesides st itemId target commodityId.
Proof.
  intros Ht. unfold Pricing.validateCommodityUniqueness. rewrite Ht.
  destruct (getById_Some _ _ _ Ht) as [_ Hkey].
  change (key target) with (PriceList.id target) in Hkey.
  unfold Rules.conflictsBesides.
  destruct (Pricing.scanOtherLists _ _ _ _ _ _) as [other|] eqn:Hscan;
    cbn [Pricing.valid].
  - split; [intros _|reflexivity]. left.
    apply scanOtherLists_besides_Some in Hscan.
    destruct Hscan as (Hin & Hne & Hov & Hh).
    apply filter_In in Hin. destruct Hin as [Hin Hg].
    apply String.eqb_eq in Hg.
    exists other. rewrite Hkey. auto.
  - destruct (List.find _ _) as [item|] eqn:Hf; cbn [Pricing.valid].
    + split; [intros _|reflexivity]. right.
      rewrite Hkey. apply current_items_besides. eauto.
    + split; [discriminate|]. intros [(other & Hin & Hg & Hne & Hov & Hh)|Hh].
      * exfalso. rewrite Hkey in Hne.
        apply (scanOtherLists_besides_None _ _ _ _ _ _ Hscan other); auto.
        apply filter_In. split; [exact Hin | now apply String.eqb_eq].
      * rewrite Hkey in Hh. apply current_items_besides in Hh.
        destruct Hh as [found Hfound]. rewrite Hfound in Hf. discriminate.
Qed.

(** The validation of [updatePriceListItem] fails exactly when the update
    changes the commodity to one that another item prices in the list or in
    an overlapping list of the group. *)
Lemma commodityChangeError_spec (st : Pricing.Store) (id : string)
    (existing : NewPriceListItem.t) (data : NewPriceListItemPartial.t)
    (target : PriceList.t) :
  Collection.getById (Pricing.priceLists st)
    (NewPriceListItem.priceListId existing) = Some target ->
  (exists message,
      PriceBook.commodityChangeError st id existing data = Some message)
  <-> exists commodityId,
      Rules.changesCommodity existing data commodityId
      /\ Rules.conflictsBesides st id target commodityId.
Proof.
  intros Ht. unfold PriceBook.commodityChangeError, Rules.changesCommodity.
  destruct (NewPriceListItemPartial.commodityId data) as [c|].
  2: { split; [intros [m Hm]; discriminate | intros (c & (Hc & _) & _); discriminate]. }
  unfold JS.truthy.
  destruct (String.eqb_spec c "") as [He|He]; cbn [negb andb].
  { split; [intros [m Hm]; discriminate|].
    intros (c' & (Hc & Hne & _) & _). congruence. }
  destruct (String.eqb_spec c (NewPriceListItem.commodityId existing)) as [Hs|Hs];
    cbn [negb].
  { split; [intros [m Hm]; discriminate|].
    intros (c' & (Hc & _ & Hne) & _). congruence. }
  pose proof (validateCommodityUniqueness_besides st id _ c target Ht) as Hv.
  destruct (Pricing.valid _); cbn [negb].
  - split; [intros [m Hm]; discriminate|].
    intros (c' & (Hc & _ & _) & Hcf). injection Hc as <-.
    apply Hv in Hcf. discriminate.
  - split; [intros _ | eauto]. exists c. split; [auto|]. now apply Hv.
Qed.

(** [updatePriceListItem] on a stored item throws exactly when the
    update changes the commodity (to a non-empty id other than the one of
    the item) and another item prices that commodity in the same price list
    or in an overlapping price list of the group.  Otherwise the merged
    record replaces the stored one and is returned: it keeps the id
    whatever the update says, carries the clock in [updatedAt], and takes
    each of the eight other fields (price list, commodity, price, unit,
    currency, notes, creator and creation time) from the update where it
    gives one and from the stored item where it does not. *)
Theorem updatePriceListItem_validates_commodity_change
    (now : string) (st : Pricing.Store) (id : string)
    (data : NewPriceListItemPartial.t) (existing : NewPriceListItem.t)
    (target : PriceList.t) :
  Collection.getById (Pricing.priceListItems st) id = Some existing ->
  Collection.getById (Pricing.priceLists st)
    (NewPriceListItem.priceListId existing) = Some target ->
  ((exists message, PriceBook.updatePriceListItem now st id data = Throw message)
   <-> exists commodityId,
       Rules.changesCommodity existing data commodityId
       /\ Rules.conflictsBesides st id target commodityId)
  /\ (~ (exists commodityId,
           Rules.changesCommodity existing data commodityId
           /\ Rules.conflictsBesides st id target commodityId) ->
      exists updated,
        PriceBook.updatePriceListItem now st id data
        = Ok (Pricing.with_priceListItems
                (List.map (Collection.replace id updated)
                   (Pricing.priceListItems st)) st,
              Some updated)
        /\ NewPriceListItem.id updated = id
        /\ NewPriceListItem.updatedAt updated = now
        /\ NewPriceListItem.priceListId updated
           = default (NewPriceListItem.priceListId existing)
               (NewPriceListItemPartial.priceListId data)
        /\ NewPriceListItem.commodityId updated
           = default (NewPriceListItem.commodityId existing)
               (NewPriceListItemPartial.commodityId data)
        /\ NewPriceListItem.price updated
           = default (NewPriceListItem.price existing)
               (NewPriceListItemPartial.price data)
        /\ NewPriceListItem.unit updated
           = default (NewPriceListItem.unit existing)
               (NewPriceListItemPartial.unit data)
        /\ NewPriceListItem.currency updated
           = default (NewPriceListItem.currency existing)
               (NewPriceListItemPartial.currency data)
        /\ NewPriceListItem.notes updated
           = default (NewPriceListItem.notes existing)
               (NewPriceListItemPartial.notes data)
        /\ NewPriceListItem.createdBy updated
           = default (NewPriceListItem.createdBy existing)
               (NewPriceListItemPartial.createdBy data)
        /\ NewPriceListItem.createdAt updated
           = default (NewPriceListItem.createdAt existing)
               (NewPriceListItemPartial.createdAt data)).
Proof.
  intros Hex Ht.
  pose proof (commodityChangeError_spec st id existing data target Ht) as Hspec.
  unfold PriceBook.updatePriceListItem. rewrite Hex.
  destruct (PriceBook.commodityChangeError st id existing data) as [m|].
  - split.
    + split; [intros _; apply Hspec; eauto | eauto].
    + intros Hn. exfalso. apply Hn, Hspec. eauto.
  - unfold Collection.update. rewrite Hex. split.
    + split; [intros [m Hm]; discriminate|].
      intros Hc. apply Hspec in Hc. destruct Hc as [m Hm]. discriminate.
    + intros _. eexists. split; [reflexivity|]. now repeat split.
Qed.

Lemma updatePriceListItem_validates_commodity_change_witness :
  Collection.getById (Pricing.priceListItems Samples.mixedStore) "i3"
  = Some Samples.itemC
  /\ Collection.getById (Pricing.priceLists Samples.mixedStore)
       (NewPriceListItem.priceListId Samples.itemC) = Some Examples.listB
  /\ PriceBook.updatePriceListItem "t1" Samples.mixedStore "i3" Samples.toCopper
     = Throw (Pricing.conflictMessage
                (Pricing.mkValidation false (Some Examples.listA)))
  /\ exists commodityId,
      Rules.changesCommodity Samples.itemC Samples.toCopper commodityId
      /\ Rules.conflictsBesides Samples.mixedStore "i3" Examples.listB commodityId.
Proof.
  split; [reflexivity|]. split; [reflexivity|]. split; [vm_compute; reflexivity|].
  apply (updatePriceListItem_validates_commodity_change "t1" Samples.mixedStore
           "i3" Samples.toCopper Samples.itemC Examples.listB eq_refl eq_refl).
  eexists. vm_compute. reflexivity.
Defined.

Lemma compete_sym (st : Pricing.Store) (a b : NewPriceListItem.t) :
  Rules.compete st a b -> Rules.compete st b a.
Proof.
  intros (Hc & la & lb & Hla & Hlb & Hg & Hov).
  split; [congruence|]. exists lb, la. repeat split; try congruence.
  destruct Hov as [Hov|Hov]; [left; congruence | right; now apply rangesOverlap_sym].
Qed.

Lemma lookup_map {A B} (f : A -> B) (l : list A) (i : nat) :
  List.map f l !! i = option_map f (l !! i).
Proof.
  revert i. induction l as [|x l IH]; intros [|i]; cbn; auto.
Qed.

(** The merged record of an update that leaves the price list of the item
    alone competes with another item only if the stored record did. *)
Lemma updated_competes (st : Pricing.Store) (id now : string)
    (existing b : NewPriceListItem.t) (data : NewPriceListItemPartial.t) :
  PriceBook.commodityChangeError st id existing data = None ->
  NewPriceListItemPartial.priceListId data = None ->
  NewPriceListItemPartial.commodityId data <> Some ""%string ->
  In b (Pricing.priceListItems st) ->
  NewPriceListItem.id b <> id ->
  let merged := NewPriceListItemPartial.spread existing data in
  let updated :=
    NewPriceListItem.mk id (NewPriceListItem.priceListId merged)
      (NewPriceListItem.commodityId merged) (NewPriceListItem.price merged)
      (NewPriceListItem.unit merged) (NewPriceListItem.currency merged)
      (NewPriceListItem.notes merged) (NewPriceListItem.createdBy merged)
      (NewPriceListItem.createdAt merged) now in
  Rules.compete st updated b -> Rules.compete st existing b.
Proof.
  intros Herr Hl Hne Hin Hb merged updated (Hc & la & lb & Hla & Hlb & Hg & Hov).
  subst updated merged.
  cbn [NewPriceListItem.priceListId NewPriceListItem.commodityId
       NewPriceListItemPartial.spread] in Hc, Hla.
  rewrite Hl in Hla. cbn in Hla.
  assert (Hkeep : NewPriceListItem.commodityId existing
                  = NewPriceListItem.commodityId b ->
                  Rules.compete st existing b).
  { intros Hc'. split; [exact Hc'|]. exists la, lb. now repeat split. }
  destruct (NewPriceListItemPartial.commodityId data) as [c|] eqn:Ec;
    cbn in Hc; [|now apply Hkeep].
  destruct (String.eqb_spec c (NewPriceListItem.commodityId existing)) as [Hs|Hs];
    [apply Hkeep; congruence|].
  exfalso.
  assert (Hnone : ~ exists m,
                      PriceBook.commodityChangeError st id existing data = Some m)
    by (intros [m Hm]; congruence).
  apply Hnone, (commodityChangeError_spec st id existing data la Hla).
  exists c. split.
  { repeat split; [exact Ec | congruence | exact Hs]. }
  apply getById_Some in Hlb. destruct Hlb as [Hlb Hlid].
  change (key lb) with (PriceList.id lb) in Hlid.
  assert (Hholds : Rules.holdsBesides st id (PriceList.id lb) c).
  { exists b. repeat split; [exact Hin | congruence | congruence | exact Hb]. }
  destruct (String.eqb_spec (PriceList.id lb) (PriceList.id la)) as [Heq|Hneq].
  - right. now rewrite <- Heq.
  - left. exists lb. repeat split; try assumption; try congruence;
      destruct Hov as [Hov|Hov]; try congruence; apply Hov.
Qed.

(** An [updatePriceListItem] that leaves the price list of the item
    alone and names no empty commodity keeps the prices unique, in a store
    whose items have distinct ids: the commodity change is the one thing
    the method validates. *)
Theorem updatePriceListItem_keeps_prices_unique
    (now : string) (st st' : Pricing.Store) (id : string)
    (data : NewPriceListItemPartial.t) (r : option NewPriceListItem.t) :
  Rules.pricesUnique st ->
  List.NoDup (List.map NewPriceListItem.id (Pricing.priceListItems st)) ->
  NewPriceListItemPartial.priceListId data = None ->
  NewPriceListItemPartial.commodityId data <> Some ""%string ->
  PriceBook.updatePriceListItem now st id data = Ok (st', r) ->
  Rules.pricesUnique st'.
Proof.
  intros Hu Hnd Hl Hne. unfold PriceBook.updatePriceListItem.
  destruct (Collection.getById (Pricing.priceListItems st) id)
    as [existing|] eqn:Hex; [|now intros [= <- _]].
  destruct (PriceBook.commodityChangeError st id existing data) eqn:Herr;
    [discriminate|].
  unfold Collection.update. rewrite Hex. intros [= <- _].
  set (updated := NewPriceListItem.mk id _ _ _ _ _ _ _ _ _).
  apply getById_Some in Hex. destruct Hex as [Hexin Hexid].
  change (key existing) with (NewPriceListItem.id existing) in Hexid.
  intros i j a' b' Hij Ha Hb Hab.
  cbn [Pricing.with_priceListItems Pricing.priceListItems] in Ha, Hb.
  rewrite lookup_map in Ha, Hb.
  destruct (Pricing.priceListItems st !! i) as [a|] eqn:Eai; [|discriminate].
  destruct (Pricing.priceListItems st !! j) as [b|] eqn:Ebj; [|discriminate].
  injection Ha as <-. injection Hb as <-.
  assert (Hain : In a (Pricing.priceListItems st))
    by (apply list_elem_of_In; eapply list_elem_of_lookup_2; eassumption).
  assert (Hbin : In b (Pricing.priceListItems st))
    by (apply list_elem_of_In; eapply list_elem_of_lookup_2; eassumption).
  assert (Hstored : forall x, In x (Pricing.priceListItems st) ->
                              NewPriceListItem.id x = id -> x = existing).
  { intros x Hx Hk.
    apply (same_key_same_record (H := NewPriceListItem_keyed) _ x existing Hnd Hx
             Hexin).
    change (NewPriceListItem.id x = NewPriceListItem.id existing). congruence. }
  assert (Hab' : Rules.compete st
                   (Collection.replace id updated a)
                   (Collection.replace id updated b)) by exact Hab.
  clear Hab. unfold Collection.replace in Hab'.
  change (key a) with (NewPriceListItem.id a) in Hab'.
  change (key b) with (NewPriceListItem.id b) in Hab'.
  destruct (String.eqb_spec (NewPriceListItem.id a) id) as [Hka|Hka],
           (String.eqb_spec (NewPriceListItem.id b) id) as [Hkb|Hkb].
  - assert (i = j); [|lia].
    apply (NoDup_lookup (List.map NewPriceListItem.id (Pricing.priceListItems st))
             i j id).
    + now apply NoDup_ListNoDup.
    + rewrite lookup_map, Eai. cbn. now f_equal.
    + rewrite lookup_map, Ebj. cbn. now f_equal.
  - apply (Hu i j a b Hij Eai Ebj). rewrite (Hstored a Hain Hka).
    exact (updated_competes st id now existing b data Herr Hl Hne Hbin Hkb Hab').
  - apply (Hu i j a b Hij Eai Ebj). rewrite (Hstored b Hbin Hkb).
    apply compete_sym.
    apply (updated_competes st id now existing a data Herr Hl Hne Hain Hka).
    now apply compete_sym.
  - exact (Hu i j a b Hij Eai Ebj Hab').
Qed.

Lemma updatePriceListItem_keeps_prices_unique_witness :
  Rules.pricesUnique Samples.mixedStore
  /\ exists st' updated,
      PriceBook.updatePriceListItem "t1" Samples.mixedStore "i3" Samples.reprice
      = Ok (st', Some updated)
      /\ List.map NewPriceListItem.id (Pricing.priceListItems st')
         = ["i1"; "i3"]%string
      /\ NewPriceListItem.updatedAt updated = "t1"%string
      /\ Rules.pricesUnique st'.
Proof.
  assert (Hu : Rules.pricesUnique Samples.mixedStore).
  { intros i j a b Hij Ha Hb [Hc _].
    destruct j as [|[|j]]; [lia | | discriminate].
    destruct i as [|i]; [|lia].
    cbn in Ha, Hb. injection Ha as <-. injection Hb as <-. discriminate. }
  assert (Hnd : List.NoDup
                  (List.map NewPriceListItem.id
                     (Pricing.priceListItems Samples.mixedStore))).
  { cbn. repeat constructor; cbn; intuition discriminate. }
  split; [exact Hu|].
  destruct (PriceBook.updatePriceListItem "t1" Samples.mixedStore "i3"
              Samples.reprice) as [[st' [updated|]]|] eqn:E;
    try (vm_compute in E; discriminate).
  exists st', updated. split; [reflexivity|].
  split; [|split].
  - vm_compute in E. injection E as <- _. reflexivity.
  - vm_compute in E. injection E as _ <-. reflexivity.
  - refine (updatePriceListItem_keeps_prices_unique "t1" Samples.mixedStore st'
              "i3" Samples.reprice (Some updated) Hu Hnd eq_refl _ E).
    discriminate.
Defined.

(** ** Assignment of accounts and the prices they get *)

(** Price resolution reads the accounts only to find the account. *)
Lemma findPriceInGroup_accounts (st : Pricing.Store) (accs : list Account.t)
    (groupId : string) (commodity : Commodity.t) (date : string) :
  Pricing.findPriceInGroup (PriceBook.with_accounts accs st) groupId commodity date
  = Pricing.findPriceInGroup st groupId commodity date.
Proof.
  unfold Pricing.findPriceInGroup.
  cbn [PriceBook.with_accounts Pricing.pricingGroups].
  destruct (Collection.getById (Pricing.pricingGroups st) groupId) as [group|];
    [|reflexivity].
  change (Pricing.getActivePriceListsForDate (PriceBook.with_accounts accs st))
    with (Pricing.getActivePriceListsForDate st).
  generalize (JS.sort Pricing.byEffectiveDateDesc
                (Pricing.getActivePriceListsForDate st groupId date)).
  intros lists. induction lists as [|pl lists IH]; [reflexivity|].
  cbn [Pricing.firstListWith]. rewrite IH. reflexivity.
Qed.

Lemma getPrice_unfold (today : string) (st : Pricing.Store)
    (accountId commodityId : string) (direction : PricingDirection)
    (date : option string) (account : Account.t) (commodity : Commodity.t) :
  Collection.getById (Pricing.accounts st) accountId = Some account ->
  Collection.getById (Pricing.commodities st) commodityId = Some commodity ->
  Pricing.getPrice today st accountId commodityId direction date
  = match Notions.assignedPrice st account commodity direction
            (default today date) with
    | Some price => Some price
    | None => Rules.defaultPrice st commodity direction (default today date)
    end.
Proof.
  intros Ha Hc. unfold Pricing.getPrice, Notions.assignedPrice,
    Notions.assignedGroupId, Rules.defaultPrice, JS.truthy.
  rewrite Ha, Hc.
  destruct direction;
    [destruct (Account.buyPricingGroupId account) as [g|]
    |destruct (Account.sellPricingGroupId account) as [g|]];
    try reflexivity;
    destruct (String.eqb g ""); reflexivity.
Qed.

(** [assignAccountToPricingGroup] returns nothing and writes nothing
    when the account or the group is unknown.  Otherwise the account is
    assigned to the group for the direction of the group and keeps its
    assignment for the other direction; it is then among the accounts of
    the group, and for that direction it gets every price the group yields
    (a group whose id is the empty string left aside, which price
    resolution takes for no assignment). *)
Theorem assignAccountToPricingGroup_takes_effect
    (st : Pricing.Store) (accountId groupId : string) :
  let st' := fst (PriceBook.assignAccountToPricingGroup st accountId groupId) in
  let r := snd (PriceBook.assignAccountToPricingGroup st accountId groupId) in
  (Collection.getById (Pricing.accounts st) accountId = None
   \/ Collection.getById (Pricing.pricingGroups st) groupId = None ->
   st' = st /\ r = None)
  /\ (forall account group,
         Collection.getById (Pricing.accounts st) accountId = Some account ->
         Collection.getById (Pricing.pricingGroups st) groupId = Some group ->
         let d := PricingGroup.direction group in
         exists updated,
           r = Some updated
           /\ Collection.getById (Pricing.accounts st') accountId = Some updated
           /\ Notions.assignedGroupId updated d = Some groupId
           /\ Notions.assignedGroupId updated (Rules.opposite d)
              = Notions.assignedGroupId account (Rules.opposite d)
           /\ In updated (PriceBook.getAccountsByPricingGroup st' groupId)
           /\ (forall today commodityId commodity date price,
                  Collection.getById (Pricing.commodities st) commodityId
                  = Some commodity ->
                  groupId <> ""%string ->
                  Pricing.findPriceInGroup st groupId commodity
                    (default today date) = Some price ->
                  Pricing.getPrice today st' accountId commodityId d date
                  = Some price)).
Proof.
  cbv zeta. unfold PriceBook.assignAccountToPricingGroup. split.
  - intros [Hn|Hn].
    + rewrite Hn. now split.
    + destruct (Collection.getById (Pricing.accounts st) accountId);
        rewrite ?Hn; now split.
  - intros account group Ha Hg. rewrite Ha, Hg.
    set (updated := if direction_eqb _ buy then _ else _).
    assert (Hkey : key updated = accountId).
    { apply getById_Some in Ha. destruct Ha as [_ Ha].
      subst updated. now destruct (direction_eqb _ buy). }
    unfold Collection.update. rewrite Ha. cbn [fst snd].
    pose proof (getById_replace _ _ _ _ Ha Hkey) as Hstored.
    exists updated. split; [reflexivity|]. split; [exact Hstored|].
    assert (Hd : Notions.assignedGroupId updated (PricingGroup.direction group)
                 = Some groupId).
    { subst updated. now destruct (PricingGroup.direction group). }
    split; [exact Hd|]. split.
    { subst updated. now destruct (PricingGroup.direction group). }
    split.
    + unfold PriceBook.getAccountsByPricingGroup.
      cbn [PriceBook.with_accounts Pricing.pricingGroups Pricing.accounts].
      rewrite Hg. apply List.filter_In. split.
      * apply getById_Some in Hstored. exact (proj1 Hstored).
      * unfold PriceBook.assignedTo. subst updated.
        destruct (PricingGroup.direction group); cbn;
          apply is_id_spec; reflexivity.
    + intros today commodityId commodity date price Hc Hne Hp.
      rewrite (getPrice_unfold today
                 (PriceBook.with_accounts
                    (List.map (Collection.replace accountId updated)
                       (Pricing.accounts st)) st)
                 accountId commodityId _ date updated commodity Hstored Hc).
      unfold Notions.assignedPrice. rewrite Hd.
      apply String.eqb_neq in Hne. rewrite Hne.
      rewrite findPriceInGroup_accounts, Hp. reflexivity.
Qed.



(** ** The prices of an account and of a group *)

Lemma collect_fold {A B} (f : A -> option B) (l : list A) (acc : list B) :
  List.fold_left
    (fun prices c =>
       match f c with
       | Some price => prices ++ [price]
       | None => prices
       end)
    l acc
  = acc ++ omap f l.
Proof.
  revert acc. induction l as [|x l IH]; intros acc; cbn [List.fold_left omap list_omap].
  - now rewrite List.app_nil_r.
  - rewrite IH. destruct (f x); [|reflexivity].
    now rewrite <- List.app_assoc.
Qed.

Lemma In_omap {A B} (f : A -> option B) (l : list A) (y : B) :
  In y (omap f l) <-> exists x, In x l /\ f x = Some y.
Proof.
  rewrite <- list_elem_of_In, list_elem_of_omap.
  split; intros (x & Hx & Hf); exists x; split; try assumption;
    now apply list_elem_of_In.
Qed.

Lemma NoDup_omap {A B} (f : A -> option B) (ka : A -> string) (kb : B -> string)
    (l : list A) :
  (forall x y, f x = Some y -> kb y = ka x) ->
  List.NoDup (List.map ka l) -> List.NoDup (List.map kb (omap f l)).
Proof.
  intros Hk. induction l as [|x l IH]; cbn [List.map omap list_omap];
    [constructor|].
  intros Hnd. apply List.NoDup_cons_iff in Hnd. destruct Hnd as [Hx Hnd].
  destruct (f x) as [y|] eqn:E; [|now apply IH].
  cbn [List.map]. apply List.NoDup_cons_iff. split; [|now apply IH].
  intros Hin. apply Hx. apply List.in_map_iff in Hin.
  destruct Hin as (y' & Hy' & Hin). apply In_omap in Hin.
  destruct Hin as (x' & Hx' & Hf'). apply List.in_map_iff. exists x'.
  split; [|exact Hx']. rewrite <- (Hk x' y' Hf'), Hy'. now apply Hk.
Qed.

Lemma sublist_omap_keys {A B} (f : A -> option B) (p : A -> bool)
    (ka : A -> string) (kb : B -> string) (l : list A) :
  (forall x y, f x = Some y -> kb y = ka x) ->
  sublist (List.map kb (omap f (List.filter p l))) (List.map ka l).
Proof.
  intros Hk. induction l as [|x l IH]; cbn [List.map List.filter];
    [constructor|].
  destruct (p x); [|now constructor].
  cbn [omap list_omap]. destruct (f x) as [y|] eqn:E; [|now constructor].
  cbn [List.map]. rewrite (Hk x y E). now constructor.
Qed.

Lemma getPrice_date (today : string) (st : Pricing.Store)
    (accountId commodityId : string) (d : PricingDirection) (date : option string) :
  Pricing.getPrice today st accountId commodityId d (Some (default today date))
  = Pricing.getPrice today st accountId commodityId d date.
Proof. now destruct date. Qed.

Lemma firstListWith_commodity (st : Pricing.Store) (group : PricingGroup.t)
    (commodity : Commodity.t) (lists : list PriceList.t) (p : CommodityPrice.t) :
  Pricing.firstListWith st group commodity lists = Some p ->
  CommodityPrice.commodityId p = Commodity.id commodity
  /\ CommodityPrice.pricingGroupId p = PricingGroup.id group.
Proof.
  induction lists as [|pl lists IH]; cbn [Pricing.firstListWith]; [discriminate|].
  destruct (List.find _ _); [|exact IH]. intros [= <-]. now split.
Qed.

Lemma findPriceInGroup_commodity (st : Pricing.Store) (groupId : string)
    (commodity : Commodity.t) (date : string) (p : CommodityPrice.t) :
  Pricing.findPriceInGroup st groupId commodity date = Some p ->
  CommodityPrice.commodityId p = Commodity.id commodity
  /\ CommodityPrice.pricingGroupId p = groupId.
Proof.
  unfold Pricing.findPriceInGroup.
  destruct (Collection.getById (Pricing.pricingGroups st) groupId) as [g|] eqn:E;
    [|discriminate].
  intros Hf. apply firstListWith_commodity in Hf.
  apply getById_Some in E. destruct E as [_ E].
  change (key g) with (PricingGroup.id g) in E. now rewrite <- E.
Qed.

Lemma getPrice_commodity (today : string) (st : Pricing.Store)
    (accountId commodityId : string) (d : PricingDirection)
    (date : option string) (p : CommodityPrice.t) :
  Pricing.getPrice today st accountId commodityId d date = Some p ->
  CommodityPrice.commodityId p = commodityId.
Proof.
  unfold Pricing.getPrice.
  destruct (Collection.getById (Pricing.accounts st) accountId) as [account|];
    [|discriminate].
  destruct (Collection.getById (Pricing.commodities st) commodityId)
    as [commodity|] eqn:Ec; [|discriminate].
  apply getById_Some in Ec. destruct Ec as [_ Ec].
  change (key commodity) with (Commodity.id commodity) in Ec.
  assert (Hd : forall q,
             match Pricing.getDefaultPricingGroup st d with
             | Some defaultGroup =>
                 Pricing.findPriceInGroup st (PricingGroup.id defaultGroup)
                   commodity (default today date)
             | None => None
             end = Some q -> CommodityPrice.commodityId q = commodityId).
  { intros q. destruct (Pricing.getDefaultPricingGroup st d); [|discriminate].
    intros Hq. apply findPriceInGroup_commodity in Hq. destruct Hq. congruence. }
  destruct (match d with
            | buy => Account.buyPricingGroupId account
            | sell => Account.sellPricingGroupId account
            end) as [g|]; [|apply Hd].
  destruct (JS.truthy g); [|apply Hd].
  destruct (Pricing.findPriceInGroup st g commodity (default today date))
    as [q|] eqn:Eq; [|apply Hd].
  intros [= <-]. apply findPriceInGroup_commodity in Eq. destruct Eq. congruence.
Qed.

Lemma getPricesForAccount_omap (today : string) (st : Pricing.Store)
    (accountId : string) (d : PricingDirection) (date : option string)
    (account : Account.t) :
  Collection.getById (Pricing.accounts st) accountId = Some account ->
  PriceBook.getPricesForAccount today st accountId d date
  = omap (fun c => Pricing.getPrice today st accountId (Commodity.id c) d date)
      (List.filter Commodity.isActive (Pricing.commodities st)).
Proof.
  intros Ha. unfold PriceBook.getPricesForAccount. rewrite Ha.
  rewrite (collect_fold
             (fun c => Pricing.getPrice today st accountId (Commodity.id c) d
                         (Some (default today date)))).
  cbn [List.app]. unfold Collection.getAll.
  induction (List.filter Commodity.isActive (Pricing.commodities st))
    as [|c l IH]; [reflexivity|].
  cbn [omap list_omap]. rewrite getPrice_date.
  destruct (Pricing.getPrice today st accountId (Commodity.id c) d date);
    [f_equal|]; exact IH.
Qed.

(** [getPricesForAccount] returns, in the order of the commodities
    (the commodity ids of the result are a subsequence of the stored ones),
    exactly the prices that [getPrice] resolves for the account and the
    active commodities: none for an unknown account, none for an inactive
    commodity, and at most one for a commodity when the commodities have
    distinct ids. *)
Theorem getPricesForAccount_lists_resolved_prices
    (today : string) (st : Pricing.Store) (accountId : string)
    (d : PricingDirection) (date : option string) :
  let prices := PriceBook.getPricesForAccount today st accountId d date in
  (Collection.getById (Pricing.accounts st) accountId = None -> prices = [])
  /\ (forall p,
         In p prices
         <-> exists c,
             In c (Pricing.commodities st)
             /\ Commodity.isActive c = true
             /\ Pricing.getPrice today st accountId (Commodity.id c) d date
                = Some p)
  /\ sublist (List.map CommodityPrice.commodityId prices)
       (List.map Commodity.id (Pricing.commodities st))
  /\ (List.NoDup (List.map Commodity.id (Pricing.commodities st)) ->
      List.NoDup (List.map CommodityPrice.commodityId prices)).
Proof.
  cbv zeta.
  destruct (Collection.getById (Pricing.accounts st) accountId)
    as [account|] eqn:Ha.
  - rewrite (getPricesForAccount_omap today st accountId d date account Ha).
    split; [discriminate|]. split.
    + intros p. rewrite In_omap. split.
      * intros (c & Hc & Hp). apply List.filter_In in Hc. exists c. tauto.
      * intros (c & Hc & Hact & Hp). exists c. split; [|exact Hp].
        apply List.filter_In. tauto.
    + split.
      { apply sublist_omap_keys. intros c p Hp.
        now apply getPrice_commodity in Hp. }
      intros Hnd.
      apply (NoDup_omap _ Commodity.id CommodityPrice.commodityId).
      * intros c p Hp. now apply getPrice_commodity in Hp.
      * now apply NoDup_map_filter.
  - assert (Hnil : PriceBook.getPricesForAccount today st accountId d date = []).
    { unfold PriceBook.getPricesForAccount. now rewrite Ha. }
    rewrite Hnil. split; [reflexivity|].
    split; [|split; [apply sublist_nil_l | constructor]].
    intros p. split; [contradiction|]. intros (c & _ & _ & Hp).
    unfold Pricing.getPrice in Hp. rewrite Ha in Hp. discriminate.
Qed.

Section KeyedLookup.
Context {T : Type} `{Keyed T}.

Lemma getById_stored (c : list T) (r : T) :
  List.NoDup (List.map key c) -> In r c -> Collection.getById c (key r) = Some r.
Proof.
  intros Hnd Hin.
  destruct (Collection.getById c (key r)) as [x|] eqn:E.
  - apply getById_Some in E. destruct E as [Hx Hk].
    f_equal. exact (same_key_same_record c x r Hnd Hx Hin Hk).
  - exfalso. exact (getById_None _ _ E r Hin eq_refl).
Qed.
End KeyedLookup.

Lemma getResolvedPricesForGroup_omap (today : string) (st : Pricing.Store)
    (groupId : string) (date : option string) (group : PricingGroup.t) :
  Collection.getById (Pricing.pricingGroups st) groupId = Some group ->
  PriceBook.getResolvedPricesForGroup today st groupId date
  = omap (fun c => Pricing.findPriceInGroup st groupId c (default today date))
      (List.filter Commodity.isActive (Pricing.commodities st)).
Proof.
  intros Hg. unfold PriceBook.getResolvedPricesForGroup. rewrite Hg.
  now rewrite collect_fold.
Qed.

(** The price sheet of a group, [getResolvedPricesForGroup], is empty
    for an unknown group; it holds exactly the prices [findPriceInGroup]
    yields in the group for the active commodities, so prices of that group
    only.  In a store whose commodities have distinct ids every price on it
    is among the prices [getPricesForAccount] returns for an account
    assigned to the group (the id of the group not being the empty string),
    for the direction of the assignment. *)
Theorem resolved_prices_reach_the_assigned_account
    (today : string) (st : Pricing.Store) (groupId : string)
    (date : option string) :
  let sheet := PriceBook.getResolvedPricesForGroup today st groupId date in
  (Collection.getById (Pricing.pricingGroups st) groupId = None -> sheet = [])
  /\ (forall p,
         In p sheet
         <-> exists c,
             In c (Pricing.commodities st)
             /\ Commodity.isActive c = true
             /\ Pricing.findPriceInGroup st groupId c (default today date)
                = Some p)
  /\ (forall p, In p sheet -> CommodityPrice.pricingGroupId p = groupId)
  /\ (forall accountId d account,
         Collection.getById (Pricing.accounts st) accountId = Some account ->
         Notions.assignedGroupId account d = Some groupId ->
         groupId <> ""%string ->
         List.NoDup (List.map Commodity.id (Pricing.commodities st)) ->
         forall p,
           In p sheet ->
           In p (PriceBook.getPricesForAccount today st accountId d date)).
Proof.
  intros sheet.
  assert (Hsheet : forall p,
             In p sheet
             <-> exists c,
                 In c (List.filter Commodity.isActive (Pricing.commodities st))
                 /\ Pricing.findPriceInGroup st groupId c (default today date)
                    = Some p).
  { intros p. subst sheet.
    destruct (Collection.getById (Pricing.pricingGroups st) groupId)
      as [group|] eqn:Hg.
    - rewrite (getResolvedPricesForGroup_omap today st groupId date group Hg).
      apply In_omap.
    - unfold PriceBook.getResolvedPricesForGroup, Pricing.findPriceInGroup.
      rewrite Hg. split; [intros [] | intros (c & _ & Hc); discriminate]. }
  split; [|split; [|split]].
  - intros Hn. subst sheet. unfold PriceBook.getResolvedPricesForGroup.
    now rewrite Hn.
  - intros p. rewrite Hsheet. split.
    + intros (c & Hc & Hp). apply List.filter_In in Hc. exists c. tauto.
    + intros (c & Hc & Hactive & Hp). exists c. split; [|exact Hp].
      apply List.filter_In. tauto.
  - intros p Hp. apply Hsheet in Hp. destruct Hp as (c & _ & Hp).
    exact (proj2 (findPriceInGroup_commodity _ _ _ _ _ Hp)).
  - intros accountId d account Ha Hassigned Hne Hnd p Hp.
    apply Hsheet in Hp. destruct Hp as (c & Hc & Hp).
    rewrite (getPricesForAccount_omap today st accountId d date account Ha).
    rewrite In_omap. exists c. split; [exact Hc|].
    apply List.filter_In in Hc. destruct Hc as [Hc _].
    pose proof (getById_stored (H := Commodity_keyed) _ c Hnd Hc) as Hstored.
    change (key c) with (Commodity.id c) in Hstored.
    rewrite (getPrice_unfold today st accountId (Commodity.id c) d date account c
               Ha Hstored).
    unfold Notions.assignedPrice. rewrite Hassigned.
    apply String.eqb_neq in Hne. rewrite Hne, Hp. reflexivity.
Qed.

Lemma resolved_prices_reach_the_assigned_account_witness :
  Collection.getById (Pricing.accounts Samples.loyalStore) "loyal"
  = Some Samples.loyal
  /\ Notions.assignedGroupId Samples.loyal buy = Some "G"%string
  /\ List.map CommodityPrice.priceListId
       (PriceBook.getResolvedPricesForGroup "2024-05-15" Samples.loyalStore "G"
          None)
     = ["A"%string]
  /\ forall p,
      In p (PriceBook.getResolvedPricesForGroup "2024-05-15" Samples.loyalStore
              "G" None) ->
      In p (PriceBook.getPricesForAccount "2024-05-15" Samples.loyalStore
              "loyal" buy None).
Proof.
  split; [reflexivity|]. split; [reflexivity|]. split; [vm_compute; reflexivity|].
  refine (proj2 (proj2 (proj2 (resolved_prices_reach_the_assigned_account
                                 "2024-05-15" Samples.loyalStore "G" None)))
            "loyal" buy Samples.loyal eq_refl eq_refl _ _).
  - discriminate.
  - cbn. repeat constructor; cbn; intuition discriminate.
Defined.

(** ** The statistics of the pricing groups *)

Lemma push_fold {A B} (f : A -> B) (l : list A) (acc : list B) :
  List.fold_left (fun result x => result ++ [f x]) l acc = acc ++ List.map f l.
Proof.
  revert acc. induction l as [|x l IH]; intros acc; cbn [List.fold_left List.map].
  - now rewrite List.app_nil_r.
  - rewrite IH, <- List.app_assoc. reflexivity.
Qed.

Lemma add_each_fold {A} (f : A -> string) (l : list A) (s : gset string)
    (c : string) :
  c ∈ List.fold_left (fun (ids : gset string) x => ids ∪ {[ f x ]}) l s
  <-> c ∈ s \/ exists x, In x l /\ f x = c.
Proof.
  revert s. induction l as [|x l IH]; intros s; cbn [List.fold_left].
  - split; [now left | intros [H|(x & [] & _)]; exact H].
  - rewrite IH, elem_of_union, elem_of_singleton. split.
    + intros [[H|H]|(y & Hy & Hf)]; [now left | right; exists x | right; exists y];
        split; auto; now right + now left.
    + intros [H|(y & [<-|Hy] & Hf)]; [now left; left | now left; right | right].
      now exists y.
Qed.

Lemma add_each_list_fold {A B} (items : A -> list B) (f : B -> string)
    (l : list A) (s : gset string) (c : string) :
  c ∈ List.fold_left
        (fun (ids : gset string) x =>
           List.fold_left (fun (ids : gset string) y => ids ∪ {[ f y ]})
             (items x) ids)
        l s
  <-> c ∈ s \/ exists x y, In x l /\ In y (items x) /\ f y = c.
Proof.
  revert s. induction l as [|x l IH]; intros s; cbn [List.fold_left].
  - split; [now left | intros [H|(x & y & [] & _)]; exact H].
  - rewrite IH, add_each_fold. split.
    + intros [[H|(y & Hy & Hf)]|(x' & y & Hx' & Hy & Hf)].
      * now left.
      * right. exists x, y. split; [now left | now split].
      * right. exists x', y. split; [now right | now split].
    + intros [H|(x' & y & [<-|Hx'] & Hy & Hf)].
      * now left; left.
      * left; right. now exists y.
      * right. now exists x', y.
Qed.

(** [getPricingGroupsWithStats] returns one row for each pricing group,
    in the order of the store.  The row counts the price lists of the
    group, the distinct commodities priced in those lists (a commodity
    priced in two lists is counted once) and the accounts assigned to the
    group for its direction, which are the accounts
    [getAccountsByPricingGroup] returns when the groups have distinct
    ids. *)
Theorem getPricingGroupsWithStats_counts (st : Pricing.Store) :
  let rows := PriceBook.getPricingGroupsWithStats st in
  List.map PricingGroupWithStats.group rows = PriceBook.getAllPricingGroups st
  /\ forall row,
      In row rows ->
      let id := PricingGroup.id (PricingGroupWithStats.group row) in
      PricingGroupWithStats.priceListCount row
      = length (PriceBook.getPriceListsByGroup st id)
      /\ (exists commodityIds,
             List.NoDup commodityIds
             /\ length commodityIds = PricingGroupWithStats.commodityCount row
             /\ forall c,
                 In c commodityIds
                 <-> exists priceList item,
                     In priceList (PriceBook.getPriceListsByGroup st id)
                     /\ In item
                          (PriceBook.getItemsByPriceList st (PriceList.id priceList))
                     /\ NewPriceListItem.commodityId item = c)
      /\ (List.NoDup (List.map PricingGroup.id (Pricing.pricingGroups st)) ->
          PricingGroupWithStats.accountCount row
          = length (PriceBook.getAccountsByPricingGroup st id)).
Proof.
  cbv zeta. unfold PriceBook.getPricingGroupsWithStats.
  rewrite (push_fold
             (fun group =>
                PricingGroupWithStats.mk group
                  (length (Collection.query (Pricing.priceLists st)
                             (fun pl =>
                                String.eqb (PriceList.pricingGroupId pl)
                                  (PricingGroup.id group))))
                  (size (List.fold_left
                           (fun (commodityIds : gset string) priceList =>
                              List.fold_left
                                (fun (commodityIds : gset string) item =>
                                   commodityIds
                                   ∪ {[ NewPriceListItem.commodityId item ]})
                                (Collection.query (Pricing.priceListItems st)
                                   (fun item =>
                                      String.eqb
                                        (NewPriceListItem.priceListId item)
                                        (PriceList.id priceList)))
                                commodityIds)
                           (Collection.query (Pricing.priceLists st)
                              (fun pl =>
                                 String.eqb (PriceList.pricingGroupId pl)
                                   (PricingGroup.id group)))
                           ∅))
                  (length (Collection.query (Pricing.accounts st)
                             (PriceBook.assignedTo group (PricingGroup.id group)))))).
  cbn [List.app]. split.
  - rewrite List.map_map. cbn [PricingGroupWithStats.group].
    unfold PriceBook.getAllPricingGroups, Collection.getAll.
    now rewrite List.map_id.
  - intros row Hrow. apply List.in_map_iff in Hrow.
    destruct Hrow as (g & <- & Hg).
    cbn [PricingGroupWithStats.group PricingGroupWithStats.priceListCount
         PricingGroupWithStats.commodityCount PricingGroupWithStats.accountCount].
    split; [reflexivity|]. split.
    + set (ids := List.fold_left _ _ ∅).
      exists (elements ids). split; [apply NoDup_ListNoDup, NoDup_elements|].
      split; [reflexivity|].
      intros c. rewrite <- list_elem_of_In, elem_of_elements. subst ids.
      rewrite (add_each_list_fold
                 (fun priceList =>
                    Collection.query (Pricing.priceListItems st)
                      (fun item =>
                         String.eqb (NewPriceListItem.priceListId item)
                           (PriceList.id priceList)))
                 NewPriceListItem.commodityId).
      split; [intros [H|H]; [set_solver | exact H] | intros H; now right].
    + intros Hnd. unfold PriceBook.getAccountsByPricingGroup.
      unfold PriceBook.getAllPricingGroups, Collection.getAll in Hg.
      pose proof (getById_stored (H := PricingGroup_keyed) _ g Hnd Hg) as Hs.
      change (key g) with (PricingGroup.id g) in Hs. now rewrite Hs.
Qed.

(** ** Migration from the legacy price list *)

Lemma migrated_refl (p : Migration.Progress) : Rules.migrated p p.
Proof.
  repeat split; try reflexivity.
  - exists []. now rewrite List.app_nil_r, Nat.add_0_r.
  - exists []. now rewrite List.app_nil_r.
Qed.

Lemma migrated_trans (p0 p1 p2 : Migration.Progress) :
  Rules.migrated p0 p1 -> Rules.migrated p1 p2 -> Rules.migrated p0 p2.
Proof.
  intros (Hg & Hl & Ha & Hc & (n1 & Hi1 & Hm1) & (e1 & He1))
         (Hg' & Hl' & Ha' & Hc' & (n2 & Hi2 & Hm2) & (e2 & He2)).
  repeat split; try congruence.
  - exists (n1 ++ n2). rewrite Hi2, Hi1, Hm2, Hm1, List.length_app,
      <- List.app_assoc. split; [reflexivity | lia].
  - exists (e1 ++ e2). now rewrite He2, He1, <- List.app_assoc.
Qed.

Lemma migrateSide_migrated (envs : nat -> Env) (priceList : option PriceList.t)
    (price : float) (legacyItem : PriceListItem.t) (p p' : Migration.Progress) :
  Migration.migrateSide envs priceList price legacyItem p = Ok p' ->
  Rules.migrated p p' /\ Migration.errors p' = Migration.errors p.
Proof.
  unfold Migration.migrateSide.
  destruct priceList as [pl|]; [|intros [= <-]; split; [apply migrated_refl | reflexivity]].
  destruct (PrimFloat.ltb 0 price);
    [|intros [= <-]; split; [apply migrated_refl | reflexivity]].
  destruct (Pricing.createPriceListItem _ _ _) as [[st' item]|] eqn:E;
    [|discriminate].
  intros [= <-]. apply createPriceListItem_list_stored in E.
  destruct E as (_ & -> & _).
  cbn [Migration.store Migration.migratedCount Migration.errors].
  split; [|reflexivity]. repeat split; try reflexivity.
  - exists [item]. split; [reflexivity | cbn; lia].
  - exists []. now rewrite List.app_nil_r.
Qed.

Lemma migrateItem_migrated (envs : nat -> Env)
    (buyPriceList sellPriceList : option PriceList.t) (p : Migration.Progress)
    (legacyItem : PriceListItem.t) :
  Rules.migrated p (Migration.migrateItem envs buyPriceList sellPriceList p legacyItem).
Proof.
  unfold Migration.migrateItem.
  destruct (Migration.migrateSide envs buyPriceList _ legacyItem p)
    as [p1|m] eqn:E1.
  - apply migrateSide_migrated in E1. destruct E1 as [H1 _].
    destruct (Migration.migrateSide envs sellPriceList _ legacyItem p1)
      as [p2|m] eqn:E2.
    + apply migrateSide_migrated in E2. destruct E2 as [H2 _].
      exact (migrated_trans _ _ _ H1 H2).
    + apply (migrated_trans _ _ _ H1).
      repeat split; try reflexivity.
      * exists []. now rewrite List.app_nil_r, Nat.add_0_r.
      * now eexists.
  - repeat split; try reflexivity.
    + exists []. now rewrite List.app_nil_r, Nat.add_0_r.
    + now eexists.
Qed.

Lemma migrateItems_migrated (envs : nat -> Env)
    (buyPriceList sellPriceList : option PriceList.t)
    (legacy : list PriceListItem.t) (p : Migration.Progress) :
  Rules.migrated p
    (List.fold_left (Migration.migrateItem envs buyPriceList sellPriceList)
       legacy p).
Proof.
  revert p. induction legacy as [|x legacy IH]; intros p; cbn [List.fold_left].
  - apply migrated_refl.
  - exact (migrated_trans _ _ _ (migrateItem_migrated _ _ _ p x) (IH _)).
Qed.

(** Without a price list of either direction the loop does nothing. *)
Lemma migrateItems_nothing (envs : nat -> Env) (legacy : list PriceListItem.t)
    (p : Migration.Progress) :
  List.fold_left (Migration.migrateItem envs None None) legacy p = p.
Proof.
  induction legacy as [|x legacy IH]; cbn [List.fold_left]; [reflexivity|].
  exact IH.
Qed.

Lemma createPricingGroup_items (env : Env) (st : Pricing.Store)
    (data : PricingGroup.data) :
  Pricing.priceListItems (fst (Pricing.createPricingGroup env st data))
  = Pricing.priceListItems st
  /\ Pricing.priceLists (fst (Pricing.createPricingGroup env st data))
     = Pricing.priceLists st
  /\ Pricing.accounts (fst (Pricing.createPricingGroup env st data))
     = Pricing.accounts st
  /\ Pricing.commodities (fst (Pricing.createPricingGroup env st data))
     = Pricing.commodities st.
Proof.
  unfold Pricing.createPricingGroup. cbn [fst].
  destruct (PricingGroup.d_isDefault data); [|now repeat split].
  destruct (clearDefaultForDirection_rest (now env) st
              (PricingGroup.d_direction data)) as (Hl & Hi & Ha & Hc).
  now repeat split.
Qed.

(** Creating the default group of a direction that has none. *)
Lemma createPricingGroup_default (env : Env) (st : Pricing.Store)
    (data : PricingGroup.data) :
  PricingGroup.d_isDefault data = true ->
  Pricing.getDefaultPricingGroup st (PricingGroup.d_direction data) = None ->
  let st' := fst (Pricing.createPricingGroup env st data) in
  let g := snd (Pricing.createPricingGroup env st data) in
  Pricing.getDefaultPricingGroup st' (PricingGroup.d_direction data) = Some g
  /\ (forall d,
         d <> PricingGroup.d_direction data ->
         Pricing.getDefaultPricingGroup st' d = Pricing.getDefaultPricingGroup st d)
  /\ Pricing.priceListItems st' = Pricing.priceListItems st
  /\ Pricing.priceLists st' = Pricing.priceLists st
  /\ Pricing.accounts st' = Pricing.accounts st
  /\ Pricing.commodities st' = Pricing.commodities st.
Proof.
  intros Hdef Hnone. cbv zeta.
  destruct (createPricingGroup_items env st data) as (Hi & Hl & Ha & Hc).
  split; [|split; [|now repeat split]].
  - unfold Pricing.createPricingGroup, Pricing.getDefaultPricingGroup in *.
    rewrite Hdef. cbn [fst snd].
    unfold Pricing.clearDefaultForDirection, Collection.query in *.
    destruct (List.filter _ (Pricing.pricingGroups st)) as [|x l] eqn:E;
      [|discriminate].
    cbn [List.fold_left Pricing.with_pricingGroups Pricing.pricingGroups].
    unfold Collection.create. rewrite List.filter_app, E.
    cbn [List.app List.filter].
    unfold Pricing.is_default_for at 1.
    cbn [Pricing.schema_createPricingGroup PricingGroup.direction
         PricingGroup.isDefault].
    rewrite Hdef.
    replace (direction_eqb (PricingGroup.d_direction data)
               (PricingGroup.d_direction data)) with true
      by (now destruct (PricingGroup.d_direction data)).
    reflexivity.
  - intros d Hd.
    unfold Pricing.createPricingGroup, Pricing.getDefaultPricingGroup in *.
    rewrite Hdef. cbn [fst].
    unfold Pricing.clearDefaultForDirection, Collection.query in *.
    destruct (List.filter _ (Pricing.pricingGroups st)) as [|x l] eqn:E;
      [|discriminate].
    cbn [List.fold_left Pricing.with_pricingGroups Pricing.pricingGroups].
    unfold Collection.create. rewrite List.filter_app.
    cbn [List.filter]. unfold Pricing.is_default_for at 2.
    cbn [Pricing.schema_createPricingGroup PricingGroup.direction].
    replace (direction_eqb (PricingGroup.d_direction data) d) with false
      by (destruct (PricingGroup.d_direction data), d; cbn; congruence).
    cbn [andb]. now rewrite List.app_nil_r.
Qed.

(** The default groups the migration works with, and the store once they
    are there. *)
Lemma ensure_default (env : Env) (st : Pricing.Store) (data : PricingGroup.data)
    (used : nat) :
  PricingGroup.d_isDefault data = true ->
  let d := PricingGroup.d_direction data in
  let r :=
    match Pricing.getDefaultPricingGroup st d with
    | Some g => (st, used, g)
    | None =>
        let '(st', g) := Pricing.createPricingGroup env st data in
        (st', S used, g)
    end in
  Pricing.getDefaultPricingGroup (fst (fst r)) d = Some (snd r)
  /\ (forall d', d' <> d ->
                 Pricing.getDefaultPricingGroup (fst (fst r)) d'
                 = Pricing.getDefaultPricingGroup st d')
  /\ Pricing.priceListItems (fst (fst r)) = Pricing.priceListItems st
  /\ Pricing.priceLists (fst (fst r)) = Pricing.priceLists st
  /\ Pricing.accounts (fst (fst r)) = Pricing.accounts st
  /\ Pricing.commodities (fst (fst r)) = Pricing.commodities st.
Proof.
  intros Hdef d r. subst r d.
  destruct (Pricing.getDefaultPricingGroup st (PricingGroup.d_direction data))
    as [g|] eqn:E.
  - cbn [fst snd]. now repeat split.
  - pose proof (createPricingGroup_default env st data Hdef E) as H.
    cbv zeta in H.
    destruct (Pricing.createPricingGroup env st data) as [st' g].
    exact H.
Qed.

(** Creating the price list of a direction when its default group has
    none. *)
Lemma ensure_list (env : Env) (st : Pricing.Store) (used : nat)
    (existing : list PriceList.t) (groupId name earliestDate : string) :
  let r :=
    if (length existing =? 0)%nat
    then
      let '(st', pl) :=
        PriceBook.createPriceList env st
          (Migration.migratedList groupId name earliestDate) in
      (st', S used, Some pl)
    else (st, used, None) in
  Pricing.pricingGroups (fst (fst r)) = Pricing.pricingGroups st
  /\ Pricing.priceListItems (fst (fst r)) = Pricing.priceListItems st
  /\ Pricing.accounts (fst (fst r)) = Pricing.accounts st
  /\ Pricing.commodities (fst (fst r)) = Pricing.commodities st
  /\ (forall pl, In pl (Pricing.priceLists st) ->
                 In pl (Pricing.priceLists (fst (fst r))))
  /\ (existing = [] ->
      exists pl,
        In pl (Pricing.priceLists (fst (fst r)))
        /\ PriceList.pricingGroupId pl = groupId)
  /\ (existing <> [] -> r = (st, used, None)).
Proof.
  cbv zeta. destruct existing as [|x l]; cbn [length Nat.eqb].
  - unfold PriceBook.createPriceList. cbn [fst snd].
    repeat split; try reflexivity.
    + intros pl Hin. cbn. apply List.in_or_app. now left.
    + intros _. eexists. split.
      * cbn. apply List.in_or_app. right. now left.
      * reflexivity.
    + congruence.
  - cbn [fst snd]. repeat split; try reflexivity; auto. discriminate.
Qed.

Lemma getDefaultPricingGroup_groups (st st' : Pricing.Store)
    (d : PricingDirection) :
  Pricing.pricingGroups st' = Pricing.pricingGroups st ->
  Pricing.getDefaultPricingGroup st' d = Pricing.getDefaultPricingGroup st d.
Proof. unfold Pricing.getDefaultPricingGroup. now intros ->. Qed.

Lemma query_nonempty {T} (l : list T) (p : T -> bool) (x : T) :
  In x l -> p x = true -> Collection.query l p <> [].
Proof.
  intros Hin Hp He.
  assert (In x (Collection.query l p)) as Hx
    by (apply List.filter_In; now split).
  rewrite He in Hx. contradiction.
Qed.

(** The migration of a non-empty legacy list: the loop starts from a store
    in which both directions have a default group with a price list, and
    that store is the given one when it is in that state already. *)
Lemma migrate_shape (envs : nat -> Env) (today : string) (st : Pricing.Store)
    (legacy : list PriceListItem.t) :
  legacy <> [] ->
  exists st0 used buyPriceList sellPriceList,
    Migration.migrateFromLegacyPricing envs today st legacy
    = (let p :=
         List.fold_left (Migration.migrateItem envs buyPriceList sellPriceList)
           legacy (Migration.mkProgress st0 used 0 []) in
       (Migration.store p,
        MigrationResult.mk (length (Migration.errors p) =? 0)%nat
          (Migration.migratedCount p) (Migration.errors p)))
    /\ Pricing.priceListItems st0 = Pricing.priceListItems st
    /\ Pricing.accounts st0 = Pricing.accounts st
    /\ Pricing.commodities st0 = Pricing.commodities st
    /\ Rules.migrationDone st0
    /\ (Rules.migrationDone st ->
        st0 = st /\ buyPriceList = None /\ sellPriceList = None).
Proof.
  intros Hne. unfold Migration.migrateFromLegacyPricing.
  destruct legacy as [|x0 legacy0]; [congruence|].
  set (legacy := x0 :: legacy0) in *.
  change (length legacy =? 0)%nat with false. cbv iota.
  set (earliestDate := JS.or_else _ today).
  (* the default group of the buy direction *)
  pose proof (ensure_default (envs 0%nat) st Migration.buyGroupData 0 eq_refl)
    as H1.
  cbv zeta in H1. cbn [PricingGroup.d_direction Migration.buyGroupData] in H1.
  fold Migration.buyGroupData in H1.
  assert (D1 : Rules.migrationDone st ->
               match Pricing.getDefaultPricingGroup st buy with
               | Some g => (st, 0%nat, g)
               | None =>
                   let '(st', g) :=
                     Pricing.createPricingGroup (envs 0%nat) st
                       Migration.buyGroupData in
                   (st', 1%nat, g)
               end
               = (st, 0%nat,
                  default (snd (Pricing.createPricingGroup (envs 0%nat) st
                                  Migration.buyGroupData))
                    (Pricing.getDefaultPricingGroup st buy))
               /\ Pricing.getDefaultPricingGroup st buy <> None).
  { intros Hd. destruct (Hd buy) as (g & pl & Hg & _). rewrite Hg.
    split; [reflexivity | discriminate]. }
  destruct (match Pricing.getDefaultPricingGroup st buy with
            | Some g => (st, 0%nat, g)
            | None => _
            end) as [[st1 u1] gb].
  cbn [fst snd] in H1. destruct H1 as (Hb1 & Hother1 & Hi1 & Hl1 & Ha1 & Hc1).
  (* the default group of the sell direction *)
  pose proof (ensure_default (envs u1) st1 Migration.sellGroupData u1 eq_refl)
    as H2.
  cbv zeta in H2. cbn [PricingGroup.d_direction Migration.sellGroupData] in H2.
  fold Migration.sellGroupData in H2.
  assert (D2 : Pricing.getDefaultPricingGroup st1 sell <> None ->
               match Pricing.getDefaultPricingGroup st1 sell with
               | Some g => (st1, u1, g)
               | None =>
                   let '(st', g) :=
                     Pricing.createPricingGroup (envs u1) st1
                       Migration.sellGroupData in
                   (st', S u1, g)
               end
               = (st1, u1,
                  default (snd (Pricing.createPricingGroup (envs u1) st1
                                  Migration.sellGroupData))
                    (Pricing.getDefaultPricingGroup st1 sell))).
  { intros Hd. destruct (Pricing.getDefaultPricingGroup st1 sell);
      [reflexivity | congruence]. }
  destruct (match Pricing.getDefaultPricingGroup st1 sell with
            | Some g => (st1, u1, g)
            | None => _
            end) as [[st2 u2] gs].
  cbn [fst snd] in H2. destruct H2 as (Hs2 & Hother2 & Hi2 & Hl2 & Ha2 & Hc2).
  assert (Hb2 : Pricing.getDefaultPricingGroup st2 buy = Some gb).
  { rewrite Hother2 by discriminate. exact Hb1. }
  (* the price list of the buy direction *)
  pose proof (ensure_list (envs u2) st2 u2
                (PriceBook.getPriceListsByGroup st2 (PricingGroup.id gb))
                (PricingGroup.id gb) "Migrated Buy Prices" earliestDate) as H3.
  cbv zeta in H3.
  remember (PriceBook.getPriceListsByGroup st2 (PricingGroup.id gs))
    as existingSell eqn:Hsell.
  destruct (if (length (PriceBook.getPriceListsByGroup st2 (PricingGroup.id gb))
                =? 0)%nat then _ else _) as [[st3 u3] buyPriceList].
  cbn [fst snd] in H3.
  destruct H3 as (Hg3 & Hi3 & Ha3 & Hc3 & Hmono3 & Hnew3 & Hold3).
  (* the price list of the sell direction *)
  pose proof (ensure_list (envs u3) st3 u3 existingSell (PricingGroup.id gs)
                "Migrated Sell Prices" earliestDate) as H4.
  cbv zeta in H4.
  destruct (if (length existingSell =? 0)%nat then _ else _)
    as [[st4 u4] sellPriceList].
  cbn [fst snd] in H4.
  destruct H4 as (Hg4 & Hi4 & Ha4 & Hc4 & Hmono4 & Hnew4 & Hold4).
  exists st4, u4, buyPriceList, sellPriceList.
  split; [reflexivity|].
  split; [congruence|]. split; [congruence|]. split; [congruence|]. split.
  - intros d. destruct d.
    + destruct (PriceBook.getPriceListsByGroup st2 (PricingGroup.id gb))
        as [|pl l] eqn:E.
      * destruct (Hnew3 eq_refl) as (pl & Hin & Hgid).
        exists gb, pl. split; [|split; [now apply Hmono4 | exact Hgid]].
        rewrite (getDefaultPricingGroup_groups st3 st4), 
          (getDefaultPricingGroup_groups st2 st3); assumption.
      * assert (Hin : In pl (PriceBook.getPriceListsByGroup st2 (PricingGroup.id gb)))
          by (rewrite E; now left).
        apply List.filter_In in Hin. destruct Hin as [Hin Hgid].
        apply String.eqb_eq in Hgid.
        exists gb, pl. split; [|split; [now apply Hmono4, Hmono3 | exact Hgid]].
        rewrite (getDefaultPricingGroup_groups st3 st4), 
          (getDefaultPricingGroup_groups st2 st3); assumption.
    + destruct existingSell as [|pl l].
      * destruct (Hnew4 eq_refl) as (pl & Hin & Hgid).
        exists gs, pl. split; [|split; [exact Hin | exact Hgid]].
        rewrite (getDefaultPricingGroup_groups st3 st4), 
          (getDefaultPricingGroup_groups st2 st3); assumption.
      * assert (Hin : In pl (PriceBook.getPriceListsByGroup st2 (PricingGroup.id gs)))
          by (rewrite <- Hsell; now left).
        apply List.filter_In in Hin. destruct Hin as [Hin Hgid].
        apply String.eqb_eq in Hgid.
        exists gs, pl. split; [|split; [now apply Hmono4, Hmono3 | exact Hgid]].
        rewrite (getDefaultPricingGroup_groups st3 st4), 
          (getDefaultPricingGroup_groups st2 st3); assumption.
  - intros Hdone. destruct (D1 Hdone) as [E1 _].
    injection E1 as -> -> _.
    destruct (Hdone sell) as (g' & pl' & Hg' & Hin' & Hgid').
    assert (E2 := D2 ltac:(congruence)). injection E2 as -> -> _.
    destruct (Hdone buy) as (g & pl & Hg & Hin & Hgid).
    assert (gb = g) by congruence. assert (gs = g') by congruence. subst g g'.
    assert (E3 : (st3, u3, buyPriceList) = (st, 0%nat, None)).
    { apply Hold3. apply (query_nonempty _ _ pl Hin). now apply String.eqb_eq. }
    injection E3 as -> -> ->.
    assert (E4 : (st4, u4, sellPriceList) = (st, 0%nat, None)).
    { apply Hold4. rewrite Hsell.
      apply (query_nonempty _ _ pl' Hin'). now apply String.eqb_eq. }
    injection E4 as -> -> ->. now repeat split.
Qed.

Lemma migrateSide_bound (envs : nat -> Env) (priceList : option PriceList.t)
    (price : float) (legacyItem : PriceListItem.t) (p p' : Migration.Progress) :
  Migration.migrateSide envs priceList price legacyItem p = Ok p' ->
  (Migration.migratedCount p' <= S (Migration.migratedCount p))%nat
  /\ Migration.errors p' = Migration.errors p.
Proof.
  unfold Migration.migrateSide.
  destruct priceList as [pl|]; [|intros [= <-]; split; [lia | reflexivity]].
  destruct (PrimFloat.ltb 0 price); [|intros [= <-]; split; [lia | reflexivity]].
  destruct (Pricing.createPriceListItem _ _ _) as [[st' item]|]; [|discriminate].
  intros [= <-]. cbn. split; [lia | reflexivity].
Qed.

Lemma migrateItems_bound (envs : nat -> Env)
    (buyPriceList sellPriceList : option PriceList.t)
    (legacy : list PriceListItem.t) (p : Migration.Progress) :
  let p' :=
    List.fold_left (Migration.migrateItem envs buyPriceList sellPriceList)
      legacy p in
  (length (Migration.errors p') <= length (Migration.errors p) + length legacy)%nat
  /\ (Migration.migratedCount p'
      <= Migration.migratedCount p + 2 * length legacy)%nat.
Proof.
  cbv zeta. revert p.
  induction legacy as [|x legacy IH]; intros p; cbn [List.fold_left length].
  - lia.
  - specialize (IH (Migration.migrateItem envs buyPriceList sellPriceList p x)).
    assert (Hstep :
      (length (Migration.errors
                 (Migration.migrateItem envs buyPriceList sellPriceList p x))
       <= S (length (Migration.errors p)))%nat
      /\ (Migration.migratedCount
            (Migration.migrateItem envs buyPriceList sellPriceList p x)
          <= 2 + Migration.migratedCount p)%nat).
    { unfold Migration.migrateItem.
      destruct (Migration.migrateSide envs buyPriceList _ x p) as [p1|m] eqn:E1.
      - apply migrateSide_bound in E1. destruct E1 as [Hc1 He1].
        destruct (Migration.migrateSide envs sellPriceList _ x p1)
          as [p2|m] eqn:E2.
        + apply migrateSide_bound in E2. destruct E2 as [Hc2 He2].
          rewrite He2, He1. lia.
        + cbn. rewrite List.length_app, He1. cbn. lia.
      - cbn. rewrite List.length_app. cbn. lia. }
    lia.
Qed.

(** [migrateFromLegacyPricing] accounts for what it does: an empty
    legacy list changes nothing and succeeds; otherwise [success] holds
    exactly when no error was recorded, [migratedCount] is the number of
    items added behind the stored ones, at most two for a legacy item, at
    most one error is recorded for a legacy item, accounts and commodities
    are untouched, and once an item was migrated [needsLegacyMigration] is
    false. *)
Theorem migrateFromLegacyPricing_accounts_for_every_item
    (envs : nat -> Env) (today : string) (st : Pricing.Store)
    (legacy : list PriceListItem.t) :
  let st' := fst (Migration.migrateFromLegacyPricing envs today st legacy) in
  let r := snd (Migration.migrateFromLegacyPricing envs today st legacy) in
  (legacy = [] -> st' = st /\ r = MigrationResult.mk true 0 [])
  /\ (MigrationResult.success r = true <-> MigrationResult.errors r = [])
  /\ (exists new,
         Pricing.priceListItems st' = Pricing.priceListItems st ++ new
         /\ length new = MigrationResult.migratedCount r)
  /\ Pricing.accounts st' = Pricing.accounts st
  /\ Pricing.commodities st' = Pricing.commodities st
  /\ (length (MigrationResult.errors r) <= length legacy)%nat
  /\ (MigrationResult.migratedCount r <= 2 * length legacy)%nat
  /\ ((0 < MigrationResult.migratedCount r)%nat ->
      Migration.needsLegacyMigration st' legacy = false).
Proof.
  cbv zeta. destruct legacy as [|x0 legacy0] eqn:El.
  { cbn. repeat split; try reflexivity; try lia.
    exists []. now rewrite List.app_nil_r. }
  rewrite <- El.
  assert (Hne : legacy <> []) by (rewrite El; discriminate).
  destruct (migrate_shape envs today st legacy Hne)
    as (st0 & used & bpl & spl & -> & Hi0 & Ha0 & Hc0 & _ & _).
  cbv zeta. cbn [fst snd MigrationResult.success MigrationResult.errors
                 MigrationResult.migratedCount].
  pose proof (migrateItems_migrated envs bpl spl legacy
                (Migration.mkProgress st0 used 0 [])) as Hm.
  pose proof (migrateItems_bound envs bpl spl legacy
                (Migration.mkProgress st0 used 0 [])) as Hb.
  cbv zeta in Hb.
  set (p := List.fold_left _ legacy _) in *.
  destruct Hm as (_ & _ & Ha & Hc & (new & Hnew & Hcount) & _).
  cbn [Migration.store Migration.migratedCount Migration.errors length] in *.
  split; [intros Hl; congruence|]. split.
  { rewrite Nat.eqb_eq. destruct (Migration.errors p); cbn; split;
      congruence || discriminate || reflexivity. }
  split; [exists new; split; [congruence | lia]|].
  split; [congruence|]. split; [congruence|].
  split; [lia|]. split; [lia|].
  intros Hpos. unfold Migration.needsLegacyMigration.
  destruct (length legacy =? 0)%nat; [reflexivity|].
  unfold Collection.getAll. rewrite Hnew, List.length_app.
  replace (0 <? _ + length new)%nat with true; [reflexivity|].
  symmetry. apply Nat.ltb_lt. lia.
Qed.

(** The migration runs once: after the migration of a non-empty legacy
    list both directions have a default group that owns a price list, and
    in such a store a further migration, of whatever legacy list, creates
    nothing, counts nothing and succeeds; so legacy items that failed the
    first time are not tried again. *)
Theorem migrateFromLegacyPricing_runs_once
    (envs : nat -> Env) (today : string) (st : Pricing.Store)
    (legacy : list PriceListItem.t) :
  legacy <> [] ->
  let st' := fst (Migration.migrateFromLegacyPricing envs today st legacy) in
  Rules.migrationDone st'
  /\ forall envs' today' legacy',
      Migration.migrateFromLegacyPricing envs' today' st' legacy'
      = (st', MigrationResult.mk true 0 []).
Proof.
  intros Hne. cbv zeta.
  destruct (migrate_shape envs today st legacy Hne)
    as (st0 & used & bpl & spl & -> & _ & _ & _ & Hdone0 & _).
  cbv zeta. cbn [fst].
  pose proof (migrateItems_migrated envs bpl spl legacy
                (Migration.mkProgress st0 used 0 [])) as Hm.
  set (p := List.fold_left _ legacy _) in *.
  destruct Hm as (Hg & Hl & _). cbn [Migration.store] in Hg, Hl.
  assert (Hdone : Rules.migrationDone (Migration.store p)).
  { intros d. destruct (Hdone0 d) as (g & pl & Hgd & Hin & Hgid).
    exists g, pl. rewrite (getDefaultPricingGroup_groups st0 _ d Hg), Hl.
    now repeat split. }
  split; [exact Hdone|].
  intros envs' today' legacy'. destruct legacy' as [|y0 legacy0] eqn:El.
  { reflexivity. }
  rewrite <- El.
  assert (Hne' : legacy' <> []) by (rewrite El; discriminate).
  destruct (migrate_shape envs' today' (Migration.store p) legacy' Hne')
    as (st1 & used' & bpl' & spl' & -> & _ & _ & _ & _ & Hsame).
  destruct (Hsame Hdone) as (-> & -> & ->).
  cbv zeta. rewrite migrateItems_nothing. reflexivity.
Qed.

Lemma migrateFromLegacyPricing_runs_once_witness :
  Samples.legacyItems <> []
  /\ snd (Migration.migrateFromLegacyPricing Samples.envs "2024-03-02"
            Samples.emptyStore Samples.legacyItems)
     = MigrationResult.mk false 3
         [Migration.failure
            (PriceListItem.mk "l2" "CU-BARE" 3.25%float 4.5%float LB USD
               "2024-01-15" None None)
            (Pricing.conflictMessage
               (Pricing.mkValidation false
                  (Some (PriceList.mk "id-2" "id-0" "Migrated Buy Prices"
                           "2024-01-15" None
                           (Some "Migrated from legacy pricing system") true
                           "Current User" "2024-03-02T09:00:00.000Z"
                           "2024-03-02T09:00:00.000Z"))))]
  /\ Migration.migrateFromLegacyPricing Samples.envs "2024-03-03"
       (fst (Migration.migrateFromLegacyPricing Samples.envs "2024-03-02"
               Samples.emptyStore Samples.legacyItems))
       Samples.legacyItems
     = (fst (Migration.migrateFromLegacyPricing Samples.envs "2024-03-02"
               Samples.emptyStore Samples.legacyItems),
        MigrationResult.mk true 0 []).
Proof.
  assert (Hne : Samples.legacyItems <> []) by discriminate.
  split; [exact Hne|]. split; [vm_compute; reflexivity|].
  exact (proj2 (migrateFromLegacyPricing_runs_once Samples.envs "2024-03-02"
                  Samples.emptyStore Samples.legacyItems Hne)
           Samples.envs "2024-03-03" Samples.legacyItems).
Defined.

(** ** Adjustment numbers *)

Lemma digit_value_digit (n : Z) : JSDate.digit_value (JSDate.digit n) = Some (n mod 10).
Proof.
  unfold JSDate.digit.
  assert (H : 0 <= n mod 10 < 10) by (apply Z.mod_pos_bound; lia).
  destruct (n mod 10) as [|p|p]; [reflexivity | | lia].
  do 4 (destruct p as [p|p|]; try lia; try reflexivity).
Qed.

Lemma number_of_digits (w : nat) :
  forall (n : Z) (acc : string) (a : Z),
    JSDate.number_of (JSDate.digits w n acc) a
    = JSDate.number_of acc (a * 10 ^ Z.of_nat w + n mod 10 ^ Z.of_nat w).
Proof.
  induction w as [|w IH]; intros n acc a.
  - cbn [JSDate.digits]. f_equal. change (10 ^ Z.of_nat 0) with 1.
    rewrite Z.mod_1_r. lia.
  - cbn [JSDate.digits]. rewrite IH. cbn [JSDate.number_of].
    rewrite digit_value_digit. f_equal.
    rewrite Nat2Z.inj_succ, Z.pow_succ_r by lia.
    rewrite (Z.rem_mul_r n 10 (10 ^ Z.of_nat w)) by lia. lia.
Qed.

Lemma decimalWidth_enough (fuel : nat) :
  forall n, 0 <= n -> (Z.to_nat n <= fuel)%nat ->
            n < 10 ^ Z.of_nat (Inventory.decimalWidth fuel n).
Proof.
  induction fuel as [|f IH]; intros n Hn Hf; cbn [Inventory.decimalWidth].
  - change (10 ^ Z.of_nat 1) with 10. lia.
  - destruct (Z.ltb_spec n 10) as [Hlt|Hge].
    + change (10 ^ Z.of_nat 1) with 10. lia.
    + rewrite Nat2Z.inj_succ, Z.pow_succ_r by lia.
      assert (n / 10 < 10 ^ Z.of_nat (Inventory.decimalWidth f (n / 10))).
      { apply IH; [apply Z.div_pos; lia|].
        assert (n / 10 < n) by (apply Z.div_lt; lia). lia. }
      pose proof (Z.div_mod n 10 ltac:(lia)).
      pose proof (Z.mod_pos_bound n 10 ltac:(lia)). lia.
Qed.

Lemma parseInt_toString (n : Z) :
  0 <= n -> JSDate.number_of (Inventory.toString n) 0 = Some n.
Proof.
  intros Hn. unfold Inventory.toString. rewrite number_of_digits.
  cbn [JSDate.number_of]. f_equal.
  rewrite Z.mod_small; [lia|]. split; [exact Hn|].
  apply decimalWidth_enough; [exact Hn | lia].
Qed.

Lemma number_of_padStart4 (s : string) :
  JSDate.number_of (Inventory.padStart4 s) 0 = JSDate.number_of s 0.
Proof.
  unfold Inventory.padStart4.
  destruct (4 - String.length s)%nat as [|[|[|[|[|k]]]]]; reflexivity.
Qed.

Lemma leadingDigits_digits (w : nat) :
  forall (n : Z) (acc : string),
    Inventory.leadingDigits acc = acc ->
    Inventory.leadingDigits (JSDate.digits w n acc) = JSDate.digits w n acc.
Proof.
  induction w as [|w IH]; intros n acc Hacc; cbn [JSDate.digits]; [exact Hacc|].
  apply IH. cbn [Inventory.leadingDigits]. rewrite digit_value_digit.
  now rewrite Hacc.
Qed.

Lemma append_cons (c : ascii) (t s : string) :
  (String c t ++ s)%string = String c (t ++ s)%string.
Proof. reflexivity. Qed.

Lemma append_nil (s : string) : ("" ++ s)%string = s.
Proof. reflexivity. Qed.

Lemma leadingDigits_zero (s : string) :
  Inventory.leadingDigits (String "0" s) = String "0" (Inventory.leadingDigits s).
Proof. reflexivity. Qed.

Lemma leadingDigits_padStart4 (s : string) :
  Inventory.leadingDigits s = s ->
  Inventory.leadingDigits (Inventory.padStart4 s) = Inventory.padStart4 s.
Proof.
  intros Hs. unfold Inventory.padStart4.
  destruct (4 - String.length s)%nat as [|[|[|[|[|k]]]]];
    cbn [String.substring];
    now rewrite ?append_cons, ?append_nil, ?leadingDigits_zero, Hs.
Qed.

Lemma digits_nonempty (w : nat) :
  forall (n : Z) (acc : string),
    (w <> 0)%nat \/ acc <> ""%string -> JSDate.digits w n acc <> ""%string.
Proof.
  induction w as [|w IH]; intros n acc H; cbn [JSDate.digits].
  - destruct H; congruence.
  - apply IH. right. discriminate.
Qed.

Lemma padStart4_nonempty (s : string) :
  s <> ""%string -> Inventory.padStart4 s <> ""%string.
Proof.
  intros Hs. unfold Inventory.padStart4.
  destruct (String.substring 0 _ "0000"); cbn; [exact Hs | discriminate].
Qed.

Lemma substring_all (s : string) : String.substring 0 (String.length s) s = s.
Proof. induction s as [|c s IH]; cbn; [reflexivity | now rewrite IH]. Qed.

(** An adjustment number of the form the service generates carries its
    counter. *)
Lemma counterOf_generated (n : Z) :
  0 <= n ->
  Rules.counterOf ("ADJ-" ++ Inventory.padStart4 (Inventory.toString n)) = Some n.
Proof.
  intros Hn. unfold Rules.counterOf.
  set (ds := Inventory.padStart4 (Inventory.toString n)).
  assert (Hds : Inventory.leadingDigits ds = ds).
  { apply leadingDigits_padStart4, leadingDigits_digits. reflexivity. }
  assert (Hne : ds <> ""%string).
  { apply padStart4_nonempty, digits_nonempty. left.
    destruct (Z.to_nat n); cbn [Inventory.decimalWidth]; [discriminate|].
    destruct (n <? 10); discriminate. }
  assert (Hm : Inventory.matchAdjustmentNumber ("ADJ-" ++ ds) = Some ds).
  { rewrite !append_cons, append_nil.
    cbn - [Inventory.leadingDigits JS.truthy ds Nat.sub String.prefix].
    replace (S (S (S (S (String.length ds)))) - 4)%nat with (String.length ds)
      by lia.
    assert (Hp : String.prefix "ADJ-" (String "A" (String "D" (String "J"
                   (String "-" ds)))) = true).
    { clearbody ds. destruct ds; [congruence | reflexivity]. }
    rewrite Hp. cbn [String.substring]. rewrite substring_all, Hds.
    unfold JS.truthy. apply String.eqb_neq in Hne. now rewrite Hne. }
  rewrite Hm. cbn [option_map]. unfold Inventory.parseInt. subst ds.
  now rewrite number_of_padStart4, parseInt_toString.
Qed.

Section Numbering.
Context {N : Type} `{Number N}.

(** The highest counter among the adjustments, [maxNum]. *)
Lemma maxNum_spec (adjs : list (InventoryAdjustment.t N)) (start : Z) :
  let step :=
    fun (max : Z) (adj : InventoryAdjustment.t N) =>
      match Inventory.matchAdjustmentNumber
              (InventoryAdjustment.adjustmentNumber adj) with
      | Some digits =>
          let num := Inventory.parseInt digits in
          if max <? num then num else max
      | None => max
      end in
  let m := List.fold_left step adjs start in
  start <= m
  /\ (forall adj k,
         In adj adjs ->
         Rules.counterOf (InventoryAdjustment.adjustmentNumber adj) = Some k ->
         k <= m)
  /\ (m = start
      \/ exists adj,
          In adj adjs
          /\ Rules.counterOf (InventoryAdjustment.adjustmentNumber adj) = Some m).
Proof.
  cbv zeta. revert start.
  induction adjs as [|a adjs IH]; intros start; cbn [List.fold_left].
  - split; [lia|]. split; [intros adj k []|now left].
  - set (next := match Inventory.matchAdjustmentNumber _ with
                 | Some digits => _
                 | None => start
                 end).
    destruct (IH next) as (Hle & Hall & Hex).
    assert (Hnext : start <= next
                    /\ (forall k,
                           Rules.counterOf (InventoryAdjustment.adjustmentNumber a)
                           = Some k -> k <= next)
                    /\ (next = start
                        \/ Rules.counterOf (InventoryAdjustment.adjustmentNumber a)
                           = Some next)).
    { subst next. unfold Rules.counterOf.
      destruct (Inventory.matchAdjustmentNumber _) as [ds|]; cbn [option_map].
      - destruct (Z.ltb_spec start (Inventory.parseInt ds)).
        + split; [lia|]. split; [intros k [= <-]; lia | now right].
        + split; [lia|]. split; [intros k [= <-]; lia | now left].
      - split; [lia|]. split; [discriminate | now left]. }
    destruct Hnext as (Hs & Ha & Hn).
    split; [lia|]. split.
    + intros adj k [<-|Hin] Hk; [specialize (Ha k Hk); lia | eauto].
    + destruct Hex as [Hm|(adj & Hin & Hc)].
      * rewrite Hm. destruct Hn as [Hn|Hn]; [now left | right].
        exists a. split; [now left | exact Hn].
      * right. exists adj. split; [now right | exact Hc].
Qed.

(** [createAdjustment] issues the next adjustment number: [ADJ-] and
    the counter that follows the highest counter of the ledger (1 for a
    ledger without counters), in at least four digits.  So the number is
    above every stored one and is not in use.  The counters are taken to
    be below 2^53, where a [number] is exact. *)
Theorem createAdjustment_issues_the_next_number
    (env : Env) (st : Inventory.Store (N := N)) (data : InventoryAdjustment.data N) :
  Rules.countersExact st ->
  let a := snd (Inventory.createAdjustment env st data) in
  exists n,
    InventoryAdjustment.adjustmentNumber a
    = ("ADJ-" ++ Inventory.padStart4 (Inventory.toString n))%string
    /\ Rules.counterOf (InventoryAdjustment.adjustmentNumber a) = Some n
    /\ 1 <= n <= 2 ^ 53
    /\ (n = 1
        \/ exists adj,
            In adj (Inventory.inventoryAdjustments st)
            /\ Rules.counterOf (InventoryAdjustment.adjustmentNumber adj)
               = Some (n - 1))
    /\ (forall adj k,
           In adj (Inventory.inventoryAdjustments st) ->
           Rules.counterOf (InventoryAdjustment.adjustmentNumber adj) = Some k ->
           k < n)
    /\ ~ In (InventoryAdjustment.adjustmentNumber a)
         (List.map InventoryAdjustment.adjustmentNumber
            (Inventory.inventoryAdjustments st)).
Proof.
  intros Hexact. cbv zeta.
  unfold Inventory.createAdjustment. cbn [snd InventoryAdjustment.adjustmentNumber].
  unfold Inventory.generateAdjustmentNumber, Collection.getAll.
  destruct (maxNum_spec (Inventory.inventoryAdjustments st) 0)
    as (Hle & Hall & Hex).
  cbv zeta in Hle, Hall, Hex.
  set (m := List.fold_left _ (Inventory.inventoryAdjustments st) 0) in *.
  exists (m + 1).
  assert (Hc : Rules.counterOf
                 ("ADJ-" ++ Inventory.padStart4 (Inventory.toString (m + 1)))
               = Some (m + 1)) by (apply counterOf_generated; lia).
  split; [reflexivity|]. split; [exact Hc|]. split.
  { split; [lia|]. destruct Hex as [->|(adj & Hin & Hk)]; [lia|].
    specialize (Hexact adj m Hin Hk). lia. }
  split.
  { destruct Hex as [Hm|(adj & Hin & Hk)]; [left; lia | right].
    exists adj. split; [exact Hin|]. now replace (m + 1 - 1) with m by lia. }
  split.
  { intros adj k Hin Hk. specialize (Hall adj k Hin Hk). lia. }
  intros Hin. apply List.in_map_iff in Hin. destruct Hin as (adj & Heq & Hin).
  rewrite <- Heq in Hc. specialize (Hall adj (m + 1) Hin Hc). lia.
Qed.
End Numbering.

Lemma createAdjustment_issues_the_next_number_witness :
  Rules.countersExact Examples.yard
  /\ InventoryAdjustment.adjustmentNumber
       (snd (Inventory.createAdjustment Examples.env1 Examples.yard
               (InventoryAdjustment.mkData "HMS1" None None None None damage
                  (-25) LB None "2024-03-09")))
     = "ADJ-0002"%string
  /\ exists n,
      Rules.counterOf
        (InventoryAdjustment.adjustmentNumber
           (snd (Inventory.createAdjustment Examples.env1 Examples.yard
                   (InventoryAdjustment.mkData "HMS1" None None None None damage
                      (-25) LB None "2024-03-09"))))
      = Some n
      /\ 1 <= n <= 2 ^ 53.
Proof.
  assert (He : Rules.countersExact Examples.yard).
  { intros adj k [<-|[]] Hk. vm_compute in Hk. injection Hk as <-. reflexivity. }
  split; [exact He|]. split; [vm_compute; reflexivity|].
  destruct (createAdjustment_issues_the_next_number Examples.env1 Examples.yard
              (InventoryAdjustment.mkData "HMS1" None None None None damage
                 (-25) LB None "2024-03-09") He)
    as (n & _ & Hc & Hn & _).
  exists n. split; [exact Hc | exact Hn].
Defined.

(** ** Creating and deleting an adjustment *)

Lemma filter_all {A} (p : A -> bool) (l : list A) :
  (forall x, In x l -> p x = true) -> List.filter p l = l.
Proof.
  induction l as [|x l IH]; intros Hp; [reflexivity|].
  cbn [List.filter]. rewrite (Hp x) by now left.
  f_equal. apply IH. intros y Hy. apply Hp. now right.
Qed.

Lemma find_app_none {A} (p : A -> bool) (l1 l2 : list A) :
  List.find p l1 = None -> List.find p (l1 ++ l2) = List.find p l2.
Proof.
  induction l1 as [|x l1 IH]; cbn [List.find List.app]; [reflexivity|].
  destruct (p x); [discriminate | exact IH].
Qed.

Section CreateDelete.
Context {N : Type} `{Number N}.

(** An adjustment created under a fresh id is stored under that id,
    and [deleteAdjustment] of that id restores the store; an adjustment
    created after that carries the same adjustment number again.  Deleting
    an id that is not stored changes nothing and returns false. *)
Theorem deleteAdjustment_undoes_createAdjustment
    (env : Env) (st : Inventory.Store (N := N)) (data : InventoryAdjustment.data N) :
  ~ In (freshId env)
      (List.map InventoryAdjustment.id (Inventory.inventoryAdjustments st)) ->
  let st1 := fst (Inventory.createAdjustment env st data) in
  let a := snd (Inventory.createAdjustment env st data) in
  InventoryAdjustment.id a = freshId env
  /\ Stock.getAdjustmentById st1 (freshId env) = Some a
  /\ Stock.getAdjustmentById st (freshId env) = None
  /\ Stock.deleteAdjustment st (freshId env) = (st, false)
  /\ Stock.deleteAdjustment st1 (freshId env) = (st, true)
  /\ forall env' data',
      InventoryAdjustment.adjustmentNumber
        (snd (Inventory.createAdjustment env'
                (fst (Stock.deleteAdjustment st1 (freshId env))) data'))
      = InventoryAdjustment.adjustmentNumber a.
Proof.
  intros Hfresh. cbv zeta.
  unfold Inventory.createAdjustment. cbn [fst snd].
  set (a := InventoryAdjustment.mk (freshId env) _ _ _ _ _ _ _ _ _ _ _ _ _ _).
  assert (Hnone : Collection.getById (Inventory.inventoryAdjustments st)
                    (freshId env) = None).
  { destruct (Collection.getById _ _) as [x|] eqn:E; [|reflexivity].
    apply getById_Some in E. destruct E as [Hin Hk]. exfalso. apply Hfresh.
    apply List.in_map_iff. now exists x. }
  assert (Hget : Collection.getById
                   (Collection.create (Inventory.inventoryAdjustments st) a)
                   (freshId env) = Some a).
  { unfold Collection.getById, Collection.create in *.
    rewrite (find_app_none _ _ _ Hnone). cbn [List.find].
    change (key a) with (freshId env). now rewrite String.eqb_refl. }
  assert (Hdel : Stock.deleteAdjustment
                   (Inventory.with_inventoryAdjustments
                      (Collection.create (Inventory.inventoryAdjustments st) a) st)
                   (freshId env) = (st, true)).
  { unfold Stock.deleteAdjustment, Collection.delete.
    cbn [Inventory.with_inventoryAdjustments Inventory.inventoryAdjustments].
    rewrite Hget. unfold Collection.create. rewrite List.filter_app.
    cbn [List.filter]. change (key a) with (freshId env).
    rewrite String.eqb_refl. cbn [negb]. rewrite List.app_nil_r.
    rewrite filter_all.
    - now destruct st.
    - intros x Hx. apply negb_true_iff, String.eqb_neq. intros Hk.
      apply Hfresh. apply List.in_map_iff. now exists x. }
  split; [reflexivity|]. split; [exact Hget|]. split; [exact Hnone|].
  split.
  { unfold Stock.deleteAdjustment, Collection.delete. rewrite Hnone.
    now destruct st. }
  split; [exact Hdel|].
  intros env' data'. rewrite Hdel. reflexivity.
Qed.
End CreateDelete.

Lemma deleteAdjustment_undoes_createAdjustment_witness :
  ~ In (freshId Examples.env1)
      (List.map InventoryAdjustment.id
         (Inventory.inventoryAdjustments Examples.yard))
  /\ Stock.deleteAdjustment
       (fst (Inventory.createAdjustment Examples.env1 Examples.yard
               (InventoryAdjustment.mkData "HMS1" None None None None damage
                  (-25) LB None "2024-03-09")))
       "id-1"
     = (Examples.yard, true).
Proof.
  assert (Hf : ~ In (freshId Examples.env1)
                 (List.map InventoryAdjustment.id
                    (Inventory.inventoryAdjustments Examples.yard))).
  { cbn. intuition discriminate. }
  split; [exact Hf|].
  exact (proj1 (proj2 (proj2 (proj2 (proj2
           (deleteAdjustment_undoes_createAdjustment Examples.env1 Examples.yard
              (InventoryAdjustment.mkData "HMS1" None None None None damage
                 (-25) LB None "2024-03-09") Hf)))))).
Defined.

(** ** The ledger of adjustments *)

Lemma string_compare_antisym (a b : string) :
  String.compare a b = CompOpp (String.compare b a).
Proof. apply String.compare_antisym. Qed.

Lemma str_le_compare_trans (a b c : string) :
  String.compare a b <> Gt -> String.compare b c <> Gt -> String.compare a c <> Gt.
Proof. exact (str_le_trans a b c). Qed.

Lemma string_compare_refl (k : string) : String.compare k k = Eq.
Proof.
  pose proof (String.compare_antisym k k) as Hanti.
  destruct (String.compare k k); [reflexivity | discriminate | discriminate].
Qed.

Section Ledger.
Context {N : Type} `{Number N}.

Lemma byAdjustmentDateDesc_antisym (a b : InventoryAdjustment.t N) :
  Stock.byAdjustmentDateDesc a b = CompOpp (Stock.byAdjustmentDateDesc b a).
Proof. apply string_compare_antisym. Qed.

Lemma byAdjustmentDateDesc_trans (a b c : InventoryAdjustment.t N) :
  Stock.byAdjustmentDateDesc a b <> Gt ->
  Stock.byAdjustmentDateDesc b c <> Gt ->
  Stock.byAdjustmentDateDesc a c <> Gt.
Proof.
  unfold Stock.byAdjustmentDateDesc, JS.localeCompare. intros Hab Hbc.
  exact (str_le_compare_trans _ _ _ Hbc Hab).
Qed.

Lemma getAdjustments_filter (st : Inventory.Store (N := N))
    (commodityId locationId : option string) :
  Stock.getAdjustments st commodityId locationId
  = JS.sort Stock.byAdjustmentDateDesc
      (List.filter (Rules.inLedger commodityId locationId)
         (Inventory.inventoryAdjustments st)).
Proof.
  unfold Stock.getAdjustments, Collection.getAll. f_equal.
  set (adjs := Inventory.inventoryAdjustments st).
  assert (Hloc : forall l (x : InventoryAdjustment.t N),
             negb (Inventory.differs (InventoryAdjustment.locationId x) l)
             = bool_decide (InventoryAdjustment.locationId x = Some l)).
  { intros l x. unfold Inventory.differs.
    destruct (InventoryAdjustment.locationId x) as [y|].
    - rewrite negb_involutive. apply eq_true_iff_eq.
      rewrite String.eqb_eq, bool_decide_eq_true. split; congruence.
    - symmetry. apply bool_decide_eq_false. discriminate. }
  unfold Rules.inLedger, JS.truthy.
  destruct commodityId as [c|], locationId as [l|];
    try destruct (String.eqb c ""); try destruct (String.eqb l "");
    cbn [negb orb andb];
    rewrite ?filter_filter;
    try (symmetry; apply filter_all; reflexivity);
    apply filter_ext_in_; intros x _; rewrite ?Hloc, ?andb_true_r;
    reflexivity.
Qed.

(** [getAdjustments] returns the adjustments of the ledger that pass
    the two filters (an absent or empty filter lets all through), each
    once.  When their dates have the form [YYYY-MM-DD] the most recent date
    comes first, and adjustments of one date keep the order of the
    ledger. *)
Theorem getAdjustments_is_the_sorted_ledger
    (st : Inventory.Store (N := N)) (commodityId locationId : option string) :
  let ledger :=
    List.filter (Rules.inLedger commodityId locationId)
      (Inventory.inventoryAdjustments st) in
  let result := Stock.getAdjustments st commodityId locationId in
  Permutation result ledger
  /\ ((forall adj,
          In adj ledger ->
          Rules.isoDate (InventoryAdjustment.adjustmentDate adj) = true) ->
      StronglySorted Rules.notBefore result
      /\ forall k,
          List.filter (Rules.datedOn k) result
          = List.filter (Rules.datedOn k) ledger).
Proof.
  cbv zeta. rewrite getAdjustments_filter. split; [apply sort_perm|].
  intros _. split.
  - pose proof (sort_sorted Stock.byAdjustmentDateDesc byAdjustmentDateDesc_antisym
                  byAdjustmentDateDesc_trans
                  (List.filter (Rules.inLedger commodityId locationId)
                     (Inventory.inventoryAdjustments st))) as Hs.
    exact Hs.
  - intros k. apply sort_filter. intros a b Ha Hb.
    unfold Rules.datedOn in Ha, Hb. apply String.eqb_eq in Ha, Hb.
    unfold Stock.byAdjustmentDateDesc, JS.localeCompare. rewrite Ha, Hb.
    apply string_compare_refl.
Qed.
End Ledger.

(** The two counts of the example are dated 2024-01-01 and 2024-02-01; the
    later one comes first. *)
Lemma getAdjustments_is_the_sorted_ledger_witness :
  List.map (fun adj => Rules.isoDate (InventoryAdjustment.adjustmentDate adj))
    (Inventory.inventoryAdjustments Samples.recounted)
  = [true; true]
  /\ List.map InventoryAdjustment.id
       (Stock.getAdjustments Samples.recounted None None)
     = ["adj-2"; "adj-1"]%string
  /\ StronglySorted Rules.notBefore
       (Stock.getAdjustments Samples.recounted None None).
Proof.
  split; [reflexivity|]. split; [vm_compute; reflexivity|].
  apply (proj2 (getAdjustments_is_the_sorted_ledger Samples.recounted None None)).
  intros adj [<-|[<-|[]]]; reflexivity.
Defined.

Lemma ledgerSum_perm (l l' : list (InventoryAdjustment.t Z)) :
  Permutation l l' -> Rules.ledgerSum l = Rules.ledgerSum l'.
Proof.
  unfold Rules.ledgerSum.
  induction 1 as [|x l l' Hp IH|x y l|l l' l'' H1 IH1 H2 IH2];
    cbn [List.fold_right]; lia.
Qed.

Lemma ledgerSum_fold (l : list (InventoryAdjustment.t Z)) (z : Z) :
  List.fold_left (fun sum adj => n_add sum (InventoryAdjustment.quantity adj)) l z
  = z + Rules.ledgerSum l.
Proof.
  unfold Rules.ledgerSum. revert z. induction l as [|a l IH]; intros z;
    cbn [List.fold_left List.fold_right].
  - lia.
  - rewrite IH. cbn [n_add Number_Z]. lia.
Qed.

Lemma ledgerSum_bound (f : InventoryAdjustment.t Z -> bool)
    (l : list (InventoryAdjustment.t Z)) :
  Z.abs (Rules.ledgerSum (List.filter f l))
  <= Rules.magnitudeOf (List.map InventoryAdjustment.quantity l).
Proof.
  unfold Rules.ledgerSum, Rules.magnitudeOf.
  induction l as [|a l IH]; cbn [List.filter List.map List.fold_right]; [lia|].
  destruct (f a); cbn [List.fold_right]; lia.
Qed.

(** The ledger of a commodity sums to its inventory: for a commodity
    id (not the empty string) and any location filter, the quantities of
    the adjustments [getAdjustments] returns add up to
    [getCurrentInventory].  The quantities of the ledger are taken to be
    integers whose magnitudes add up to at most 2^53, where no sum of them
    is rounded, in whatever order it is taken; the inventory is then within
    that bound as well. *)
Theorem getAdjustments_sum_to_the_inventory
    (st : Inventory.Store (N := Z)) (commodityId : string)
    (locationId : option string) :
  commodityId <> ""%string ->
  Rules.ledgerExact st ->
  Rules.ledgerSum (Stock.getAdjustments st (Some commodityId) locationId)
  = Inventory.getCurrentInventory st commodityId locationId
  /\ Z.abs (Inventory.getCurrentInventory st commodityId locationId) <= 2 ^ 53.
Proof.
  intros Hc Hexact. rewrite getAdjustments_filter.
  rewrite (ledgerSum_perm _ _ (sort_perm _ _)).
  assert (Hsum : Rules.ledgerSum
                   (List.filter (Rules.inLedger (Some commodityId) locationId)
                      (Inventory.inventoryAdjustments st))
                 = Inventory.getCurrentInventory st commodityId locationId).
  { unfold Inventory.getCurrentInventory, Collection.query.
    rewrite ledgerSum_fold. cbn [n_zero Number_Z]. rewrite Z.add_0_l.
    f_equal. apply filter_ext_in_. intros x _.
    unfold Rules.inLedger, Inventory.filteredOut, JS.truthy, Inventory.differs.
    apply String.eqb_neq in Hc. rewrite Hc. cbn [orb].
    destruct (String.eqb (InventoryAdjustment.commodityId x) commodityId);
      cbn [negb andb]; [|reflexivity].
    destruct locationId as [l|]; [|reflexivity].
    destruct (String.eqb l ""); cbn [negb andb orb]; [reflexivity|].
    destruct (InventoryAdjustment.locationId x) as [y|].
    - destruct (String.eqb_spec y l) as [->|Hne]; cbn [negb].
      + now apply bool_decide_eq_true.
      + apply bool_decide_eq_false. congruence.
    - apply bool_decide_eq_false. discriminate. }
  split; [exact Hsum|]. rewrite <- Hsum.
  pose proof (ledgerSum_bound (Rules.inLedger (Some commodityId) locationId)
                (Inventory.inventoryAdjustments st)) as Hb.
  unfold Rules.ledgerExact in Hexact. lia.
Qed.

Lemma getAdjustments_sum_to_the_inventory_witness :
  "HMS1"%string <> ""%string
  /\ Rules.magnitudeOf
       (List.map InventoryAdjustment.quantity
          (Inventory.inventoryAdjustments Examples.yard)) = 1000
  /\ Rules.ledgerSum (Stock.getAdjustments Examples.yard (Some "HMS1"%string) None)
     = 1000
  /\ Inventory.getCurrentInventory Examples.yard "HMS1" None = 1000.
Proof.
  assert (Hc : "HMS1"%string <> ""%string) by discriminate.
  assert (Hexact : Rules.ledgerExact Examples.yard) by (vm_compute; discriminate).
  split; [exact Hc|]. split; [reflexivity|].
  pose proof (proj1 (getAdjustments_sum_to_the_inventory Examples.yard "HMS1" None
                       Hc Hexact)) as Hsum.
  split; [rewrite Hsum|]; vm_compute; reflexivity.
Defined.

(** ** Positions and warnings *)

Section Positions.
Context {N : Type} `{Number N}.

(** The position [getPositions] builds for a commodity. *)
Lemma getPositions_rows (localeCompare : string -> string -> comparison)
    (today : string) (st : Inventory.Store (N := N)) (locationId : option string) :
  Stock.getPositions localeCompare today st locationId
  = JS.sort (Stock.byCommodityName localeCompare)
      (List.map
         (fun commodity =>
            Position.mk
              (Inventory.positionId (Commodity.id commodity) locationId)
              (Commodity.id commodity) (Some (Commodity.code commodity))
              (Some (Commodity.name commodity)) locationId
              (if JS.truthy_opt locationId then None
               else Some "Company-Wide"%string)
              (Inventory.getCurrentInventory st (Commodity.id commodity)
                 locationId)
              (Inventory.total
                 (Inventory.calculateIncoming today st (Commodity.id commodity)
                    locationId None))
              (Inventory.total
                 (Inventory.calculateOutgoing today st (Commodity.id commodity)
                    locationId None))
              (Rules.netOf today st (Commodity.id commodity) locationId)
              (Commodity.defaultUnit commodity))
         (List.filter Commodity.isActive (Inventory.commodities st))).
Proof.
  unfold Stock.getPositions, Collection.query. f_equal.
  now rewrite push_fold.
Qed.

(** [getPositions] returns one position for each active commodity,
    whether it has movements or not, and none for an inactive one.  The
    position of a commodity carries the numbers [getPosition] returns for
    it, so its net position is the inventory plus the incoming minus the
    outgoing; company-wide positions are labelled as such.  The positions
    are sorted by commodity name in the collation of the host, provided
    that collation is an order. *)
Theorem getPositions_one_position_per_active_commodity
    (localeCompare : string -> string -> comparison) (today : string)
    (st : Inventory.Store (N := N)) (locationId : option string) :
  let positions := Stock.getPositions localeCompare today st locationId in
  Permutation (List.map Position.commodityId positions)
    (List.map Commodity.id
       (List.filter Commodity.isActive (Inventory.commodities st)))
  /\ (forall p,
         In p positions ->
         Position.netPosition p
         = n_sub (n_add (Position.currentInventory p) (Position.incoming p))
             (Position.outgoing p)
         /\ Position.locationId p = locationId
         /\ Position.locationName p
            = (if JS.truthy_opt locationId then None
               else Some "Company-Wide"%string)
         /\ exists q,
             Inventory.getPosition today st (Position.commodityId p) locationId
             = Some q
             /\ Position.currentInventory q = Position.currentInventory p
             /\ Position.incoming q = Position.incoming p
             /\ Position.outgoing q = Position.outgoing p
             /\ Position.netPosition q = Position.netPosition p)
  /\ ((forall a b, localeCompare a b = CompOpp (localeCompare b a)) ->
      (forall a b c,
          localeCompare a b <> Gt -> localeCompare b c <> Gt ->
          localeCompare a c <> Gt) ->
      StronglySorted (Rules.byName localeCompare) positions).
Proof.
  cbv zeta. rewrite getPositions_rows.
  set (row := fun commodity : Commodity.t => Position.mk _ _ _ _ _ _ _ _ _ _ _).
  split; [|split].
  - rewrite (Permutation_map _ (sort_perm _ _)), List.map_map.
    apply Permutation_refl.
  - intros p Hp. apply sort_In, List.in_map_iff in Hp.
    destruct Hp as (c & <- & Hc). apply List.filter_In in Hc.
    destruct Hc as [Hc _].
    cbn [row Position.netPosition Position.currentInventory Position.incoming
         Position.outgoing Position.locationId Position.locationName
         Position.commodityId].
    split; [reflexivity|]. split; [reflexivity|]. split; [reflexivity|].
    unfold Inventory.getPosition.
    destruct (Collection.getById (Inventory.commodities st) (Commodity.id c))
      as [c'|] eqn:E.
    + eexists. split; [reflexivity|]. now repeat split.
    + exfalso. exact (getById_None _ _ E c Hc eq_refl).
  - intros Hanti Htrans.
    apply (sort_sorted (Stock.byCommodityName localeCompare)).
    + intros a b. apply Hanti.
    + intros a b c. apply Htrans.
Qed.
End Positions.



(** ** The commodities with movements *)

Lemma set_add_In (x c : string) (s : list string) :
  In c (Stock.set_add x s) <-> In c s \/ c = x.
Proof.
  unfold Stock.set_add. destruct (List.existsb (String.eqb x) s) eqn:E.
  - split; [now left | intros [Hc| ->]; [exact Hc|]].
    apply List.existsb_exists in E. destruct E as (y & Hy & Hxy).
    apply String.eqb_eq in Hxy. now subst.
  - rewrite List.in_app_iff. cbn [In]. intuition congruence.
Qed.

Lemma set_add_NoDup (x : string) (s : list string) :
  List.NoDup s -> List.NoDup (Stock.set_add x s).
Proof.
  intros Hs. unfold Stock.set_add.
  destruct (List.existsb (String.eqb x) s) eqn:E; [exact Hs|].
  apply NoDup_ListNoDup, NoDup_app. repeat split.
  - now apply NoDup_ListNoDup.
  - intros y Hy Hy'. apply list_elem_of_In in Hy.
    apply list_elem_of_singleton in Hy'. subst y.
    assert (List.existsb (String.eqb x) s = true); [|congruence].
    apply List.existsb_exists. exists x. split; [exact Hy | apply String.eqb_refl].
  - apply NoDup_singleton.
Qed.

Lemma add_all_In {A} (f : A -> string) (l : list A) (s : list string) (c : string) :
  In c (List.fold_left (fun ids x => Stock.set_add (f x) ids) l s)
  <-> In c s \/ exists x, In x l /\ f x = c.
Proof.
  revert s. induction l as [|x l IH]; intros s; cbn [List.fold_left].
  - split; [now left | intros [Hc|(x & [] & _)]; exact Hc].
  - rewrite IH, set_add_In. split.
    + intros [[Hc| ->]|(y & Hy & Hf)]; [now left | right; exists x | right; exists y];
        split; auto; now left + now right.
    + intros [Hc|(y & [<-|Hy] & Hf)];
        [now left; left | left; right; congruence | right; now exists y].
Qed.

Lemma add_all_NoDup {A} (f : A -> string) (l : list A) (s : list string) :
  List.NoDup s ->
  List.NoDup (List.fold_left (fun ids x => Stock.set_add (f x) ids) l s).
Proof.
  revert s. induction l as [|x l IH]; intros s Hs; cbn [List.fold_left];
    [exact Hs|]. apply IH. now apply set_add_NoDup.
Qed.

Lemma add_lines_In {A B} (lines : A -> list B) (f : B -> string) (l : list A)
    (s : list string) (c : string) :
  In c (List.fold_left
          (fun ids x =>
             List.fold_left (fun ids y => Stock.set_add (f y) ids) (lines x) ids)
          l s)
  <-> In c s \/ exists x y, In x l /\ In y (lines x) /\ f y = c.
Proof.
  revert s. induction l as [|x l IH]; intros s; cbn [List.fold_left].
  - split; [now left | intros [Hc|(x & y & [] & _)]; exact Hc].
  - rewrite IH, add_all_In. split.
    + intros [[Hc|(y & Hy & Hf)]|(x' & y & Hx' & Hy & Hf)].
      * now left.
      * right. exists x, y. split; [now left | now split].
      * right. exists x', y. split; [now right | now split].
    + intros [Hc|(x' & y & [<-|Hx'] & Hy & Hf)].
      * now left; left.
      * left; right. now exists y.
      * right. now exists x', y.
Qed.

Lemma add_lines_NoDup {A B} (lines : A -> list B) (f : B -> string) (l : list A)
    (s : list string) :
  List.NoDup s ->
  List.NoDup
    (List.fold_left
       (fun ids x =>
          List.fold_left (fun ids y => Stock.set_add (f y) ids) (lines x) ids)
       l s).
Proof.
  revert s. induction l as [|x l IH]; intros s Hs; cbn [List.fold_left];
    [exact Hs|]. apply IH. now apply add_all_NoDup.
Qed.

Section Mentioned.
Context {N : Type} `{Number N}.

Lemma getCommoditiesWithMovements_In (st : Inventory.Store (N := N)) (c : string) :
  In c (Stock.getCommoditiesWithMovements st) <-> Rules.mentioned st c.
Proof.
  unfold Stock.getCommoditiesWithMovements, Rules.mentioned, Collection.getAll,
    Collection.query.
  rewrite (add_lines_In SalesOrder.lineItems OrderLineItem.commodityId).
  rewrite (add_lines_In PurchaseOrder.lineItems OrderLineItem.commodityId).
  rewrite (add_all_In InventoryAdjustment.commodityId).
  cbn [In]. split.
  - intros [[[[]|(adj & Ha & Hc)]|(po & item & Hpo & Hi & Hc)]
           |(so & item & Hso & Hi & Hc)].
    + left. eauto.
    + right; left. apply List.filter_In in Hpo. exists po, item. tauto.
    + right; right. apply List.filter_In in Hso. exists so, item. tauto.
  - intros [(adj & Ha & Hc)|[(po & item & Hpo & Ho & Hi & Hc)
                            |(so & item & Hso & Ho & Hi & Hc)]].
    + left; left; right. eauto.
    + left; right. exists po, item. split; [|tauto].
      apply List.filter_In. tauto.
    + right. exists so, item. split; [|tauto]. apply List.filter_In. tauto.
Qed.

(** The pending quantities of a commodity that no open order mentions. *)
Lemma calculateIncoming_unmentioned (today : string)
    (st : Inventory.Store (N := N)) (c : string) (locationId byDate : option string) :
  ~ Rules.mentioned st c ->
  Inventory.calculateIncoming today st c locationId byDate
  = Inventory.mkTotals n_zero [].
Proof.
  intros Hm. unfold Inventory.calculateIncoming, Collection.query.
  assert (Hpos : forall po,
             In po (List.filter (fun po => status_is_open (PurchaseOrder.status po))
                      (Inventory.purchaseOrders st)) ->
             forall item, In item (PurchaseOrder.lineItems po) ->
                          OrderLineItem.commodityId item <> c).
  { intros po Hpo item Hi Hc. apply List.filter_In in Hpo.
    apply Hm. right; left. exists po, item. tauto. }
  revert Hpos.
  generalize (List.filter (fun po => status_is_open (PurchaseOrder.status po))
                (Inventory.purchaseOrders st)).
  intros pos. generalize (Inventory.mkTotals (N := N) n_zero []). 
  induction pos as [|po pos IH]; intros acc Hpos; cbn [List.fold_left];
    [reflexivity|].
  rewrite IH by (intros po' Hpo'; apply Hpos; now right).
  destruct (Inventory.filteredOut locationId (PurchaseOrder.facilityId po));
    [reflexivity|].
  assert (Hitems : forall item, In item (PurchaseOrder.lineItems po) ->
                                OrderLineItem.commodityId item <> c)
    by (apply Hpos; now left).
  clear IH Hpos. revert acc Hitems.
  induction (PurchaseOrder.lineItems po) as [|item items IH]; intros acc Hitems;
    cbn [List.fold_left]; [reflexivity|].
  rewrite IH by (intros i Hi; apply Hitems; now right).
  f_equal. unfold Inventory.incomingItem.
  assert (Hne := Hitems item (or_introl eq_refl)).
  apply String.eqb_neq in Hne. now rewrite Hne.
Qed.
Lemma calculateOutgoing_unmentioned (today : string)
    (st : Inventory.Store (N := N)) (c : string) (locationId byDate : option string) :
  ~ Rules.mentioned st c ->
  Inventory.calculateOutgoing today st c locationId byDate
  = Inventory.mkTotals n_zero [].
Proof.
  intros Hm. unfold Inventory.calculateOutgoing, Collection.query.
  assert (Hsos : forall so,
             In so (List.filter (fun so => status_is_open (SalesOrder.status so))
                      (Inventory.salesOrders st)) ->
             forall item, In item (SalesOrder.lineItems so) ->
                          OrderLineItem.commodityId item <> c).
  { intros so Hso item Hi Hc. apply List.filter_In in Hso.
    apply Hm. right; right. exists so, item. tauto. }
  revert Hsos.
  generalize (List.filter (fun so => status_is_open (SalesOrder.status so))
                (Inventory.salesOrders st)).
  intros sos. generalize (Inventory.mkTotals (N := N) n_zero []).
  induction sos as [|so sos IH]; intros acc Hsos; cbn [List.fold_left];
    [reflexivity|].
  rewrite IH by (intros so' Hso'; apply Hsos; now right).
  destruct (Inventory.filteredOut locationId (SalesOrder.facilityId so));
    [reflexivity|].
  assert (Hitems : forall item, In item (SalesOrder.lineItems so) ->
                                OrderLineItem.commodityId item <> c)
    by (apply Hsos; now left).
  clear IH Hsos. revert acc Hitems.
  induction (SalesOrder.lineItems so) as [|item items IH]; intros acc Hitems;
    cbn [List.fold_left]; [reflexivity|].
  rewrite IH by (intros i Hi; apply Hitems; now right).
  f_equal. unfold Inventory.outgoingItem.
  assert (Hne := Hitems item (or_introl eq_refl)).
  apply String.eqb_neq in Hne. now rewrite Hne.
Qed.

(** [getCommoditiesWithMovements] lists, each once, exactly the
    commodities that the ledger or a line of an order that is neither
    voided nor closed mentions.  A commodity that is not listed has no
    inventory, no pending movement and nothing incoming or outgoing,
    whatever the location and the dates asked for. *)
Theorem getCommoditiesWithMovements_covers_every_movement
    (st : Inventory.Store (N := N)) :
  List.NoDup (Stock.getCommoditiesWithMovements st)
  /\ (forall c, In c (Stock.getCommoditiesWithMovements st) <-> Rules.mentioned st c)
  /\ (forall c today locationId startDate endDate byDate,
         ~ In c (Stock.getCommoditiesWithMovements st) ->
         Inventory.getCurrentInventory st c locationId = n_zero
         /\ Inventory.getMovements today st c locationId startDate endDate = []
         /\ Inventory.total
              (Inventory.calculateIncoming today st c locationId byDate) = n_zero
         /\ Inventory.total
              (Inventory.calculateOutgoing today st c locationId byDate) = n_zero).
Proof.
  split; [|split].
  - unfold Stock.getCommoditiesWithMovements.
    apply (add_lines_NoDup SalesOrder.lineItems OrderLineItem.commodityId).
    apply (add_lines_NoDup PurchaseOrder.lineItems OrderLineItem.commodityId).
    apply (add_all_NoDup InventoryAdjustment.commodityId). constructor.
  - apply getCommoditiesWithMovements_In.
  - intros c today locationId startDate endDate byDate Hnot.
    rewrite getCommoditiesWithMovements_In in Hnot.
    split; [|split; [|split]].
    + unfold Inventory.getCurrentInventory, Collection.query.
      replace (List.filter _ (Inventory.inventoryAdjustments st)) with
        (@nil (InventoryAdjustment.t N)); [reflexivity|].
      symmetry.
      assert (Hadj : forall adj, In adj (Inventory.inventoryAdjustments st) ->
                                 InventoryAdjustment.commodityId adj <> c).
      { intros adj Ha Hc. apply Hnot. left. now exists adj. }
      revert Hadj.
      induction (Inventory.inventoryAdjustments st) as [|a l IH]; intros Hadj;
        [reflexivity|].
      cbn [List.filter].
      assert (Hne := Hadj a (or_introl eq_refl)).
      apply String.eqb_neq in Hne. rewrite Hne. cbn [negb].
      apply IH. intros adj Ha. apply Hadj. now right.
    + unfold Inventory.getMovements.
      rewrite (calculateIncoming_unmentioned today st c locationId None Hnot).
      rewrite (calculateOutgoing_unmentioned today st c locationId None Hnot).
      cbn [Inventory.movements List.app].
      destruct startDate as [s|]; [destruct (JS.truthy s)|];
        (destruct endDate as [e|]; [destruct (JS.truthy e)|]); reflexivity.
    + now rewrite (calculateIncoming_unmentioned today st c locationId byDate Hnot).
    + now rewrite (calculateOutgoing_unmentioned today st c locationId byDate Hnot).
Qed.
End Mentioned.

(** ** Movements *)

Lemma Permutation_filter_ {A} (p : A -> bool) (l l' : list A) :
  Permutation l l' -> Permutation (List.filter p l) (List.filter p l').
Proof.
  induction 1 as [|x l l' Hp IH|x y l|l l' l'' H1 IH1 H2 IH2]; cbn [List.filter].
  - constructor.
  - destruct (p x); [now constructor | exact IH].
  - destruct (p x), (p y); try apply Permutation_refl. apply perm_swap.
  - now transitivity (List.filter p l').
Qed.

Section Range.
Context {N : Type} `{Number N}.

Lemma byExpectedDate_antisym (a b : InventoryMovement.t N) :
  Inventory.byExpectedDate a b = CompOpp (Inventory.byExpectedDate b a).
Proof. apply string_compare_antisym. Qed.

Lemma byExpectedDate_trans (a b c : InventoryMovement.t N) :
  Inventory.byExpectedDate a b <> Gt ->
  Inventory.byExpectedDate b c <> Gt ->
  Inventory.byExpectedDate a c <> Gt.
Proof. apply str_le_compare_trans. Qed.

Lemma getMovements_filter (today : string) (st : Inventory.Store (N := N))
    (commodityId : string) (locationId startDate endDate : option string) :
  Inventory.getMovements today st commodityId locationId startDate endDate
  = JS.sort Inventory.byExpectedDate
      (List.filter (Rules.within startDate endDate)
         (Inventory.movements
            (Inventory.calculateIncoming today st commodityId locationId None)
          ++ Inventory.movements
               (Inventory.calculateOutgoing today st commodityId locationId None))).
Proof.
  unfold Inventory.getMovements. f_equal.
  set (all := _ ++ _). unfold Rules.within, JS.truthy, JS.le.
  destruct startDate as [s|], endDate as [e|];
    try destruct (String.eqb s ""); try destruct (String.eqb e "");
    cbn [negb orb andb];
    rewrite ?filter_filter;
    try (symmetry; apply filter_all; reflexivity);
    apply filter_ext_in_; intros x _; rewrite ?andb_true_r; reflexivity.
Qed.

(** [getMovements] with a date range returns the pending movements of
    the commodity that are expected within the range (an absent or empty
    bound does not bind), each once.  When their expected dates have the
    form [YYYY-MM-DD] they come in the order of those dates, and movements
    of one date keep the order in which the orders were read, those of the
    purchase orders first. *)
Theorem getMovements_within_the_range_in_order
    (today : string) (st : Inventory.Store (N := N)) (commodityId : string)
    (locationId startDate endDate : option string) :
  let pending :=
    Inventory.movements
      (Inventory.calculateIncoming today st commodityId locationId None)
    ++ Inventory.movements
         (Inventory.calculateOutgoing today st commodityId locationId None) in
  let all := Inventory.getMovements today st commodityId locationId None None in
  let ms :=
    Inventory.getMovements today st commodityId locationId startDate endDate in
  Permutation ms (List.filter (Rules.within startDate endDate) pending)
  /\ Permutation all pending
  /\ (forall m, In m ms <-> In m all /\ Rules.within startDate endDate m = true)
  /\ ((forall m,
          In m ms -> Rules.isoDate (InventoryMovement.expectedDate m) = true) ->
      StronglySorted Rules.notAfter ms
      /\ forall k,
          List.filter (Notions.onDate k) ms
          = List.filter (Notions.onDate k)
              (List.filter (Rules.within startDate endDate) pending)).
Proof.
  cbv zeta. rewrite !getMovements_filter.
  set (pending := _ ++ _).
  assert (Hall : List.filter (Rules.within None None) pending = pending)
    by (apply filter_all; reflexivity).
  rewrite Hall.
  split; [apply sort_perm|]. split; [apply sort_perm|]. split.
  - intros m. rewrite (sort_In _ _ m), List.filter_In, (sort_In _ pending m).
    reflexivity.
  - intros _. split.
    + exact (sort_sorted Inventory.byExpectedDate byExpectedDate_antisym
               byExpectedDate_trans _).
    + intros k. apply sort_onDate.
Qed.
End Range.

(** The two pending movements of the example are expected on 2024-03-10 and
    on 2024-03-12, and come in that order. *)
Lemma getMovements_within_the_range_in_order_witness :
  List.map InventoryMovement.expectedDate
    (Inventory.getMovements "2024-03-09" Examples.yard "HMS1" None None None)
  = ["2024-03-10"; "2024-03-12"]%string
  /\ List.map (fun m => Rules.isoDate (InventoryMovement.expectedDate m))
       (Inventory.getMovements "2024-03-09" Examples.yard "HMS1" None None None)
     = [true; true]
  /\ StronglySorted Rules.notAfter
       (Inventory.getMovements "2024-03-09" Examples.yard "HMS1" None None None).
Proof.
  split; [vm_compute; reflexivity|]. split; [vm_compute; reflexivity|].
  apply (proj2 (proj2 (proj2 (getMovements_within_the_range_in_order
                                "2024-03-09" Examples.yard "HMS1" None None None)))).
  intros m Hm. vm_compute in Hm. destruct Hm as [<-|[<-|[]]]; reflexivity.
Defined.

Lemma sumOf_perm (l l' : list (InventoryMovement.t Z)) :
  Permutation l l' -> Notions.sumOf l = Notions.sumOf l'.
Proof.
  unfold Notions.sumOf.
  induction 1 as [|x l l' Hp IH|x y l|l l' l'' H1 IH1 H2 IH2];
    cbn [List.fold_right]; lia.
Qed.

Lemma sumOf_append (l l' : list (InventoryMovement.t Z)) :
  Notions.sumOf (l ++ l') = Notions.sumOf l + Notions.sumOf l'.
Proof.
  unfold Notions.sumOf. induction l as [|x l IH]; cbn [List.app List.fold_right];
    lia.
Qed.

Section Signs.
Context (today : string) (st : Inventory.Store (N := Z)) (commodityId : string)
        (locationId byDate : option string).

Lemma calculateIncoming_movements :
  List.Forall
    (fun m => Rules.pendingMovement commodityId m /\ 0 < InventoryMovement.quantity m)
    (Inventory.movements
       (Inventory.calculateIncoming today st commodityId locationId byDate)).
Proof.
  unfold Inventory.calculateIncoming.
  apply (fold_left_invariant
           (fun acc =>
              List.Forall
                (fun m => Rules.pendingMovement commodityId m
                          /\ 0 < InventoryMovement.quantity m)
                (Inventory.movements acc))); [|constructor].
  intros acc po Hacc.
  destruct (Inventory.filteredOut _ _); [exact Hacc|].
  apply (fold_left_invariant
           (fun acc =>
              List.Forall
                (fun m => Rules.pendingMovement commodityId m
                          /\ 0 < InventoryMovement.quantity m)
                (Inventory.movements acc))); [|exact Hacc].
  clear acc Hacc. intros acc item Hacc. unfold Inventory.incomingItem.
  destruct (String.eqb_spec (OrderLineItem.commodityId item) commodityId)
    as [Hc|Hc]; cbn [negb]; [|exact Hacc].
  destruct (n_le _ n_zero) eqn:Hle; [exact Hacc|].
  destruct (Inventory.afterDate _ _); [exact Hacc|].
  cbn [Inventory.movements]. apply List.Forall_app. split; [exact Hacc|].
  constructor; [|constructor].
  cbn [n_le n_zero Number_Z] in Hle. apply Z.leb_gt in Hle.
  unfold Rules.pendingMovement. cbn in Hle |- *.
  split; [split; [exact Hc | split; [reflexivity | left; repeat split; lia]] | lia].
Qed.

Lemma calculateOutgoing_movements :
  List.Forall
    (fun m => Rules.pendingMovement commodityId m /\ InventoryMovement.quantity m < 0)
    (Inventory.movements
       (Inventory.calculateOutgoing today st commodityId locationId byDate)).
Proof.
  unfold Inventory.calculateOutgoing.
  apply (fold_left_invariant
           (fun acc =>
              List.Forall
                (fun m => Rules.pendingMovement commodityId m
                          /\ InventoryMovement.quantity m < 0)
                (Inventory.movements acc))); [|constructor].
  intros acc so Hacc.
  destruct (Inventory.filteredOut _ _); [exact Hacc|].
  apply (fold_left_invariant
           (fun acc =>
              List.Forall
                (fun m => Rules.pendingMovement commodityId m
                          /\ InventoryMovement.quantity m < 0)
                (Inventory.movements acc))); [|exact Hacc].
  clear acc Hacc. intros acc item Hacc. unfold Inventory.outgoingItem.
  destruct (String.eqb_spec (OrderLineItem.commodityId item) commodityId)
    as [Hc|Hc]; cbn [negb]; [|exact Hacc].
  destruct (n_le _ n_zero) eqn:Hle; [exact Hacc|].
  destruct (Inventory.afterDate _ _); [exact Hacc|].
  cbn [Inventory.movements]. apply List.Forall_app. split; [exact Hacc|].
  constructor; [|constructor].
  cbn [n_le n_zero Number_Z] in Hle. apply Z.leb_gt in Hle.
  unfold Rules.pendingMovement. cbn in Hle |- *.
  split; [split; [exact Hc | split; [reflexivity | right; repeat split; lia]] | lia].
Qed.
End Signs.

Lemma filter_none {A} (p : A -> bool) (l : list A) :
  (forall x, In x l -> p x = false) -> List.filter p l = [].
Proof.
  induction l as [|x l IH]; intros Hp; [reflexivity|].
  cbn [List.filter]. rewrite (Hp x) by now left.
  apply IH. intros y Hy. apply Hp. now right.
Qed.

(** *** The magnitudes of the quantities *)

Lemma magnitudeOf_app (l l' : list Z) :
  Rules.magnitudeOf (l ++ l') = Rules.magnitudeOf l + Rules.magnitudeOf l'.
Proof.
  unfold Rules.magnitudeOf. induction l as [|x l IH];
    cbn [List.app List.fold_right]; lia.
Qed.

Lemma magnitudeOf_nonneg (l : list Z) : 0 <= Rules.magnitudeOf l.
Proof.
  unfold Rules.magnitudeOf. induction l as [|x l IH]; cbn [List.fold_right]; lia.
Qed.

Lemma magnitudeOf_flat_map_filter {A} (f : A -> list Z) (p : A -> bool)
    (l : list A) :
  Rules.magnitudeOf (List.flat_map f (List.filter p l))
  <= Rules.magnitudeOf (List.flat_map f l).
Proof.
  induction l as [|x l IH]; cbn [List.filter List.flat_map]; [lia|].
  pose proof (magnitudeOf_nonneg (f x)) as Hx.
  destruct (p x); cbn [List.flat_map]; rewrite ?magnitudeOf_app; lia.
Qed.

Section Bounds.
Context (today : string) (st : Inventory.Store (N := Z)) (commodityId : string)
        (locationId byDate : option string).

Lemma getCurrentInventory_bound :
  Z.abs (Inventory.getCurrentInventory st commodityId locationId)
  <= Rules.magnitudeOf
       (List.map InventoryAdjustment.quantity (Inventory.inventoryAdjustments st)).
Proof.
  unfold Inventory.getCurrentInventory, Collection.query.
  rewrite ledgerSum_fold. cbn [n_zero Number_Z]. rewrite Z.add_0_l.
  apply ledgerSum_bound.
Qed.

Lemma incomingItems_bound (po : PurchaseOrder.t Z)
    (items : list (OrderLineItem.t Z)) :
  forall acc,
    Inventory.total acc
    <= Inventory.total
         (List.fold_left (Inventory.incomingItem today st commodityId byDate po)
            items acc)
    <= Inventory.total acc
       + Rules.magnitudeOf
           (Rules.lineQuantities OrderLineItem.receivedQuantity items).
Proof.
  induction items as [|item items IH]; intros acc;
    cbn [List.fold_left Rules.lineQuantities List.flat_map]; [cbn; lia|].
  fold (Rules.lineQuantities OrderLineItem.receivedQuantity items).
  specialize (IH (Inventory.incomingItem today st commodityId byDate po acc item)).
  rewrite magnitudeOf_app.
  pose proof (magnitudeOf_nonneg
                (Rules.lineQuantities OrderLineItem.receivedQuantity items)) as Hn.
  assert (Hstep :
            Inventory.total acc
            <= Inventory.total
                 (Inventory.incomingItem today st commodityId byDate po acc item)
            <= Inventory.total acc
               + Rules.magnitudeOf
                   [OrderLineItem.quantity item;
                    n_or_zero (OrderLineItem.receivedQuantity item)]).
  { unfold Inventory.incomingItem, Rules.magnitudeOf. cbn [List.fold_right].
    destruct (negb _); [lia|].
    destruct (n_le _ n_zero) eqn:Hle; [lia|].
    destruct (Inventory.afterDate _ _); [lia|].
    cbn [n_le n_zero Number_Z] in Hle. apply Z.leb_gt in Hle.
    cbn [Inventory.total n_add n_sub Number_Z] in Hle |- *. lia. }
  lia.
Qed.

Lemma outgoingItems_bound (so : SalesOrder.t Z)
    (items : list (OrderLineItem.t Z)) :
  forall acc,
    Inventory.total acc
    <= Inventory.total
         (List.fold_left (Inventory.outgoingItem today st commodityId byDate so)
            items acc)
    <= Inventory.total acc
       + Rules.magnitudeOf
           (Rules.lineQuantities OrderLineItem.shippedQuantity items).
Proof.
  induction items as [|item items IH]; intros acc;
    cbn [List.fold_left Rules.lineQuantities List.flat_map]; [cbn; lia|].
  fold (Rules.lineQuantities OrderLineItem.shippedQuantity items).
  specialize (IH (Inventory.outgoingItem today st commodityId byDate so acc item)).
  rewrite magnitudeOf_app.
  pose proof (magnitudeOf_nonneg
                (Rules.lineQuantities OrderLineItem.shippedQuantity items)) as Hn.
  assert (Hstep :
            Inventory.total acc
            <= Inventory.total
                 (Inventory.outgoingItem today st commodityId byDate so acc item)
            <= Inventory.total acc
               + Rules.magnitudeOf
                   [OrderLineItem.quantity item;
                    n_or_zero (OrderLineItem.shippedQuantity item)]).
  { unfold Inventory.outgoingItem, Rules.magnitudeOf. cbn [List.fold_right].
    destruct (negb _); [lia|].
    destruct (n_le _ n_zero) eqn:Hle; [lia|].
    destruct (Inventory.afterDate _ _); [lia|].
    cbn [n_le n_zero Number_Z] in Hle. apply Z.leb_gt in Hle.
    cbn [Inventory.total n_add n_sub Number_Z] in Hle |- *. lia. }
  lia.
Qed.

Lemma calculateIncoming_bound :
  0 <= Inventory.total
         (Inventory.calculateIncoming today st commodityId locationId byDate)
    <= Rules.magnitudeOf
         (List.flat_map
            (fun po =>
               Rules.lineQuantities OrderLineItem.receivedQuantity
                 (PurchaseOrder.lineItems po))
            (Inventory.purchaseOrders st)).
Proof.
  unfold Inventory.calculateIncoming, Collection.query.
  set (f := fun po : PurchaseOrder.t Z =>
              Rules.lineQuantities OrderLineItem.receivedQuantity
                (PurchaseOrder.lineItems po)).
  pose proof (magnitudeOf_flat_map_filter f
                (fun po => status_is_open (PurchaseOrder.status po))
                (Inventory.purchaseOrders st)) as Hsub.
  set (pos := List.filter _ (Inventory.purchaseOrders st)) in *.
  assert (Hgen : forall acc,
             Inventory.total acc
             <= Inventory.total
                  (List.fold_left
                     (fun acc po =>
                        if Inventory.filteredOut locationId
                             (PurchaseOrder.facilityId po)
                        then acc
                        else
                          List.fold_left
                            (Inventory.incomingItem today st commodityId byDate po)
                            (PurchaseOrder.lineItems po) acc)
                     pos acc)
             <= Inventory.total acc + Rules.magnitudeOf (List.flat_map f pos)).
  { clear Hsub. induction pos as [|po pos IH]; intros acc;
      cbn [List.fold_left List.flat_map]; [cbn; lia|].
    rewrite magnitudeOf_app.
    pose proof (magnitudeOf_nonneg (f po)) as Hn.
    match goal with
    | |- context [List.fold_left _ pos ?a] => specialize (IH a)
    end.
    destruct (Inventory.filteredOut _ _); [lia|].
    pose proof (incomingItems_bound po (PurchaseOrder.lineItems po) acc) as Hi.
    unfold f at 1. lia. }
  specialize (Hgen (Inventory.mkTotals n_zero [])).
  cbn [Inventory.total n_zero Number_Z] in Hgen |- *. lia.
Qed.

Lemma calculateOutgoing_bound :
  0 <= Inventory.total
         (Inventory.calculateOutgoing today st commodityId locationId byDate)
    <= Rules.magnitudeOf
         (List.flat_map
            (fun so =>
               Rules.lineQuantities OrderLineItem.shippedQuantity
                 (SalesOrder.lineItems so))
            (Inventory.salesOrders st)).
Proof.
  unfold Inventory.calculateOutgoing, Collection.query.
  set (f := fun so : SalesOrder.t Z =>
              Rules.lineQuantities OrderLineItem.shippedQuantity
                (SalesOrder.lineItems so)).
  pose proof (magnitudeOf_flat_map_filter f
                (fun so => status_is_open (SalesOrder.status so))
                (Inventory.salesOrders st)) as Hsub.
  set (sos := List.filter _ (Inventory.salesOrders st)) in *.
  assert (Hgen : forall acc,
             Inventory.total acc
             <= Inventory.total
                  (List.fold_left
                     (fun acc so =>
                        if Inventory.filteredOut locationId
                             (SalesOrder.facilityId so)
                        then acc
                        else
                          List.fold_left
                            (Inventory.outgoingItem today st commodityId byDate so)
                            (SalesOrder.lineItems so) acc)
                     sos acc)
             <= Inventory.total acc + Rules.magnitudeOf (List.flat_map f sos)).
  { clear Hsub. induction sos as [|so sos IH]; intros acc;
      cbn [List.fold_left List.flat_map]; [cbn; lia|].
    rewrite magnitudeOf_app.
    pose proof (magnitudeOf_nonneg (f so)) as Hn.
    match goal with
    | |- context [List.fold_left _ sos ?a] => specialize (IH a)
    end.
    destruct (Inventory.filteredOut _ _); [lia|].
    pose proof (outgoingItems_bound so (SalesOrder.lineItems so) acc) as Hi.
    unfold f at 1. lia. }
  specialize (Hgen (Inventory.mkTotals n_zero [])).
  cbn [Inventory.total n_zero Number_Z] in Hgen |- *. lia.
Qed.
End Bounds.

(** The movements explain the position: for a stored commodity,
    [getPosition] returns a net position that is the inventory plus the
    sum of the signed quantities of the movements [getMovements] returns
    without dates; its incoming total is the sum of the positive and its
    outgoing total the magnitude of the sum of the negative ones.  Every
    movement is a pending movement of the commodity, an incoming one of a
    purchase order with a positive quantity or an outgoing one of a sales
    order with a negative quantity.  The quantities of the store are taken
    to be integers whose magnitudes add up to at most 2^53, where no sum or
    difference the service forms is rounded; the inventory, the two totals
    and the net position are then within that bound as well. *)
Theorem getMovements_explain_the_position
    (today : string) (st : Inventory.Store (N := Z)) (commodityId : string)
    (locationId : option string) (commodity : Commodity.t) :
  Collection.getById (Inventory.commodities st) commodityId = Some commodity ->
  Rules.quantitiesExact st ->
  let ms := Inventory.getMovements today st commodityId locationId None None in
  exists p,
    Inventory.getPosition today st commodityId locationId = Some p
    /\ Position.netPosition p = Position.currentInventory p + Notions.sumOf ms
    /\ Position.incoming p
       = Notions.sumOf
           (List.filter (fun m => 0 <? InventoryMovement.quantity m) ms)
    /\ Position.outgoing p
       = - Notions.sumOf
             (List.filter (fun m => InventoryMovement.quantity m <? 0) ms)
    /\ List.Forall (Rules.pendingMovement commodityId) ms
    /\ Z.abs (Position.currentInventory p) <= 2 ^ 53
    /\ 0 <= Position.incoming p <= 2 ^ 53
    /\ 0 <= Position.outgoing p <= 2 ^ 53
    /\ Z.abs (Position.netPosition p) <= 2 ^ 53.
Proof.
  intros Hc Hexact. cbv zeta. unfold Inventory.getPosition. rewrite Hc.
  eexists. split; [reflexivity|].
  cbn [Position.netPosition Position.currentInventory Position.incoming
       Position.outgoing n_sub n_add Number_Z].
  pose proof (getCurrentInventory_bound st commodityId locationId) as Binv.
  pose proof (calculateIncoming_bound today st commodityId locationId None)
    as Binc.
  pose proof (calculateOutgoing_bound today st commodityId locationId None)
    as Bout.
  unfold Rules.quantitiesExact, Rules.quantitiesOf in Hexact.
  rewrite !magnitudeOf_app in Hexact.
  rewrite (getMovements_filter today st commodityId locationId None None).
  set (inc := Inventory.movements
                (Inventory.calculateIncoming today st commodityId locationId None)).
  set (out := Inventory.movements
                (Inventory.calculateOutgoing today st commodityId locationId None)).
  assert (Hall : List.filter (Rules.within None None) (inc ++ out) = inc ++ out)
    by (apply filter_all; reflexivity).
  rewrite Hall.
  pose proof (calculateIncoming_movements today st commodityId locationId None)
    as Hinc.
  pose proof (calculateOutgoing_movements today st commodityId locationId None)
    as Hout.
  fold inc in Hinc. fold out in Hout.
  rewrite List.Forall_forall in Hinc, Hout.
  split; [|split; [|split; [|split; [|split; [|split; [|split]]]]]];
    try lia.
  - rewrite (calculateIncoming_total today st commodityId locationId None).
    rewrite (calculateOutgoing_total today st commodityId locationId None).
    fold inc out.
    rewrite (sumOf_perm _ _ (sort_perm _ _)), sumOf_append. lia.
  - rewrite (calculateIncoming_total today st commodityId locationId None).
    fold inc.
    rewrite (sumOf_perm _ _ (Permutation_filter_ _ _ _ (sort_perm _ _))).
    rewrite List.filter_app, sumOf_append.
    rewrite (filter_all _ inc), (filter_none _ out).
    + cbn. lia.
    + intros m Hm. apply Z.ltb_ge. specialize (Hout m Hm). lia.
    + intros m Hm. apply Z.ltb_lt. exact (proj2 (Hinc m Hm)).
  - rewrite (calculateOutgoing_total today st commodityId locationId None).
    fold out.
    rewrite (sumOf_perm _ _ (Permutation_filter_ _ _ _ (sort_perm _ _))).
    rewrite List.filter_app, sumOf_append.
    rewrite (filter_none _ inc), (filter_all _ out).
    + cbn. lia.
    + intros m Hm. apply Z.ltb_lt. exact (proj2 (Hout m Hm)).
    + intros m Hm. apply Z.ltb_ge. specialize (Hinc m Hm). lia.
  - apply List.Forall_forall. intros m Hm. apply sort_In, List.in_app_or in Hm.
    destruct Hm as [Hm|Hm]; [exact (proj1 (Hinc m Hm)) | exact (proj1 (Hout m Hm))].
Qed.

Lemma getMovements_explain_the_position_witness :
  Collection.getById (Inventory.commodities Examples.yard) "HMS1"
  = Some Examples.hms1
  /\ Rules.magnitudeOf (Rules.quantitiesOf Examples.yard) = 1900
  /\ Notions.sumOf (Inventory.getMovements "2024-03-09" Examples.yard "HMS1" None
                      None None) = 300
  /\ exists p,
      Inventory.getPosition "2024-03-09" Examples.yard "HMS1" None = Some p
      /\ Position.netPosition p = 1300
      /\ Position.netPosition p
         = Position.currentInventory p
           + Notions.sumOf
               (Inventory.getMovements "2024-03-09" Examples.yard "HMS1" None
                  None None).
Proof.
  assert (Hexact : Rules.quantitiesExact Examples.yard)
    by (vm_compute; discriminate).
  split; [reflexivity|]. split; [reflexivity|]. split; [vm_compute; reflexivity|].
  destruct (getMovements_explain_the_position "2024-03-09" Examples.yard "HMS1"
              None Examples.hms1 eq_refl Hexact) as (p & Hp & Hnet & _).
  exists p. split; [exact Hp|]. split; [|exact Hnet].
  vm_compute in Hp. injection Hp as <-. reflexivity.
Defined.

(** ** Pending totals by date *)

Lemma sumOf_filter_mono (p q : InventoryMovement.t Z -> bool)
    (l : list (InventoryMovement.t Z)) :
  (forall m, In m l -> 0 <= InventoryMovement.quantity m) ->
  (forall m, In m l -> p m = true -> q m = true) ->
  0 <= Notions.sumOf (List.filter p l) <= Notions.sumOf (List.filter q l).
Proof.
  unfold Notions.sumOf.
  induction l as [|x l IH]; intros Hpos Hpq; cbn [List.filter List.fold_right];
    [lia|].
  assert (IH' := IH (fun m Hm => Hpos m (or_intror Hm))
                    (fun m Hm => Hpq m (or_intror Hm))).
  assert (Hx := Hpos x (or_introl eq_refl)).
  assert (Hpqx := Hpq x (or_introl eq_refl)).
  destruct (p x); [rewrite (Hpqx eq_refl)|destruct (q x)];
    cbn [List.fold_right]; lia.
Qed.

Lemma sumOf_filter_mono_neg (p q : InventoryMovement.t Z -> bool)
    (l : list (InventoryMovement.t Z)) :
  (forall m, In m l -> InventoryMovement.quantity m <= 0) ->
  (forall m, In m l -> p m = true -> q m = true) ->
  0 <= - Notions.sumOf (List.filter p l) <= - Notions.sumOf (List.filter q l).
Proof.
  unfold Notions.sumOf.
  induction l as [|x l IH]; intros Hneg Hpq; cbn [List.filter List.fold_right];
    [lia|].
  assert (IH' := IH (fun m Hm => Hneg m (or_intror Hm))
                    (fun m Hm => Hpq m (or_intror Hm))).
  assert (Hx := Hneg x (or_introl eq_refl)).
  assert (Hpqx := Hpq x (or_introl eq_refl)).
  destruct (p x); [rewrite (Hpqx eq_refl)|destruct (q x)];
    cbn [List.fold_right]; lia.
Qed.

Lemma dueBy_later (b1 b2 : string) (m : InventoryMovement.t Z) :
  b1 <> ""%string -> String.leb b1 b2 = true ->
  Notions.dueBy (Some b1) m = true -> Notions.dueBy (Some b2) m = true.
Proof.
  intros Hne Hle. unfold Notions.dueBy.
  apply String.eqb_neq in Hne. rewrite Hne. cbn [orb]. intros Hm.
  apply orb_true_iff. right.
  apply str_le_leb. apply str_le_leb in Hm, Hle.
  exact (str_le_trans _ _ _ Hm Hle).
Qed.

(** The pending totals grow with the date: the incoming and the
    outgoing total that [checkAvailability] counts up to a date are not
    negative, do not shrink when the date moves on, and stay within the
    totals counted without a date, which are those of the position.
    Quantities are integers. *)
Theorem pending_totals_grow_with_the_date
    (today : string) (st : Inventory.Store (N := Z)) (commodityId : string)
    (requiredQuantity : Z) (locationId : option string) (b1 b2 : string) :
  b1 <> ""%string ->
  String.leb b1 b2 = true ->
  let check byDate :=
    Inventory.checkAvailability today st commodityId requiredQuantity locationId
      byDate in
  0 <= AvailabilityCheck.incoming (check (Some b1))
  /\ AvailabilityCheck.incoming (check (Some b1))
     <= AvailabilityCheck.incoming (check (Some b2))
  /\ AvailabilityCheck.incoming (check (Some b2))
     <= AvailabilityCheck.incoming (check None)
  /\ 0 <= AvailabilityCheck.outgoing (check (Some b1))
  /\ AvailabilityCheck.outgoing (check (Some b1))
     <= AvailabilityCheck.outgoing (check (Some b2))
  /\ AvailabilityCheck.outgoing (check (Some b2))
     <= AvailabilityCheck.outgoing (check None).
Proof.
  intros Hne Hle. cbv zeta. unfold Inventory.checkAvailability.
  cbn [AvailabilityCheck.incoming AvailabilityCheck.outgoing].
  rewrite !calculateIncoming_total, !calculateOutgoing_total.
  rewrite (calculateIncoming_byDate today st commodityId locationId (Some b1)).
  rewrite (calculateIncoming_byDate today st commodityId locationId (Some b2)).
  rewrite (calculateOutgoing_byDate today st commodityId locationId (Some b1)).
  rewrite (calculateOutgoing_byDate today st commodityId locationId (Some b2)).
  pose proof (calculateIncoming_movements today st commodityId locationId None)
    as Hinc.
  pose proof (calculateOutgoing_movements today st commodityId locationId None)
    as Hout.
  rewrite List.Forall_forall in Hinc, Hout.
  set (inc := Inventory.movements
                (Inventory.calculateIncoming today st commodityId locationId None))
    in *.
  set (out := Inventory.movements
                (Inventory.calculateOutgoing today st commodityId locationId None))
    in *.
  assert (Hip : forall m, In m inc -> 0 <= InventoryMovement.quantity m)
    by (intros m Hm; specialize (Hinc m Hm); lia).
  assert (Hop : forall m, In m out -> InventoryMovement.quantity m <= 0)
    by (intros m Hm; specialize (Hout m Hm); lia).
  pose proof (sumOf_filter_mono (Notions.dueBy (Some b1)) (Notions.dueBy (Some b2))
                inc Hip (fun m _ => dueBy_later b1 b2 m Hne Hle)) as H1.
  pose proof (sumOf_filter_mono (Notions.dueBy (Some b2)) (fun _ => true)
                inc Hip (fun m _ _ => eq_refl)) as H2.
  pose proof (sumOf_filter_mono_neg (Notions.dueBy (Some b1))
                (Notions.dueBy (Some b2)) out Hop
                (fun m _ => dueBy_later b1 b2 m Hne Hle)) as H3.
  pose proof (sumOf_filter_mono_neg (Notions.dueBy (Some b2)) (fun _ => true)
                out Hop (fun m _ _ => eq_refl)) as H4.
  rewrite (filter_all (fun _ => true) inc) in H2 by reflexivity.
  rewrite (filter_all (fun _ => true) out) in H4 by reflexivity.
  lia.
Qed.

Lemma pending_totals_grow_with_the_date_witness :
  "2024-03-09"%string <> ""%string
  /\ String.leb "2024-03-09" "2024-03-10" = true
  /\ AvailabilityCheck.incoming
       (Inventory.checkAvailability "2024-03-09" Examples.yard "HMS1" 0 None
          (Some "2024-03-09"%string)) = 0
  /\ AvailabilityCheck.incoming
       (Inventory.checkAvailability "2024-03-09" Examples.yard "HMS1" 0 None
          (Some "2024-03-10"%string)) = 500
  /\ AvailabilityCheck.incoming
       (Inventory.checkAvailability "2024-03-09" Examples.yard "HMS1" 0 None
          (Some "2024-03-09"%string))
     <= AvailabilityCheck.incoming
          (Inventory.checkAvailability "2024-03-09" Examples.yard "HMS1" 0 None
             (Some "2024-03-10"%string)).
Proof.
  assert (Hne : "2024-03-09"%string <> ""%string) by discriminate.
  assert (Hle : String.leb "2024-03-09" "2024-03-10" = true) by reflexivity.
  split; [exact Hne|]. split; [exact Hle|].
  split; [vm_compute; reflexivity|]. split; [vm_compute; reflexivity|].
  exact (proj1 (proj2 (pending_totals_grow_with_the_date "2024-03-09"
                         Examples.yard "HMS1" 0 None "2024-03-09" "2024-03-10"
                         Hne Hle))).
Defined.

(** ** Price lists that are deleted or switched off *)

(** A price that [findPriceInGroup] returns comes from a stored price list
    that is in force. *)
Lemma findPriceInGroup_source (st : Pricing.Store) (groupId : string)
    (commodity : Commodity.t) (date : string) (cp : CommodityPrice.t) :
  Pricing.findPriceInGroup st groupId commodity date = Some cp ->
  exists pl,
    In pl (Pricing.priceLists st)
    /\ Notions.inForce groupId date pl
    /\ CommodityPrice.priceListId cp = PriceList.id pl.
Proof.
  unfold Pricing.findPriceInGroup.
  destruct (Collection.getById (Pricing.pricingGroups st) groupId) as [g|];
    [|discriminate].
  intros Hf. apply firstListWith_Some in Hf.
  destruct Hf as (before & pl & after & item & Hl & _ & _ & _ & _ & Hid & _).
  assert (Hin : In pl (JS.sort Pricing.byEffectiveDateDesc
                         (Pricing.getActivePriceListsForDate st groupId date))).
  { rewrite Hl. apply List.in_or_app. right. now left. }
  apply sort_In, inForce_filter in Hin. destruct Hin as [Hin Hforce].
  exists pl. split; [exact Hin | split; [exact Hforce | exact Hid]].
Qed.

Lemma getPrice_source (today : string) (st : Pricing.Store)
    (accountId commodityId : string) (d : PricingDirection)
    (date : option string) (cp : CommodityPrice.t) :
  Pricing.getPrice today st accountId commodityId d date = Some cp ->
  exists groupId commodity,
    Pricing.findPriceInGroup st groupId commodity (default today date) = Some cp.
Proof.
  unfold Pricing.getPrice.
  destruct (Collection.getById (Pricing.accounts st) accountId) as [account|];
    [|discriminate].
  destruct (Collection.getById (Pricing.commodities st) commodityId)
    as [commodity|]; [|discriminate].
  assert (Hd : match Pricing.getDefaultPricingGroup st d with
               | Some defaultGroup =>
                   Pricing.findPriceInGroup st (PricingGroup.id defaultGroup)
                     commodity (default today date)
               | None => None
               end = Some cp ->
               exists groupId commodity,
                 Pricing.findPriceInGroup st groupId commodity
                   (default today date) = Some cp).
  { destruct (Pricing.getDefaultPricingGroup st d); [eauto | discriminate]. }
  destruct (match d with
            | buy => Account.buyPricingGroupId account
            | sell => Account.sellPricingGroupId account
            end) as [g|]; [|exact Hd].
  destruct (JS.truthy g); [|exact Hd].
  destruct (Pricing.findPriceInGroup st g commodity (default today date))
    as [q|] eqn:Eq; [|exact Hd].
  intros [= <-]. eauto.
Qed.

Lemma retired_findPriceInGroup (st st' : Pricing.Store) (id : string)
    (groupId : string) (commodity : Commodity.t) (date : string)
    (cp : CommodityPrice.t) :
  st' = fst (PriceBook.deletePriceList st id)
  \/ (exists now data,
         PriceListPartial.isActive data = Some false
         /\ st' = fst (PriceBook.updatePriceList now st id data)) ->
  Pricing.findPriceInGroup st' groupId commodity date = Some cp ->
  CommodityPrice.priceListId cp <> id.
Proof.
  intros Hst Hf. apply findPriceInGroup_source in Hf.
  destruct Hf as (pl & Hin & (_ & Hact & _) & ->).
  destruct Hst as [->|(now & data & Hoff & ->)].
  - rewrite deletePriceList_lists in Hin. apply List.filter_In in Hin.
    destruct Hin as [_ Hne]. now apply negb_true_iff, String.eqb_neq in Hne.
  - unfold PriceBook.updatePriceList in Hin.
    destruct (Collection.getById (Pricing.priceLists st) id)
      as [existing|] eqn:E.
    + unfold Collection.update in Hin. rewrite E in Hin.
      cbn [fst PriceBook.with_priceLists Pricing.priceLists] in Hin.
      apply List.in_map_iff in Hin. destruct Hin as (y & <- & Hy).
      unfold Collection.replace in *. change (key y) with (PriceList.id y) in *.
      destruct (String.eqb_spec (PriceList.id y) id) as [Hk|Hk]; [|exact Hk].
      exfalso. cbn [PriceList.isActive PriceListPartial.spread] in Hact.
      rewrite Hoff in Hact. discriminate.
    + cbn [fst] in Hin. exact (getById_None _ _ E pl Hin).
Qed.

(** A price list that was deleted, or switched off by an update that
    sets [isActive] to false, yields no price any more: no price that
    [findPriceInGroup] or [getPrice] returns afterwards comes from it. *)
Theorem retired_price_list_yields_no_price (st : Pricing.Store) (id : string) :
  let deleted := fst (PriceBook.deletePriceList st id) in
  (forall groupId commodity date cp,
      Pricing.findPriceInGroup deleted groupId commodity date = Some cp ->
      CommodityPrice.priceListId cp <> id)
  /\ (forall today accountId commodityId d date cp,
         Pricing.getPrice today deleted accountId commodityId d date = Some cp ->
         CommodityPrice.priceListId cp <> id)
  /\ (forall now data,
         PriceListPartial.isActive data = Some false ->
         let off := fst (PriceBook.updatePriceList now st id data) in
         (forall groupId commodity date cp,
             Pricing.findPriceInGroup off groupId commodity date = Some cp ->
             CommodityPrice.priceListId cp <> id)
         /\ (forall today accountId commodityId d date cp,
                Pricing.getPrice today off accountId commodityId d date = Some cp ->
                CommodityPrice.priceListId cp <> id)).
Proof.
  cbv zeta. split; [|split].
  - intros groupId commodity date cp.
    apply (retired_findPriceInGroup st _ id). now left.
  - intros today accountId commodityId d date cp Hp.
    apply getPrice_source in Hp. destruct Hp as (g & c & Hp).
    refine (retired_findPriceInGroup st _ id g c _ cp _ Hp). now left.
  - intros now data Hoff.
    assert (Hst : fst (PriceBook.updatePriceList now st id data)
                  = fst (PriceBook.deletePriceList st id)
                  \/ (exists now' data',
                         PriceListPartial.isActive data' = Some false
                         /\ fst (PriceBook.updatePriceList now st id data)
                            = fst (PriceBook.updatePriceList now' st id data')))
      by (right; exists now, data; now split).
    split.
    + intros groupId commodity date cp.
      exact (retired_findPriceInGroup st _ id groupId commodity date cp Hst).
    + intros today accountId commodityId d date cp Hp.
      apply getPrice_source in Hp. destruct Hp as (g & c & Hp).
      exact (retired_findPriceInGroup st _ id g c _ cp Hst Hp).
Qed.
